(* ===== verification/_CoqProject ===== *)
-Q . S2P
Prelude.v
Mem.v
DList.v
Layout.v
Errno.v
Str.v
Pages.v
PageAlloc.v
Kalloc.v
KallocSafe.v
Vm.v
VmTree.v
VmSpec.v
InitElf.v
Elf.v
ElfSpec.v
Sbi.v
Timer.v
Proc.v
ProcSpec.v
Asm.v
ProcStart.v
Kern.v
Sched.v
SchedRep.v
SchedSpec.v
SchedRun.v
SemSpec.v
SchedDemo.v
Intr.v
Tty.v
TtyRing.v
TtySpec.v
TtyDemo.v
Log.v
LogSpec.v
LogDemo.v
Syscall.v
Trap.v
TrapSpec.v
TrapDemo.v
SyscallSpec.v
SyscallDemo.v
WaitSpec.v
WaitDemo.v
Family.v
Tree.v
TreeDemo.v
Boot.v
