(* ===== verification/Prelude.v ===== *)
(** * A verification library for the Karg kernel

    Karg is a small monolithic kernel for 64-bit RISC-V, about 2,500 lines of C
    and assembler and one embedded program image.  This library is a model of
    its source, function by function, with theorems about it.

    ** The program and the files

    The kernel runs on one hart.  A trap enters [trampoline], which saves the
    registers on the kernel stack of the running process and calls
    [trap_handler]; that serves timer and device interrupts and system calls,
    and [proc_entry] goes back.  Kernel code runs with interrupts off, so it is
    sequential; a process gives up the processor only inside [proc_ctx_sw].

    Memory and data:
    - [Mem]: byte memory, little-endian loads and stores, [src/utils/mem.c];
    - [DList], [Family]: [include/list.h], the intrusive lists that everything
      else is made of, and families of lists with disjoint elements;
    - [Layout]: [include/config.h] and the addresses of the static objects;
    - [Errno], [Str]: [src/errno.c], [src/utils/str.c];
    - [Pages], [PageAlloc]: what a page allocator promises (a type class), and
      [src/mm/page_alloc.c], which keeps the promise;
    - [Kalloc], [KallocSafe]: [src/mm/kalloc.c] over any page allocator;
    - [Vm], [VmTree], [VmSpec]: [src/arch/riscv/vm.c] against the hardware's
      Sv39 walk;
    - [InitElf], [Elf], [ElfSpec]: the image in [src/init.c] and its loader,
      [src/elf.c].

    Processes and time:
    - [Sbi], [Timer]: [src/arch/riscv/{sbi,timer,pm}.c] and [src/timer.c];
    - [Proc], [ProcSpec]: [src/proc.c] and [src/arch/riscv/proc.c];
    - [Asm], [ProcStart]: the instructions of [proc.S] and [trap.S], and how a
      new process starts;
    - [Kern]: the state of the kernel and the monad of kernel code;
    - [Sched], [SchedRep], [SchedSpec], [SchedRun], [SemSpec]: [src/sched.c] and
      [src/sync/sem.c], their objects in memory, and the abstract scheduler that
      they implement.

    Devices, system calls and traps:
    - [Intr]: [src/intr.c], [src/drivers/plic.c], [src/platforms/virt.c];
    - [Tty], [TtyRing], [TtySpec]: [src/dev.c] and the UART, line discipline and
      terminal drivers;
    - [Log], [LogSpec]: [src/module/log.c] and its macros;
    - [Syscall], [SyscallSpec], [WaitSpec], [Family], [Tree]: [src/syscalls/], with
      the process tree;
    - [Trap], [TrapSpec]: [src/arch/riscv/trap.c], timer interrupts and sleep;
    - [Boot]: [src/module/init.c], the [init] of [src/dev.c], [src/kmain.c] and
      the loop of [entry.S].

    The files [SchedDemo], [TtyDemo], [LogDemo], [TrapDemo], [SyscallDemo], [WaitDemo],
    [TreeDemo], and the modules [Demo] of the others, are concrete states on
    which the theorems are applied.

    ** How the code is modelled

    A pointer is its address and an object is the bytes at that address, at the
    offsets of the RISC-V ABI: [proc_state m p] is [p->state].  Aliasing, dangling
    pointers and intrusive nodes are therefore those of the C program.  Integers
    are [Z]; every computation that can leave the range of its type is wrapped
    with [u16], [u32], [u64] or [i32] below.  Static variables that no pointer
    refers to are fields of a record ([kst], [drivers], [ptable], [log_state]).

    The components up to [Proc] are functions on memory, with [option] for
    loops that do not end.  From [Kern] on, kernel code is a computation in the
    monad [M]: it returns ([Ret]), switches to another process with the rest of
    the computation as a continuation ([Switch]), or stops ([Stop]): [Hang] is
    [pm_hang], [Stuck] is what C leaves undefined (an index out of range, a null
    object, a call through a pointer to no function) or a loop without end.

    A C loop without a syntactic bound is [while], which iterates at most [2 ^ 64]
    times (by doubling, so it still computes); the theorems prove that the loops
    end.  [dev_write] is nested at most twice, because the sinks of a terminal
    are UARTs.  [sem_deinit] iterates at most [-val + 1] times.

    Parameters, with the type class that states what is assumed of them:
    [Layout] and [LayoutOk] (addresses of static objects, disjoint and inside the
    image), [Firmware] and [FirmwareOk] (the SBI: setting the timer succeeds and
    is remembered), [Machine] and [UartOk] (device registers and the clock: a
    byte stored in the transmit register is sent, polling ends), [Code]
    (addresses of functions and read-only objects).  Each is instantiated in the
    demonstrations.

    ** What is proved

    - Lists: every sequence of operations of [list.h] from [list_init_head] on
      implements sequences ([DList.list_ops_refine]).  Strings: [str_cmp] is the
      dictionary order ([str_utils_correct]).
    - Memory management: pages are handed out once ([page_alloc_run]); [kmalloc]
      and [kfree] refine first fit with splitting and merging over a list of
      blocks, and in every run live blocks are disjoint and keep their contents
      ([kmalloc_contract], [kfree_contract], [kheap_run_safe]).
    - Address spaces: [vm_map_page] changes exactly one translation of the
      hardware's walk or fails cleanly; [vm_virt_to_phys] returns what the walk
      gives, and fails only where the walk faults or above [2 ^ 39];
      the loader builds exactly the address space that the image describes, and
      the shipped image loads.
    - Processes: identifiers, descriptors, the frame with which a process starts,
      context switches and traps that keep every register.
    - Scheduling: every operation on states and semaphores refines a step of an
      abstract scheduler ([sched_op_refines]); in every run one process runs, the
      ready queue is exact and a semaphore of value [-n] has [n] waiters; timer
      interrupts and system calls included, no sleeping process is forgotten
      ([traps_sound], [sleep_wakes]); the abstract scheduler is a stack, not the
      round robin of the README.  Timers fire by deadline and, for the same
      deadline, in the order of arrival ([timer_run_ordered]).
    - The process tree: [exit] and its effect on children, zombies and a waiting
      parent ([exit_reaps]); [wait], which gives everything a zombie holds back to
      the allocators ([wait_collects]).
    - Terminals: input is edited as a line editor would and a typed line arrives
      at the reader ([tty_receives], [tty_line_roundtrip], [tty_read_line]); a
      [write] sends the physical bytes behind the buffer, which are those the
      program sees as long as the buffer lies in one page ([write_sends]).
    - The log: formatting against a message given as a list of pieces, the ring
      buffer, the copy to the terminal.
    - Errors: rejected images, exhausted memory, bad descriptors, unknown system
      calls.

    ** What is not modelled

    - What the compiler does with undefined behaviour other than the cases that
      are [Stuck]; null and dangling pointers elsewhere are plain addresses.
    - [pte_t.ppn << 12] is taken at 64 bits; the theorems on [vm_virt_to_phys]
      restrict themselves to addresses below [2 ^ 44].  The hardware walk is that
      of the lower half of the address space, below [2 ^ 39]: it has no check for
      canonical addresses, and it does not set or check the accessed and dirty
      bits.
    - The message of the panic in [timer_set]: the failure is [Hang].
    - Changes that devices make on their own between register accesses, beyond
      what [Machine] says; more than one hart; caches and TLB ([sfence.vma]).
    - Of [entry.S], the setting of the stack pointer and the jump to [kmain].
    - [proc] is modelled but has no theorem of its own yet, and neither have the
      phases of [Boot]. *)

From coqutil Require Export Byte Word.LittleEndianList.
From stdpp Require Export base numbers gmap list list_numbers.
From Stdlib Require Export Lia Permutation.

#[global] Open Scope Z_scope.

(** ** Lists *)

Lemma perm_swap_middle {A} (x y : A) l1 l2 :
  x :: l1 ++ y :: l2 ≡ₚ y :: x :: l1 ++ l2.
Proof. rewrite <-Permutation_middle. apply Permutation_swap. Qed.

(** ** Machine integers

    A C integer is a [Z]; a value that the source computes at a given width is
    wrapped by the function of that width. *)

Definition u8 (x : Z) : Z := x `mod` 2 ^ 8.
Definition u16 (x : Z) : Z := x `mod` 2 ^ 16.
Definition u32 (x : Z) : Z := x `mod` 2 ^ 32.
Definition u64 (x : Z) : Z := x `mod` 2 ^ 64.
Definition i32 (x : Z) : Z := (x + 2 ^ 31) `mod` 2 ^ 32 - 2 ^ 31.
Definition i64 (x : Z) : Z := (x + 2 ^ 63) `mod` 2 ^ 64 - 2 ^ 63.

Declare Scope karg_scope.
Delimit Scope karg_scope with karg.
#[global] Open Scope karg_scope.

(** [flags &? bit] is the C condition [flags & bit]. *)
Notation "x &? y" := (negb (Z.land x y =? 0)) (at level 40, no associativity)
  : karg_scope.

(** The null pointer. *)
Definition nullptr : Z := 0.

(** ** Ranges of addresses *)

(** [disj a n b k]: the [n] bytes at [a] and the [k] bytes at [b] share none. *)
Definition disj (a n b k : Z) : Prop := a + n <= b \/ b + k <= a.

(** [inrng a n x]: [x] is one of the [n] bytes at [a]. *)
Definition inrng (a n x : Z) : Prop := a <= x < a + n.

#[export] Instance disj_dec a n b k : Decision (disj a n b k).
Proof. unfold disj. apply _. Defined.

#[export] Instance inrng_dec a n x : Decision (inrng a n x).
Proof. unfold inrng. apply _. Defined.

(** A list of pairwise disjoint ranges (address, length). *)
Fixpoint seps (rs : list (Z * Z)) : Prop :=
  match rs with
  | [] => True
  | r :: rs => Forall (fun s => disj r.1 r.2 s.1 s.2) rs /\ seps rs
  end.

Lemma disj_sym a n b k : disj a n b k -> disj b k a n.
Proof. unfold disj. lia. Qed.

Lemma disj_pointwise a n b k :
  0 < n -> 0 < k -> (forall x, inrng a n x -> ~ inrng b k x) -> disj a n b k.
Proof.
  intros Hn Hk H. destruct (decide (disj a n b k)) as [|Hd]; [done|].
  exfalso. apply (H (Z.max a b)); unfold inrng, disj in *; lia.
Qed.

Lemma seps_perm rs rs' : rs ≡ₚ rs' -> seps rs -> seps rs'.
Proof.
  induction 1 as [|r rs rs' HP IH|r s rs|]; simpl; auto.
  - intros [HF HS]. split; [by rewrite <-HP|auto].
  - intros [HF [HF' HS]]. inversion_clear HF as [|? ? Hd HF1].
    repeat split; auto. constructor; auto using disj_sym.
Qed.

#[global] Instance seps_Proper : Proper ((≡ₚ) ==> iff) seps.
Proof. intros ?? HP. split; apply seps_perm; [done|by symmetry]. Qed.

Lemma seps_app rs rs' :
  seps (rs ++ rs') <->
  seps rs /\ seps rs' /\
  (forall r s, r ∈ rs -> s ∈ rs' -> disj r.1 r.2 s.1 s.2).
Proof.
  induction rs as [|r rs IH]; simpl.
  - split; [|tauto]. intros H. repeat split; auto. intros r s Hr. inversion Hr.
  - rewrite IH, Forall_app, !Forall_forall.
    split.
    + intros ([HF1 HF2] & HS & HS' & HX). repeat split; auto.
      intros r' s [->|Hr]%elem_of_cons Hs; auto.
    + intros ([HF HS] & HS' & HX). repeat split; auto.
      * intros s Hs. apply HX; [left|done].
      * intros r' s Hr Hs. apply HX; [by right|done].
Qed.

Lemma seps_lookup rs i j r s :
  seps rs -> i <> j -> rs !! i = Some r -> rs !! j = Some s ->
  disj r.1 r.2 s.1 s.2.
Proof.
  revert i j. induction rs as [|t rs IH]; [done|].
  intros [|i] [|j] [HF HS] Hij Hr Hs; simplify_eq/=.
  - rewrite Forall_forall in HF. apply HF. by eapply list_elem_of_lookup_2.
  - rewrite Forall_forall in HF. apply disj_sym, HF.
    by eapply list_elem_of_lookup_2.
  - eapply (IH i j); eauto.
Qed.

Lemma seps_elem rs r s :
  seps rs -> r ∈ rs -> s ∈ rs -> r = s \/ disj r.1 r.2 s.1 s.2.
Proof.
  intros HS [i Hi]%list_elem_of_lookup [j Hj]%list_elem_of_lookup.
  destruct (decide (i = j)) as [->|Hij].
  - left. congruence.
  - right. by eapply seps_lookup.
Qed.

(** Shrinking ranges keeps them disjoint. *)
Definition subrng (r s : Z * Z) : Prop := s.1 <= r.1 /\ r.1 + r.2 <= s.1 + s.2.

Lemma seps_mono rs ss : Forall2 subrng rs ss -> seps ss -> seps rs.
Proof.
  induction 1 as [|r s rs ss Hrs HF IH]; simpl; auto.
  intros [Hs HS]. split; [|auto]. clear IH HS.
  induction HF as [|r' s' rs ss H' HF IH]; inversion_clear Hs; constructor; auto.
  unfold subrng, disj in *. lia.
Qed.

(** ** Loops

    A C loop whose number of iterations is not syntactically bounded is
    [while body s]: [body] maps the loop state to the next state ([inl]) or to
    the value the loop leaves with ([inr]).  It is run for at most [2 ^ 64]
    iterations, by doubling, so that it computes as fast as the loop itself;
    [None] stands for a loop that has not ended by then. *)

Fixpoint loop_pow {S R : Type} (n : nat) (body : S -> S + R) (s : S) : S + R :=
  match n with
  | O => body s
  | Datatypes.S n =>
      match loop_pow n body s with
      | inl s' => loop_pow n body s'
      | inr r => inr r
      end
  end.

Definition while {S R : Type} (body : S -> S + R) (s : S) : option R :=
  match loop_pow 64 body s with
  | inl _ => None
  | inr r => Some r
  end.

Section while_rule.
Context {S R : Type} (body : S -> S + R).
(** [I k s]: the invariant, with at most [k] more iterations to go. *)
Context (I : Z -> S -> Prop) (Q : R -> Prop).
Hypothesis step : forall k s, I k s ->
  match body s with
  | inl s' => exists k', 0 <= k' < k /\ I k' s'
  | inr r => Q r
  end.

Lemma loop_pow_rule n k s :
  I k s ->
  match loop_pow n body s with
  | inl s' => exists k', 0 <= k' /\ k' + 2 ^ Z.of_nat n <= k /\ I k' s'
  | inr r => Q r
  end.
Proof.
  revert k s. induction n as [|n IH]; intros k s HI; simpl loop_pow.
  - specialize (step k s HI). destruct (body s); [|done].
    destruct step as (k' & ? & ?). exists k'. simpl. split_and!; [lia..|done].
  - specialize (IH k s HI) as H1. destruct (loop_pow n body s) as [s'|]; [|done].
    destruct H1 as (k' & ? & ? & HI'). specialize (IH k' s' HI').
    destruct (loop_pow n body s') as [s''|]; [|done].
    destruct IH as (k'' & ? & ? & ?). exists k''.
    rewrite Nat2Z.inj_succ, Z.pow_succ_r by lia. split_and!; [lia..|done].
Qed.

(** Total correctness of [while]. *)
Lemma while_rule k s :
  I k s -> k < 2 ^ 64 -> exists r, while body s = Some r /\ Q r.
Proof.
  intros HI Hk. pose proof (loop_pow_rule 64 k s HI) as H. unfold while.
  destruct (loop_pow 64 body s) as [s'|r]; [|eauto].
  change (Z.of_nat 64) with 64 in H. destruct H as (k' & ? & ? & _). lia.
Qed.
End while_rule.

(** [for_range lo hi f s] is [for (i = lo; i < hi; i++) s = f(i, s)];
    [for_ret] is the same loop with a [return] in its body. *)

Definition for_range {S : Type} (lo hi : Z) (f : Z -> S -> S) (s : S) : S :=
  fold_left (fun s i => f i s) (seqZ lo (hi - lo)) s.

Lemma for_range_nil {S} lo hi (f : Z -> S -> S) s : hi <= lo -> for_range lo hi f s = s.
Proof. intros H. unfold for_range. by rewrite seqZ_nil by lia. Qed.

Lemma for_range_last {S} lo hi (f : Z -> S -> S) s :
  lo <= hi -> for_range lo (hi + 1) f s = f hi (for_range lo hi f s).
Proof.
  intros H. unfold for_range.
  replace (hi + 1 - lo) with ((hi - lo) + 1) by lia.
  rewrite seqZ_app, fold_left_app by lia. simpl. f_equal. lia.
Qed.

Fixpoint for_list {S R : Type} (ixs : list Z) (f : Z -> S -> S + R) (s : S) : S + R :=
  match ixs with
  | [] => inl s
  | i :: ixs =>
      match f i s with
      | inl s' => for_list ixs f s'
      | inr r => inr r
      end
  end.

Definition for_ret {S R : Type} (lo hi : Z) (f : Z -> S -> S + R) (s : S) : S + R :=
  for_list (seqZ lo (hi - lo)) f s.

(** A loop that searches: the state only changes when it leaves the loop. *)
Lemma for_list_find {S R} ixs (f : Z -> S -> S + R) (p : Z -> bool) (g : Z -> R) s :
  (forall i, i ∈ ixs -> f i s = if p i then inr (g i) else inl s) ->
  for_list ixs f s = match List.find p ixs with Some i => inr (g i) | None => inl s end.
Proof.
  induction ixs as [|i ixs IH]; intros H; simpl; [done|].
  rewrite (H i) by left. destruct (p i); [done|]. apply IH. intros j Hj. apply H. by right.
Qed.

(** What the search finds: the first index, or none. *)
Lemma find_seqZ p lo n :
  match List.find p (seqZ lo n) with
  | Some i => lo <= i < lo + n /\ p i = true /\ forall j, lo <= j < i -> p j = false
  | None => forall j, lo <= j < lo + n -> p j = false
  end.
Proof.
  destruct (Z.le_gt_cases n 0) as [Hn|Hn].
  { rewrite seqZ_nil by lia. simpl. intros j Hj. lia. }
  apply Z.lt_le_incl in Hn. revert lo. pattern n. apply Zlt_0_ind; [|done]. clear n Hn.
  intros n IH Hn lo. destruct (decide (n = 0)) as [->|Hne].
  { rewrite seqZ_nil by lia. simpl. intros j Hj. lia. }
  rewrite seqZ_cons by lia. simpl. destruct (p lo) eqn:E.
  - split_and!; [lia..|done|]. intros j Hj. lia.
  - specialize (IH (Z.pred n) ltac:(lia) (Z.succ lo)).
    destruct (List.find p (seqZ (Z.succ lo) (Z.pred n))) as [i|].
    + destruct IH as (Hi & Hp & Hj). split_and!; [lia..|done|]. intros j Hj'.
      destruct (decide (j = lo)) as [->|]; [done|]. apply Hj. lia.
    + intros j Hj. destruct (decide (j = lo)) as [->|]; [done|]. apply IH. lia.
Qed.

(** ** Tactics and hints *)

Create HintDb karg.
Create Rewrite HintDb karg.
#[export] Hint Resolve disj_sym : karg.
#[export] Hint Unfold disj inrng subrng : karg.

(** Turn the boolean tests of the code into propositions. *)
Ltac bool_to_prop :=
  repeat match goal with
  | H : (_ && _)%bool = true |- _ => apply andb_true_iff in H as [? ?]
  | H : (_ || _)%bool = false |- _ => apply orb_false_iff in H as [? ?]
  | H : negb _ = true |- _ => apply negb_true_iff in H
  | H : negb _ = false |- _ => apply negb_false_iff in H
  | H : (_ =? _) = true |- _ => apply Z.eqb_eq in H
  | H : (_ =? _) = false |- _ => apply Z.eqb_neq in H
  | H : (_ <? _) = true |- _ => apply Z.ltb_lt in H
  | H : (_ <? _) = false |- _ => apply Z.ltb_ge in H
  | H : (_ <=? _) = true |- _ => apply Z.leb_le in H
  | H : (_ <=? _) = false |- _ => apply Z.leb_gt in H
  end.

(** Case analysis on the first boolean test of the goal. *)
Ltac case_test :=
  match goal with
  | |- context [if ?b then _ else _] =>
      lazymatch b with
      | context [if _ then _ else _] => fail
      | _ => let E := fresh "E" in destruct b eqn:E; bool_to_prop
      end
  end.

(** Arithmetic on ranges. *)
Ltac rng := unfold disj, inrng, subrng in *; simpl in *; lia.

Lemma u64_small x : 0 <= x < 2 ^ 64 -> u64 x = x.
Proof. apply Z.mod_small. Qed.

Lemma u64_range x : 0 <= u64 x < 2 ^ 64.
Proof. apply Z.mod_pos_bound. lia. Qed.

#[export] Hint Resolve u64_range : karg.
