(* ===== verification/Mem.v ===== *)
(** * Physical memory and [src/utils/mem.c]

    Kernel code runs with address translation off ([trap.S] writes 0 to
    [satp]), so every C pointer is a physical address.  The memory is one flat
    byte array shared by all components: a finite map from addresses to bytes,
    0 where nothing was written.  Scalars are little endian. *)

From S2P Require Import Prelude.

Abbreviation mem := (gmap Z byte).

#[export] Instance byte_inhabited : Inhabited byte := populate Init.Byte.x00.
#[export] Instance byte_eq_dec : EqDecision byte := Strings.Byte.byte_eq_dec.

Fixpoint write_bytes (m : mem) (a : Z) (bs : list byte) : mem :=
  match bs with
  | [] => m
  | b :: bs => write_bytes (<[a := b]> m) (a + 1) bs
  end.

Fixpoint read_bytes (m : mem) (a : Z) (n : nat) : list byte :=
  match n with
  | O => []
  | S n => m !!! a :: read_bytes m (a + 1) n
  end.

(** [n]-byte loads and stores. *)
Definition load (n : nat) (m : mem) (a : Z) : Z := le_combine (read_bytes m a n).
Definition store (n : nat) (m : mem) (a v : Z) : mem := write_bytes m a (le_split n v).

(** ** [mem_set] and [mem_copy] *)

Definition mem_set (m : mem) (dst : Z) (val : byte) (size : Z) : mem :=
  for_range 0 size (fun i m => <[dst + i := val]> m) m.

Definition mem_copy (m : mem) (dst src size : Z) : mem :=
  for_range 0 size (fun i m => <[dst + i := m !!! (src + i)]> m) m.

(** ** Agreement of two memories outside a region *)

Definition unch (F : Z -> Prop) (m m' : mem) : Prop :=
  forall a, ~ F a -> m' !!! a = m !!! a.

#[export] Instance unch_PreOrder F : PreOrder (unch F).
Proof.
  split.
  - intros m a _. reflexivity.
  - intros m1 m2 m3 H1 H2 a Ha. rewrite (H2 a Ha). by apply H1.
Qed.

Lemma unch_mono (F G : Z -> Prop) m m' :
  (forall a, F a -> G a) -> unch F m m' -> unch G m m'.
Proof. intros HFG H a Ha. apply H. auto. Qed.

(** ** Reading after writing *)

Lemma lookup_total_insert_dec (m : mem) a b x :
  <[a := b]> m !!! x = if decide (a = x) then b else m !!! x.
Proof.
  case_decide; [subst; apply lookup_total_insert_eq|].
  by apply lookup_total_insert_ne.
Qed.

Lemma write_bytes_get m a bs x :
  write_bytes m a bs !!! x =
  if decide (inrng a (Z.of_nat (length bs)) x)
  then bs !!! Z.to_nat (x - a) else m !!! x.
Proof.
  revert m a. induction bs as [|b bs IH]; intros m a; simpl.
  - rewrite decide_False by rng. done.
  - rewrite IH, lookup_total_insert_dec.
    destruct (decide (a = x)) as [->|Hne].
    + rewrite decide_False by rng. rewrite decide_True by rng.
      by rewrite Z.sub_diag.
    + destruct (decide (inrng (a + 1) _ x)); rewrite ?decide_True, ?decide_False by rng; [|done].
      replace (Z.to_nat (x - a)) with (S (Z.to_nat (x - (a + 1)))) by rng. done.
Qed.

Lemma write_bytes_unch m a bs :
  unch (inrng a (Z.of_nat (length bs))) m (write_bytes m a bs).
Proof. intros x Hx. rewrite write_bytes_get. by rewrite decide_False. Qed.

Lemma store_unch n m a v : unch (inrng a (Z.of_nat n)) m (store n m a v).
Proof.
  unfold store. pose proof (write_bytes_unch m a (le_split n v)) as H.
  by rewrite length_le_split in H.
Qed.

Lemma read_bytes_ext m m' a n :
  (forall x, inrng a (Z.of_nat n) x -> m' !!! x = m !!! x) ->
  read_bytes m' a n = read_bytes m a n.
Proof.
  revert a. induction n as [|n IH]; intros a H; [done|]. simpl.
  rewrite H by rng. f_equal. apply IH. intros x Hx. apply H. rng.
Qed.

Lemma length_read_bytes m a n : length (read_bytes m a n) = n.
Proof. revert a. induction n; intros; simpl; auto. Qed.

Lemma read_bytes_lookup m a n i :
  (i < n)%nat -> read_bytes m a n !!! i = m !!! (a + Z.of_nat i).
Proof.
  revert a i. induction n as [|n IH]; intros a i Hi; [lia|].
  destruct i as [|i]; simpl; [by rewrite Z.add_0_r|].
  rewrite IH by lia. f_equal. lia.
Qed.

Lemma read_bytes_app m a n k :
  read_bytes m a (n + k) = read_bytes m a n ++ read_bytes m (a + Z.of_nat n) k.
Proof.
  revert a. induction n as [|n IH]; intros a; simpl; [by rewrite Z.add_0_r|].
  rewrite IH. do 3 f_equal. lia.
Qed.

Lemma read_write_bytes m a bs : read_bytes (write_bytes m a bs) a (length bs) = bs.
Proof.
  apply list_eq_same_length with (length bs); rewrite ?length_read_bytes; try done.
  intros i x y Hi Hx Hy.
  rewrite <-(list_lookup_total_correct _ _ _ Hx), <-(list_lookup_total_correct _ _ _ Hy).
  rewrite read_bytes_lookup by done. rewrite write_bytes_get, decide_True by rng.
  f_equal. lia.
Qed.

Lemma load_ext n m m' a :
  (forall x, inrng a (Z.of_nat n) x -> m' !!! x = m !!! x) ->
  load n m' a = load n m a.
Proof. intros H. unfold load. by rewrite (read_bytes_ext m m'). Qed.

(** A load from a region that a change of memory avoids. *)
Lemma load_unch F n m m' a :
  unch F m m' -> (forall x, inrng a (Z.of_nat n) x -> ~ F x) ->
  load n m' a = load n m a.
Proof. intros HU H. apply load_ext. intros x Hx. apply HU. auto. Qed.

Lemma load_store_eq n m a v :
  load n (store n m a v) a = v `mod` 2 ^ (Z.of_nat n * 8).
Proof.
  unfold load, store.
  pose proof (read_write_bytes m a (le_split n v)) as H.
  rewrite length_le_split in H. by rewrite H, le_combine_split.
Qed.

Lemma load_store_ne n k m a b v :
  disj a (Z.of_nat n) b (Z.of_nat k) -> load n (store k m b v) a = load n m a.
Proof. intros H. eapply load_unch; [apply store_unch|]. rng. Qed.

Lemma load_range n m a : 0 <= load n m a < 2 ^ (8 * Z.of_nat n).
Proof.
  unfold load. pose proof (le_combine_bound (read_bytes m a n)) as H.
  by rewrite length_read_bytes in H.
Qed.

Lemma load8_range m a : 0 <= load 8 m a < 2 ^ 64.
Proof. apply (load_range 8). Qed.

(** A 64-bit store followed by a load of the same cell. *)
Lemma load8_store8 m a v : load 8 (store 8 m a v) a = u64 v.
Proof. apply (load_store_eq 8). Qed.

Lemma load4_store4 m a v : load 4 (store 4 m a v) a = u32 v.
Proof. apply (load_store_eq 4). Qed.

Lemma load1_byte m a : load 1 m a = byte.unsigned (m !!! a).
Proof.
  change (Z.lor (byte.unsigned (m !!! a)) (Z.shiftl 0 8) = byte.unsigned (m !!! a)).
  by rewrite Z.shiftl_0_l, Z.lor_0_r.
Qed.

Lemma load1_store1 m a v : load 1 (store 1 m a v) a = u8 v.
Proof. apply (load_store_eq 1). Qed.

#[export] Hint Rewrite load8_store8 load4_store4 load1_store1 : karg.
#[export] Hint Resolve load8_range store_unch write_bytes_unch : karg.

(** ** What [mem_set] and [mem_copy] do *)

Lemma mem_set_get m dst val size x :
  mem_set m dst val size !!! x = if decide (inrng dst size x) then val else m !!! x.
Proof.
  unfold mem_set. destruct (Z.le_gt_cases size 0) as [Hs|Hs].
  { rewrite for_range_nil by done. by rewrite decide_False by rng. }
  apply Z.lt_le_incl in Hs. revert size Hs. apply Zlt_lower_bound_ind.
  intros n IH Hn. destruct (decide (n = 0)) as [->|Hne].
  { rewrite for_range_nil by lia. by rewrite decide_False by rng. }
  replace n with (n - 1 + 1) at 1 by lia.
  rewrite for_range_last, lookup_total_insert_dec, IH by lia.
  repeat case_decide; subst; try done; rng.
Qed.

Lemma mem_copy_get m dst src size x :
  disj dst size src size ->
  mem_copy m dst src size !!! x =
  if decide (inrng dst size x) then m !!! (src + (x - dst)) else m !!! x.
Proof.
  unfold mem_copy. intros Hd. destruct (Z.le_gt_cases size 0) as [Hs|Hs].
  { rewrite for_range_nil by done. by rewrite decide_False by rng. }
  assert (forall n, 0 <= n -> n <= size -> forall x,
    for_range 0 n (fun i m => <[dst + i := m !!! (src + i)]> m) m !!! x =
    if decide (inrng dst n x) then m !!! (src + (x - dst)) else m !!! x) as H;
    [|apply H; lia].
  clear x. intros n Hn. pattern n. revert n Hn. apply natlike_ind.
  { intros _ y. rewrite for_range_nil by lia. by rewrite decide_False by rng. }
  intros n Hn IH Hle y. unfold Z.succ in *.
  rewrite for_range_last, lookup_total_insert_dec, !IH by lia.
  rewrite (decide_False (P := inrng dst n (src + n))) by rng.
  repeat case_decide; subst; try done; try rng. f_equal. lia.
Qed.

Lemma mem_set_unch m dst val size : unch (inrng dst size) m (mem_set m dst val size).
Proof. intros x Hx. rewrite mem_set_get. by rewrite decide_False. Qed.

Lemma mem_copy_unch m dst src size :
  disj dst size src size -> unch (inrng dst size) m (mem_copy m dst src size).
Proof. intros Hd x Hx. rewrite mem_copy_get by done. by rewrite decide_False. Qed.

(** Scalars of cleared memory are 0. *)
Lemma load_zero n m a :
  (forall x, inrng a (Z.of_nat n) x -> m !!! x = Init.Byte.x00) -> load n m a = 0.
Proof.
  intros H. unfold load.
  assert (read_bytes m a n = List.repeat Init.Byte.x00 n) as ->; [|apply le_combine_0].
  revert a H. induction n as [|n IH]; intros a H; [done|]. simpl.
  rewrite H by rng. f_equal. apply IH. intros x Hx. apply H. rng.
Qed.
