(* ===== verification/DList.v ===== *)
(** * Intrusive circular doubly linked lists: [include/list.h]

    A [list_node_t] at address [n] is two pointers: [prev] at [n] and [next] at
    [n + 8].  A list is a head node and the nodes linked from it; the head is
    itself a [list_node_t].  [dlist m h xs] says that in memory [m] the head [h]
    heads exactly the nodes [xs], in this order and with both directions of
    links right; the operations of the header are shown to implement the
    corresponding operations on [xs], and to write nothing but the nodes
    involved. *)

From S2P Require Import Prelude.
From S2P Require Import Mem.

(** [sizeof(list_node_t)] *)
Definition NODE_SIZE : Z := 16.

Definition prev (m : mem) (n : Z) : Z := load 8 m n.
Definition next (m : mem) (n : Z) : Z := load 8 m (n + 8).
Definition set_prev (m : mem) (n v : Z) : mem := store 8 m n v.
Definition set_next (m : mem) (n v : Z) : mem := store 8 m (n + 8) v.

Definition list_init_head (m : mem) (head : Z) : mem :=
  let m := set_prev m head head in
  set_next m head head.

Definition list_front (m : mem) (head : Z) : Z := next m head.

Definition list_back (m : mem) (head : Z) : Z := prev m head.

Definition list_empty (m : mem) (head : Z) : bool := head =? list_front m head.

Definition list_is_front (m : mem) (head node : Z) : bool := next m head =? node.

Definition list_is_back (m : mem) (head node : Z) : bool := prev m head =? node.

(** [list_entry(node, type, member)], with [offsetof(type, member)] as argument. *)
Definition list_entry (node offset : Z) : Z := node - offset.

Definition list_first_entry (m : mem) (head offset : Z) : Z :=
  list_entry (list_front m head) offset.

Definition list_last_entry (m : mem) (head offset : Z) : Z :=
  list_entry (list_back m head) offset.

Definition list_insert (m : mem) (pos node : Z) : mem :=
  let m := set_next m (prev m pos) node in
  let m := set_prev m node (prev m pos) in
  let m := set_next m node pos in
  set_prev m pos node.

Definition list_push_front (m : mem) (head node : Z) : mem :=
  list_insert m (list_front m head) node.

Definition list_push_back (m : mem) (head node : Z) : mem :=
  list_insert m head node.

Definition list_remove (m : mem) (node : Z) : mem :=
  let m := set_next m (prev m node) (next m node) in
  set_prev m (next m node) (prev m node).

Definition list_remove_init (m : mem) (node : Z) : mem :=
  let m := list_remove m node in
  let m := set_prev m node node in
  set_next m node node.

Definition list_pop_front (m : mem) (head : Z) : mem :=
  list_remove m (list_front m head).

Definition list_pop_back (m : mem) (head : Z) : mem :=
  list_remove m (list_back m head).

(** [list_for_each_entry(head, member, entry)], with [offsetof(.., member)] as
    [offset]: [f] is the loop body, which leaves the loop with [inr]; [fin]
    gives the value of the loop when the entry is the head again. *)
Definition list_for_each_entry {R : Type} (m : mem) (head offset : Z)
    (f : Z -> option R) (fin : Z -> R) : option R :=
  while (fun entry =>
           if entry + offset =? head then inr (fin entry)
           else match f entry with
                | Some r => inr r
                | None => inl (list_entry (next m (entry + offset)) offset)
                end)
        (list_first_entry m head offset).

(** ** The representation *)

(** Consecutive nodes of [l] are linked to each other in both directions. *)
Fixpoint chain (m : mem) (l : list Z) : Prop :=
  match l with
  | x :: (y :: _) as t => next m x = y /\ prev m y = x /\ chain m t
  | _ => True
  end.

(** Nodes are whole objects: addresses that do not wrap, and disjoint. *)
Definition addr_ok (n : Z) (x : Z) : Prop := 0 <= x /\ x + n <= 2 ^ 64.

Definition node_rngs (xs : list Z) : list (Z * Z) := (fun x => (x, NODE_SIZE)) <$> xs.

Definition nodes_ok (xs : list Z) : Prop :=
  seps (node_rngs xs) /\ Forall (addr_ok NODE_SIZE) xs.

Definition dlist (m : mem) (h : Z) (xs : list Z) : Prop :=
  chain m (h :: xs ++ [h]) /\ nodes_ok (h :: xs).

(** The bytes of the nodes [xs]. *)
Definition in_nodes (xs : list Z) (a : Z) : Prop :=
  exists x, x ∈ xs /\ inrng x NODE_SIZE a.

(** ** Nodes as independent fields *)

(** Two nodes are the same or disjoint. *)
Definition node_sep (x y : Z) : Prop := x = y \/ disj x NODE_SIZE y NODE_SIZE.

Lemma elem_node_rngs xs x : x ∈ xs -> (x, NODE_SIZE) ∈ node_rngs xs.
Proof. intros Hx. apply list_elem_of_fmap. eauto. Qed.
#[local] Hint Resolve elem_node_rngs : core.

Lemma nodes_ok_sep xs x y : nodes_ok xs -> x ∈ xs -> y ∈ xs -> node_sep x y.
Proof.
  intros [HS _] Hx Hy.
  destruct (seps_elem (node_rngs xs) (x, NODE_SIZE) (y, NODE_SIZE)) as [E|E]; auto.
  - left. congruence.
  - by right.
Qed.

Lemma nodes_ok_NoDup xs : nodes_ok xs -> NoDup xs.
Proof.
  intros [HS _]. induction xs as [|x xs IH]; [constructor|].
  destruct HS as [HF HS]. constructor; [|auto].
  intros Hx. rewrite Forall_forall in HF.
  specialize (HF (x, NODE_SIZE)). unfold NODE_SIZE, disj in HF. simpl in HF.
  enough (x + 16 <= x \/ x + 16 <= x) by lia.
  apply HF. by apply elem_node_rngs.
Qed.

#[export] Instance nodes_ok_Proper : Proper ((≡ₚ) ==> iff) nodes_ok.
Proof. intros xs ys HP. unfold nodes_ok, node_rngs. by rewrite HP. Qed.

Lemma nodes_ok_range xs x : nodes_ok xs -> x ∈ xs -> 0 <= x < 2 ^ 64.
Proof.
  intros [_ HF] Hx. rewrite Forall_forall in HF. specialize (HF x Hx).
  unfold addr_ok, NODE_SIZE in HF. lia.
Qed.

Section fields.
Context (m : mem) (x y v : Z).
Hypothesis Hsep : node_sep x y.

Lemma next_set_next :
  next (set_next m x v) y = if decide (x = y) then u64 v else next m y.
Proof.
  unfold next, set_next. case_decide; [subst; apply load8_store8|].
  apply load_store_ne. unfold node_sep, NODE_SIZE in *. rng.
Qed.

Lemma prev_set_prev :
  prev (set_prev m x v) y = if decide (x = y) then u64 v else prev m y.
Proof.
  unfold prev, set_prev. case_decide; [subst; apply load8_store8|].
  apply load_store_ne. unfold node_sep, NODE_SIZE in *. rng.
Qed.

Lemma next_set_prev : next (set_prev m x v) y = next m y.
Proof. apply load_store_ne. unfold node_sep, NODE_SIZE in *. rng. Qed.

Lemma prev_set_next : prev (set_next m x v) y = prev m y.
Proof. apply load_store_ne. unfold node_sep, NODE_SIZE in *. rng. Qed.
End fields.

Lemma set_next_unch m x v xs : x ∈ xs -> unch (in_nodes xs) m (set_next m x v).
Proof.
  intros Hx. eapply unch_mono; [|apply store_unch].
  intros a Ha. exists x. split; [done|]. unfold NODE_SIZE. rng.
Qed.

Lemma set_prev_unch m x v xs : x ∈ xs -> unch (in_nodes xs) m (set_prev m x v).
Proof.
  intros Hx. eapply unch_mono; [|apply store_unch].
  intros a Ha. exists x. split; [done|]. unfold NODE_SIZE. rng.
Qed.

(** ** Chains *)

Lemma chain_split m l1 x l2 :
  chain m (l1 ++ x :: l2) <-> chain m (l1 ++ [x]) /\ chain m (x :: l2).
Proof.
  induction l1 as [|y [|z l1] IH]; [simpl; tauto|simpl; tauto|].
  change ((y :: z :: l1) ++ x :: l2) with (y :: z :: (l1 ++ x :: l2)).
  change ((y :: z :: l1) ++ [x]) with (y :: z :: (l1 ++ [x])).
  cbn [chain]. change (z :: l1 ++ x :: l2) with ((z :: l1) ++ x :: l2).
  change (z :: l1 ++ [x]) with ((z :: l1) ++ [x]). tauto.
Qed.

(** A link in the middle of a chain. *)
Lemma chain_link m l1 x y l2 :
  chain m (l1 ++ x :: y :: l2) <->
  chain m (l1 ++ [x]) /\ (next m x = y /\ prev m y = x) /\ chain m (y :: l2).
Proof. rewrite chain_split. cbn [chain]. tauto. Qed.

Lemma chain_cons m x y l :
  chain m (x :: y :: l) <-> (next m x = y /\ prev m y = x) /\ chain m (y :: l).
Proof. cbn [chain]. tauto. Qed.

(** A chain only depends on the [next] of all nodes but the last and the
    [prev] of all nodes but the first. *)
Lemma chain_ext m m' l :
  (forall x l', l = l' ++ [x] -> forall y, y ∈ l' -> next m' y = next m y) ->
  (forall y, y ∈ tail l -> prev m' y = prev m y) ->
  chain m l -> chain m' l.
Proof.
  induction l as [|x [|y l] IH]; [done|done|].
  intros HN HP. cbn [chain]. intros (H1 & H2 & H3). split_and!.
  - destruct (exists_last (l := y :: l) ltac:(done)) as (l' & z & E).
    rewrite <-H1. apply (HN z (x :: l')); [by rewrite E|left].
  - rewrite <-H2. apply HP. left.
  - apply IH; [| |done].
    + intros z l' E w Hw. apply (HN z (x :: l')); [by rewrite E|by right].
    + intros w Hw. apply HP. by right.
Qed.

Lemma chain_ext_snoc m m' l x :
  (forall y, y ∈ l -> next m' y = next m y) ->
  (forall y, y ∈ tail (l ++ [x]) -> prev m' y = prev m y) ->
  chain m (l ++ [x]) -> chain m' (l ++ [x]).
Proof.
  intros HN HP. apply chain_ext; [|done].
  intros z l' E. apply app_inj_2 in E as [<- _]; auto.
Qed.

(** Memory changes outside the nodes of a list keep it. *)
Lemma dlist_unch F m m' h xs :
  dlist m h xs -> unch F m m' ->
  (forall x a, x ∈ h :: xs -> inrng x NODE_SIZE a -> ~ F a) ->
  dlist m' h xs.
Proof.
  intros [HC HN] HU HF. split; [|done].
  apply (chain_ext_snoc m m' (h :: xs) h); [| |done]; intros y Hy.
  - eapply load_unch; [done|]. intros a Ha. apply (HF y); [done|].
    unfold NODE_SIZE. rng.
  - eapply load_unch; [done|]. intros a Ha. apply (HF y); [|unfold NODE_SIZE; rng].
    simpl in Hy. set_solver.
Qed.

(** ** Insertion *)

(** A position in a cycle: the node [p] before it, the node [pos] at it. *)
Lemma cycle_split (h : Z) l1 l2 :
  NoDup (h :: l1 ++ l2) ->
  exists A p pos B,
    h :: l1 = A ++ [p] /\ l2 ++ [h] = pos :: B /\ pos = hd h l2 /\
    ((p ∉ A) /\ (p ∉ l2)) /\ ((pos ∉ l1) /\ (pos ∉ B)) /\
    (forall y, y ∈ p :: A -> y ∈ h :: l1 ++ l2) /\
    (forall y, y ∈ pos :: B -> y ∈ h :: l1 ++ l2).
Proof.
  intros HND. destruct (exists_last (l := h :: l1) ltac:(done)) as (A & p & E).
  exists A, p, (hd h l2), (tail (l2 ++ [h])).
  change (h :: l1 ++ l2) with ((h :: l1) ++ l2) in HND. rewrite E in HND.
  apply NoDup_app in HND as (HND1 & HX & HND2).
  pose proof HND1 as HND1'. rewrite <-E in HND1'. apply NoDup_cons in HND1' as [Hh _].
  apply NoDup_app in HND1 as (_ & HA & _).
  rewrite <-E in HX.
  split_and!; auto.
  - by destruct l2.
  - intros Hp. by apply (HA p Hp), list_elem_of_singleton.
  - apply HX. rewrite E. apply elem_of_app. right. by apply list_elem_of_singleton.
  - destruct l2 as [|x l2]; simpl; [done|]. intros Hx. apply (HX x); [by right|left].
  - destruct l2 as [|x l2]; simpl; [apply not_elem_of_nil|].
    apply NoDup_cons in HND2 as [Hx _].
    rewrite elem_of_app, list_elem_of_singleton. intros [?| ->]; [done|].
    apply (HX h); left.
  - intros y Hy. assert (y ∈ h :: l1) by (rewrite E; set_solver). set_solver.
  - intros y Hy. assert (y ∈ l2 ++ [h]) by (by destruct l2). set_solver.
Qed.

Lemma chain_cycle m h l1 l2 A p pos B :
  h :: l1 = A ++ [p] -> l2 ++ [h] = pos :: B ->
  chain m (h :: (l1 ++ l2) ++ [h]) <->
  chain m (A ++ [p]) /\ (next m p = pos /\ prev m pos = p) /\ chain m (pos :: B).
Proof.
  intros E1 E2. rewrite <-chain_link. rewrite <-E2.
  change (A ++ p :: l2 ++ [h]) with (A ++ [p] ++ l2 ++ [h]).
  by rewrite (app_assoc A), <-E1, <-app_assoc.
Qed.

(** What [list_insert] does to the fields of a separated set of nodes. *)
Section insert_fields.
Context (m : mem) (S : list Z) (p pos node : Z).
Hypothesis HS : nodes_ok S.
Hypothesis Hp : p ∈ S.
Hypothesis Hpos : pos ∈ S.
Hypothesis Hnode : node ∈ S.
Hypothesis Hprev : prev m pos = p.

Lemma list_insert_eq :
  list_insert m pos node =
  set_prev (set_next (set_prev (set_next m p node) node p) node pos) pos node.
Proof.
  unfold list_insert. cbv zeta. rewrite Hprev.
  by rewrite prev_set_next, Hprev by eauto using nodes_ok_sep.
Qed.

Lemma list_insert_next y :
  y ∈ S ->
  next (list_insert m pos node) y =
  if decide (node = y) then pos else if decide (p = y) then node else next m y.
Proof.
  intros Hy. rewrite list_insert_eq.
  rewrite next_set_prev, next_set_next, next_set_prev, next_set_next
    by eauto using nodes_ok_sep.
  by rewrite !u64_small by eauto using nodes_ok_range.
Qed.

Lemma list_insert_prev y :
  y ∈ S ->
  prev (list_insert m pos node) y =
  if decide (pos = y) then node else if decide (node = y) then p else prev m y.
Proof.
  intros Hy. rewrite list_insert_eq.
  rewrite prev_set_prev, prev_set_next, prev_set_prev, prev_set_next
    by eauto using nodes_ok_sep.
  by rewrite !u64_small by eauto using nodes_ok_range.
Qed.

Lemma list_insert_unch : unch (in_nodes S) m (list_insert m pos node).
Proof.
  rewrite list_insert_eq.
  etrans; [by apply (set_next_unch _ p node)|].
  etrans; [by apply (set_prev_unch _ node p)|].
  etrans; [by apply (set_next_unch _ node pos)|].
  by apply set_prev_unch.
Qed.
End insert_fields.

(** Inserting a node before the first node of [l2] (the head when [l2] is empty). *)
Lemma list_insert_dlist m h l1 l2 node :
  dlist m h (l1 ++ l2) -> nodes_ok (node :: h :: l1 ++ l2) ->
  dlist (list_insert m (hd h l2) node) h (l1 ++ node :: l2) /\
  unch (in_nodes (node :: h :: l1 ++ l2)) m (list_insert m (hd h l2) node).
Proof.
  intros [HC _] HS. pose proof (nodes_ok_NoDup _ HS) as [Hnode HND]%NoDup_cons.
  destruct (cycle_split h l1 l2 HND) as (A & p & pos & B & E1 & E2 & <- & Hp & Hpos & HA & HB).
  apply (chain_cycle _ _ _ _ _ _ _ _ E1 E2) in HC as (HC1 & [HN HP] & HC2).
  assert (p ∈ node :: h :: l1 ++ l2) by (right; apply HA; left).
  assert (pos ∈ node :: h :: l1 ++ l2) by (right; apply HB; left).
  assert (node ∈ node :: h :: l1 ++ l2) by left.
  assert (node <> p /\ node <> pos) as [Hnp Hnpos].
  { split; intros ->; apply Hnode; [apply HA; left|apply HB; left]. }
  pose proof (list_insert_next m _ p pos node HS ltac:(done) ltac:(done) ltac:(done) HP) as Hnext.
  pose proof (list_insert_prev m _ p pos node HS ltac:(done) ltac:(done) ltac:(done) HP) as Hprev.
  split; [split|by apply (list_insert_unch m _ p)].
  2:{ eapply nodes_ok_Proper; [apply perm_swap_middle|exact HS]. }
  rewrite <-app_assoc. simpl app at 2. rewrite E2.
  change (chain (list_insert m pos node) ((h :: l1) ++ node :: pos :: B)).
  rewrite E1, <-app_assoc. simpl app. rewrite chain_link.
  rewrite chain_cons, !Hnext, !Hprev by done. repeat case_decide; try congruence.
  split_and!; try done.
  - revert HC1. apply chain_ext_snoc; intros y Hy.
    + rewrite Hnext by (right; apply HA; by right).
      rewrite !decide_False; [done|..]; intros ->; [tauto|].
      apply Hnode, HA. by right.
    + rewrite <-E1 in Hy. simpl in Hy. rewrite Hprev by set_solver.
      rewrite !decide_False; [done|..]; intros ->; [|tauto]. set_solver.
  - revert HC2. rewrite <-E2. apply chain_ext_snoc; intros y Hy.
    + rewrite Hnext by set_solver.
      rewrite !decide_False; [done|..]; intros ->; [tauto|]. set_solver.
    + rewrite E2 in Hy. simpl in Hy. rewrite Hprev by (right; apply HB; by right).
      rewrite !decide_False; [done|..]; intros ->; [|tauto]. apply Hnode, HB. by right.
Qed.

(** ** Removal *)

Section remove_fields.
Context (m : mem) (S : list Z) (p pos node : Z).
Hypothesis HS : nodes_ok S.
Hypothesis Hp : p ∈ S.
Hypothesis Hpos : pos ∈ S.
Hypothesis Hnode : node ∈ S.
Hypothesis Hprev : prev m node = p.
Hypothesis Hnext : next m node = pos.
Hypothesis Hne : node <> p.

Lemma list_remove_eq : list_remove m node = set_prev (set_next m p pos) pos p.
Proof.
  unfold list_remove. cbv zeta. rewrite Hprev, Hnext.
  rewrite prev_set_next, next_set_next, decide_False by eauto using nodes_ok_sep.
  by rewrite Hprev, Hnext.
Qed.

Lemma list_remove_next y :
  y ∈ S -> next (list_remove m node) y = if decide (p = y) then pos else next m y.
Proof.
  intros Hy. rewrite list_remove_eq.
  rewrite next_set_prev, next_set_next by eauto using nodes_ok_sep.
  by rewrite u64_small by eauto using nodes_ok_range.
Qed.

Lemma list_remove_prev y :
  y ∈ S -> prev (list_remove m node) y = if decide (pos = y) then p else prev m y.
Proof.
  intros Hy. rewrite list_remove_eq.
  rewrite prev_set_prev, prev_set_next by eauto using nodes_ok_sep.
  by rewrite u64_small by eauto using nodes_ok_range.
Qed.

Lemma list_remove_unch S' : p ∈ S' -> pos ∈ S' -> unch (in_nodes S') m (list_remove m node).
Proof.
  intros. rewrite list_remove_eq.
  etrans; [by apply (set_next_unch _ p pos)|]. by apply set_prev_unch.
Qed.
End remove_fields.

(** Removing a node; its own fields are left as they are. *)
Lemma list_remove_dlist m h l1 x l2 :
  dlist m h (l1 ++ x :: l2) ->
  dlist (list_remove m x) h (l1 ++ l2) /\
  unch (in_nodes (h :: l1 ++ l2)) m (list_remove m x).
Proof.
  intros [HC HS].
  apply (nodes_ok_Proper _ _ (perm_swap_middle h x l1 l2)) in HS.
  pose proof (nodes_ok_NoDup _ HS) as [Hx HND]%NoDup_cons.
  destruct (cycle_split h l1 l2 HND) as (A & p & pos & B & E1 & E2 & _ & Hp & Hpos & HA & HB).
  rewrite <-app_assoc in HC. simpl app in HC. rewrite E2 in HC.
  change (chain m ((h :: l1) ++ x :: pos :: B)) in HC.
  rewrite E1, <-app_assoc in HC. simpl app in HC.
  apply chain_link in HC as (HC1 & [HN1 HP1] & HC2).
  apply chain_cons in HC2 as [[HN2 HP2] HC2].
  assert (p ∈ h :: l1 ++ l2) by (apply HA; left).
  assert (pos ∈ h :: l1 ++ l2) by (apply HB; left).
  assert (x <> p) by (intros ->; done).
  assert (x ∈ x :: h :: l1 ++ l2) by left.
  pose proof (list_remove_next m _ p pos x HS ltac:(by right) ltac:(by right) ltac:(done)
                HP1 HN2 ltac:(done)) as Hnext.
  pose proof (list_remove_prev m _ p pos x HS ltac:(by right) ltac:(by right) ltac:(done)
                HP1 HN2 ltac:(done)) as Hprev.
  split; [split|].
  - apply (chain_cycle _ _ _ _ _ _ _ _ E1 E2).
    rewrite Hnext, Hprev, !decide_True by (done || by right). split_and!; try done.
    + revert HC1. apply chain_ext_snoc; intros y Hy.
      * rewrite Hnext, decide_False; [done|intros ->; tauto|right; apply HA; by right].
      * rewrite <-E1 in Hy. simpl in Hy.
        rewrite Hprev, decide_False; [done|intros ->; tauto|set_solver].
    + revert HC2. rewrite <-E2. apply chain_ext_snoc; intros y Hy.
      * rewrite Hnext, decide_False; [done|intros ->; tauto|set_solver].
      * rewrite E2 in Hy. simpl in Hy.
        rewrite Hprev, decide_False; [done|intros ->; tauto|right; apply HB; by right].
  - destruct HS as [[_ HS1] HS2]. inversion HS2; subst. by split.
  - apply (list_remove_unch m (x :: h :: l1 ++ l2) p pos); auto; by right.
Qed.

(** ** The operations on a represented list *)

Lemma dlist_nodes_ok m h xs : dlist m h xs -> nodes_ok (h :: xs).
Proof. by intros [_ ?]. Qed.

Lemma list_front_spec m h xs : dlist m h xs -> list_front m h = hd h xs.
Proof. intros [HC _]. by destruct xs; destruct HC as [? _]. Qed.

Lemma list_back_spec m h xs : dlist m h xs -> list_back m h = List.last xs h.
Proof.
  intros [HC _]. destruct xs as [|x xs _] using rev_ind; [by destruct HC as (_ & ? & _)|].
  rewrite List.last_last. rewrite <-app_assoc in HC. simpl in HC.
  change (chain m ((h :: xs) ++ x :: [h])) in HC.
  by apply chain_link in HC as (_ & [_ ?] & _).
Qed.

Lemma list_empty_spec m h xs : dlist m h xs -> list_empty m h = bool_decide (xs = []).
Proof.
  intros HD. unfold list_empty. rewrite (list_front_spec _ _ _ HD).
  destruct xs as [|x xs]; simpl; [by rewrite Z.eqb_refl|].
  apply Z.eqb_neq. intros ->. pose proof (nodes_ok_NoDup _ (dlist_nodes_ok _ _ _ HD)) as HN.
  apply NoDup_cons in HN as [Hx _]. apply Hx. left.
Qed.

Lemma list_init_head_dlist m h :
  addr_ok NODE_SIZE h ->
  dlist (list_init_head m h) h [] /\ unch (inrng h NODE_SIZE) m (list_init_head m h).
Proof.
  intros Hh. assert (nodes_ok [h]) as HN.
  { split; [split; constructor|by constructor]. }
  assert (0 <= h < 2 ^ 64) by (eapply nodes_ok_range; [done|left]).
  unfold list_init_head. cbv zeta. split; [split; [|done]|].
  - simpl. rewrite next_set_next, prev_set_next, prev_set_prev by by left.
    rewrite !decide_True, u64_small by done. done.
  - etrans; [eapply unch_mono, store_unch|eapply unch_mono, store_unch];
      intros a Ha; unfold NODE_SIZE; rng.
Qed.

Lemma list_push_front_dlist m h xs n :
  dlist m h xs -> nodes_ok (n :: h :: xs) ->
  dlist (list_push_front m h n) h (n :: xs) /\
  unch (in_nodes (n :: h :: xs)) m (list_push_front m h n).
Proof.
  intros HD HN. unfold list_push_front. rewrite (list_front_spec _ _ _ HD).
  by apply (list_insert_dlist m h [] xs n).
Qed.

Lemma list_push_back_dlist m h xs n :
  dlist m h xs -> nodes_ok (n :: h :: xs) ->
  dlist (list_push_back m h n) h (xs ++ [n]) /\
  unch (in_nodes (n :: h :: xs)) m (list_push_back m h n).
Proof.
  intros HD HN. pose proof (list_insert_dlist m h xs [] n) as H.
  rewrite app_nil_r in H. by apply H.
Qed.

Lemma list_pop_front_dlist m h x xs :
  dlist m h (x :: xs) ->
  dlist (list_pop_front m h) h xs /\ unch (in_nodes (h :: xs)) m (list_pop_front m h).
Proof.
  intros HD. unfold list_pop_front. rewrite (list_front_spec _ _ _ HD).
  by apply (list_remove_dlist m h [] x xs).
Qed.

Lemma list_pop_back_dlist m h x xs :
  dlist m h (xs ++ [x]) ->
  dlist (list_pop_back m h) h xs /\ unch (in_nodes (h :: xs)) m (list_pop_back m h).
Proof.
  intros HD. unfold list_pop_back. rewrite (list_back_spec _ _ _ HD), List.last_last.
  apply list_remove_dlist in HD. by rewrite app_nil_r in HD.
Qed.

(** The removed node heads an empty list of its own. *)
Lemma list_remove_init_dlist m h l1 x l2 :
  dlist m h (l1 ++ x :: l2) ->
  dlist (list_remove_init m x) h (l1 ++ l2) /\ dlist (list_remove_init m x) x [] /\
  unch (in_nodes (x :: h :: l1 ++ l2)) m (list_remove_init m x).
Proof.
  intros HD. pose proof (dlist_nodes_ok _ _ _ HD) as HN.
  apply list_remove_dlist in HD as [HD HU].
  assert (addr_ok NODE_SIZE x) as Hx.
  { destruct HN as [_ HN]. rewrite Forall_forall in HN. apply HN. set_solver. }
  destruct (list_init_head_dlist (list_remove m x) x Hx) as [HD' HU'].
  change (list_remove_init m x) with (list_init_head (list_remove m x) x).
  split_and!; [|done|].
  - eapply dlist_unch; [done..|]. intros y a Hy Ha Ha'.
    assert (x <> y) as Hne.
    { intros ->. apply nodes_ok_NoDup in HN.
      change (h :: l1 ++ y :: l2) with ((h :: l1) ++ y :: l2) in HN.
      apply NoDup_app in HN as (_ & HN1 & HN2). apply NoDup_cons in HN2 as [HN2 _].
      set_solver. }
    destruct (nodes_ok_sep _ x y HN) as [->|HS]; [set_solver|set_solver|done|].
    unfold NODE_SIZE in *. rng.
  - etrans; (eapply unch_mono; [|done]).
    + intros a (y & Hy & Ha). exists y. split; [by right|done].
    + intros a Ha. exists x. split; [left|done].
Qed.

(** ** Traversal *)

(** Disjoint 16-byte nodes of a 64-bit address space are few. *)
Lemma nodes_ok_length xs : nodes_ok xs -> Z.of_nat (length xs) <= 2 ^ 60.
Proof.
  intros HN. assert (NoDup ((fun x => x `div` 16) <$> xs)) as HD.
  { pose proof (nodes_ok_NoDup _ HN) as H. apply NoDup_fmap_2_strong; [|done].
    intros x y Hx Hy Hxy. destruct (nodes_ok_sep _ x y HN Hx Hy) as [|HS]; [done|].
    unfold NODE_SIZE, disj in HS. exfalso.
    pose proof (Z.div_mod x 16). pose proof (Z.div_mod y 16).
    pose proof (Z.mod_pos_bound x 16). pose proof (Z.mod_pos_bound y 16). lia. }
  assert ((fun x => x `div` 16) <$> xs ⊆+ seqZ 0 (2 ^ 60)) as HS.
  { apply NoDup_submseteq; [done|]. intros y (x & -> & Hx)%list_elem_of_fmap.
    apply elem_of_seqZ. destruct HN as [_ HF]. rewrite Forall_forall in HF.
    specialize (HF x Hx) as [? ?]. unfold NODE_SIZE in *.
    pose proof (Z.div_mod x 16). pose proof (Z.mod_pos_bound x 16). lia. }
  apply submseteq_length in HS. rewrite length_fmap, length_seqZ in HS. lia.
Qed.

(** The value a traversal of [xs] leaves with. *)
Fixpoint first_entry {R : Type} (offset : Z) (f : Z -> option R) (fin : R) (xs : list Z) : R :=
  match xs with
  | [] => fin
  | x :: xs =>
      match f (x - offset) with
      | Some r => r
      | None => first_entry offset f fin xs
      end
  end.

(** The node after [x] in a list. *)
Lemma dlist_next m h l1 x l2 : dlist m h (l1 ++ x :: l2) -> next m x = hd h l2.
Proof.
  intros [HC _]. rewrite <-app_assoc in HC. simpl in HC.
  change (chain m ((h :: l1) ++ x :: l2 ++ [h])) in HC.
  apply chain_split in HC as [_ HC]. by destruct l2; destruct HC as [? _].
Qed.

Lemma list_for_each_entry_spec {R} m h xs offset (f : Z -> option R) fin :
  dlist m h xs ->
  list_for_each_entry m h offset f fin =
  Some (first_entry offset f (fin (h - offset)) xs).
Proof.
  intros HD. pose proof (dlist_nodes_ok _ _ _ HD) as HN.
  unfold list_for_each_entry, list_first_entry, list_entry.
  rewrite (list_front_spec _ _ _ HD).
  edestruct (while_rule
    (fun entry => if entry + offset =? h then inr (fin entry)
       else match f entry with Some r => inr r
            | None => inl (next m (entry + offset) - offset) end)
    (fun k e => exists l1 l2, xs = l1 ++ l2 /\ e = hd h l2 - offset /\ k = Z.of_nat (length l2) /\
       first_entry offset f (fin (h - offset)) l2 = first_entry offset f (fin (h - offset)) xs)
    (fun r => r = first_entry offset f (fin (h - offset)) xs)) as (r & -> & ->); [..|done].
  2:{ by exists [], xs. }
  2:{ apply nodes_ok_length in HN. simpl in HN. lia. }
  intros k e (l1 & l2 & -> & -> & -> & <-). rewrite Z.sub_add.
  destruct l2 as [|x l2]; simpl; [by rewrite Z.eqb_refl|].
  destruct (x =? h) eqn:E; bool_to_prop.
  { subst. apply nodes_ok_NoDup, NoDup_cons in HN as [HN _]. set_solver. }
  destruct (f (x - offset)) as [r|]; [done|].
  exists (Z.of_nat (length l2)). split; [lia|].
  exists (l1 ++ [x]), l2. rewrite (dlist_next m h l1 x l2), <-app_assoc by done.
  split_and!; done.
Qed.

Lemma list_is_front_spec m h xs x :
  dlist m h xs -> list_is_front m h x = bool_decide (x = hd h xs).
Proof.
  intros HD. unfold list_is_front.
  change (next m h) with (list_front m h). rewrite (list_front_spec _ _ _ HD).
  rewrite (Z.eqb_sym _ x). apply eq_bool_prop_intro. rewrite bool_decide_spec, Is_true_true.
  apply Z.eqb_eq.
Qed.

Lemma list_is_back_spec m h xs x :
  dlist m h xs -> list_is_back m h x = bool_decide (x = List.last xs h).
Proof.
  intros HD. unfold list_is_back.
  change (prev m h) with (list_back m h). rewrite (list_back_spec _ _ _ HD).
  rewrite (Z.eqb_sym _ x). apply eq_bool_prop_intro. rewrite bool_decide_spec, Is_true_true.
  apply Z.eqb_eq.
Qed.

(** ** Sequences of operations

    The operations of [list.h] on a list with head [h], and what they do to the
    sequence of its nodes. *)
Inductive list_op :=
| InitHead | PushFront (n : Z) | PushBack (n : Z) | InsertBefore (pos n : Z)
| PopFront | PopBack | Remove (n : Z) | RemoveInit (n : Z).

Definition list_run (h : Z) (m : mem) (op : list_op) : mem :=
  match op with
  | InitHead => list_init_head m h
  | PushFront n => list_push_front m h n
  | PushBack n => list_push_back m h n
  | InsertBefore pos n => list_insert m pos n
  | PopFront => list_pop_front m h
  | PopBack => list_pop_back m h
  | Remove n => list_remove m n
  | RemoveInit n => list_remove_init m n
  end.

Inductive seq_op (h : Z) : list_op -> list Z -> list Z -> Prop :=
| seq_init_head xs : seq_op h InitHead xs []
| seq_push_front n xs : nodes_ok (n :: h :: xs) -> seq_op h (PushFront n) xs (n :: xs)
| seq_push_back n xs : nodes_ok (n :: h :: xs) -> seq_op h (PushBack n) xs (xs ++ [n])
| seq_insert l1 l2 n : nodes_ok (n :: h :: l1 ++ l2) ->
    seq_op h (InsertBefore (hd h l2) n) (l1 ++ l2) (l1 ++ n :: l2)
| seq_pop_front x xs : seq_op h PopFront (x :: xs) xs
| seq_pop_back x xs : seq_op h PopBack (xs ++ [x]) xs
| seq_remove l1 x l2 : seq_op h (Remove x) (l1 ++ x :: l2) (l1 ++ l2)
| seq_remove_init l1 x l2 : seq_op h (RemoveInit x) (l1 ++ x :: l2) (l1 ++ l2).

Inductive seq_ops (h : Z) : list list_op -> list Z -> list Z -> Prop :=
| seq_ops_nil xs : seq_ops h [] xs xs
| seq_ops_cons op ops xs ys zs :
    seq_op h op xs ys -> seq_ops h ops ys zs -> seq_ops h (op :: ops) xs zs.

(** The nodes an operation brings into the list. *)
Definition op_node (op : list_op) : list Z :=
  match op with
  | PushFront n | PushBack n | InsertBefore _ n => [n]
  | _ => []
  end.

Lemma in_nodes_mono xs ys a : xs ⊆ ys -> in_nodes xs a -> in_nodes ys a.
Proof. intros H (x & Hx & Ha). exists x. eauto. Qed.

Lemma seq_op_nodes h op xs ys : seq_op h op xs ys -> ys ⊆ op_node op ++ xs.
Proof. intros Hs. destruct Hs; simpl; set_solver. Qed.

(** One operation: the list of the new sequence, and nothing written but the
    nodes of the list and the node that comes in. *)
Lemma list_run_step h m op xs ys :
  dlist m h xs -> seq_op h op xs ys ->
  dlist (list_run h m op) h ys /\
  unch (in_nodes (h :: op_node op ++ xs)) m (list_run h m op).
Proof.
  intros HD Hs. destruct Hs; simpl.
  - destruct (list_init_head_dlist m h) as [HD' HU].
    { apply dlist_nodes_ok in HD as [_ HD]. by inversion HD. }
    split; [done|]. eapply unch_mono; [|exact HU]. intros a Ha. exists h. split; [left|done].
  - destruct (list_push_front_dlist m h xs n) as [HD' HU]; [done..|]. split; [done|].
    eapply unch_mono; [|exact HU]. intros a. apply in_nodes_mono. set_solver.
  - destruct (list_push_back_dlist m h xs n) as [HD' HU]; [done..|]. split; [done|].
    eapply unch_mono; [|exact HU]. intros a. apply in_nodes_mono. set_solver.
  - destruct (list_insert_dlist m h l1 l2 n) as [HD' HU]; [done..|]. split; [done|].
    eapply unch_mono; [|exact HU]. intros a. apply in_nodes_mono. set_solver.
  - destruct (list_pop_front_dlist m h x xs) as [HD' HU]; [done..|]. split; [done|].
    eapply unch_mono; [|exact HU]. intros a. apply in_nodes_mono. set_solver.
  - destruct (list_pop_back_dlist m h x xs) as [HD' HU]; [done..|]. split; [done|].
    eapply unch_mono; [|exact HU]. intros a. apply in_nodes_mono. set_solver.
  - destruct (list_remove_dlist m h l1 x l2) as [HD' HU]; [done..|]. split; [done|].
    eapply unch_mono; [|exact HU]. intros a. apply in_nodes_mono. set_solver.
  - destruct (list_remove_init_dlist m h l1 x l2) as (HD' & _ & HU); [done..|]. split; [done|].
    eapply unch_mono; [|exact HU]. intros a. apply in_nodes_mono. set_solver.
Qed.

Lemma list_run_steps h ops xs ys m :
  seq_ops h ops xs ys -> dlist m h xs ->
  dlist (fold_left (list_run h) ops m) h ys /\
  unch (in_nodes (h :: (ops ≫= op_node) ++ xs)) m (fold_left (list_run h) ops m).
Proof.
  intros Hs. revert m. induction Hs as [xs|op ops xs ys zs Hs _ IH]; intros m HD; [by split|].
  destruct (list_run_step _ _ _ _ _ HD Hs) as [HD1 HU1].
  destruct (IH _ HD1) as [HD2 HU2]. split; [done|]. csimpl.
  apply seq_op_nodes in Hs.
  etrans; (eapply unch_mono; [|eassumption]); intros a; apply in_nodes_mono; set_solver.
Qed.

(** A sequence that ends with [list_remove_init] leaves the removed node linked
    to itself. *)
Lemma list_run_remove_init h ops x xs ys m :
  seq_ops h (ops ++ [RemoveInit x]) xs ys -> dlist m h xs ->
  dlist (fold_left (list_run h) (ops ++ [RemoveInit x]) m) x [].
Proof.
  revert xs m. induction ops as [|op ops IH]; simpl; intros xs m Hs HD;
    inversion Hs as [|? ? ? zs ? Hop Hops]; subst.
  - inversion Hop; subst. by eapply list_remove_init_dlist.
  - apply (IH zs); [done|]. by eapply list_run_step.
Qed.

(** C20. The intrusive lists of [list.h] implement sequences.  From any memory,
    after [list_init_head] and any sequence of re-initialisations, pushes, pops,
    insertions before a node and removals (of separate nodes that do not wrap
    around the address space), the memory holds the list of the sequence that
    results; [list_front], [list_back], [list_is_front], [list_is_back],
    [list_empty], the first and last entries and a traversal see that sequence; a
    last [list_remove_init] leaves its node linked to itself; nothing but the head
    and the nodes that were put in the list is written. *)
Theorem list_ops_refine h m ops ys :
  addr_ok NODE_SIZE h -> seq_ops h ops [] ys ->
  let m' := fold_left (list_run h) ops (list_init_head m h) in
  dlist m' h ys /\ list_front m' h = hd h ys /\ list_back m' h = List.last ys h /\
  (forall x, list_is_front m' h x = bool_decide (x = hd h ys)) /\
  (forall x, list_is_back m' h x = bool_decide (x = List.last ys h)) /\
  list_empty m' h = bool_decide (ys = []) /\
  (forall offset, list_first_entry m' h offset = hd h ys - offset /\
                  list_last_entry m' h offset = List.last ys h - offset) /\
  (forall offset (f : Z -> option Z) fin,
    list_for_each_entry m' h offset f fin = Some (first_entry offset f (fin (h - offset)) ys)) /\
  (forall ops' x, ops = ops' ++ [RemoveInit x] -> dlist m' x []) /\
  unch (in_nodes (h :: (ops ≫= op_node))) m m'.
Proof.
  intros Hh Hs m'. destruct (list_init_head_dlist m h Hh) as [HD HU].
  destruct (list_run_steps _ _ _ _ _ Hs HD) as [HD' HU']. fold m' in HD', HU'.
  split_and!; auto using list_front_spec, list_back_spec, list_empty_spec,
    list_is_front_spec, list_is_back_spec.
  - intros offset. unfold list_first_entry, list_last_entry, list_entry.
    by rewrite (list_front_spec _ _ _ HD'), (list_back_spec _ _ _ HD').
  - intros. by apply list_for_each_entry_spec.
  - intros ops' x ->. subst m'. by eapply list_run_remove_init.
  - rewrite app_nil_r in HU'. etrans; [|exact HU'].
    eapply unch_mono; [|exact HU]. intros a Ha. exists h. split; [left|done].
Qed.

(** A list at 0x1000 with nodes 0x2000 and 0x3000, from the empty list. *)
Lemma list_ops_refine_witness :
  let m' := fold_left (list_run 0x1000)
              ([PushBack 0x2000; PushFront 0x3000] ++ [RemoveInit 0x2000])
              (list_init_head ∅ 0x1000) in
  dlist m' 0x1000 [0x3000] /\ list_front m' 0x1000 = 0x3000 /\ dlist m' 0x2000 [].
Proof.
  destruct (list_ops_refine 0x1000 ∅
    ([PushBack 0x2000; PushFront 0x3000] ++ [RemoveInit 0x2000]) [0x3000])
    as (HD & HF & _ & _ & _ & _ & _ & _ & HR & _).
  - done.
  - eapply seq_ops_cons; [apply seq_push_back|].
    { split; [|by repeat constructor].
      split; repeat constructor; unfold NODE_SIZE; simpl; rng. }
    eapply seq_ops_cons; [apply seq_push_front|].
    { split; [|by repeat constructor].
      split; repeat constructor; unfold NODE_SIZE; simpl; rng. }
    eapply seq_ops_cons; [apply (seq_remove_init _ [_] _ [])|constructor].
  - split; [exact HD|split; [exact HF|]]. exact (HR _ _ eq_refl).
Defined.
