(* ===== verification/Layout.v ===== *)
(** * Build constants and the static layout of the kernel image

    [include/config.h], [include/mm/page_alloc.h] and [kernel.ld].  The address
    of a static object is chosen by the linker; it is a field of the class
    [Layout], with what the linker script guarantees: objects do not overlap,
    they lie between the load address and [_heap_start], and [_heap_start] is
    page aligned. *)

From S2P Require Import Prelude.

(** [include/config.h] *)
Definition BOOT_ENTRY_BASE : Z := 0x80200000.
Definition BOOT_STACK_BASE : Z := 0x88000000.
Definition DRIVER_DEV_CAPACITY : Z := 8.
Definition INTR_ISR_CAPACITY : Z := 256.
Definition KHEAP_SIZE : Z := 0x800000.
Definition LOG_BUF_SIZE : Z := 4096.
Definition PROC_FD_CAPACITY : Z := 64.
Definition PROC_TABLE_SIZE : Z := 256.
Definition SCHED_TIMESLICE : Z := 10000000.
Definition TTY_BUF_SIZE : Z := 128.
Definition TTY_SINK_CAPACITY : Z := 4.

(** [include/mm/page_alloc.h] *)
Definition PAGE_SIZE : Z := 4096.

(** The static objects, by the symbol of the source.  [INIT_ELF] has the size
    of the array of [src/init.c], [trampoline] is the page of [trap.S], [wait_queue]
    is in [src/timer.c], [ready_queue], [timer] and [idle_proc] in [src/sched.c]. *)
Class Layout := {
  sym_trampoline : Z;
  sym_INIT_ELF : Z;
  sym_free_list : Z;
  sym_block_list : Z;
  sym_wait_queue : Z;
  sym_ready_queue : Z;
  sym_timer : Z;
  sym_idle_proc : Z;
  sym_heap_start : Z;
}.

Definition INIT_ELF_SIZE : Z := 67968.

(** Address and size of every static object. *)
Definition statics (L : Layout) : list (Z * Z) :=
  [(sym_trampoline, PAGE_SIZE); (sym_INIT_ELF, INIT_ELF_SIZE);
   (sym_free_list, 16); (sym_block_list, 16); (sym_wait_queue, 16);
   (sym_ready_queue, 16); (sym_timer, 40); (sym_idle_proc, 1712)].

(** What [kernel.ld] guarantees of them. *)
Class LayoutOk (L : Layout) : Prop := {
  statics_seps : seps (statics L);
  statics_image : Forall (fun r => BOOT_ENTRY_BASE <= r.1 /\ r.1 + r.2 <= sym_heap_start) (statics L);
  heap_aligned : sym_heap_start `mod` PAGE_SIZE = 0;
  heap_below_stack : sym_heap_start + KHEAP_SIZE <= BOOT_STACK_BASE;
}.

(** A concrete layout, as a build for the [virt] platform has it. *)
Definition virt_layout : Layout := {|
  sym_trampoline := 0x80203000;
  sym_INIT_ELF := 0x80208000;
  sym_free_list := 0x80220000;
  sym_block_list := 0x80220010;
  sym_wait_queue := 0x80220020;
  sym_ready_queue := 0x80220030;
  sym_timer := 0x80220040;
  sym_idle_proc := 0x80220100;
  sym_heap_start := 0x80225000;
|}.

Lemma virt_layout_ok : LayoutOk virt_layout.
Proof.
  split; [|..]; unfold statics; simpl;
    repeat constructor; unfold disj; simpl; try (cbv; lia || done).
  all: cbv; lia || (intros ?; discriminate) || auto.
Qed.

(** ** Pages *)

Definition page_aligned (p : Z) : Prop := p `mod` PAGE_SIZE = 0.

(** Pages of the heap. *)
Definition heap_page `{L : Layout} (p : Z) : Prop :=
  page_aligned p /\ sym_heap_start <= p < sym_heap_start + KHEAP_SIZE.

Lemma page_aligned_sep p q :
  page_aligned p -> page_aligned q -> p = q \/ disj p PAGE_SIZE q PAGE_SIZE.
Proof.
  unfold page_aligned, PAGE_SIZE, disj. intros Hp Hq.
  pose proof (Z.div_mod p 4096). pose proof (Z.div_mod q 4096). lia.
Qed.

(** A byte belongs to one page only. *)
Lemma page_aligned_inj p q a :
  page_aligned p -> page_aligned q -> inrng p PAGE_SIZE a -> inrng q PAGE_SIZE a -> p = q.
Proof.
  intros Hp Hq Ha Hb. destruct (page_aligned_sep p q Hp Hq) as [|H]; [done|].
  unfold PAGE_SIZE in *. rng.
Qed.

Section layout_facts.
Context `{L : Layout} {LOK : LayoutOk L}.

Lemma heap_bounds : 0 < sym_heap_start /\ sym_heap_start + KHEAP_SIZE <= 2 ^ 32.
Proof.
  pose proof heap_below_stack as H. pose proof statics_image as HI.
  apply Forall_cons in HI as [HI _]. simpl in HI.
  unfold BOOT_ENTRY_BASE, BOOT_STACK_BASE, PAGE_SIZE in *. lia.
Qed.

Lemma heap_page_bounds p : heap_page p -> 0 < p /\ p + PAGE_SIZE <= 2 ^ 32.
Proof.
  intros [Ha Hp]. pose proof heap_bounds. pose proof heap_aligned.
  unfold page_aligned, PAGE_SIZE, KHEAP_SIZE in *.
  pose proof (Z.div_mod p 4096). pose proof (Z.div_mod sym_heap_start 4096). lia.
Qed.

Lemma static_bounds r :
  r ∈ statics L -> BOOT_ENTRY_BASE <= r.1 /\ r.1 + r.2 <= sym_heap_start.
Proof. pose proof statics_image as H. rewrite Forall_forall in H. apply H. Qed.
End layout_facts.
