(* ===== verification/Errno.v ===== *)
(** * Error numbers: [include/errno.h] and [src/errno.c]

    The macros of the header are the constructors of [errno], with their values
    as a coercion to [Z], so that [- ENOMEM] reads as in the source. *)

From stdpp Require Import strings.
From S2P Require Import Prelude.

Inductive errno : Set :=
  | E2BIG | EACCES | EADDRINUSE | EADDRNOTAVAIL | EAFNOSUPPORT | EAGAIN | EALREADY
  | EBADF | EBADMSG | EBUSY | ECANCELED | ECHILD | ECONNABORTED | ECONNREFUSED
  | ECONNRESET | EDEADLK | EDESTADDRREQ | EDOM | EDQUOT | EEXIST | EFAULT | EFBIG
  | EHOSTUNREACH | EIDRM | EILSEQ | EINPROGRESS | EINTR | EINVAL | EIO | EISCONN
  | EISDIR | ELOOP | EMFILE | EMLINK | EMSGSIZE | EMULTIHOP | ENAMETOOLONG | ENETDOWN
  | ENETRESET | ENETUNREACH | ENFILE | ENOBUFS | ENODATA | ENODEV | ENOENT | ENOEXEC
  | ENOLCK | ENOLINK | ENOMEM | ENOMSG | ENOPROTOOPT | ENOSPC | ENOSR | ENOSTR
  | ENOSYS | ENOTCONN | ENOTDIR | ENOTEMPTY | ENOTRECOVERABLE | ENOTSOCK | ENOTSUP
  | ENOTTY | ENXIO | EOPNOTSUPP | EOVERFLOW | EOWNERDEAD | EPERM | EPIPE | EPROTO
  | EPROTONOSUPPORT | EPROTOTYPE | ERANGE | EROFS | ESPIPE | ESRCH | ESTALE | ETIME
  | ETIMEDOUT | ETXTBSY | EXDEV.

Definition errno_val (e : errno) : Z :=
  match e with
  | E2BIG => 7
  | EACCES => 13
  | EADDRINUSE => 112
  | EADDRNOTAVAIL => 125
  | EAFNOSUPPORT => 106
  | EAGAIN => 11
  | EALREADY => 120
  | EBADF => 9
  | EBADMSG => 77
  | EBUSY => 16
  | ECANCELED => 140
  | ECHILD => 10
  | ECONNABORTED => 113
  | ECONNREFUSED => 111
  | ECONNRESET => 104
  | EDEADLK => 45
  | EDESTADDRREQ => 121
  | EDOM => 33
  | EDQUOT => 132
  | EEXIST => 17
  | EFAULT => 14
  | EFBIG => 27
  | EHOSTUNREACH => 118
  | EIDRM => 36
  | EILSEQ => 138
  | EINPROGRESS => 119
  | EINTR => 4
  | EINVAL => 22
  | EIO => 5
  | EISCONN => 127
  | EISDIR => 21
  | ELOOP => 92
  | EMFILE => 24
  | EMLINK => 31
  | EMSGSIZE => 122
  | EMULTIHOP => 74
  | ENAMETOOLONG => 91
  | ENETDOWN => 115
  | ENETRESET => 126
  | ENETUNREACH => 114
  | ENFILE => 23
  | ENOBUFS => 105
  | ENODATA => 61
  | ENODEV => 19
  | ENOENT => 2
  | ENOEXEC => 8
  | ENOLCK => 46
  | ENOLINK => 67
  | ENOMEM => 12
  | ENOMSG => 35
  | ENOPROTOOPT => 109
  | ENOSPC => 28
  | ENOSR => 63
  | ENOSTR => 60
  | ENOSYS => 88
  | ENOTCONN => 128
  | ENOTDIR => 20
  | ENOTEMPTY => 90
  | ENOTRECOVERABLE => 141
  | ENOTSOCK => 108
  | ENOTSUP => 134
  | ENOTTY => 25
  | ENXIO => 6
  | EOPNOTSUPP => 95
  | EOVERFLOW => 139
  | EOWNERDEAD => 142
  | EPERM => 1
  | EPIPE => 32
  | EPROTO => 71
  | EPROTONOSUPPORT => 123
  | EPROTOTYPE => 107
  | ERANGE => 34
  | EROFS => 30
  | ESPIPE => 29
  | ESRCH => 3
  | ESTALE => 133
  | ETIME => 62
  | ETIMEDOUT => 116
  | ETXTBSY => 26
  | EXDEV => 18
  end.

Coercion errno_val : errno >-> Z.

(** The one macro that is an alias. *)
Definition EWOULDBLOCK : errno := EAGAIN.

(** The cases of the [switch], in its order, and the string each returns. *)
Definition errno_cases : list (errno * string) :=
  [(E2BIG, "E2BIG"); (EACCES, "EACCES"); (EADDRINUSE, "EADDRINUSE");
   (EADDRNOTAVAIL, "EADDRNOTAVAIL"); (EAFNOSUPPORT, "EAFNOSUPPORT");
   (EAGAIN, "EAGAIN"); (EALREADY, "EALREADY"); (EBADF, "EBADF");
   (EBADMSG, "EBADMSG"); (EBUSY, "EBUSY"); (ECANCELED, "ECANCELED");
   (ECHILD, "ECHILD"); (ECONNABORTED, "ECONNABORTED");
   (ECONNREFUSED, "ECONNREFUSED"); (ECONNRESET, "ECONNRESET"); (EDEADLK, "EDEADLK");
   (EDESTADDRREQ, "EDESTADDRREQ"); (EDOM, "EDOM"); (EDQUOT, "EDQUOT");
   (EEXIST, "EEXIST"); (EFAULT, "EFAULT"); (EFBIG, "EFBIG");
   (EHOSTUNREACH, "EHOSTUNREACH"); (EIDRM, "EIDRM"); (EILSEQ, "EILSEQ");
   (EINPROGRESS, "EINPROGRESS"); (EINTR, "EINTR"); (EINVAL, "EINVAL"); (EIO, "EIO");
   (EISCONN, "EISCONN"); (EISDIR, "EISDIR"); (ELOOP, "ELOOP"); (EMFILE, "EMFILE");
   (EMLINK, "EMLINK"); (EMSGSIZE, "EMSGSIZE"); (EMULTIHOP, "EMULTIHOP");
   (ENAMETOOLONG, "ENAMETOOLONG"); (ENETDOWN, "ENETDOWN"); (ENETRESET, "ENETRESET");
   (ENETUNREACH, "ENETUNREACH"); (ENFILE, "ENFILE"); (ENOBUFS, "ENOBUFS");
   (ENODATA, "ENODATA"); (ENODEV, "ENODEV"); (ENOENT, "ENOENT");
   (ENOEXEC, "ENOEXEC"); (ENOLCK, "ENOLCK"); (ENOLINK, "ENOLINK");
   (ENOMEM, "ENOMEM"); (ENOMSG, "ENOMSG"); (ENOPROTOOPT, "ENOPROTOOPT");
   (ENOSPC, "ENOSPC"); (ENOSR, "ENOSR"); (ENOSTR, "ENOSTR"); (ENOSYS, "ENOSYS");
   (ENOTCONN, "ENOTCONN"); (ENOTDIR, "ENOTDIR"); (ENOTEMPTY, "ENOTEMPTY");
   (ENOTRECOVERABLE, "ENOTRECOVERABLE"); (ENOTSOCK, "ENOTSOCK");
   (ENOTSUP, "ENOTSUP"); (ENOTTY, "ENOTTY"); (ENXIO, "ENXIO");
   (EOPNOTSUPP, "EOPNOTSUPP"); (EOVERFLOW, "EOVERFLOW"); (EOWNERDEAD, "EOWNERDEAD");
   (EPERM, "EPERM"); (EPIPE, "EPIPE"); (EPROTO, "EPROTO");
   (EPROTONOSUPPORT, "EPROTONOSUPPORT"); (EPROTOTYPE, "EPROTOTYPE");
   (ERANGE, "ERANGE"); (EROFS, "EROFS"); (ESPIPE, "ESPIPE"); (ESRCH, "ESRCH");
   (ESTALE, "ESTALE"); (ETIME, "ETIME"); (ETIMEDOUT, "ETIMEDOUT");
   (ETXTBSY, "ETXTBSY"); (EXDEV, "EXDEV")]%string.

(** [errno_name]: the string of the first matching case, [nullptr] when there is none. *)
Fixpoint switch_errno (cs : list (errno * string)) (n : Z) : option string :=
  match cs with
  | [] => None
  | (e, s) :: cs => if n =? errno_val e then Some s else switch_errno cs n
  end.

Definition errno_name (n : Z) : option string := switch_errno errno_cases n.

(** The error number a string names. *)
Fixpoint find_errno (cs : list (errno * string)) (s : string) : option errno :=
  match cs with
  | [] => None
  | (e, s') :: cs => if bool_decide (s = s') then Some e else find_errno cs s
  end.

Lemma switch_errno_Some cs n s :
  switch_errno cs n = Some s -> exists e, (e, s) ∈ cs /\ n = errno_val e.
Proof.
  induction cs as [|[e s'] cs IH]; simpl; [done|]. case_test; intros E0.
  - simplify_eq. exists e. split; [left|done].
  - destruct (IH E0) as (e' & ? & ?). exists e'. split; [by right|done].
Qed.

(** The macro with a given value. *)
Definition errno_of (n : Z) : option errno :=
  s ← errno_name n; find_errno errno_cases s.

Lemma errno_of_val e : errno_of (errno_val e) = Some e.
Proof. destruct e; vm_compute; reflexivity. Qed.

Lemma errno_cases_total e : exists s, (e, s) ∈ errno_cases.
Proof.
  pose proof (errno_of_val e) as H. unfold errno_of in H.
  destruct (errno_name (errno_val e)) as [s|] eqn:E; [|done].
  apply switch_errno_Some in E as (e' & Hs & Ev).
  pose proof (errno_of_val e') as H'. rewrite <-Ev, errno_of_val in H'.
  exists s. by simplify_eq.
Qed.

(** A check of all cases by computation. *)
Lemma errno_cases_check (f : errno -> string -> bool) :
  forallb (fun c => f c.1 c.2) errno_cases = true ->
  forall e s, (e, s) ∈ errno_cases -> f e s = true.
Proof.
  intros H e s Hin. rewrite forallb_forall in H.
  apply (H (e, s)). by apply list_elem_of_In.
Qed.

Lemma errno_cases_name e s : (e, s) ∈ errno_cases -> errno_name (errno_val e) = Some s.
Proof.
  intros H. apply (bool_decide_eq_true_1 _).
  revert e s H. apply (errno_cases_check (fun e s => bool_decide (errno_name (errno_val e) = Some s))).
  vm_compute. reflexivity.
Qed.

Lemma errno_cases_find e s : (e, s) ∈ errno_cases -> find_errno errno_cases s = Some e.
Proof.
  intros H. destruct (errno_of_val e). unfold errno_of.
  by rewrite (errno_cases_name _ _ H).
Qed.

(** [errno_name] gives each macro of the header its own name and nothing to
    any other number, and every value is positive and fits in a byte, so that a
    negated error number is never mistaken for success. *)
Lemma errno_name_faithful :
  (forall e s, (e, s) ∈ errno_cases -> errno_name (errno_val e) = Some s) /\
  (forall n, is_Some (errno_name n) <-> exists e, n = errno_val e) /\
  (forall e1 e2, errno_name (errno_val e1) = errno_name (errno_val e2) -> e1 = e2) /\
  (forall e, 0 < errno_val e < 256).
Proof.
  split_and!; [apply errno_cases_name|..].
  - intros n. split.
    + intros [s (e & _ & ->)%switch_errno_Some]. by exists e.
    + intros [e ->]. destruct (errno_cases_total e) as [s Hs].
      rewrite (errno_cases_name _ _ Hs). by eexists.
  - intros e1 e2. destruct (errno_cases_total e1) as [s1 H1], (errno_cases_total e2) as [s2 H2].
    rewrite (errno_cases_name _ _ H1), (errno_cases_name _ _ H2). intros [= <-].
    apply errno_cases_find in H1, H2. congruence.
  - intros e. by destruct e.
Qed.
