(* ===== verification/Str.v ===== *)
(** * C strings: [src/utils/str.c]

    [char] is unsigned on RISC-V. *)

From S2P Require Import Prelude.
From S2P Require Import Mem.

(** [*p] for a [const char *p]. *)
Definition char_at (m : mem) (p : Z) : Z := byte.unsigned (m !!! p).

Definition str_cmp (m : mem) (lhs rhs : Z) : option Z :=
  while (fun '(lhs, rhs) =>
           if negb (char_at m lhs =? 0) && (char_at m lhs =? char_at m rhs)
           then inl (lhs + 1, rhs + 1)
           else inr (char_at m lhs - char_at m rhs))
        (lhs, rhs).

Definition str_len (m : mem) (str : Z) : option Z :=
  while (fun '(str, len) =>
           if negb (char_at m str =? 0) then inl (str + 1, u64 (len + 1)) else inr len)
        (str, 0).

(** ** Specification *)

(** The NUL-terminated string at [p]. *)
Fixpoint cstr (m : mem) (p : Z) (s : list byte) : Prop :=
  match s with
  | [] => char_at m p = 0
  | c :: s => m !!! p = c /\ byte.unsigned c <> 0 /\ cstr m (p + 1) s
  end.

(** The difference of the first characters that differ, the end of a string
    counting as 0. *)
Fixpoint cmp_spec (s t : list byte) : Z :=
  match s, t with
  | [], [] => 0
  | [], c :: _ => - byte.unsigned c
  | c :: _, [] => byte.unsigned c
  | c :: s, d :: t =>
      if byte.unsigned c =? byte.unsigned d then cmp_spec s t
      else byte.unsigned c - byte.unsigned d
  end.

Lemma cstr_char m p c s : cstr m p (c :: s) -> char_at m p = byte.unsigned c.
Proof. intros (H & _). unfold char_at. by rewrite H. Qed.

Lemma str_len_spec m p s :
  cstr m p s -> Z.of_nat (length s) < 2 ^ 64 -> str_len m p = Some (Z.of_nat (length s)).
Proof.
  intros Hs Hl. unfold str_len.
  edestruct (while_rule
    (fun '(str, len) => if negb (char_at m str =? 0) then inl (str + 1, u64 (len + 1)) else inr len)
    (fun k '(q, len) => exists t, cstr m q t /\ k = Z.of_nat (length t) /\ 0 <= len /\
                        len + k = Z.of_nat (length s))
    (fun len => len = Z.of_nat (length s))) as (r & -> & ->); [..|done].
  - intros k [q len] (t & Ht & -> & Hlen & E). destruct t as [|c t].
    + simpl in Ht. rewrite Ht. simpl in *. lia.
    + rewrite (cstr_char _ _ _ _ Ht). destruct Ht as (_ & Hc & Ht).
      apply Z.eqb_neq in Hc. rewrite Hc. simpl negb. cbv iota.
      exists (Z.of_nat (length t)). simpl in E. split; [simpl; lia|].
      exists t. rewrite u64_small by lia. split_and!; [done..|lia|lia].
  - exists s. split_and!; [done..|lia|lia].
  - lia.
Qed.

Lemma str_cmp_spec m p q s t :
  cstr m p s -> cstr m q t -> Z.of_nat (length s) < 2 ^ 64 ->
  str_cmp m p q = Some (cmp_spec s t).
Proof.
  intros Hs Ht Hl. unfold str_cmp.
  edestruct (while_rule
    (fun '(lhs, rhs) =>
       if negb (char_at m lhs =? 0) && (char_at m lhs =? char_at m rhs)
       then inl (lhs + 1, rhs + 1) else inr (char_at m lhs - char_at m rhs))
    (fun k '(p, q) => exists s' t', cstr m p s' /\ cstr m q t' /\ k = Z.of_nat (length s') /\
                        cmp_spec s' t' = cmp_spec s t)
    (fun r => r = cmp_spec s t)) as (r & -> & ->); [..|done].
  - intros k [p' q'] (s' & t' & Hs' & Ht' & -> & <-).
    destruct s' as [|c s'].
    { simpl in Hs'. rewrite Hs'. simpl. destruct t' as [|d t'].
      - simpl in Ht'. by rewrite Ht'.
      - by rewrite (cstr_char _ _ _ _ Ht'). }
    rewrite (cstr_char _ _ _ _ Hs'). destruct Hs' as (_ & Hc & Hs').
    rewrite (proj2 (Z.eqb_neq _ _) Hc). simpl negb. rewrite andb_true_l.
    destruct t' as [|d t'].
    { simpl in Ht'. rewrite Ht', (proj2 (Z.eqb_neq _ _) Hc). simpl. lia. }
    rewrite (cstr_char _ _ _ _ Ht'). destruct Ht' as (_ & _ & Ht'). simpl cmp_spec.
    case_test; [|done]. exists (Z.of_nat (length s')). split; [simpl; lia|].
    by exists s', t'.
  - by exists s, t.
  - lia.
Qed.

Lemma byte_unsigned_range b : 0 <= byte.unsigned b < 256.
Proof. pose proof (byte.unsigned_range b) as H. lia. Qed.

Lemma cmp_spec_zero s t :
  Forall (fun c => byte.unsigned c <> 0) s -> Forall (fun c => byte.unsigned c <> 0) t ->
  cmp_spec s t = 0 <-> s = t.
Proof.
  intros Hs. revert t. induction Hs as [|c s Hc Hs IH]; intros t Ht;
    destruct Ht as [|d t Hd Ht]; simpl.
  - done.
  - split; [lia|done].
  - split; [lia|done].
  - case_test.
    + apply byte.unsigned_inj in E. subst. rewrite IH by done. naive_solver.
    + split; [lia|congruence].
Qed.

Lemma cmp_spec_antisym s t : cmp_spec t s = - cmp_spec s t.
Proof.
  revert t. induction s as [|c s IH]; intros [|d t]; simpl; try lia.
  rewrite (Z.eqb_sym (byte.unsigned d)). case_test; [apply IH|lia].
Qed.

Lemma cstr_nonzero m p s : cstr m p s -> Forall (fun c => byte.unsigned c <> 0) s.
Proof.
  revert p. induction s as [|c s IH]; intros p H; [constructor|].
  destruct H as (_ & Hc & H). constructor; eauto.
Qed.

(** [s] comes before [t] in the dictionary order of unsigned bytes: they agree on
    a common prefix, after which [s] ends and [t] does not, or the next character
    of [s] is the smaller one. *)
Definition lex_lt (s t : list byte) : Prop :=
  exists l,
    (exists d t', s = l /\ t = l ++ d :: t') \/
    (exists c s' d t', s = l ++ c :: s' /\ t = l ++ d :: t' /\ byte.unsigned c < byte.unsigned d).

Lemma lex_lt_nil_l t : t <> [] -> lex_lt [] t.
Proof. destruct t as [|d t]; [done|]. exists []. left. by exists d, t. Qed.

Lemma lex_lt_cons c s t : lex_lt s t -> lex_lt (c :: s) (c :: t).
Proof.
  intros (l & [(d & t' & -> & ->)|(a & s' & d & t' & -> & -> & H)]); exists (c :: l).
  - left. by exists d, t'.
  - right. by exists a, s', d, t'.
Qed.

Lemma lex_lt_head c d s t : byte.unsigned c < byte.unsigned d -> lex_lt (c :: s) (d :: t).
Proof. exists []. right. by exists c, s, d, t. Qed.

(** The sign of the difference is the dictionary order. *)
Lemma cmp_spec_app l s t : cmp_spec (l ++ s) (l ++ t) = cmp_spec s t.
Proof. induction l as [|c l IH]; simpl; [done|]. by rewrite Z.eqb_refl. Qed.

Lemma cmp_spec_lt s t :
  Forall (fun c => byte.unsigned c <> 0) s -> Forall (fun c => byte.unsigned c <> 0) t ->
  cmp_spec s t < 0 <-> lex_lt s t.
Proof.
  intros Hs Ht. split.
  - revert t Ht. induction Hs as [|c s Hc Hs IH]; intros t Ht;
      destruct Ht as [|d t Hd Ht]; simpl.
    + lia.
    + intros _. by apply lex_lt_nil_l.
    + pose proof (byte_unsigned_range c). lia.
    + case_test.
      * apply byte.unsigned_inj in E. subst. intros H. by apply lex_lt_cons, IH.
      * intros H. apply lex_lt_head. lia.
  - intros (l & [(d & t' & -> & ->)|(c & s' & d & t' & -> & -> & H)]).
    + rewrite <-(app_nil_r l) at 1. rewrite cmp_spec_app. simpl.
      apply Forall_app in Ht as [_ Ht]. apply Forall_cons in Ht as [Hd _].
      pose proof (byte_unsigned_range d). lia.
    + rewrite cmp_spec_app. simpl. case_test; lia.
Qed.

(** C26. On NUL-terminated strings shorter than 2^64 bytes [str_len] and [str_cmp]
    terminate; the length is that of the string, and the comparison is negative
    exactly when the first string comes before the second in the dictionary order
    of unsigned bytes, positive exactly when it comes after, and 0 exactly when
    they are equal. *)
Theorem str_utils_correct m p q s t :
  cstr m p s -> cstr m q t ->
  Z.of_nat (length s) < 2 ^ 64 -> Z.of_nat (length t) < 2 ^ 64 ->
  str_len m p = Some (Z.of_nat (length s)) /\
  exists r, str_cmp m p q = Some r /\ str_cmp m q p = Some (- r) /\
    (r < 0 <-> lex_lt s t) /\ (r > 0 <-> lex_lt t s) /\ (r = 0 <-> s = t).
Proof.
  intros Hs Ht Hl Hl'. split; [by apply str_len_spec|].
  pose proof (cstr_nonzero _ _ _ Hs). pose proof (cstr_nonzero _ _ _ Ht).
  exists (cmp_spec s t). split_and!.
  - by apply str_cmp_spec.
  - rewrite <-cmp_spec_antisym. by apply str_cmp_spec.
  - by apply cmp_spec_lt.
  - rewrite <-cmp_spec_lt, (cmp_spec_antisym s t) by done. lia.
  - by apply cmp_spec_zero.
Qed.

(** The strings [ab] at 16 and [b] at 32. *)
Definition demo_strings : mem :=
  write_bytes (write_bytes ∅ 16 [Init.Byte.x61; Init.Byte.x62]) 32 [Init.Byte.x62].

Lemma str_utils_correct_witness :
  str_len demo_strings 16 = Some 2 /\
  exists r, str_cmp demo_strings 16 32 = Some r /\ str_cmp demo_strings 32 16 = Some (- r) /\
            (r < 0 <-> lex_lt [Init.Byte.x61; Init.Byte.x62] [Init.Byte.x62]) /\
            (r > 0 <-> lex_lt [Init.Byte.x62] [Init.Byte.x61; Init.Byte.x62]) /\
            (r = 0 <-> [Init.Byte.x61; Init.Byte.x62] = [Init.Byte.x62]).
Proof. apply (str_utils_correct demo_strings 16 32 [Init.Byte.x61; Init.Byte.x62] [Init.Byte.x62]); done. Defined.
