(* ===== verification/Pages.v ===== *)
(** * The interface between the page allocator and its clients

    [include/mm/page_alloc.h] as a class: the two operations and what they
    promise.  The clients (kmalloc, virtual memory, the ELF loader, processes)
    are modelled over any page allocator and verified against these laws; the
    file PageAlloc shows that [src/mm/page_alloc.c] satisfies them. *)

From S2P Require Import Prelude.
From S2P Require Import Mem.
From S2P Require Import Layout.

Class PageAllocator := {
  (** [page_alloc()] and [page_free(ptr)] *)
  pa_alloc : mem -> mem * Z;
  pa_free : mem -> Z -> mem;
  (** the addresses it may hand out *)
  pa_page : Z -> Prop;
  (** the bytes of its own variables *)
  pa_static : Z -> Prop;
  (** its state: the free pages, in the order they will be handed out *)
  pa_pool : mem -> list Z -> Prop;
}.

(** The bytes the allocator owns while [ps] are the free pages. *)
Definition pa_own `{PA : PageAllocator} (ps : list Z) (a : Z) : Prop :=
  pa_static a \/ exists p, p ∈ ps /\ inrng p PAGE_SIZE a.

Class PageAllocatorOk (PA : PageAllocator) : Prop := {
  pa_page_aligned p : pa_page p -> page_aligned p;
  pa_page_bounds p : pa_page p -> 0 < p /\ p + PAGE_SIZE <= 2 ^ 32;
  pa_page_static p a : pa_page p -> inrng p PAGE_SIZE a -> ~ pa_static a;
  pa_pool_pages m ps : pa_pool m ps -> NoDup ps /\ Forall pa_page ps;
  pa_pool_unch F m m' ps :
    pa_pool m ps -> unch F m m' -> (forall a, pa_own ps a -> ~ F a) -> pa_pool m' ps;
  pa_alloc_nil m : pa_pool m [] -> pa_alloc m = (m, nullptr);
  pa_alloc_cons m p ps :
    pa_pool m (p :: ps) ->
    exists m', pa_alloc m = (m', p) /\ pa_pool m' ps /\ unch (pa_own (p :: ps)) m m';
  pa_free_null m : pa_free m nullptr = m;
  pa_free_page m p ps :
    pa_pool m ps -> pa_page p -> p ∉ ps ->
    pa_pool (pa_free m p) (ps ++ [p]) /\ unch (pa_own (p :: ps)) m (pa_free m p);
}.

Section own.
Context `{PA : PageAllocator}.

Lemma pa_own_cons p ps a : pa_own (p :: ps) a <-> inrng p PAGE_SIZE a \/ pa_own ps a.
Proof. unfold pa_own. set_solver. Qed.

Lemma pa_own_mono ps qs a : (forall p, p ∈ ps -> p ∈ qs) -> pa_own ps a -> pa_own qs a.
Proof. unfold pa_own. set_solver. Qed.
End own.

Section pages.
Context `{PA : PageAllocator} {PAOK : PageAllocatorOk PA}.

(** A page that is not free shares no byte with the allocator. *)
Lemma pa_own_page ps p a :
  Forall pa_page ps -> pa_page p -> p ∉ ps -> inrng p PAGE_SIZE a -> ~ pa_own ps a.
Proof.
  intros HF Hp Hn Ha [Hs|(q & Hq & Hb)]; [by eapply pa_page_static|].
  rewrite Forall_forall in HF. apply Hn.
  assert (p = q) as ->; [|done].
  eapply page_aligned_inj; eauto using pa_page_aligned.
Qed.

Lemma pa_page_nonnull p : pa_page p -> p <> nullptr.
Proof. intros Hp. pose proof (pa_page_bounds p Hp). unfold nullptr. lia. Qed.
End pages.
