(* ===== verification/PageAlloc.v ===== *)
(** * The page allocator: [src/mm/page_alloc.c]

    Free pages are linked into [free_list] through a [list_node_t] at the start
    of each page; allocation takes the first page, freeing appends. *)

From S2P Require Import Prelude.
From S2P Require Import Mem.
From S2P Require Import DList.
From S2P Require Import Layout.
From S2P Require Import Pages.

Section page_alloc.
Context `{L : Layout}.

(** [static i32 init(void)]: the loop pushes every page of the heap. *)
Definition page_alloc_init (m : mem) : option (mem * Z) :=
  while (fun '(m, node) =>
           if node <? sym_heap_start + KHEAP_SIZE
           then inl (list_push_back m sym_free_list node, node + PAGE_SIZE)
           else inr (m, 0))
        (m, sym_heap_start).

Definition page_alloc (m : mem) : mem * Z :=
  if list_empty m sym_free_list then (m, nullptr)
  else let res := list_front m sym_free_list in
       (list_pop_front m sym_free_list, res).

Definition page_free (m : mem) (ptr : Z) : mem :=
  if ptr =? nullptr then m
  else list_push_back m sym_free_list ptr.

(** The free pages of a memory. *)
Definition free_pages (m : mem) (ps : list Z) : Prop :=
  dlist m sym_free_list ps /\ Forall heap_page ps.

(** All pages of the heap, in address order. *)
Definition all_pages : list Z :=
  (fun i => sym_heap_start + i * PAGE_SIZE) <$> seqZ 0 (KHEAP_SIZE / PAGE_SIZE).
End page_alloc.

#[export] Instance karg_pages `{L : Layout} : PageAllocator := {|
  pa_alloc := page_alloc;
  pa_free := page_free;
  pa_page := heap_page;
  pa_static := inrng sym_free_list NODE_SIZE;
  pa_pool := free_pages;
|}.

Section proofs.
Context `{L : Layout} {LOK : LayoutOk L}.

Lemma free_list_bounds :
  BOOT_ENTRY_BASE <= sym_free_list /\ sym_free_list + NODE_SIZE <= sym_heap_start.
Proof. apply (static_bounds (sym_free_list, NODE_SIZE)). set_solver. Qed.

(** Distinct pages of the heap and [free_list] are disjoint nodes. *)
Lemma pages_nodes_ok ps :
  NoDup ps -> Forall heap_page ps -> nodes_ok (sym_free_list :: ps).
Proof.
  intros HN HF. pose proof free_list_bounds as HB. pose proof heap_bounds as HH.
  unfold BOOT_ENTRY_BASE, NODE_SIZE in HB. unfold KHEAP_SIZE in HH. rewrite Forall_forall in HF.
  split; [split|].
  - apply Forall_fmap, Forall_forall. intros p [_ Hp]%HF.
    unfold NODE_SIZE in *. rng.
  - induction HN as [|p ps Hp HN IH]; [done|].
    split; [|apply IH; intros; apply HF; by right].
    apply Forall_fmap, Forall_forall. intros q Hq. simpl.
    destruct (page_aligned_sep p q) as [->|Hd]; [apply HF; left|apply HF; by right|done|].
    unfold PAGE_SIZE, NODE_SIZE in *. rng.
  - constructor; [unfold addr_ok, NODE_SIZE in *; lia|].
    apply Forall_forall. intros p Hp%HF%heap_page_bounds.
    unfold addr_ok, NODE_SIZE, PAGE_SIZE in *. lia.
Qed.

Lemma in_nodes_own ps a :
  in_nodes (sym_free_list :: ps) a -> pa_own ps a.
Proof.
  intros (x & [->|Hx]%elem_of_cons & Ha); [by left|right].
  exists x. split; [done|]. unfold NODE_SIZE, PAGE_SIZE in *. rng.
Qed.

Lemma free_pages_NoDup m ps : free_pages m ps -> NoDup ps.
Proof. intros [HD%dlist_nodes_ok%nodes_ok_NoDup _]. by apply NoDup_cons in HD as [_ ?]. Qed.

Lemma push_page_spec m p ps :
  free_pages m ps -> heap_page p -> p ∉ ps ->
  free_pages (list_push_back m sym_free_list p) (ps ++ [p]) /\
  unch (pa_own (p :: ps)) m (list_push_back m sym_free_list p).
Proof.
  intros HP Hp Hn. pose proof (free_pages_NoDup _ _ HP) as HN. destruct HP as [HD HF].
  assert (nodes_ok (p :: sym_free_list :: ps)) as HS.
  { eapply nodes_ok_Proper; [apply Permutation_swap|]. apply pages_nodes_ok; by constructor. }
  destruct (list_push_back_dlist m sym_free_list ps p) as [HD' HU]; [done..|].
  split; [split; [done|]|].
  - apply Forall_app. split; [done|]. by constructor.
  - eapply unch_mono; [|exact HU]. intros a Ha. apply in_nodes_own.
    destruct Ha as (x & Hx & Ha). exists x. set_solver.
Qed.

Lemma page_free_spec m p ps :
  free_pages m ps -> heap_page p -> p ∉ ps ->
  free_pages (page_free m p) (ps ++ [p]) /\
  unch (pa_own (p :: ps)) m (page_free m p).
Proof.
  intros HP Hp Hn. unfold page_free. destruct (p =? nullptr) eqn:E; bool_to_prop.
  - apply heap_page_bounds in Hp. unfold nullptr in E. lia.
  - by apply push_page_spec.
Qed.

Lemma page_alloc_cons m p ps :
  free_pages m (p :: ps) ->
  exists m', page_alloc m = (m', p) /\ free_pages m' ps /\ unch (pa_own (p :: ps)) m m'.
Proof.
  intros [HD HF]. exists (list_pop_front m sym_free_list). unfold page_alloc.
  rewrite (list_empty_spec _ _ _ HD), bool_decide_eq_false_2 by done.
  rewrite (list_front_spec _ _ _ HD). split; [done|].
  apply list_pop_front_dlist in HD as [HD HU]. split; [split; [done|by inversion HF]|].
  eapply unch_mono; [|done]. intros a Ha%in_nodes_own.
  apply (pa_own_mono ps); [|done]. intros q Hq. by right.
Qed.

Lemma page_alloc_nil m : free_pages m [] -> page_alloc m = (m, nullptr).
Proof. intros [HD _]. unfold page_alloc. by rewrite (list_empty_spec _ _ _ HD). Qed.

#[export] Instance karg_pages_ok : PageAllocatorOk karg_pages.
Proof.
  split; simpl.
  - by intros p [? _].
  - apply heap_page_bounds.
  - intros p a [_ Hp] Ha Hs. pose proof free_list_bounds. unfold NODE_SIZE in *. rng.
  - intros m ps HP. split; [by eapply free_pages_NoDup|by destruct HP].
  - intros F m m' ps [HD HF] HU HO. split; [|done].
    eapply dlist_unch; [done..|]. intros x a Hx Ha. apply HO, in_nodes_own. by exists x.
  - apply page_alloc_nil.
  - apply page_alloc_cons.
  - done.
  - apply page_free_spec.
Qed.

(** ** Initialisation *)

Definition first_pages (n : Z) : list Z :=
  (fun i => sym_heap_start + i * PAGE_SIZE) <$> seqZ 0 n.

Lemma first_pages_succ n :
  0 <= n -> first_pages (n + 1) = first_pages n ++ [sym_heap_start + n * PAGE_SIZE].
Proof. intros Hn. unfold first_pages. by rewrite seqZ_app, fmap_app by lia. Qed.

Lemma first_pages_elem n p :
  p ∈ first_pages n <-> exists i, p = sym_heap_start + i * PAGE_SIZE /\ 0 <= i < n.
Proof.
  unfold first_pages. rewrite list_elem_of_fmap.
  setoid_rewrite elem_of_seqZ. split; intros (i & ? & ?); exists i; split; auto; lia.
Qed.

Lemma heap_page_nth i : 0 <= i < 2048 -> heap_page (sym_heap_start + i * PAGE_SIZE).
Proof.
  intros Hi. pose proof heap_aligned as HA. unfold page_aligned in HA.
  split; [|unfold KHEAP_SIZE, PAGE_SIZE; lia].
  unfold page_aligned. rewrite Z.mod_add by done. done.
Qed.

Lemma page_alloc_init_spec m :
  dlist m sym_free_list [] ->
  exists m', page_alloc_init m = Some (m', 0) /\ free_pages m' all_pages /\
             unch (pa_own all_pages) m m'.
Proof.
  intros HD. change all_pages with (first_pages 2048).
  edestruct (while_rule
    (fun '(m, node) =>
       if node <? sym_heap_start + KHEAP_SIZE
       then inl (list_push_back m sym_free_list node, node + PAGE_SIZE)
       else inr (m, 0))
    (fun k '(m', node) => exists i, 0 <= i <= 2048 /\ k = 2048 - i /\
       node = sym_heap_start + i * PAGE_SIZE /\ free_pages m' (first_pages i) /\
       unch (pa_own (first_pages 2048)) m m')
    (fun '(m', r) => r = 0 /\ free_pages m' (first_pages 2048) /\
       unch (pa_own (first_pages 2048)) m m')
    ) with (k := 2048) (s := (m, sym_heap_start)) as ([m' r] & Hr & -> & HP & HU).
  - intros k [m' node] (i & Hi & -> & -> & HP & HU).
    destruct (_ <? _) eqn:E; bool_to_prop; unfold KHEAP_SIZE, PAGE_SIZE in E.
    + destruct (push_page_spec m' (sym_heap_start + i * PAGE_SIZE) (first_pages i))
        as [HP' HU']; [done|apply heap_page_nth; lia| |].
      { intros (j & Hj & ?)%first_pages_elem. unfold PAGE_SIZE in Hj. lia. }
      exists (2048 - (i + 1)). split; [lia|]. exists (i + 1).
      rewrite first_pages_succ by lia. split_and!; [lia..|done|]. etrans; [exact HU|].
      eapply unch_mono; [|exact HU']. intros a. apply pa_own_mono.
      intros p [->|(j & -> & ?)%first_pages_elem]%elem_of_cons; apply first_pages_elem;
        eexists; split; [done|lia|done|lia].
    + assert (i = 2048) as -> by lia. done.
  - exists 0. split_and!; [lia..| |split|done]; [unfold PAGE_SIZE; lia|done|constructor].
  - lia.
  - exists m'. done.
Qed.

(** ** Any use of the allocator

    A run of the allocator by arbitrary clients: they allocate, free pages they
    hold, and write whatever they like to the pages they hold. *)
Inductive pages_step : mem * list Z -> mem * list Z -> Prop :=
| step_alloc m own m' p :
    page_alloc m = (m', p) -> p <> nullptr -> pages_step (m, own) (m', p :: own)
| step_alloc_fail m own m' :
    page_alloc m = (m', nullptr) -> pages_step (m, own) (m', own)
| step_free m own own' p :
    own ≡ₚ p :: own' -> pages_step (m, own) (page_free m p, own')
| step_write m m' own :
    unch (fun a => exists p, p ∈ own /\ inrng p PAGE_SIZE a) m m' ->
    pages_step (m, own) (m', own).

Definition pages_inv (s : mem * list Z) : Prop :=
  exists ps, free_pages s.1 ps /\ s.2 ++ ps ≡ₚ all_pages.

Lemma all_pages_NoDup : NoDup all_pages.
Proof.
  apply NoDup_fmap_2; [|apply NoDup_seqZ].
  intros i j. unfold PAGE_SIZE. lia.
Qed.

Lemma all_pages_heap : Forall heap_page all_pages.
Proof.
  apply Forall_forall. intros p (i & -> & Hi)%(first_pages_elem 2048).
  by apply heap_page_nth.
Qed.

Lemma pages_inv_split own ps :
  own ++ ps ≡ₚ all_pages ->
  Forall heap_page own /\ Forall heap_page ps /\ (forall p, p ∈ own -> p ∉ ps).
Proof.
  intros HP. pose proof all_pages_heap as HF. pose proof all_pages_NoDup as HN.
  rewrite <-HP in HF, HN. apply Forall_app in HF as [? ?].
  apply NoDup_app in HN as (_ & HN & _). done.
Qed.

Lemma pages_step_inv s s' : pages_step s s' -> pages_inv s -> pages_inv s'.
Proof.
  intros Hs (ps & HP & Hperm). unfold pages_inv.
  destruct Hs as [m own m' p Ha Hp|m own m' Ha|m own own' p Ho|m m' own Hw]; simpl in *.
  - destruct ps as [|q ps]; [rewrite page_alloc_nil in Ha by done; simplify_eq|].
    destruct (page_alloc_cons m q ps HP) as (m1 & E & HP' & _).
    rewrite Ha in E. simplify_eq. exists ps. split; [done|].
    by rewrite <-Hperm, Permutation_middle.
  - destruct ps as [|q ps].
    { rewrite page_alloc_nil in Ha by done. simplify_eq. by exists []. }
    destruct (page_alloc_cons m q ps HP) as (m1 & E & HP' & _).
    rewrite Ha in E. simplify_eq. destruct HP as [_ HP]. apply Forall_cons in HP as [HP _].
    apply heap_page_bounds in HP. unfold nullptr in HP. lia.
  - destruct (pages_inv_split _ _ Hperm) as (HF & _ & HD).
    rewrite Ho in HF. apply Forall_cons in HF as [Hp _].
    exists (ps ++ [p]). split.
    + apply page_free_spec; [done..|]. apply HD. rewrite Ho. left.
    + rewrite <-Hperm, Ho. rewrite app_assoc, (Permutation_app_comm _ [p]). done.
  - destruct (pages_inv_split _ _ Hperm) as (HF & HF' & HD). exists ps. split; [|done].
    refine (pa_pool_unch _ _ _ _ (HP : pa_pool m ps) Hw _).
    intros a Ha (p & Hp & Hr). rewrite Forall_forall in HF.
    refine (pa_own_page ps p a HF' _ _ Hr Ha); [by apply HF|by apply HD].
Qed.

Lemma pages_steps_inv s s' : rtc pages_step s s' -> pages_inv s -> pages_inv s'.
Proof. induction 1; eauto using pages_step_inv. Qed.

(** C10. After [init], in every run of allocations, frees and writes to owned
    pages, the pages handed out are distinct pages of the heap, and the next
    [page_alloc] returns a page that nobody holds as long as fewer than 2048
    pages are held, and null exactly when all 2048 are. *)
Theorem page_alloc_run m0 :
  dlist m0 sym_free_list [] ->
  exists m1, page_alloc_init m0 = Some (m1, 0) /\
  forall m own, rtc pages_step (m1, []) (m, own) ->
    NoDup own /\ Forall heap_page own /\ (length own <= 2048)%nat /\
    let p := (page_alloc m).2 in
    (p = nullptr <-> length own = 2048%nat) /\
    (p <> nullptr -> heap_page p /\ p ∉ own).
Proof.
  intros HD. destruct (page_alloc_init_spec m0 HD) as (m1 & E & HP & _). exists m1. split; [done|].
  intros m own Hr. destruct (pages_steps_inv _ _ Hr) as (ps & HP' & HPm); [by exists all_pages|].
  simpl in *. destruct (pages_inv_split _ _ HPm) as (HF & HF' & HX).
  pose proof (Permutation_length HPm) as HL. rewrite length_app in HL.
  assert (length all_pages = 2048%nat) as HA by (unfold all_pages; by rewrite length_fmap, length_seqZ).
  pose proof all_pages_NoDup as HN. rewrite <-HPm in HN. apply NoDup_app in HN as (HN & _ & _).
  split_and!; [done..|lia| |].
  - destruct ps as [|p ps]; [rewrite page_alloc_nil by done; simpl in *; split; [lia|done]|].
    destruct (page_alloc_cons m p ps HP') as (m' & -> & _). simpl in *.
    apply Forall_cons in HF' as [Hp _]. apply heap_page_bounds in Hp.
    unfold nullptr. split; lia.
  - destruct ps as [|p ps]; [by rewrite page_alloc_nil|].
    destruct (page_alloc_cons m p ps HP') as (m' & -> & _). intros _. simpl in *.
    apply Forall_cons in HF' as [Hp _]. split; [done|]. intros Ho. apply (HX p Ho). left.
Qed.
End proofs.

(** ** Concrete memories, for the layout of the [virt] platform *)

Module Boot.
#[export] Existing Instance virt_layout.
#[export] Existing Instance virt_layout_ok.

(** The image's static list heads. *)
Definition boot_mem : mem := list_init_head (list_init_head ∅ sym_free_list) sym_block_list.

Lemma boot_mem_lists : dlist boot_mem sym_free_list [] /\ dlist boot_mem sym_block_list [].
Proof.
  destruct (list_init_head_dlist ∅ sym_free_list) as [HD _]; [done|].
  destruct (list_init_head_dlist (list_init_head ∅ sym_free_list) sym_block_list)
    as [HD' HU]; [done|].
  split; [|done]. eapply dlist_unch; [exact HD|exact HU|].
  intros x a ->%list_elem_of_singleton Ha Hb. unfold inrng, NODE_SIZE in *. simpl in *. lia.
Qed.

(** The first [n] pages of the heap are free. *)
Definition boot_pages (n : nat) : mem :=
  fold_left (fun m p => page_free m p) (first_pages (Z.of_nat n)) boot_mem.

Lemma boot_pages_free n :
  Z.of_nat n <= 2048 -> free_pages (boot_pages n) (first_pages (Z.of_nat n)).
Proof.
  unfold boot_pages. induction n as [|n IH]; intros Hn.
  - split; [apply boot_mem_lists|constructor].
  - rewrite Nat2Z.inj_succ, <-Z.add_1_r, first_pages_succ, fold_left_app by lia.
    apply page_free_spec; [apply IH; lia|apply heap_page_nth; lia|].
    intros (j & Hj & ?)%first_pages_elem. unfold PAGE_SIZE in Hj. lia.
Qed.

Lemma page_alloc_run_witness :
  exists m1, page_alloc_init boot_mem = Some (m1, 0) /\
  forall m own, rtc pages_step (m1, []) (m, own) -> NoDup own.
Proof.
  destruct (page_alloc_run boot_mem (proj1 boot_mem_lists)) as (m1 & E & H).
  exists m1. split; [exact E|]. intros m own Hr. exact (proj1 (H m own Hr)).
Defined.
End Boot.
