(* ===== verification/Kalloc.v ===== *)
(** * The kernel heap: [src/mm/kalloc.c]

    Blocks of memory, each with a 32-byte [block_header_t] in front, linked in
    [block_list].  [kmalloc] is first fit with splitting, [kfree] merges a
    block with its free neighbours in the list when they are adjacent in
    memory.  The code is modelled over the flat memory and over any page
    allocator; it is shown to refine operations on a list of blocks, on which
    the properties of the heap are then proved. *)

From S2P Require Import Prelude.
From S2P Require Import Mem.
From S2P Require Import DList.
From S2P Require Import Layout.
From S2P Require Import Pages.

(** ** [block_header_t] *)

(** [sizeof(block_header_t)]: [node] at 0, [allocated] at 16, [size] at 24. *)
Definition HEADER_SIZE : Z := 32.

Definition blk_allocated (m : mem) (b : Z) : bool := negb (load 1 m (b + 16) =? 0).
Definition blk_size (m : mem) (b : Z) : Z := load 8 m (b + 24).
Definition set_allocated (m : mem) (b : Z) (v : bool) : mem := store 1 m (b + 16) (Z.b2z v).
Definition set_size (m : mem) (b v : Z) : mem := store 8 m (b + 24) v.

(** ** The code *)

Section code.
Context `{L : Layout} `{PA : PageAllocator}.

(** The search of [kmalloc]: the first block that is free and large enough, or
    the list head. *)
Definition kmalloc_find (m : mem) (size : Z) : option Z :=
  list_for_each_entry m sym_block_list 0
    (fun block => if negb (blk_allocated m block) && (size <=? blk_size m block)
                  then Some block else None)
    (fun block => block).

(** The end of [kmalloc]: take [block], splitting off what it does not need. *)
Definition kmalloc_take (m : mem) (block size : Z) : mem * Z :=
  let m := set_allocated m block true in
  let m :=
    if HEADER_SIZE <? u64 (blk_size m block - size) then
      let rem_block := block + size in
      let m := set_allocated m rem_block false in
      let m := set_size m rem_block (u64 (blk_size m block - size)) in
      let m := list_insert m (next m block) rem_block in
      set_size m block size
    else m in
  (m, block + HEADER_SIZE).

Definition kmalloc (m : mem) (size : Z) : option (mem * Z) :=
  let size := u64 (size + HEADER_SIZE) in
  if PAGE_SIZE <? size then Some (m, nullptr)
  else
    block ← kmalloc_find m size;
    if block =? sym_block_list then
      let '(m, block) := pa_alloc m in
      if block =? nullptr then Some (m, nullptr)
      else
        let m := set_allocated m block false in
        let m := set_size m block PAGE_SIZE in
        let m := list_push_back m sym_block_list block in
        Some (kmalloc_take m block size)
    else Some (kmalloc_take m block size).

Definition kcalloc (m : mem) (size n : Z) : option (mem * Z) :=
  let size := u64 (size * n) in
  '(m, res) ← kmalloc m size;
  if res =? nullptr then Some (m, res)
  else Some (mem_set m res Init.Byte.x00 size, res).

(** The two halves of [kfree]: merging with the previous and the next block. *)
Definition kfree_prev (m : mem) (curr : Z) : mem * Z :=
  if negb (list_is_front m sym_block_list curr) then
    let prv := list_entry (prev m curr) 0 in
    if negb (blk_allocated m prv) && (prv + blk_size m prv =? curr) then
      let m := set_size m prv (u64 (blk_size m prv + blk_size m curr)) in
      (list_remove m curr, prv)
    else (m, curr)
  else (m, curr).

Definition kfree_next (m : mem) (curr : Z) : mem :=
  if negb (list_is_back m sym_block_list curr) then
    let nxt := list_entry (next m curr) 0 in
    if negb (blk_allocated m nxt) && (curr + blk_size m curr =? nxt) then
      let m := set_size m curr (u64 (blk_size m curr + blk_size m nxt)) in
      list_remove m nxt
    else m
  else m.

Definition kfree (m : mem) (ptr : Z) : mem :=
  if ptr =? nullptr then m
  else
    let curr := ptr - HEADER_SIZE in
    let m := set_allocated m curr false in
    let '(m, curr) := kfree_prev m curr in
    kfree_next m curr.
End code.

(** ** The abstract heap: a list of blocks *)

Record block := mkBlock { b_addr : Z; b_size : Z; b_alloc : bool }.

#[export] Instance block_eq_dec : EqDecision block.
Proof. solve_decision. Defined.

Definition fits (size : Z) (b : block) : bool := negb (b_alloc b) && (size <=? b_size b).

(** Cut an allocation of [size] bytes from the front of a block. *)
Definition split_block (size : Z) (b : block) : list block :=
  if HEADER_SIZE <? b_size b - size
  then [mkBlock (b_addr b) size true; mkBlock (b_addr b + size) (b_size b - size) false]
  else [mkBlock (b_addr b) (b_size b) true].

(** First fit; the result is the new list and the address of the block taken. *)
Fixpoint first_fit (size : Z) (bs : list block) : option (list block * Z) :=
  match bs with
  | [] => None
  | b :: bs =>
      if fits size b then Some (split_block size b ++ bs, b_addr b)
      else match first_fit size bs with
           | Some (bs', a) => Some (b :: bs', a)
           | None => None
           end
  end.

Definition set_free (b : block) : block := mkBlock (b_addr b) (b_size b) false.

(** Merge the free block [c] into [b] if that is free and ends where [c] starts. *)
Definition merge (b c : block) : option block :=
  if negb (b_alloc b) && (b_addr b + b_size b =? b_addr c)
  then Some (mkBlock (b_addr b) (b_size b + b_size c) (b_alloc b)) else None.

Definition merge_next (b : block) (l2 : list block) : list block :=
  match l2 with
  | [] => [b]
  | c :: l2' =>
      if negb (b_alloc c) && (b_addr b + b_size b =? b_addr c)
      then mkBlock (b_addr b) (b_size b + b_size c) (b_alloc b) :: l2'
      else b :: c :: l2'
  end.

(** Free [b], which stands between [l1] and [l2]; [l1] is given in reverse. *)
Definition free_block (rl1 : list block) (b : block) (l2 : list block) : list block :=
  match rl1 with
  | [] => merge_next (set_free b) l2
  | a :: rl1' =>
      match merge a (set_free b) with
      | Some ab => rev rl1' ++ merge_next ab l2
      | None => rev rl1 ++ merge_next (set_free b) l2
      end
  end.

(** ** Representation *)

Definition hdr_ok (m : mem) (b : block) : Prop :=
  blk_allocated m (b_addr b) = b_alloc b /\ blk_size m (b_addr b) = b_size b.

Definition hdr_rngs (bs : list block) : list (Z * Z) := (fun b => (b_addr b, HEADER_SIZE)) <$> bs.

(** [khdrs m h bs]: the headers of [bs] are linked from [h], in this order, and
    hold the sizes and flags of [bs]. *)
Definition khdrs (m : mem) (h : Z) (bs : list block) : Prop :=
  dlist m h (b_addr <$> bs) /\ Forall (hdr_ok m) bs /\
  seps ((h, NODE_SIZE) :: hdr_rngs bs) /\
  Forall (fun b => addr_ok HEADER_SIZE (b_addr b)) bs.

(** The bytes of the list head and of the headers. *)
Definition in_hdrs (h : Z) (bs : list block) (a : Z) : Prop :=
  inrng h NODE_SIZE a \/ exists b, b ∈ bs /\ inrng (b_addr b) HEADER_SIZE a.

Section steps.
Context (h : Z).

Lemma hdrs_sep bs b c :
  seps ((h, NODE_SIZE) :: hdr_rngs bs) -> b ∈ bs -> c ∈ bs ->
  b_addr b = b_addr c \/ disj (b_addr b) HEADER_SIZE (b_addr c) HEADER_SIZE.
Proof.
  intros [_ HS] Hb Hc.
  destruct (seps_elem _ (b_addr b, HEADER_SIZE) (b_addr c, HEADER_SIZE) HS) as [E|E].
  1,2: apply list_elem_of_fmap; eauto.
  - left. congruence.
  - by right.
Qed.

Lemma hdrs_head_sep bs b :
  seps ((h, NODE_SIZE) :: hdr_rngs bs) -> b ∈ bs -> disj h NODE_SIZE (b_addr b) HEADER_SIZE.
Proof.
  intros [HF _] Hb. unfold hdr_rngs in HF. rewrite Forall_fmap, Forall_forall in HF.
  apply (HF b Hb).
Qed.

Lemma hdrs_mid_sep l1 b l2 c :
  seps ((h, NODE_SIZE) :: hdr_rngs (l1 ++ b :: l2)) -> c ∈ l1 ++ l2 ->
  disj (b_addr b) HEADER_SIZE (b_addr c) HEADER_SIZE.
Proof.
  intros [_ HS] Hc. unfold hdr_rngs in HS. rewrite <-Permutation_middle in HS.
  destruct HS as [HF _]. rewrite Forall_fmap, Forall_forall in HF. apply (HF c Hc).
Qed.

(** Headers that are separated are separated nodes. *)
Lemma hdrs_nodes_ok bs :
  seps ((h, NODE_SIZE) :: hdr_rngs bs) -> addr_ok NODE_SIZE h ->
  Forall (fun b => addr_ok HEADER_SIZE (b_addr b)) bs -> nodes_ok (h :: (b_addr <$> bs)).
Proof.
  intros HS Hh HF. split.
  - eapply seps_mono; [|exact HS]. constructor; [unfold subrng; simpl; lia|].
    clear. induction bs; constructor; auto. unfold subrng, NODE_SIZE, HEADER_SIZE. simpl. lia.
  - constructor; [done|]. apply Forall_fmap. eapply Forall_impl; [exact HF|].
    intros b [? ?]. unfold addr_ok, NODE_SIZE, HEADER_SIZE in *. simpl. lia.
Qed.

Lemma khdrs_head m bs : khdrs m h bs -> addr_ok NODE_SIZE h.
Proof.
  intros [HD _]. apply dlist_nodes_ok in HD as [_ HD]. by apply Forall_cons in HD as [? _].
Qed.

Lemma hdr_ok_unch F m m' b :
  hdr_ok m b -> unch F m m' ->
  (forall a, inrng (b_addr b + 16) 16 a -> ~ F a) -> hdr_ok m' b.
Proof.
  intros [HA HS] HU HF. unfold hdr_ok, blk_allocated, blk_size in *.
  rewrite (load_unch F 1 m m'), (load_unch F 8 m m'); [done|done| |done|];
    intros x Hx; apply HF; rng.
Qed.

(** Writing outside the headers. *)
Lemma khdrs_unch F m m' bs :
  khdrs m h bs -> unch F m m' -> (forall a, in_hdrs h bs a -> ~ F a) -> khdrs m' h bs.
Proof.
  intros (HD & HH & HS & HA) HU HF. split_and!; [| |done..].
  - eapply dlist_unch; [done..|]. intros x a Hx Ha. apply HF.
    apply elem_of_cons in Hx as [->|(b & -> & Hb)%list_elem_of_fmap]; [by left|right].
    exists b. split; [done|]. unfold NODE_SIZE, HEADER_SIZE in *. rng.
  - rewrite Forall_forall in *. intros b Hb.
    eapply hdr_ok_unch; [by apply HH|done|]. intros a Ha. apply HF. right.
    exists b. split; [done|]. unfold HEADER_SIZE. rng.
Qed.

(** Writing the two fields of one header. *)
Lemma khdrs_set_field m m' l1 b b' l2 :
  khdrs m h (l1 ++ b :: l2) -> b_addr b' = b_addr b ->
  unch (inrng (b_addr b + 16) 16) m m' -> hdr_ok m' b' ->
  khdrs m' h (l1 ++ b' :: l2).
Proof.
  intros (HD & HH & HS & HA) Eb HU HB.
  assert (hdr_rngs (l1 ++ b' :: l2) = hdr_rngs (l1 ++ b :: l2)) as Er.
  { unfold hdr_rngs. rewrite !fmap_app, !fmap_cons. by rewrite Eb. }
  assert (forall c, c ∈ l1 ++ l2 -> hdr_ok m' c) as HO.
  { intros c Hc. rewrite Forall_forall in HH.
    eapply hdr_ok_unch; [apply HH; set_solver|done|]. intros a Ha Hb.
    pose proof (hdrs_mid_sep _ _ _ c HS Hc) as HF.
    unfold HEADER_SIZE in HF. rng. }
  split_and!.
  - assert (b_addr <$> l1 ++ b' :: l2 = b_addr <$> l1 ++ b :: l2) as ->.
    { rewrite !fmap_app, !fmap_cons. by rewrite Eb. }
    eapply dlist_unch; [done..|]. intros x a Hx Ha Hb.
    apply elem_of_cons in Hx as [->|(c & -> & Hc)%list_elem_of_fmap].
    + pose proof (hdrs_head_sep _ b HS ltac:(set_solver)) as Hd.
      unfold NODE_SIZE, HEADER_SIZE in *. rng.
    + destruct (hdrs_sep _ b c HS) as [Eq|Hd]; [set_solver|done|..].
      * unfold NODE_SIZE in Ha. rng.
      * unfold NODE_SIZE, HEADER_SIZE in *. rng.
  - apply Forall_app. split; [|constructor; [done|]];
      apply Forall_forall; intros c Hc; apply HO; set_solver.
  - by rewrite Er.
  - apply Forall_app in HA as [? HA]. apply Forall_cons in HA as [? ?].
    apply Forall_app. split; [done|]. constructor; [by rewrite Eb|done].
Qed.

Lemma khdrs_set_size m l1 b l2 s :
  khdrs m h (l1 ++ b :: l2) -> 0 <= s < 2 ^ 64 ->
  khdrs (set_size m (b_addr b) s) h (l1 ++ mkBlock (b_addr b) s (b_alloc b) :: l2).
Proof.
  intros HK Hs. eapply khdrs_set_field; [exact HK|done|..].
  - eapply unch_mono; [|apply store_unch]. rng.
  - destruct HK as (_ & HH & _). apply Forall_app in HH as [_ HH].
    apply Forall_cons in HH as [[HA _] _].
    unfold hdr_ok, blk_size, blk_allocated, set_size in *. simpl.
    rewrite load8_store8, u64_small by done.
    rewrite load_store_ne by rng. done.
Qed.

Lemma khdrs_set_alloc m l1 b l2 v :
  khdrs m h (l1 ++ b :: l2) ->
  khdrs (set_allocated m (b_addr b) v) h (l1 ++ mkBlock (b_addr b) (b_size b) v :: l2).
Proof.
  intros HK. eapply khdrs_set_field; [exact HK|done|..].
  - eapply unch_mono; [|apply store_unch]. rng.
  - destruct HK as (_ & HH & _). apply Forall_app in HH as [_ HH].
    apply Forall_cons in HH as [[_ HS] _].
    unfold hdr_ok, blk_size, blk_allocated, set_allocated in *. simpl.
    rewrite load1_store1, load_store_ne by rng. by destruct v.
Qed.

(** The fields of a header are not in the nodes. *)
Lemma hdr_field_not_node bs b a :
  seps ((h, NODE_SIZE) :: hdr_rngs bs) -> b ∈ bs -> inrng (b_addr b + 16) 16 a ->
  ~ in_nodes (h :: (b_addr <$> bs)) a.
Proof.
  intros HS Hb Ha (x & Hx & Hx').
  apply elem_of_cons in Hx as [->|(c & -> & Hc)%list_elem_of_fmap].
  - pose proof (hdrs_head_sep bs b HS Hb). unfold NODE_SIZE, HEADER_SIZE in *. rng.
  - destruct (hdrs_sep bs b c HS Hb Hc) as [E|Hd]; unfold NODE_SIZE, HEADER_SIZE in *; rng.
Qed.

Lemma in_nodes_hdrs bs a : in_nodes (h :: (b_addr <$> bs)) a -> in_hdrs h bs a.
Proof.
  intros (x & Hx & Ha).
  apply elem_of_cons in Hx as [->|(c & -> & Hc)%list_elem_of_fmap]; [by left|right].
  exists c. split; [done|]. unfold NODE_SIZE, HEADER_SIZE in *. rng.
Qed.

Lemma in_hdrs_mono bs bs' a : (forall b, b ∈ bs -> b ∈ bs') -> in_hdrs h bs a -> in_hdrs h bs' a.
Proof. intros HB [?|(b & ? & ?)]; [by left|right; eauto]. Qed.

(** Linking a header in before the first block of [l2]. *)
Lemma khdrs_insert m l1 r l2 :
  khdrs m h (l1 ++ l2) -> hdr_ok m r -> addr_ok HEADER_SIZE (b_addr r) ->
  seps ((h, NODE_SIZE) :: hdr_rngs (l1 ++ r :: l2)) ->
  let m' := list_insert m (hd h (b_addr <$> l2)) (b_addr r) in
  khdrs m' h (l1 ++ r :: l2) /\ unch (in_hdrs h (l1 ++ r :: l2)) m m'.
Proof.
  intros HK Hr Ar HS m'. pose proof (khdrs_head _ _ HK) as Hh.
  destruct HK as (HD & HH & _ & HA).
  assert (Forall (fun b => addr_ok HEADER_SIZE (b_addr b)) (l1 ++ r :: l2)) as HA'.
  { rewrite <-Permutation_middle. by constructor. }
  pose proof (hdrs_nodes_ok _ HS Hh HA') as HN.
  rewrite fmap_app in HD. rewrite fmap_app, fmap_cons in HN.
  destruct (list_insert_dlist m h (b_addr <$> l1) (b_addr <$> l2) (b_addr r)) as [HD' HU]; [done|..].
  { eapply nodes_ok_Proper; [symmetry; apply perm_swap_middle|exact HN]. }
  assert (unch (in_nodes (h :: (b_addr <$> l1 ++ r :: l2))) m m') as HU'.
  { eapply unch_mono; [|exact HU]. intros a (x & Hx & Ha). exists x. split; [|done].
    rewrite fmap_app, fmap_cons. set_solver. }
  split; [split_and!|]; [| |done..|].
  - by rewrite fmap_app, fmap_cons.
  - apply Forall_forall. intros c Hc. eapply hdr_ok_unch; [|exact HU'|].
    + rewrite Forall_forall in HH. set_solver.
    + intros a Ha. by eapply hdr_field_not_node.
  - eapply unch_mono; [|exact HU']. apply in_nodes_hdrs.
Qed.

Lemma khdrs_remove m l1 b l2 :
  khdrs m h (l1 ++ b :: l2) ->
  khdrs (list_remove m (b_addr b)) h (l1 ++ l2) /\
  unch (in_hdrs h (l1 ++ l2)) m (list_remove m (b_addr b)).
Proof.
  intros (HD & HH & HS & HA). rewrite fmap_app, fmap_cons in HD.
  apply list_remove_dlist in HD as [HD HU]. rewrite <-fmap_app in HD, HU.
  assert (seps ((h, NODE_SIZE) :: hdr_rngs (l1 ++ l2))) as HS'.
  { unfold hdr_rngs in *. rewrite <-Permutation_middle in HS. rewrite fmap_cons in HS.
    rewrite (Permutation_swap) in HS. by destruct HS as [_ HS]. }
  rewrite <-Permutation_middle in HH, HA.
  apply Forall_cons in HH as [_ HH]. apply Forall_cons in HA as [_ HA].
  split; [split_and!|]; [done| |done..|].
  - rewrite Forall_forall in *. intros c Hc. eapply hdr_ok_unch; [by apply HH|exact HU|].
    intros a Ha. by eapply hdr_field_not_node.
  - eapply unch_mono; [|exact HU]. apply in_nodes_hdrs.
Qed.

(** Neighbours in the list. *)
Lemma khdrs_next m l1 b l2 :
  khdrs m h (l1 ++ b :: l2) -> next m (b_addr b) = hd h (b_addr <$> l2).
Proof. intros (HD & _). rewrite fmap_app, fmap_cons in HD. by eapply dlist_next. Qed.

Lemma khdrs_prev m l1 c b l2 :
  khdrs m h (l1 ++ c :: b :: l2) -> prev m (b_addr b) = b_addr c.
Proof.
  intros ([HC _] & _). rewrite fmap_app, !fmap_cons, <-app_assoc in HC. simpl in HC.
  change (chain m ((h :: (b_addr <$> l1)) ++ b_addr c :: b_addr b :: (b_addr <$> l2) ++ [h])) in HC.
  by apply chain_link in HC as (_ & [_ ?] & _).
Qed.

Lemma khdrs_is_front m l1 b l2 :
  khdrs m h (l1 ++ b :: l2) ->
  list_is_front m h (b_addr b) = match l1 with [] => true | _ => false end.
Proof.
  intros HK. destruct HK as (HD & _ & HS & _). unfold list_is_front.
  pose proof (list_front_spec _ _ _ HD) as HF. unfold list_front in HF. rewrite HF.
  destruct l1 as [|c l1]; simpl; [apply Z.eqb_refl|]. apply Z.eqb_neq. intros E.
  pose proof (hdrs_mid_sep (c :: l1) b l2 c HS ltac:(set_solver)).
  unfold HEADER_SIZE in *. rng.
Qed.

Lemma khdrs_is_back m l1 b l2 :
  khdrs m h (l1 ++ b :: l2) ->
  list_is_back m h (b_addr b) = match l2 with [] => true | _ => false end.
Proof.
  intros HK. destruct HK as (HD & _ & HS & _). unfold list_is_back.
  pose proof (list_back_spec _ _ _ HD) as HF. unfold list_back in HF. rewrite HF.
  rewrite fmap_app, fmap_cons.
  destruct l2 as [|c l2 _] using rev_ind; [simpl; rewrite List.last_last; apply Z.eqb_refl|].
  rewrite fmap_app, fmap_cons. rewrite app_comm_cons, app_assoc, List.last_last.
  destruct (l2 ++ [c]) eqn:E'; [by destruct l2|rewrite <-E' in *; clear E'].
  apply Z.eqb_neq. intros E.
  pose proof (hdrs_mid_sep l1 b (l2 ++ [c]) c HS ltac:(set_solver)).
  unfold HEADER_SIZE in *. rng.
Qed.

(** Reading a header. *)
Lemma khdrs_hdr m bs b : khdrs m h bs -> b ∈ bs -> hdr_ok m b.
Proof. intros (_ & HH & _) Hb. rewrite Forall_forall in HH. auto. Qed.

Lemma khdrs_size_range m bs b : khdrs m h bs -> b ∈ bs -> 0 <= b_size b < 2 ^ 64.
Proof. intros HK Hb. destruct (khdrs_hdr _ _ _ HK Hb) as [_ <-]. apply load8_range. Qed.
End steps.

(** ** Blocks that do not overlap *)

Definition blk_rngs (bs : list block) : list (Z * Z) := (fun b => (b_addr b, b_size b)) <$> bs.

Definition block_ok (b : block) : Prop :=
  0 < b_addr b /\ HEADER_SIZE <= b_size b /\ b_addr b + b_size b <= 2 ^ 64.

Definition blocks_ok (h : Z) (bs : list block) : Prop :=
  Forall block_ok bs /\ seps ((h, NODE_SIZE) :: blk_rngs bs).

(** The heap in memory: linked headers of blocks that do not overlap. *)
Definition kheap (m : mem) (h : Z) (bs : list block) : Prop :=
  khdrs m h bs /\ blocks_ok h bs.

#[export] Instance blocks_ok_Proper h : Proper ((≡ₚ) ==> iff) (blocks_ok h).
Proof. intros bs bs' HP. unfold blocks_ok, blk_rngs. by rewrite HP. Qed.

Section blocks.
Context (h : Z).

Lemma blocks_ok_cons b bs :
  blocks_ok h (b :: bs) <->
  block_ok b /\ disj h NODE_SIZE (b_addr b) (b_size b) /\
  (forall c, c ∈ bs -> disj (b_addr b) (b_size b) (b_addr c) (b_size c)) /\ blocks_ok h bs.
Proof.
  unfold blocks_ok, blk_rngs. rewrite fmap_cons. cbn [seps].
  rewrite !Forall_cons, !Forall_fmap, !Forall_forall. simpl. naive_solver.
Qed.

Lemma blocks_ok_mid l1 b l2 :
  blocks_ok h (l1 ++ b :: l2) <->
  block_ok b /\ disj h NODE_SIZE (b_addr b) (b_size b) /\
  (forall c, c ∈ l1 ++ l2 -> disj (b_addr b) (b_size b) (b_addr c) (b_size c)) /\
  blocks_ok h (l1 ++ l2).
Proof. rewrite <-Permutation_middle. apply blocks_ok_cons. Qed.

Lemma blocks_ok_elem bs b : blocks_ok h bs -> b ∈ bs -> block_ok b.
Proof. intros [HF _] Hb. rewrite Forall_forall in HF. auto. Qed.

Lemma blocks_ok_hdrs bs :
  blocks_ok h bs ->
  seps ((h, NODE_SIZE) :: hdr_rngs bs) /\
  Forall (fun b => addr_ok HEADER_SIZE (b_addr b)) bs.
Proof.
  intros [HF HS]. split.
  - eapply seps_mono; [|exact HS]. constructor; [unfold subrng; simpl; lia|].
    clear HS. induction HF as [|b bs (? & ? & ?) HF IH]; constructor; auto. rng.
  - eapply Forall_impl; [exact HF|]. intros b (? & ? & ?). unfold addr_ok, HEADER_SIZE in *. lia.
Qed.

(** No header lies inside the payload of a block. *)
Lemma payload_not_hdr bs b a :
  blocks_ok h bs -> b ∈ bs -> inrng (b_addr b + HEADER_SIZE) (b_size b - HEADER_SIZE) a ->
  ~ in_hdrs h bs a.
Proof.
  intros HB Hb Ha. apply list_elem_of_split in Hb as (l1 & l2 & ->).
  pose proof HB as HB'. apply blocks_ok_mid in HB' as ((? & ? & ?) & Hh & HD & _).
  intros [Hn|(c & Hc & Hr)]; unfold NODE_SIZE, HEADER_SIZE in *; [rng|].
  pose proof (blocks_ok_elem _ c HB Hc) as (? & ? & ?). unfold HEADER_SIZE in *.
  apply elem_of_app in Hc as [Hc|[->|Hc]%elem_of_cons]; [|rng|].
  all: specialize (HD c ltac:(set_solver)); rng.
Qed.

Lemma blocks_ok_split l1 b l2 size :
  blocks_ok h (l1 ++ b :: l2) -> HEADER_SIZE <= size <= b_size b ->
  blocks_ok h (l1 ++ split_block size b ++ l2).
Proof.
  intros (Hb & Hh & HD & HB)%blocks_ok_mid Hs. unfold split_block.
  destruct Hb as (? & ? & ?). unfold HEADER_SIZE in *.
  case_test; simpl; apply blocks_ok_mid; simpl.
  - split_and!; [unfold block_ok, HEADER_SIZE; simpl; rng|rng| |].
    + intros c Hc. rewrite elem_of_app, elem_of_cons in Hc.
      destruct Hc as [Hc|[->|Hc]]; simpl; [|rng|]; specialize (HD c ltac:(set_solver)); rng.
    + apply blocks_ok_mid. simpl.
      split_and!; [unfold block_ok, HEADER_SIZE; simpl; rng|rng| |done].
      intros c Hc. specialize (HD c Hc). rng.
  - by split_and!; [unfold block_ok, HEADER_SIZE; simpl; rng| | |].
Qed.

Lemma blocks_ok_flag l1 b l2 v :
  blocks_ok h (l1 ++ b :: l2) -> blocks_ok h (l1 ++ mkBlock (b_addr b) (b_size b) v :: l2).
Proof. rewrite !blocks_ok_mid. done. Qed.

Lemma blocks_ok_merge l1 b c l2 v :
  blocks_ok h (l1 ++ b :: c :: l2) -> b_addr b + b_size b = b_addr c ->
  blocks_ok h (l1 ++ mkBlock (b_addr b) (b_size b + b_size c) v :: l2).
Proof.
  intros (Hb & Hh & HD & HB)%blocks_ok_mid E.
  apply blocks_ok_mid in HB as (Hc & Hh' & HD' & HB).
  pose proof Hb as (? & ? & ?). pose proof Hc as (? & ? & ?).
  unfold HEADER_SIZE, NODE_SIZE in *.
  apply blocks_ok_mid. simpl. split_and!; [..|done].
  - unfold block_ok, HEADER_SIZE. simpl. lia.
  - unfold NODE_SIZE. rng.
  - intros d Hd. pose proof (blocks_ok_elem _ d HB Hd) as (? & ? & ?).
    specialize (HD d ltac:(set_solver)). specialize (HD' d Hd). unfold HEADER_SIZE in *. rng.
Qed.

Lemma first_fit_Some size bs bs' a :
  first_fit size bs = Some (bs', a) ->
  exists l1 b l2, bs = l1 ++ b :: l2 /\ fits size b = true /\
    Forall (fun c => fits size c = false) l1 /\
    bs' = l1 ++ split_block size b ++ l2 /\ a = b_addr b.
Proof.
  revert bs'. induction bs as [|b bs IH]; simpl; [done|]. intros bs' E.
  destruct (fits size b) eqn:Ef.
  - simplify_eq. by exists [], b, bs.
  - destruct (first_fit size bs) as [[bs1 a1]|]; simplify_eq.
    destruct (IH _ eq_refl) as (l1 & c & l2 & -> & ? & ? & -> & ->).
    exists (b :: l1), c, l2. split_and!; auto.
Qed.

Lemma first_fit_None size bs :
  first_fit size bs = None -> Forall (fun c => fits size c = false) bs.
Proof.
  induction bs as [|b bs IH]; simpl; [constructor|].
  destruct (fits size b) eqn:E; [done|].
  destruct (first_fit size bs) as [[? ?]|]; [done|]. intros _. constructor; auto.
Qed.
End blocks.

(** The bytes the heap may write: list head, headers, free blocks. *)
Definition kown (h : Z) (bs : list block) (a : Z) : Prop :=
  in_hdrs h bs a \/ exists b, b ∈ bs /\ b_alloc b = false /\ inrng (b_addr b) (b_size b) a.

Lemma kown_mono h bs bs' a : (forall b, b ∈ bs -> b ∈ bs') -> kown h bs a -> kown h bs' a.
Proof.
  intros HB [?|(b & ? & ?)]; [left; by eapply in_hdrs_mono|right; eauto].
Qed.

(** ** [kmalloc] refines first fit *)

Lemma kmalloc_find_spec `{L : Layout} m bs size :
  khdrs m sym_block_list bs ->
  kmalloc_find m size =
  Some (match first_fit size bs with Some (_, a) => a | None => sym_block_list end).
Proof.
  intros (HD & HH & _). unfold kmalloc_find.
  rewrite (list_for_each_entry_spec _ _ _ _ _ _ HD). f_equal. clear HD.
  rewrite Z.sub_0_r. induction HH as [|b bs [HA HS] HH IH]; [done|].
  rewrite fmap_cons. cbn [first_entry first_fit]. rewrite Z.sub_0_r, HA, HS. fold (fits size b).
  destruct (fits size b); [done|]. rewrite IH. by destruct (first_fit size bs) as [[? ?]|].
Qed.

Section take.
Context (h : Z) (m : mem) (l1 l2 : list block) (b : block) (size : Z).
Hypothesis HK : kheap m h (l1 ++ b :: l2).
Hypothesis Hfree : b_alloc b = false.
Hypothesis Hsize : HEADER_SIZE <= size <= b_size b.

(** The header of the remainder, written into the free block. *)
Lemma take_rem_header m1 :
  khdrs m1 h (l1 ++ mkBlock (b_addr b) (b_size b) true :: l2) ->
  HEADER_SIZE < b_size b - size ->
  let r := mkBlock (b_addr b + size) (b_size b - size) false in
  let m3 := set_size (set_allocated m1 (b_addr r) false) (b_addr r) (b_size r) in
  khdrs m3 h (l1 ++ mkBlock (b_addr b) (b_size b) true :: l2) /\ hdr_ok m3 r /\
  unch (inrng (b_addr b) (b_size b)) m1 m3.
Proof.
  intros HK1 Hr r m3. destruct HK as [_ HB]. apply (blocks_ok_flag _ _ _ _ true) in HB.
  assert (unch (inrng (b_addr r + 16) 16) m1 m3) as HU.
  { etrans; (eapply unch_mono; [|apply store_unch]); simpl; rng. }
  split_and!.
  - eapply khdrs_unch; [exact HK1|exact HU|]. intros a Ha Hin. revert Ha.
    eapply (payload_not_hdr h); [exact HB|apply elem_of_app; right; left|].
    unfold HEADER_SIZE in *. rng.
  - assert (0 <= b_size b - size < 2 ^ 64).
    { pose proof (khdrs_size_range _ _ _ (mkBlock (b_addr b) (b_size b) true) HK1
        ltac:(set_solver)). unfold HEADER_SIZE in *. simpl in *. lia. }
    unfold hdr_ok, m3, blk_allocated, blk_size, set_size, set_allocated. simpl.
    rewrite load8_store8, u64_small by done.
    rewrite load_store_ne, load1_store1 by rng. done.
  - eapply unch_mono; [|exact HU]. unfold HEADER_SIZE in *. rng.
Qed.

Lemma kmalloc_take_spec :
  let '(m', r) := kmalloc_take m (b_addr b) size in
  r = b_addr b + HEADER_SIZE /\ kheap m' h (l1 ++ split_block size b ++ l2) /\
  unch (kown h (l1 ++ b :: l2)) m m'.
Proof.
  destruct HK as [HH HB]. pose proof (blocks_ok_split h l1 b l2 size HB Hsize) as HB'.
  pose proof (khdrs_size_range _ _ _ b HH ltac:(set_solver)) as Hrange.
  unfold kmalloc_take. cbv zeta.
  pose proof (khdrs_set_alloc h m l1 b l2 true HH) as H1.
  assert (unch (kown h (l1 ++ b :: l2)) m (set_allocated m (b_addr b) true)) as U1.
  { eapply unch_mono; [|apply store_unch]. intros a Ha. left. right. exists b.
    unfold HEADER_SIZE. split; [set_solver|rng]. }
  set (m1 := set_allocated m (b_addr b) true) in *.
  assert (blk_size m1 (b_addr b) = b_size b) as E1.
  { apply (khdrs_hdr _ _ _ (mkBlock (b_addr b) (b_size b) true) H1). set_solver. }
  rewrite E1, u64_small by (unfold HEADER_SIZE in *; lia).
  split; [done|]. unfold kheap, split_block in *.
  destruct (HEADER_SIZE <? b_size b - size) eqn:E; bool_to_prop; [|done].
  destruct (take_rem_header m1 H1 E) as (H3 & Hr & U3). simpl in Hr, H3, U3.
  assert (blk_size (set_allocated m1 (b_addr b + size) false) (b_addr b) = b_size b) as E2.
  { unfold blk_size, set_allocated. rewrite load_store_ne; [done|].
    unfold HEADER_SIZE in *. rng. }
  rewrite E2, u64_small by (unfold HEADER_SIZE in *; lia).
  set (m3 := set_size (set_allocated m1 _ _) _ _) in *.
  pose proof (khdrs_next h _ _ _ _ H3) as En. cbn [b_addr] in En. rewrite En.
  destruct (blocks_ok_hdrs _ _ HB') as [HS' HA'].
  set (r := mkBlock (b_addr b + size) (b_size b - size) false) in *.
  destruct (khdrs_insert h m3 (l1 ++ [mkBlock (b_addr b) (b_size b) true]) r l2)
    as [H4 U4]; [by rewrite <-app_assoc|done| | |].
  { rewrite Forall_forall in HA'. apply (HA' r). set_solver. }
  { revert HS'. unfold hdr_rngs. by rewrite <-app_assoc, !fmap_app. }
  rewrite <-app_assoc in H4, U4. simpl app in H4, U4. cbn [b_addr r] in H4, U4.
  split; [split; [|done]|].
  - apply (khdrs_set_size h _ l1 (mkBlock (b_addr b) (b_size b) true) (r :: l2) size); [done|].
    unfold HEADER_SIZE in *. lia.
  - assert (forall a, inrng (b_addr b) (b_size b) a -> kown h (l1 ++ b :: l2) a) as HW.
    { intros a Ha. right. exists b. split_and!; [set_solver|done|done]. }
    etrans; [exact U1|]. etrans; [eapply unch_mono; [exact HW|exact U3]|].
    etrans; (eapply unch_mono; [|first [exact U4|apply store_unch]]); intros a Ha.
    + destruct Ha as [Ha|(c & Hc & Ha)]; [left; by left|].
      apply elem_of_app in Hc as [Hc|[->|[->|Hc]%elem_of_cons]%elem_of_cons].
      2-3: apply HW; unfold HEADER_SIZE in *; rng.
      all: left; right; exists c; split; [set_solver|done].
    + apply HW. unfold HEADER_SIZE in *. rng.
Qed.
End take.

(** The abstract [kmalloc] on the blocks and the free pages. *)
Definition kmalloc_abs (size : Z) (bs : list block) (ps : list Z) : list block * list Z * Z :=
  if PAGE_SIZE <? size + HEADER_SIZE then (bs, ps, nullptr)
  else match first_fit (size + HEADER_SIZE) bs, ps with
       | Some (bs', a), _ => (bs', ps, a + HEADER_SIZE)
       | None, [] => (bs, [], nullptr)
       | None, p :: ps' =>
           (bs ++ split_block (size + HEADER_SIZE) (mkBlock p PAGE_SIZE false), ps',
            p + HEADER_SIZE)
       end.

Section heap.
Context `{L : Layout} `{PA : PageAllocator} {PAOK : PageAllocatorOk PA}.

(** The heap and the page allocator share no byte. *)
Definition kpool (m : mem) (bs : list block) (ps : list Z) : Prop :=
  kheap m sym_block_list bs /\ pa_pool m ps /\
  (forall b a, b ∈ bs -> inrng (b_addr b) (b_size b) a -> ~ pa_own ps a).

(** The list head is a static object that no page contains. *)
Hypothesis block_list_sep :
  forall ps a, Forall pa_page ps -> inrng sym_block_list NODE_SIZE a -> ~ pa_own ps a.

Lemma kown_not_pool m bs ps a : kpool m bs ps -> kown sym_block_list bs a -> ~ pa_own ps a.
Proof.
  intros (HK & HP & HD) [[Ha|(b & Hb & Ha)]|(b & Hb & _ & Ha)].
  - apply block_list_sep; [by eapply pa_pool_pages|done].
  - apply (HD b); [done|]. destruct HK as [_ HK].
    pose proof (blocks_ok_elem _ _ b HK Hb) as (_ & ? & _). rng.
  - by apply (HD b).
Qed.

(** Changing only heap bytes keeps the page allocator. *)
Lemma kpool_pool m m' bs ps :
  kpool m bs ps -> unch (kown sym_block_list bs) m m' -> pa_pool m' ps.
Proof.
  intros HK HU. pose proof HK as (_ & HP & _). eapply pa_pool_unch; [exact HP|exact HU|].
  intros a Ha Ho. by eapply kown_not_pool.
Qed.

Lemma split_block_sub size b c a :
  HEADER_SIZE <= size <= b_size b -> c ∈ split_block size b ->
  inrng (b_addr c) (b_size c) a -> inrng (b_addr b) (b_size b) a.
Proof.
  unfold split_block. intros Hs. case_test; intros Hc; unfold HEADER_SIZE in *.
  - apply elem_of_cons in Hc as [->|[->|Hc]%elem_of_cons]; simpl; [rng|rng|set_solver].
  - apply elem_of_cons in Hc as [->|Hc]; [done|set_solver].
Qed.

(** A page of the page allocator is disjoint from the heap. *)
Lemma page_blocks_ok m bs p ps :
  kpool m bs (p :: ps) -> blocks_ok sym_block_list (bs ++ [mkBlock p PAGE_SIZE false]).
Proof.
  intros ([_ HB] & HP & HD). destruct (pa_pool_pages _ _ HP) as [_ HF].
  pose proof HF as [Hpp _]%Forall_cons. destruct (pa_page_bounds p Hpp) as [Hp0 Hp1].
  apply blocks_ok_mid. rewrite app_nil_r. unfold PAGE_SIZE in *. split_and!; [..|done].
  - unfold block_ok, HEADER_SIZE. simpl. lia.
  - apply disj_pointwise; [done..|]. intros a Ha Hr.
    apply (block_list_sep (p :: ps) a); [done..|]. apply pa_own_cons. by left.
  - intros c Hc. apply disj_sym, disj_pointwise; [|done|].
    + pose proof (blocks_ok_elem _ _ c HB Hc) as (_ & ? & _). unfold HEADER_SIZE in *. lia.
    + intros a Ha Hr. apply (HD c a); [done..|]. apply pa_own_cons. by left.
Qed.

(** A fresh page becomes a free block at the end of the list. *)
Lemma kmalloc_grow m bs p ps :
  kpool m bs (p :: ps) ->
  exists m1, pa_alloc m = (m1, p) /\ p <> nullptr /\
    let m2 := set_size (set_allocated m1 p false) p PAGE_SIZE in
    let m3 := list_push_back m2 sym_block_list p in
    kpool m3 (bs ++ [mkBlock p PAGE_SIZE false]) ps /\
    unch (fun a => kown sym_block_list bs a \/ pa_own (p :: ps) a) m m3.
Proof.
  intros HKP. pose proof HKP as ([HH HB] & HP & HD).
  destruct (pa_pool_pages _ _ HP) as [HN HF].
  pose proof HN as [Hp HN']%NoDup_cons. pose proof HF as [Hpp HF']%Forall_cons.
  destruct (pa_alloc_cons m p ps HP) as (m1 & E & HP1 & HU1).
  exists m1. split_and!; [done|by apply pa_page_nonnull|]. intros m2 m3.
  set (b := mkBlock p PAGE_SIZE false).
  assert (forall a, in_hdrs sym_block_list bs a -> ~ pa_own (p :: ps) a) as HX.
  { intros a Ha. apply (kown_not_pool m bs); [done|by left]. }
  assert (unch (inrng p HEADER_SIZE) m1 m2) as HU2.
  { etrans; (eapply unch_mono; [|apply store_unch]); unfold HEADER_SIZE; rng. }
  assert (khdrs m2 sym_block_list bs) as H2.
  { eapply khdrs_unch; [eapply khdrs_unch; [exact HH|exact HU1|exact HX]|exact HU2|].
    intros a Ha Hr. apply (HX a Ha), pa_own_cons. left. unfold HEADER_SIZE, PAGE_SIZE in *. rng. }
  assert (hdr_ok m2 b) as Hb.
  { unfold hdr_ok, m2, blk_allocated, blk_size, set_size, set_allocated. simpl.
    rewrite load8_store8, load_store_ne, load1_store1 by rng. done. }
  pose proof (page_blocks_ok _ _ _ _ HKP : blocks_ok sym_block_list (bs ++ [b])) as HB'.
  destruct (blocks_ok_hdrs _ _ HB') as [HS' HA'].
  destruct (khdrs_insert sym_block_list m2 bs b []) as [H3 HU3]; [by rewrite app_nil_r|done| |done|].
  { rewrite Forall_forall in HA'. apply (HA' b). set_solver. }
  assert (forall a, in_hdrs sym_block_list (bs ++ [b]) a ->
            in_hdrs sym_block_list bs a \/ inrng p HEADER_SIZE a) as HI.
  { intros a [?|(c & [Hc|[->|Hc]%elem_of_cons]%elem_of_app & Ha)]; [left; by left| |by right|set_solver].
    left. right. eauto. }
  assert (forall a, inrng p HEADER_SIZE a -> ~ pa_own ps a) as HPS.
  { intros a Ha. apply (pa_own_page ps p); [done..|]. unfold HEADER_SIZE, PAGE_SIZE in *. rng. }
  split; [split_and!|].
  - split; [exact H3|exact HB'].
  - eapply pa_pool_unch; [eapply pa_pool_unch; [exact HP1|exact HU2|]|exact HU3|].
    + intros a Ha Hr. by eapply HPS.
    + intros a Ha [Hr|Hr]%HI; [|by eapply HPS].
      apply (HX a Hr). apply pa_own_cons. by right.
  - intros c a [Hc|[->|Hc]%elem_of_cons]%elem_of_app Ha Ho; [..|set_solver].
    + apply (HD c a); [done..|]. apply pa_own_cons. by right.
    + revert Ho. by apply (pa_own_page ps p).
  - etrans; [|etrans]; (eapply unch_mono; [|first [exact HU1|exact HU2|exact HU3]]).
    + tauto.
    + intros a Ha. right. apply pa_own_cons. left. unfold HEADER_SIZE, PAGE_SIZE in *. rng.
    + intros a [Ha|Ha]%HI; [left; by left|]. right. apply pa_own_cons. left.
      unfold HEADER_SIZE, PAGE_SIZE in *. rng.
Qed.

Lemma kmalloc_take_kpool m l1 b l2 ps size :
  kpool m (l1 ++ b :: l2) ps -> b_alloc b = false -> HEADER_SIZE <= size <= b_size b ->
  let '(m', r) := kmalloc_take m (b_addr b) size in
  r = b_addr b + HEADER_SIZE /\ kpool m' (l1 ++ split_block size b ++ l2) ps /\
  unch (kown sym_block_list (l1 ++ b :: l2)) m m'.
Proof.
  intros HK Hf Hs. pose proof HK as (HH & _ & HD).
  pose proof (kmalloc_take_spec sym_block_list m l1 l2 b size HH Hf Hs) as HT.
  destruct (kmalloc_take m (b_addr b) size) as [m' r]. destruct HT as (-> & HT & HU).
  split_and!; [done| |done]. split_and!; [done|by eapply kpool_pool|].
  intros c a Hc Ha. rewrite !elem_of_app in Hc. destruct Hc as [Hc|[Hc|Hc]].
  - apply (HD c); [set_solver|done].
  - apply (HD b); [set_solver|]. by eapply split_block_sub.
  - apply (HD c); [set_solver|done].
Qed.

(** The code of [kmalloc] computes [kmalloc_abs] on the represented heap, and
    writes only what the heap and the page allocator own. *)
Lemma kmalloc_refines m bs ps size :
  kpool m bs ps -> 0 <= size -> size + HEADER_SIZE < 2 ^ 64 ->
  let '(bs', ps', r) := kmalloc_abs size bs ps in
  exists m', kmalloc m size = Some (m', r) /\ kpool m' bs' ps' /\
    unch (fun a => kown sym_block_list bs a \/ pa_own ps a) m m'.
Proof.
  intros HK Hs Hs'. unfold kmalloc, kmalloc_abs.
  rewrite u64_small by (unfold HEADER_SIZE in *; lia).
  destruct (PAGE_SIZE <? size + HEADER_SIZE) eqn:Ebig; bool_to_prop; [by exists m|].
  pose proof HK as ((HH & HB) & HP & HD).
  rewrite (kmalloc_find_spec m bs _ HH). simpl.
  destruct (first_fit (size + HEADER_SIZE) bs) as [[bs' a]|] eqn:Eff.
  - apply first_fit_Some in Eff as (l1 & b & l2 & -> & Hfit & _ & -> & ->).
    unfold fits in Hfit. bool_to_prop.
    destruct (b_addr b =? sym_block_list) eqn:Eh; bool_to_prop.
    { apply blocks_ok_mid in HB as ((_ & ? & _) & Hd & _).
      unfold HEADER_SIZE, NODE_SIZE in *. rng. }
    pose proof (kmalloc_take_kpool m l1 b l2 ps (size + HEADER_SIZE) HK) as HT.
    destruct (kmalloc_take _ _ _) as [m' r]. exists m'.
    destruct HT as (-> & HT & HU); [done|unfold HEADER_SIZE in *; lia|].
    split_and!; [done..|]. eapply unch_mono; [|exact HU]. tauto.
  - rewrite Z.eqb_refl. destruct ps as [|p ps].
    { rewrite pa_alloc_nil by done. simpl. by exists m. }
    destruct (kmalloc_grow m bs p ps HK) as (m1 & E & Hp & HK3 & HU3). rewrite E.
    destruct (p =? nullptr) eqn:En; bool_to_prop; [done|].
    set (m3 := list_push_back _ _ _) in *.
    pose proof (kmalloc_take_kpool m3 bs (mkBlock p PAGE_SIZE false) [] ps
      (size + HEADER_SIZE) HK3) as HT. cbn [b_addr b_alloc b_size] in HT.
    destruct (kmalloc_take m3 p (size + HEADER_SIZE)) as [m' r]. exists m'.
    destruct HT as (-> & HT & HU); [done|unfold HEADER_SIZE in *; lia|].
    rewrite app_nil_r in HT. split_and!; [done..|].
    etrans; [exact HU3|]. eapply unch_mono; [|exact HU].
    intros a [[?|(c & Hc & Ha)]|(c & Hc & Hf & Ha)]; [left; left; by left|..];
      apply elem_of_app in Hc as [Hc|[->|Hc]%elem_of_cons]; try set_solver.
    + left. left. right. eauto.
    + right. apply pa_own_cons. left. unfold HEADER_SIZE, PAGE_SIZE in *. rng.
    + left. right. eauto.
    + right. apply pa_own_cons. by left.
Qed.
End heap.

(** ** [kfree] refines freeing with coalescing *)

Section free.
Context `{L : Layout}.
Abbreviation h := sym_block_list.

(** Merging [c] into the block [b] before it. *)
Lemma kheap_merge m l1 b c l2 :
  kheap m h (l1 ++ b :: c :: l2) -> b_addr b + b_size b = b_addr c ->
  let m' := list_remove (set_size m (b_addr b) (u64 (b_size b + b_size c))) (b_addr c) in
  kheap m' h (l1 ++ mkBlock (b_addr b) (b_size b + b_size c) (b_alloc b) :: l2) /\
  unch (in_hdrs h (l1 ++ b :: l2)) m m'.
Proof.
  intros [HH HB] E m'.
  pose proof (blocks_ok_merge h l1 b c l2 (b_alloc b) HB E) as HB'.
  assert (0 <= b_size b + b_size c < 2 ^ 64) as Hr.
  { apply blocks_ok_mid in HB' as ((? & ? & ?) & _). unfold HEADER_SIZE in *. simpl in *. lia. }
  unfold m'. rewrite u64_small by done.
  pose proof (khdrs_set_size h m l1 b (c :: l2) _ HH Hr) as H1.
  set (m1 := set_size _ _ _) in *.
  rewrite (app_assoc l1 [_] (c :: l2) : l1 ++ _ :: c :: l2 = _) in H1.
  apply khdrs_remove in H1 as [H2 HU2]. rewrite <-app_assoc in H2, HU2. simpl app in H2, HU2.
  split; [split; [exact H2|exact HB']|].
  etrans; (eapply unch_mono; [|first [exact HU2|apply store_unch]]).
  - intros a Ha. right. exists b. split; [set_solver|]. unfold HEADER_SIZE. rng.
  - intros a [?|(d & Hd & Ha)]; [by left|right].
    apply elem_of_app in Hd as [Hd|[->|Hd]%elem_of_cons].
    + exists d. set_solver.
    + exists b. split; [set_solver|done].
    + exists d. set_solver.
Qed.

Lemma kfree_next_spec m l1 b l2 :
  kheap m h (l1 ++ b :: l2) ->
  kheap (kfree_next m (b_addr b)) h (l1 ++ merge_next b l2) /\
  unch (in_hdrs h (l1 ++ b :: l2)) m (kfree_next m (b_addr b)).
Proof.
  intros HK. pose proof HK as [HH HB]. unfold kfree_next.
  rewrite (khdrs_is_back h _ _ _ _ HH). destruct l2 as [|c l2]; [done|]. simpl negb.
  rewrite (khdrs_next h _ _ _ _ HH). cbn [hd fmap list_fmap]. unfold list_entry.
  rewrite Z.sub_0_r.
  destruct (khdrs_hdr _ _ _ b HH ltac:(set_solver)) as [_ ->].
  destruct (khdrs_hdr _ _ _ c HH ltac:(set_solver)) as [-> ->].
  unfold merge_next.
  destruct (negb (b_alloc c) && (b_addr b + b_size b =? b_addr c)) eqn:E; [|done].
  bool_to_prop. destruct (kheap_merge m l1 b c l2 HK) as [HK' HU]; [done|].
  split; [done|]. eapply unch_mono; [|exact HU]. intros a. apply in_hdrs_mono. set_solver.
Qed.

Lemma kfree_prev_spec m l1 b l2 :
  kheap m h (l1 ++ b :: l2) -> b_alloc b = false ->
  exists m' l1' b', kfree_prev m (b_addr b) = (m', b_addr b') /\
    kheap m' h (l1' ++ b' :: l2) /\
    l1' ++ merge_next b' l2 = free_block (rev l1) b l2 /\
    unch (in_hdrs h (l1 ++ b :: l2)) m m' /\
    (forall c, c ∈ l1' ++ b' :: l2 -> exists d, d ∈ l1 ++ b :: l2 /\ b_addr c = b_addr d).
Proof.
  intros HK Hb. pose proof HK as [HH HB]. unfold kfree_prev.
  assert (set_free b = b) as Eb by (destruct b; simpl in *; by subst).
  rewrite (khdrs_is_front h _ _ _ _ HH).
  destruct l1 as [|c l1 _] using rev_ind.
  { exists m, [], b. unfold free_block. simpl rev. rewrite Eb. split_and!; [done..|eauto]. }
  assert (match l1 ++ [c] with [] => true | _ => false end = false) as -> by (by destruct l1).
  simpl negb. rewrite rev_unit. unfold free_block, merge. rewrite Eb.
  rewrite <-app_assoc in HK, HH, HB. simpl app in HK, HH, HB.
  rewrite (khdrs_prev h _ _ _ _ _ HH). unfold list_entry. rewrite Z.sub_0_r.
  destruct (khdrs_hdr _ _ _ b HH ltac:(set_solver)) as [_ ->].
  destruct (khdrs_hdr _ _ _ c HH ltac:(set_solver)) as [-> ->].
  destruct (negb (b_alloc c) && (b_addr c + b_size c =? b_addr b)) eqn:E.
  - bool_to_prop. destruct (kheap_merge m l1 c b l2 HK) as [HK' HU]; [done|].
    exists (list_remove (set_size m (b_addr c) (u64 (b_size c + b_size b))) (b_addr b)), l1,
      (mkBlock (b_addr c) (b_size c + b_size b) (b_alloc c)).
    rewrite rev_involutive, <-app_assoc. split_and!; [done..| |].
    + eapply unch_mono; [|exact HU]. intros a. apply in_hdrs_mono. set_solver.
    + intros d [Hd|[->|Hd]%elem_of_cons]%elem_of_app.
      * exists d. set_solver.
      * exists c. set_solver.
      * exists d. set_solver.
  - exists m, (l1 ++ [c]), b. rewrite <-app_assoc. simpl app.
    rewrite <-app_assoc. split_and!; [done|done| |done|eauto].
    by rewrite rev_involutive, <-app_assoc.
Qed.

Lemma kfree_spec m l1 b l2 :
  kheap m h (l1 ++ b :: l2) ->
  let m' := kfree m (b_addr b + HEADER_SIZE) in
  kheap m' h (free_block (rev l1) b l2) /\ unch (in_hdrs h (l1 ++ b :: l2)) m m'.
Proof.
  intros [HH HB]. pose proof HB as (Hbo & _)%blocks_ok_mid. destruct Hbo as (? & _ & _).
  unfold kfree. rewrite (proj2 (Z.eqb_neq _ _)) by (unfold nullptr, HEADER_SIZE; lia).
  rewrite Z.add_simpl_r.
  assert (unch (in_hdrs h (l1 ++ b :: l2)) m (set_allocated m (b_addr b) false)) as U1.
  { eapply unch_mono; [|apply store_unch]. intros a Ha. right. exists b.
    split; [set_solver|]. unfold HEADER_SIZE. rng. }
  apply (khdrs_set_alloc h m l1 b l2 false) in HH.
  apply (blocks_ok_flag h l1 b l2 false) in HB.
  set (m1 := set_allocated m (b_addr b) false) in *. fold (set_free b) in HH, HB.
  destruct (kfree_prev_spec m1 l1 (set_free b) l2 (conj HH HB) eq_refl)
    as (m2 & l1' & b' & E2 & HK2 & Ef & U2 & Hsub).
  simpl b_addr in E2. rewrite E2. cbv zeta iota.
  destruct (kfree_next_spec m2 l1' b' l2 HK2) as [HK3 U3]. rewrite Ef in HK3.
  assert (forall a, in_hdrs h (l1 ++ set_free b :: l2) a -> in_hdrs h (l1 ++ b :: l2) a) as HI.
  { intros a [?|(d & Hd & Ha)]; [by left|right].
    apply elem_of_app in Hd as [Hd|[->|Hd]%elem_of_cons]; [exists d|exists b|exists d]; set_solver. }
  split; [done|].
  etrans; [exact U1|]. etrans; [eapply unch_mono; [exact HI|exact U2]|].
  eapply unch_mono; [|exact U3]. intros a Ha. apply HI.
  destruct Ha as [?|(d & Hd & Ha)]; [by left|right].
  destruct (Hsub d Hd) as (e & He & Ee). exists e. by rewrite <-Ee.
Qed.
End free.

(** ** Properties of the abstract heap *)

Section abstract.
Context (h : Z).

(** What an allocation gives and keeps. *)
Lemma split_block_head size b :
  HEADER_SIZE <= size <= b_size b ->
  exists c, c ∈ split_block size b /\ b_alloc c = true /\ b_addr c = b_addr b /\
            size <= b_size c /\ inrng (b_addr b) (b_size b) (b_addr c).
Proof.
  unfold split_block, HEADER_SIZE. intros Hs.
  case_test; eexists; (split; [left|]); simpl; split_and!; rng || done.
Qed.

Lemma first_fit_keeps size bs bs' a :
  blocks_ok h bs -> HEADER_SIZE <= size -> first_fit size bs = Some (bs', a) ->
  (exists b, b ∈ bs' /\ b_alloc b = true /\ b_addr b = a /\ size <= b_size b) /\
  (forall c, c ∈ bs -> b_alloc c = true -> c ∈ bs' /\ b_addr c <> a).
Proof.
  intros HB Hs (l1 & b & l2 & -> & Hf & _ & -> & ->)%first_fit_Some.
  unfold fits in Hf. bool_to_prop. split.
  - destruct (split_block_head size b) as (c & ? & ? & ? & ? & _); [lia|]. exists c. set_solver.
  - intros c Hc Ha. pose proof (blocks_ok_elem _ _ c HB Hc) as (_ & ? & _).
    apply blocks_ok_mid in HB as ((_ & ? & _) & _ & HD & _).
    assert (c ∈ l1 ++ l2) as Hc' by (destruct (decide (c = b)) as [->|]; [congruence|set_solver]).
    split; [set_solver|]. specialize (HD c Hc'). unfold HEADER_SIZE in *. rng.
Qed.

Lemma merge_next_keeps b l2 c :
  c ∈ l2 -> b_alloc c = true -> c ∈ merge_next b l2.
Proof.
  unfold merge_next. destruct l2 as [|d l2]; [set_solver|]. intros Hc Ha.
  case_test; [|set_solver]. apply elem_of_cons in Hc as [->|Hc]; [congruence|by right].
Qed.

Lemma free_block_keeps l1 b l2 c :
  c ∈ l1 ++ l2 -> b_alloc c = true -> c ∈ free_block (rev l1) b l2.
Proof.
  intros Hc Ha. unfold free_block.
  destruct l1 as [|d l1 _] using rev_ind; [by apply merge_next_keeps|].
  assert (c ∈ l1 \/ c = d \/ c ∈ l2) as Hc' by set_solver.
  rewrite rev_unit. unfold merge. simpl rev. rewrite rev_involutive.
  destruct (negb (b_alloc d) && _) eqn:E; rewrite !elem_of_app.
  - destruct Hc' as [?|[->|?]]; [by left| |right; by apply merge_next_keeps].
    rewrite Ha in E. done.
  - destruct Hc' as [?|[->|?]]; [left; by left|left; right; left|right; by apply merge_next_keeps].
Qed.

(** Freeing creates no new bytes. *)
Lemma merge_next_sub b l2 c a :
  c ∈ merge_next b l2 -> inrng (b_addr c) (b_size c) a ->
  exists d, d ∈ b :: l2 /\ inrng (b_addr d) (b_size d) a.
Proof.
  unfold merge_next. destruct l2 as [|d l2]; [eauto|]. case_test; [|eauto].
  intros [->|Hc]%elem_of_cons Ha; simpl in Ha; [|exists c; set_solver].
  destruct (decide (a < b_addr d)); [exists b|exists d]; (split; [set_solver|rng]).
Qed.

Lemma free_block_sub l1 b l2 c a :
  c ∈ free_block (rev l1) b l2 -> inrng (b_addr c) (b_size c) a ->
  exists d, d ∈ l1 ++ b :: l2 /\ inrng (b_addr d) (b_size d) a.
Proof.
  unfold free_block. intros Hc Ha.
  assert (forall l, c ∈ l1 ++ merge_next (set_free b) l2 -> l = l1 ->
            exists d, d ∈ l ++ b :: l2 /\ inrng (b_addr d) (b_size d) a) as H0.
  { intros l [Hc'|Hc']%elem_of_app ->; [exists c; set_solver|].
    apply (merge_next_sub _ _ _ a) in Hc' as (d & [->|Hd]%elem_of_cons & Hr); [|..|done].
    - exists b. set_solver.
    - exists d. set_solver. }
  destruct l1 as [|d l1 _] using rev_ind; [by apply (H0 [])|].
  rewrite rev_unit in Hc. unfold merge in Hc. simpl rev in Hc. rewrite rev_involutive in Hc.
  destruct (negb (b_alloc d) && _) eqn:E; [|by apply H0].
  bool_to_prop. apply elem_of_app in Hc as [Hc|Hc]; [exists c; set_solver|].
  apply (merge_next_sub _ _ _ a) in Hc as (e & [->|He]%elem_of_cons & Hr); [|..|done].
  - simpl in *. destruct (decide (a < b_addr b)); [exists d|exists b]; (split; [set_solver|rng]).
  - exists e. set_solver.
Qed.

(** Neighbours that are both free never touch. *)
Fixpoint coalesced (bs : list block) : Prop :=
  match bs with
  | b :: (c :: _) as t =>
      (b_alloc b = false -> b_alloc c = false -> b_addr b + b_size b <> b_addr c) /\ coalesced t
  | _ => True
  end.

Lemma coalesced_app l1 b l2 :
  coalesced (l1 ++ b :: l2) <-> coalesced (l1 ++ [b]) /\ coalesced (b :: l2).
Proof.
  induction l1 as [|c [|d l1] IH]; [simpl; tauto|simpl; tauto|].
  change ((c :: d :: l1) ++ b :: l2) with (c :: d :: (l1 ++ b :: l2)).
  change ((c :: d :: l1) ++ [b]) with (c :: d :: (l1 ++ [b])).
  cbn [coalesced]. change (d :: l1 ++ b :: l2) with ((d :: l1) ++ b :: l2).
  change (d :: l1 ++ [b]) with ((d :: l1) ++ [b]). tauto.
Qed.

(** An allocated block separates its neighbours. *)
Lemma coalesced_alloc_l l1 b b' :
  b_alloc b' = true -> coalesced (l1 ++ [b]) -> coalesced (l1 ++ [b']).
Proof.
  intros Ha. induction l1 as [|c [|d l1] IH]; [done|simpl; intros _|].
  - split; [congruence|done].
  - change ((c :: d :: l1) ++ [b]) with (c :: d :: (l1 ++ [b])).
    change ((c :: d :: l1) ++ [b']) with (c :: d :: (l1 ++ [b'])).
    cbn [coalesced]. intros [? ?]. split; [done|]. by apply IH.
Qed.

Lemma coalesced_snoc bs b : b_alloc b = true -> coalesced bs -> coalesced (bs ++ [b]).
Proof.
  intros Hb HC. destruct bs as [|d bs _] using rev_ind; [done|].
  rewrite <-app_assoc. apply coalesced_app. split; [done|]. split; [congruence|done].
Qed.

Lemma coalesced_split size l1 b l2 :
  b_alloc b = false -> coalesced (l1 ++ b :: l2) ->
  coalesced (l1 ++ split_block size b ++ l2).
Proof.
  intros Hb [H1 H2]%coalesced_app. unfold split_block. case_test; simpl app.
  - apply coalesced_app. split; [by eapply coalesced_alloc_l|].
    split; [done|]. destruct l2 as [|c l2]; [done|]. destruct H2 as [H2 H3].
    split; [|done]. simpl. intros _ Hc. specialize (H2 Hb Hc). lia.
  - apply coalesced_app. split; [by eapply coalesced_alloc_l|].
    destruct l2 as [|c l2]; [done|]. destruct H2 as [H2 H3]. split; [done|done].
Qed.

Lemma merge_next_coalesced b l2 :
  coalesced l2 -> coalesced (merge_next b l2).
Proof.
  intros HC. unfold merge_next. destruct l2 as [|c l2]; [done|].
  case_test.
  - destruct l2 as [|d l2]; [done|]. destruct HC as [Hcd HC]. split; [|done].
    simpl. intros _ Hd. specialize (Hcd ltac:(done) Hd). lia.
  - split; [|done]. intros Hb Hc. rewrite Hc in E. simpl in E. by bool_to_prop.
Qed.

Lemma merge_next_head b l2 :
  exists x t, merge_next b l2 = x :: t /\ b_addr x = b_addr b /\ b_alloc x = b_alloc b.
Proof. unfold merge_next. destruct l2; [|case_test]; eauto. Qed.

(** Whether blocks touch on the left only depends on address and flag. *)
Lemma coalesced_head l1 b b' :
  b_addr b' = b_addr b -> b_alloc b' = b_alloc b -> coalesced (l1 ++ [b]) -> coalesced (l1 ++ [b']).
Proof.
  intros Ea Eb. induction l1 as [|c [|d l1] IH]; [done|simpl|].
  - by rewrite Ea, Eb.
  - change ((c :: d :: l1) ++ [b]) with (c :: d :: (l1 ++ [b])).
    change ((c :: d :: l1) ++ [b']) with (c :: d :: (l1 ++ [b'])).
    cbn [coalesced]. intros [? ?]. split; [done|]. by apply IH.
Qed.

Lemma coalesced_tail b l : coalesced (b :: l) -> coalesced l.
Proof. destruct l; [done|]. by intros [_ ?]. Qed.

Lemma free_block_coalesced l1 b l2 :
  coalesced (l1 ++ b :: l2) -> coalesced (free_block (rev l1) b l2).
Proof.
  intros [H1 H2%coalesced_tail]%coalesced_app. unfold free_block.
  destruct l1 as [|d l1 _] using rev_ind; [by apply merge_next_coalesced|].
  rewrite <-app_assoc in H1. simpl app in H1. apply coalesced_app in H1 as [H1 _].
  rewrite rev_unit. unfold merge. simpl rev. rewrite rev_involutive.
  destruct (negb (b_alloc d) && _) eqn:E.
  - pose proof (merge_next_coalesced (mkBlock (b_addr d) (b_size d + b_size (set_free b)) (b_alloc d)) l2 H2) as HM.
    destruct (merge_next_head (mkBlock (b_addr d) (b_size d + b_size (set_free b)) (b_alloc d)) l2)
      as (x & t & Ex & Ea & Eb). rewrite Ex in HM |- *.
    apply coalesced_app. split; [|done]. by apply (coalesced_head l1 d x).
  - pose proof (merge_next_coalesced (set_free b) l2 H2) as HM.
    destruct (merge_next_head (set_free b) l2) as (x & t & Ex & Ea & Eb). rewrite Ex in HM |- *.
    rewrite <-app_assoc. simpl app. apply coalesced_app. split; [done|]. split; [|done].
    intros Hd _. rewrite Hd, Ea in *. simpl in E. by bool_to_prop.
Qed.

Lemma kmalloc_abs_coalesced size bs ps :
  coalesced bs -> coalesced (kmalloc_abs size bs ps).1.1.
Proof.
  intros HC. unfold kmalloc_abs. case_test; [done|].
  destruct (first_fit _ bs) as [[bs' a]|] eqn:Ef; simpl.
  - apply first_fit_Some in Ef as (l1 & b & l2 & -> & Hf & _ & -> & ->).
    unfold fits in Hf. bool_to_prop. by apply coalesced_split.
  - destruct ps as [|p ps]; [done|]. simpl.
    unfold split_block. case_test; [|by apply coalesced_snoc].
    apply coalesced_app. split; [by apply coalesced_snoc|done].
Qed.

(** Freeing what first fit has just taken gives the heap back. *)
Lemma first_fit_free size bs bs' a :
  blocks_ok h bs -> coalesced bs -> HEADER_SIZE <= size ->
  first_fit size bs = Some (bs', a) ->
  exists l1 b l2, bs' = l1 ++ b :: l2 /\ b_addr b = a /\ free_block (rev l1) b l2 = bs.
Proof.
  intros HB HC Hs (l1 & b & l2 & -> & Hf & _ & -> & ->)%first_fit_Some.
  unfold fits in Hf. bool_to_prop.
  assert (forall x l2', b_addr x = b_addr b ->
            merge_next (set_free x) l2' = b :: l2 -> free_block (rev l1) x l2' = l1 ++ b :: l2) as HF.
  { intros x l2' Ex Em. unfold free_block. destruct l1 as [|d l1 _] using rev_ind; [done|].
    rewrite rev_unit. unfold merge. simpl rev. rewrite rev_involutive.
    destruct (negb (b_alloc d) && _) eqn:E; [|by rewrite Em].
    bool_to_prop. rewrite <-app_assoc in HC. apply coalesced_app in HC as [_ [HC _]].
    simpl in *. exfalso. apply HC; [done..|congruence]. }
  assert (b = mkBlock (b_addr b) (b_size b) false) as Eb by (destruct b; simpl in *; by subst).
  unfold split_block. destruct (HEADER_SIZE <? b_size b - size) eqn:E; bool_to_prop.
  - exists l1, (mkBlock (b_addr b) size true),
      (mkBlock (b_addr b + size) (b_size b - size) false :: l2).
    split_and!; [done..|]. apply HF; [done|]. unfold merge_next. simpl.
    rewrite Z.eqb_refl. rewrite Eb at 3. do 2 f_equal. lia.
  - exists l1, (mkBlock (b_addr b) (b_size b) true), l2. split_and!; [done..|].
    apply HF; [done|]. unfold set_free, merge_next. simpl. rewrite <-Eb.
    destruct l2 as [|c l2]; [done|].
    destruct (negb (b_alloc c) && _) eqn:E'; [|done]. bool_to_prop.
    apply coalesced_app in HC as [_ [HC _]]. exfalso. by apply HC.
Qed.
End abstract.
