(* ===== verification/KallocSafe.v ===== *)
(** * Safety of the kernel heap

    [kmalloc], [kcalloc] and [kfree] on top of [page_alloc]: the heap under any
    sequence of allocations, frees and writes to allocated memory, and the
    contract of each operation. *)

From S2P Require Import Prelude.
From S2P Require Import Mem.
From S2P Require Import DList.
From S2P Require Import Layout.
From S2P Require Import Pages.
From S2P Require Import PageAlloc.
From S2P Require Import Kalloc.

Section safe.
Context `{L : Layout} {LOK : LayoutOk L}.

Lemma block_list_sep_karg ps a :
  Forall pa_page ps -> inrng sym_block_list NODE_SIZE a -> ~ pa_own ps a.
Proof.
  intros HF Ha. pose proof (static_bounds (sym_block_list, NODE_SIZE) ltac:(set_solver)) as HB.
  simpl in HB. intros [Hs|(p & Hp & Hr)].
  - simpl in Hs. destruct (seps_elem (statics L) (sym_block_list, NODE_SIZE) (sym_free_list, NODE_SIZE))
      as [E|E]; [apply statics_seps|set_solver..| |simpl in E; rng].
    pose proof statics_seps as HS. unfold statics in HS. simpl in HS.
    destruct HS as (_ & _ & HS & _). apply Forall_cons in HS as [HS _].
    simplify_eq. unfold NODE_SIZE in *. rng.
  - rewrite Forall_forall in HF. specialize (HF p Hp) as [_ HF].
    unfold NODE_SIZE, PAGE_SIZE in *. rng.
Qed.

(** ** Live allocations *)

(** [live_in bs (p, n)]: an allocation of [n] bytes at [p] is a block of [bs]. *)
Definition live_in (bs : list block) (l : Z * Z) : Prop :=
  exists b, b ∈ bs /\ b_alloc b = true /\ b_addr b = l.1 - HEADER_SIZE /\
            l.2 + HEADER_SIZE <= b_size b.

Definition live_bytes (live : list (Z * Z)) (a : Z) : Prop :=
  exists l, l ∈ live /\ inrng l.1 l.2 a.

Definition heap_inv (m : mem) (live : list (Z * Z)) : Prop :=
  exists bs ps, kpool m bs ps /\ coalesced bs /\ Forall (live_in bs) live /\
                NoDup live.*1 /\ Forall (fun l => 0 <= l.2) live.

(** A run of the heap: the state is the memory and the live allocations. *)
Inductive heap_step : mem * list (Z * Z) -> mem * list (Z * Z) -> Prop :=
| step_kmalloc m live size m' r :
    0 <= size -> size + HEADER_SIZE < 2 ^ 64 ->
    kmalloc m size = Some (m', r) -> r <> nullptr ->
    heap_step (m, live) (m', (r, size) :: live)
| step_kmalloc_fail m live size m' :
    0 <= size -> size + HEADER_SIZE < 2 ^ 64 ->
    kmalloc m size = Some (m', nullptr) ->
    heap_step (m, live) (m', live)
| step_kfree m live live' p n :
    live ≡ₚ (p, n) :: live' -> heap_step (m, live) (kfree m p, live')
| step_use m m' live :
    unch (live_bytes live) m m' -> heap_step (m, live) (m', live).

(** The payload of an allocated block is neither a header, nor free, nor a page
    of the page allocator. *)
Lemma live_not_owned m bs ps l a :
  kpool m bs ps -> live_in bs l -> inrng l.1 l.2 a ->
  ~ (kown sym_block_list bs a \/ pa_own ps a).
Proof.
  intros ([HH HB] & HP & HD) (b & Hb & Halloc & Ea & Hn) Ha.
  pose proof (blocks_ok_elem _ _ b HB Hb) as (? & ? & ?).
  assert (inrng (b_addr b + HEADER_SIZE) (b_size b - HEADER_SIZE) a) as Hp by rng.
  intros [[Hh|(c & Hc & Hf & Hr)]|Ho].
  - by eapply (payload_not_hdr sym_block_list).
  - apply list_elem_of_split in Hb as (l1 & l2 & ->).
    apply blocks_ok_mid in HB as (_ & _ & HX & _).
    assert (c ∈ l1 ++ l2) as Hc'.
    { destruct (decide (c = b)) as [->|]; [congruence|set_solver]. }
    specialize (HX c Hc'). unfold HEADER_SIZE in *. rng.
  - revert Ho. apply (HD b); [done|]. unfold HEADER_SIZE in *. rng.
Qed.

Lemma kmalloc_abs_keeps m size bs ps bs' ps' r :
  kpool m bs ps -> 0 <= size -> kmalloc_abs size bs ps = (bs', ps', r) ->
  (r <> nullptr -> live_in bs' (r, size) /\ (forall c, c ∈ bs -> b_alloc c = true -> b_addr c <> r - HEADER_SIZE)) /\
  (forall c, c ∈ bs -> b_alloc c = true -> c ∈ bs').
Proof.
  intros HK Hs. pose proof HK as ((HH & HB) & HP & HD). unfold kmalloc_abs.
  destruct (PAGE_SIZE <? size + HEADER_SIZE) eqn:E; bool_to_prop; [by intros; simplify_eq|].
  destruct (first_fit _ bs) as [[bs1 a]|] eqn:Ef; [|destruct ps as [|p ps]]; intros; simplify_eq.
  - assert (HEADER_SIZE <= size + HEADER_SIZE) as Hh by lia.
    destruct (first_fit_keeps sym_block_list _ _ _ _ HB Hh Ef) as [(b & ? & ? & ? & ?) HX].
    split; [|intros c Hc Ha; by apply HX].
    intros _. split.
    + exists b. simpl. split_and!; [done..|lia|done].
    + intros c Hc Ha. destruct (HX c Hc Ha) as [_ Hne]. contradict Hne. lia.
  - done.
  - pose proof (page_blocks_ok block_list_sep_karg _ _ _ _ HK) as HB'.
    destruct (split_block_head (size + HEADER_SIZE) (mkBlock p PAGE_SIZE false))
      as (b & ? & ? & ? & ? & _); [unfold HEADER_SIZE in *; simpl; lia|].
    split; [|set_solver]. intros _. split.
    + exists b. simpl. split_and!; [set_solver|done|simpl in *; lia|done].
    + intros c Hc _ Ec. apply blocks_ok_mid in HB' as (_ & _ & HX & _).
      rewrite app_nil_r in HX. specialize (HX c Hc). simpl in HX.
      pose proof (blocks_ok_elem _ _ c HB Hc) as (_ & ? & _).
      unfold HEADER_SIZE, PAGE_SIZE in *. rng.
Qed.

Lemma kfree_kpool m l1 b l2 ps :
  kpool m (l1 ++ b :: l2) ps ->
  let m' := kfree m (b_addr b + HEADER_SIZE) in
  kpool m' (free_block (rev l1) b l2) ps /\ unch (kown sym_block_list (l1 ++ b :: l2)) m m'.
Proof.
  intros HK m'. pose proof HK as (HH & HP & HD).
  destruct (kfree_spec m l1 b l2 HH) as [HH' HU].
  assert (unch (kown sym_block_list (l1 ++ b :: l2)) m m') as HU'.
  { eapply unch_mono; [|exact HU]. intros a Ha. by left. }
  split; [|done]. split_and!; [done|by eapply (kpool_pool block_list_sep_karg)|].
  intros c a Hc Ha. apply (free_block_sub l1 b l2 c a) in Hc as (d & Hd & Hr); [|done].
  by apply (HD d).
Qed.

Lemma live_in_keep bs bs' live :
  (forall c, c ∈ bs -> b_alloc c = true -> c ∈ bs') ->
  Forall (live_in bs) live -> Forall (live_in bs') live.
Proof.
  intros Hkeep HL. eapply Forall_impl; [exact HL|]. intros l (c & ? & ? & ? & ?). exists c. split_and!; auto.
Qed.

Lemma heap_inv_kmalloc m live size m' r :
  heap_inv m live -> 0 <= size -> size + HEADER_SIZE < 2 ^ 64 ->
  kmalloc m size = Some (m', r) ->
  heap_inv m' (if decide (r = nullptr) then live else (r, size) :: live).
Proof.
  intros (bs & ps & HK & HC & HL & HN & HZ) H0 H1 E.
  pose proof (kmalloc_refines block_list_sep_karg m bs ps size HK H0 H1) as HR.
  pose proof (kmalloc_abs_coalesced size bs ps HC) as HC'.
  destruct (kmalloc_abs size bs ps) as [[bs' ps'] r'] eqn:EA.
  destruct HR as (m1 & E1 & HK' & _). rewrite E in E1. simplify_eq.
  destruct (kmalloc_abs_keeps _ _ _ _ _ _ _ HK H0 EA) as [Hnew Hkeep].
  exists bs', ps'. split; [done|]. split; [done|]. pose proof (live_in_keep _ _ _ Hkeep HL) as HL'.
  case_decide as Hr; [done|]. destruct (Hnew Hr) as [Hl Hne].
  split_and!; [by constructor| |by constructor].
  apply NoDup_cons. split; [|done]. intros (l & El & Hin)%list_elem_of_fmap.
  rewrite Forall_forall in HL. destruct (HL l Hin) as (c & Hc & Ha & Hca & _).
  apply (Hne c Hc Ha). simpl in El. lia.
Qed.

Lemma heap_inv_kfree m live live' p n :
  heap_inv m live -> live ≡ₚ (p, n) :: live' -> heap_inv (kfree m p) live'.
Proof.
  intros (bs & ps & HK & HC & HL & HN & HZ) HPm.
  rewrite HPm in HL, HN, HZ. apply Forall_cons in HL as [(b & Hb & Ha & Eb & _) HL].
  apply NoDup_cons in HN as [Hp HN]. apply Forall_cons in HZ as [_ HZ].
  apply list_elem_of_split in Hb as (l1 & l2 & ->).
  replace p with (b_addr b + HEADER_SIZE) in * by (simpl in Eb; lia).
  destruct (kfree_kpool m l1 b l2 ps HK) as [HK' _].
  exists (free_block (rev l1) b l2), ps.
  split_and!; [done|by apply free_block_coalesced| |done..].
  rewrite Forall_forall in HL |- *. intros l Hl.
  destruct (HL l Hl) as (c & Hc & Hca & Ec & Hn). exists c. split_and!; [|done..].
  apply free_block_keeps; [|done].
  destruct (decide (c = b)) as [->|]; [|set_solver].
  destruct Hp. simpl. replace (b_addr b + HEADER_SIZE) with l.1 by lia.
  by apply list_elem_of_fmap_2.
Qed.

Lemma heap_inv_use m m' live :
  heap_inv m live -> unch (live_bytes live) m m' -> heap_inv m' live.
Proof.
  intros (bs & ps & HK & HC & HL & HN & HZ) HU.
  exists bs, ps. split_and!; [|done..]. rewrite Forall_forall in HL.
  assert (forall a, live_bytes live a -> ~ (kown sym_block_list bs a \/ pa_own ps a)) as HX.
  { intros a (l & Hl & Ha). by eapply live_not_owned; eauto. }
  destruct HK as ([HH HB] & HP & HD). split_and!; [split; [|done]|..|done].
  - eapply khdrs_unch; [done..|]. intros a Ha Hl. apply (HX a Hl). left. by left.
  - eapply pa_pool_unch; [done..|]. intros a Ha Hl. apply (HX a Hl). by right.
Qed.

Lemma heap_step_inv s s' : heap_step s s' -> heap_inv s.1 s.2 -> heap_inv s'.1 s'.2.
Proof.
  intros Hs HI. destruct Hs as [m live size m' r H0 H1 E Hr|m live size m' H0 H1 E|m live live' p n HPm|m m' live HU].
  - apply (heap_inv_kmalloc m live size m' r) in HI; [|done..]. by rewrite decide_False in HI.
  - by apply (heap_inv_kmalloc m live size m' nullptr) in HI.
  - by eapply heap_inv_kfree.
  - by eapply heap_inv_use.
Qed.

Lemma heap_steps_inv s s' : rtc heap_step s s' -> heap_inv s.1 s.2 -> heap_inv s'.1 s'.2.
Proof. induction 1; eauto using heap_step_inv. Qed.

(** Live allocations are separated. *)
Lemma heap_inv_seps m live : heap_inv m live -> seps live.
Proof.
  intros (bs & ps & ((_ & HB) & _ & _) & _ & HL & HN & HZ).
  induction live as [|[p n] live IH]; [done|].
  apply Forall_cons in HL as [Hl HL]. apply NoDup_cons in HN as [Hp HN].
  apply Forall_cons in HZ as [_ HZ]. split; [|auto]. rewrite Forall_forall in *.
  intros [q k] Hq. destruct Hl as (b & Hb & _ & Eb & Hn).
  destruct (HL _ Hq) as (c & Hc & _ & Ec & Hk). simpl in *.
  apply list_elem_of_split in Hb as (l1 & l2 & ->).
  apply blocks_ok_mid in HB as (_ & _ & HX & _).
  assert (c ∈ l1 ++ l2) as Hc'.
  { destruct (decide (c = b)) as [->|]; [|set_solver]. destruct Hp.
    replace p with q by lia. by apply (list_elem_of_fmap_2 fst live (q, k)). }
  specialize (HX c Hc'). unfold HEADER_SIZE in *. rng.
Qed.

(** After [page_alloc]'s initialiser the heap is empty and all pages are free. *)
Lemma boot_heap m :
  dlist m sym_free_list [] -> dlist m sym_block_list [] ->
  exists m0, page_alloc_init m = Some (m0, 0) /\ kpool m0 [] all_pages.
Proof.
  intros HF HB. destruct (page_alloc_init_spec m HF) as (m0 & E & HP & HU).
  exists m0. split; [done|]. split_and!; [split; [split_and!|]|done|].
  - eapply dlist_unch; [done..|]. intros x a ->%list_elem_of_singleton Ha.
    apply block_list_sep_karg; [apply all_pages_heap|done].
  - constructor.
  - split; constructor.
  - constructor.
  - split; [constructor|split; constructor].
  - intros b a Hb. by apply not_elem_of_nil in Hb.
Qed.

(** C1. Memory safety of the kernel heap: after booting the page allocator, in
    every state reached by any sequence of [kmalloc]s, [kfree]s of live
    allocations and writes to live allocations, the live allocations are
    non-null and do not overlap; a further [kmalloc] terminates, and neither it
    nor a [kfree] changes a byte of the (other) live allocations. *)
Theorem kheap_run_safe m :
  dlist m sym_free_list [] -> dlist m sym_block_list [] ->
  exists m0, page_alloc_init m = Some (m0, 0) /\
  forall m1 live, rtc heap_step (m0, []) (m1, live) ->
    seps live /\ Forall (fun l => l.1 <> nullptr) live /\
    (forall size, 0 <= size -> size + HEADER_SIZE < 2 ^ 64 ->
       exists m' r, kmalloc m1 size = Some (m', r) /\
                    forall a, live_bytes live a -> m' !!! a = m1 !!! a) /\
    (forall p n live', live ≡ₚ (p, n) :: live' ->
       forall a, live_bytes live' a -> kfree m1 p !!! a = m1 !!! a).
Proof.
  intros HF HB. destruct (boot_heap m HF HB) as (m0 & E & HK0).
  exists m0. split; [done|]. intros m1 live Hrun.
  apply heap_steps_inv in Hrun; simpl in Hrun.
  2:{ exists [], all_pages. split_and!; try done; constructor. }
  pose proof (heap_inv_seps _ _ Hrun) as HS. pose proof Hrun as HI.
  destruct Hrun as (bs & ps & HK & _ & HL & HN & _). pose proof HL as HL'.
  rewrite Forall_forall in HL'. split_and!; [done|..].
  - eapply Forall_impl; [exact HL|]. intros l (b & Hb & _ & Eb & _) El.
    destruct HK as ((_ & HKB) & _). pose proof (blocks_ok_elem _ _ b HKB Hb) as (? & _).
    unfold nullptr, HEADER_SIZE in *. lia.
  - intros size H0 H1. pose proof (kmalloc_refines block_list_sep_karg m1 bs ps size HK H0 H1) as HR.
    destruct (kmalloc_abs size bs ps) as [[bs' ps'] r]. destruct HR as (m' & E' & _ & HU).
    exists m', r. split; [done|]. intros a (l & Hl & Ha). apply HU. by eapply live_not_owned; eauto.
  - intros p n live' HPm a (l & Hl & Ha).
    assert (live_in bs (p, n)) as (b & Hb & _ & Eb & _) by (apply HL'; rewrite HPm; left).
    apply list_elem_of_split in Hb as (l1 & l2 & ->). simpl in Eb.
    replace p with (b_addr b + HEADER_SIZE) by lia.
    destruct (kfree_kpool m1 l1 b l2 ps HK) as [_ HU]. apply HU. intros Ho.
    eapply live_not_owned; [exact HK|apply (HL' l); rewrite HPm; by right|exact Ha|by left].
Qed.

(** C9. The contract of [kmalloc]: from a heap with blocks [bs] and free pages
    [ps], a request that does not overflow gives exactly the result of first
    fit with splitting (or of a fresh page, or null), the blocks stay disjoint
    and coalesced, and only bytes of the heap's headers and free blocks and of
    the page allocator are written. *)
Theorem kmalloc_contract m bs ps size :
  kpool m bs ps -> coalesced bs -> 0 <= size -> size + HEADER_SIZE < 2 ^ 64 ->
  let '(bs', ps', r) := kmalloc_abs size bs ps in
  exists m', kmalloc m size = Some (m', r) /\ kpool m' bs' ps' /\ coalesced bs' /\
    unch (fun a => kown sym_block_list bs a \/ pa_own ps a) m m' /\
    (r <> nullptr -> live_in bs' (r, size)) /\
    (forall c, c ∈ bs -> b_alloc c = true -> c ∈ bs').
Proof.
  intros HK HC H0 H1. pose proof (kmalloc_refines block_list_sep_karg m bs ps size HK H0 H1) as HR.
  pose proof (kmalloc_abs_coalesced size bs ps HC) as HC'.
  destruct (kmalloc_abs size bs ps) as [[bs' ps'] r] eqn:EA.
  destruct HR as (m' & E & HK' & HU).
  destruct (kmalloc_abs_keeps _ _ _ _ _ _ _ HK H0 EA) as [Hnew Hkeep].
  exists m'. split_and!; try done. intros Hr. by apply Hnew.
Qed.

(** C17. [kfree] of an allocated block frees it, merges it with free neighbours
    in the list that touch it in memory, keeps every other allocated block, and
    leaves the heap disjoint and coalesced. *)
Theorem kfree_contract m l1 b l2 ps :
  kpool m (l1 ++ b :: l2) ps -> coalesced (l1 ++ b :: l2) ->
  let m' := kfree m (b_addr b + HEADER_SIZE) in
  kpool m' (free_block (rev l1) b l2) ps /\ coalesced (free_block (rev l1) b l2) /\
  unch (kown sym_block_list (l1 ++ b :: l2)) m m' /\
  (forall c, c ∈ l1 ++ l2 -> b_alloc c = true -> c ∈ free_block (rev l1) b l2).
Proof.
  intros HK HC m'. destruct (kfree_kpool m l1 b l2 ps HK) as [HK' HU].
  split_and!; [done|by apply free_block_coalesced|done|by apply free_block_keeps].
Qed.

(** C18. Freeing what [kmalloc] has just taken from an existing block restores
    the heap: same blocks, same sizes, same order. *)
Theorem kmalloc_kfree_roundtrip m bs ps size bs' a :
  kpool m bs ps -> coalesced bs -> 0 <= size -> size + HEADER_SIZE <= PAGE_SIZE ->
  first_fit (size + HEADER_SIZE) bs = Some (bs', a) ->
  exists m' r, kmalloc m size = Some (m', r) /\ r <> nullptr /\ kpool (kfree m' r) bs ps.
Proof.
  intros HK HC H0 H1 Ef. unfold PAGE_SIZE in H1.
  pose proof (kmalloc_refines block_list_sep_karg m bs ps size HK H0 ltac:(lia)) as HR.
  unfold kmalloc_abs in HR. rewrite (proj2 (Z.ltb_ge _ _)) in HR by (unfold PAGE_SIZE; lia).
  rewrite Ef in HR. destruct HR as (m' & E & HK' & _). exists m', (a + HEADER_SIZE).
  pose proof HK as ((_ & HB) & _).
  assert (HEADER_SIZE <= size + HEADER_SIZE) as Hh by lia.
  destruct (first_fit_free sym_block_list _ _ _ _ HB HC Hh Ef) as (l1 & b & l2 & -> & <- & Eb).
  pose proof HK' as ((_ & HB') & _).
  pose proof (blocks_ok_elem _ _ b HB' ltac:(set_solver)) as (? & _).
  split_and!; [done|unfold nullptr, HEADER_SIZE; lia|].
  rewrite <-Eb. by apply kfree_kpool.
Qed.

(** The bytes behind the header of a block. *)
Definition payload (b : block) (a : Z) : Prop :=
  inrng (b_addr b + HEADER_SIZE) (b_size b - HEADER_SIZE) a.

(** Two allocations with different addresses share no byte. *)
Lemma live_disjoint m bs ps l c a :
  kpool m bs ps -> live_in bs l -> c ∈ bs -> b_addr c <> l.1 - HEADER_SIZE ->
  inrng l.1 l.2 a -> ~ inrng (b_addr c) (b_size c) a.
Proof.
  intros ([_ HB] & _) (b & Hb & _ & Ea & Hn) Hc Hne Ha Hca.
  apply list_elem_of_split in Hb as (l1 & l2 & ->).
  apply blocks_ok_mid in HB as (_ & _ & HX & _).
  assert (c ∈ l1 ++ l2) as Hc' by (destruct (decide (c = b)) as [->|]; [lia|set_solver]).
  specialize (HX c Hc'). unfold HEADER_SIZE in *. rng.
Qed.

(** An allocated block's bytes are the program's: nothing of the heap's own. *)
Lemma payload_kept m bs ps m' c a :
  kpool m bs ps -> c ∈ bs -> b_alloc c = true -> payload c a ->
  unch (fun a => kown sym_block_list bs a \/ pa_own ps a) m m' -> m' !!! a = m !!! a.
Proof.
  intros HK Hc Hca Ha HU. apply HU.
  apply (live_not_owned m bs ps (b_addr c + HEADER_SIZE, b_size c - HEADER_SIZE)); [done| |done].
  exists c. simpl. split_and!; [done..|lia|lia].
Qed.

(** C25. [kcalloc] of [n] objects of [size] bytes, [size * n + 32 < 2 ^ 64]: it
    allocates like [kmalloc] of [size * n] bytes, the heap stays well formed and
    coalesced, and every allocated block stays allocated with its contents; unless
    the result is null, the [size * n] bytes at the result are an allocation that
    overlaps no block allocated before, and they are all zero. *)
Theorem kcalloc_zeroed m bs ps size n :
  kpool m bs ps -> coalesced bs -> 0 <= size * n -> size * n + HEADER_SIZE < 2 ^ 64 ->
  let '(bs', ps', r) := kmalloc_abs (size * n) bs ps in
  exists m', kcalloc m size n = Some (m', r) /\ kpool m' bs' ps' /\ coalesced bs' /\
    (forall c, c ∈ bs -> b_alloc c = true ->
       c ∈ bs' /\ forall a, payload c a -> m' !!! a = m !!! a) /\
    (r <> nullptr ->
       live_in bs' (r, size * n) /\ (forall a, inrng r (size * n) a -> m' !!! a = Init.Byte.x00) /\
       forall c a, c ∈ bs -> b_alloc c = true -> inrng r (size * n) a ->
                   ~ inrng (b_addr c) (b_size c) a).
Proof.
  intros HK HC H0 H1. unfold kcalloc. rewrite u64_small by (unfold HEADER_SIZE in *; lia).
  pose proof (kmalloc_refines block_list_sep_karg m bs ps _ HK H0 H1) as HR.
  pose proof (kmalloc_abs_coalesced (size * n) bs ps HC) as HC'.
  destruct (kmalloc_abs (size * n) bs ps) as [[bs' ps'] r] eqn:EA.
  destruct HR as (m1 & -> & HK1 & HU1). simpl.
  destruct (kmalloc_abs_keeps _ _ _ _ _ _ _ HK H0 EA) as [Hnew Hkeep].
  destruct (r =? nullptr) eqn:Er; bool_to_prop.
  { exists m1. split_and!; [done..| |done]. intros c Hc Hca. split; [auto|].
    intros a Ha. by eapply (payload_kept m bs ps). }
  destruct (Hnew Er) as [Hl Hfresh]. exists (mem_set m1 r Init.Byte.x00 (size * n)).
  assert (forall c a, c ∈ bs -> b_alloc c = true -> inrng r (size * n) a ->
    ~ inrng (b_addr c) (b_size c) a) as Hsep.
  { intros c a Hc Hca. apply (live_disjoint _ _ _ (r, size * n) c a HK1); [done|by apply Hkeep|].
    by apply Hfresh. }
  split_and!; [done| |done| |intros _; split_and!; [done| |done]].
  - pose proof HK1 as ((HH & HB) & HP & HD). pose proof (mem_set_unch m1 r Init.Byte.x00 (size * n)) as HU.
    assert (forall a, inrng r (size * n) a -> ~ (kown sym_block_list bs' a \/ pa_own ps' a)) as HX.
    { intros a Ha. by eapply live_not_owned. }
    split_and!; [split; [|done]|..|done].
    + eapply khdrs_unch; [done..|]. intros a Ha Hl'. apply (HX a Hl'). left. by left.
    + eapply pa_pool_unch; [done..|]. intros a Ha Hl'. apply (HX a Hl'). by right.
  - intros c Hc Hca. split; [auto|]. intros a Ha. rewrite mem_set_get.
    rewrite decide_False; [by eapply (payload_kept m bs ps)|].
    intros Hr. apply (Hsep c a Hc Hca Hr). unfold payload, HEADER_SIZE in Ha. rng.
  - intros a Ha. by rewrite mem_set_get, decide_True.
Qed.
End safe.

(** ** Concrete runs *)

Module Demo.
Import Boot.
#[local] Existing Instance virt_layout.
#[local] Existing Instance virt_layout_ok.

(** Memory with one free page. *)
Definition page0 : Z := sym_heap_start.
Definition one_page : mem := page_free boot_mem page0.

Lemma one_page_kpool : kpool one_page [] [page0].
Proof.
  destruct boot_mem_lists as [HF HB].
  destruct (page_free_spec boot_mem page0 []) as [HP HU];
    [split; [done|constructor]|by split|apply not_elem_of_nil|].
  split_and!; [split; [split_and!|]|exact HP|].
  - eapply dlist_unch; [exact HB|exact HU|]. intros x a ->%list_elem_of_singleton Ha.
    apply block_list_sep_karg; [|done]. constructor; [by split|constructor].
  - constructor.
  - split; constructor.
  - constructor.
  - split; [constructor|split; constructor].
  - intros b a Hb. by apply not_elem_of_nil in Hb.
Qed.

(** The heap after [kmalloc(100)]. *)
Definition after_100 : mem := from_option fst ∅ (kmalloc one_page 100).
Definition blocks_100 : list block :=
  [mkBlock page0 132 true; mkBlock (page0 + 132) 3964 false].

Lemma after_100_kpool : kpool after_100 blocks_100 [].
Proof.
  pose proof (kmalloc_refines block_list_sep_karg one_page [] [page0] 100 one_page_kpool
    ltac:(done) ltac:(done)) as (m' & E & HK & _).
  unfold after_100. rewrite E. exact HK.
Qed.

Lemma kheap_run_safe_witness :
  exists m0, page_alloc_init boot_mem = Some (m0, 0) /\
  forall m1 live, rtc heap_step (m0, []) (m1, live) -> seps live.
Proof.
  destruct (kheap_run_safe boot_mem (proj1 boot_mem_lists) (proj2 boot_mem_lists))
    as (m0 & E & H).
  exists m0. split; [exact E|]. intros m1 live Hr. exact (proj1 (H m1 live Hr)).
Defined.

Lemma kmalloc_contract_witness :
  exists m', kmalloc one_page 100 = Some (m', page0 + 32) /\ kpool m' blocks_100 [].
Proof.
  destruct (kmalloc_contract one_page [] [page0] 100 one_page_kpool I ltac:(done) ltac:(done))
    as (m' & E & HK & _).
  exists m'. split; [exact E|exact HK].
Defined.

Lemma kfree_contract_witness :
  kpool (kfree after_100 (page0 + 32)) [mkBlock page0 4096 false] [].
Proof.
  exact (proj1 (kfree_contract after_100 [] (mkBlock page0 132 true)
    [mkBlock (page0 + 132) 3964 false] [] after_100_kpool ltac:(by split))).
Defined.

Lemma kmalloc_kfree_roundtrip_witness :
  exists m' r, kmalloc after_100 1000 = Some (m', r) /\ r <> nullptr /\
               kpool (kfree m' r) blocks_100 [].
Proof.
  eapply (kmalloc_kfree_roundtrip after_100 blocks_100 [] 1000 _ (page0 + 132) after_100_kpool).
  - by split.
  - done.
  - done.
  - vm_compute. reflexivity.
Defined.

Lemma kcalloc_zeroed_witness :
  exists m', kcalloc one_page 8 10 = Some (m', page0 + 32) /\
    forall a, inrng (page0 + 32) 80 a -> m' !!! a = Init.Byte.x00.
Proof.
  destruct (kcalloc_zeroed one_page [] [page0] 8 10 one_page_kpool I ltac:(done) ltac:(done))
    as (m' & E & _ & _ & _ & H).
  exists m'. split; [exact E|]. apply H. vm_compute. discriminate.
Defined.

(** [size += sizeof(block_header_t)] wraps for a huge request: [kmalloc] then
    succeeds, hands out a block it marks free with size 0, and leaves the block
    linked to itself. *)
Lemma kmalloc_overflow :
  match kmalloc one_page (2 ^ 64 - 32) with
  | Some (m', r) => r = page0 + 32 /\ blk_allocated m' page0 = false /\
                    blk_size m' page0 = 0 /\ prev m' page0 = page0
  | None => False
  end.
Proof. vm_compute. auto. Qed.
End Demo.
