(* ===== verification/Vm.v ===== *)
(** * Virtual memory: [src/arch/riscv/vm.c] and [include/mm/vm.h]

    Three-level Sv39 page tables in physical memory.  [sv39] is the address
    translation of the RISC-V privileged specification, written down
    independently of the kernel; the kernel's page tables are related to it. *)

From S2P Require Import Prelude.
From S2P Require Import Errno.
From S2P Require Import Mem.
From S2P Require Import Layout.
From S2P Require Import Pages.

(** [include/mm/vm.h] *)
Definition VM_FLAG_READABLE : Z := 0x1.
Definition VM_FLAG_WRITABLE : Z := 0x2.
Definition VM_FLAG_EXECUTABLE : Z := 0x4.
Definition VM_FLAG_USER : Z := 0x8.

Definition PTE_FLAG_V : Z := 0x01.
Definition PTE_FLAG_R : Z := 0x02.
Definition PTE_FLAG_W : Z := 0x04.
Definition PTE_FLAG_X : Z := 0x08.
Definition PTE_FLAG_U : Z := 0x10.
Definition PTE_FLAG_G : Z := 0x20.
Definition PTE_FLAG_A : Z := 0x40.
Definition PTE_FLAG_D : Z := 0x80.

(** ** [pte_t]

    A 64-bit word: [flags] is its first byte, [reserved] the next 2 bits, [ppn]
    the 44 bits from bit 10, [padding] the rest. *)

Definition PTE_SIZE : Z := 8.

Definition w_flags (w : Z) : Z := Z.land w (Z.ones 8).
Definition w_ppn (w : Z) : Z := Z.land (Z.shiftr w 10) (Z.ones 44).
Definition w_set_flags (w f : Z) : Z := Z.lor (Z.ldiff w (Z.ones 8)) (Z.land f (Z.ones 8)).
Definition w_set_ppn (w p : Z) : Z :=
  Z.lor (Z.ldiff w (Z.shiftl (Z.ones 44) 10)) (Z.shiftl (Z.land p (Z.ones 44)) 10).

Definition pte_flags (m : mem) (pte : Z) : Z := w_flags (load 8 m pte).
Definition pte_ppn (m : mem) (pte : Z) : Z := w_ppn (load 8 m pte).
Definition set_pte_flags (m : mem) (pte f : Z) : mem :=
  store 8 m pte (w_set_flags (load 8 m pte) f).
Definition set_pte_ppn (m : mem) (pte p : Z) : mem :=
  store 8 m pte (w_set_ppn (load 8 m pte) p).

(** [pte->flags |= f] *)
Definition or_pte_flags (m : mem) (pte f : Z) : mem :=
  set_pte_flags m pte (Z.lor (pte_flags m pte) f).

Definition init_pte (m : mem) (pte page flags : Z) : mem :=
  let m := or_pte_flags m pte PTE_FLAG_V in
  let m := if flags &? VM_FLAG_READABLE then or_pte_flags m pte PTE_FLAG_R else m in
  let m := if flags &? VM_FLAG_WRITABLE then or_pte_flags m pte PTE_FLAG_W else m in
  let m := if flags &? VM_FLAG_EXECUTABLE then or_pte_flags m pte PTE_FLAG_X else m in
  let m := if flags &? VM_FLAG_USER then or_pte_flags m pte PTE_FLAG_U else m in
  set_pte_ppn m pte (page / PAGE_SIZE).

Section code.
Context `{PA : PageAllocator}.

Definition vm_create_page_table (m : mem) : mem * Z :=
  let '(m, page_table) := pa_alloc m in
  if page_table =? nullptr then (m, nullptr)
  else (mem_set m page_table Init.Byte.x00 PAGE_SIZE, page_table).

(** One level of [vm_map_page]: the table that [pte] points to, created if the
    entry is not valid; [None] is [return -ENOMEM]. *)
Definition vm_next_table (m : mem) (pte : Z) : mem * option Z :=
  let page_table := u64 (pte_ppn m pte * PAGE_SIZE) in
  if negb (pte_flags m pte &? PTE_FLAG_V) then
    let '(m, page_table) := vm_create_page_table m in
    if page_table =? nullptr then (m, None)
    else (init_pte m pte page_table 0, Some page_table)
  else (m, Some page_table).

Definition vm_map_page (m : mem) (page_table virt phys flags : Z) : mem * Z :=
  let page_table0 := page_table in
  let idx0 := u16 (Z.shiftr virt 30) in
  let pte0 := page_table0 + idx0 * PTE_SIZE in
  match vm_next_table m pte0 with
  | (m, None) => (m, - ENOMEM)
  | (m, Some page_table1) =>
      let idx1 := Z.land (Z.shiftr virt 21) 0x1FF in
      let pte1 := page_table1 + idx1 * PTE_SIZE in
      match vm_next_table m pte1 with
      | (m, None) => (m, - ENOMEM)
      | (m, Some page_table2) =>
          let idx2 := Z.land (Z.shiftr virt 12) 0x1FF in
          let pte2 := page_table2 + idx2 * PTE_SIZE in
          (init_pte m pte2 phys flags, 0)
      end
  end.

(** [inl res] is a negative result, [inr phys] is 0 with the value of [*phys]. *)
Definition vm_virt_to_phys (m : mem) (page_table virt : Z) : Z + Z :=
  if negb (Z.shiftr virt 39 =? 0) then inl (- EFAULT)
  else
    let page_table0 := page_table in
    let idx0 := u16 (Z.shiftr virt 30) in
    let pte0 := page_table0 + idx0 * PTE_SIZE in
    let page_table1 := u64 (pte_ppn m pte0 * PAGE_SIZE) in
    if negb (pte_flags m pte0 &? PTE_FLAG_V) then inl (- EFAULT)
    else
      let idx1 := Z.land (Z.shiftr virt 21) 0x1FF in
      let pte1 := page_table1 + idx1 * PTE_SIZE in
      let page_table2 := u64 (pte_ppn m pte1 * PAGE_SIZE) in
      if negb (pte_flags m pte1 &? PTE_FLAG_V) then inl (- EFAULT)
      else
        let idx2 := Z.land (Z.shiftr virt 12) 0x1FF in
        let pte2 := page_table2 + idx2 * PTE_SIZE in
        inr (u64 (Z.shiftl (pte_ppn m pte2) 12 + virt `mod` PAGE_SIZE)).
End code.

(** ** Sv39 address translation (RISC-V privileged specification)

    The walk from a table at [level], for a 39-bit virtual address: an entry
    that is not valid, or writable but not readable, is a page fault; an entry
    that is readable or executable is a leaf, whose page is [2 ^ (12 + 9 level)]
    bytes and must be aligned to its size; any other entry points to the next
    table.  The result is the physical address and the permission bits. *)

Definition vpn (level : nat) (va : Z) : Z :=
  Z.land (Z.shiftr va (12 + 9 * Z.of_nat level)) (Z.ones 9).

Fixpoint sv39_walk (level : nat) (m : mem) (table va : Z) : option (Z * Z) :=
  let w := load 8 m (table + 8 * vpn level va) in
  if negb (Z.testbit w 0) || (Z.testbit w 2 && negb (Z.testbit w 1)) then None
  else if Z.testbit w 1 || Z.testbit w 3 then
    let page := 2 ^ (12 + 9 * Z.of_nat level) in
    if (w_ppn w * PAGE_SIZE) `mod` page =? 0
    then Some (w_ppn w * PAGE_SIZE + va `mod` page, w_flags w) else None
  else match level with
       | O => None
       | S level => sv39_walk level m (w_ppn w * PAGE_SIZE) va
       end.

Definition sv39 (m : mem) (root va : Z) : option (Z * Z) := sv39_walk 2 m root va.

(** ** Words *)

(** The permission bits [init_pte] sets for [flags]. *)
Definition perm (flags : Z) : Z :=
  let f := PTE_FLAG_V in
  let f := Z.lor f (if flags &? VM_FLAG_READABLE then PTE_FLAG_R else 0) in
  let f := Z.lor f (if flags &? VM_FLAG_WRITABLE then PTE_FLAG_W else 0) in
  let f := Z.lor f (if flags &? VM_FLAG_EXECUTABLE then PTE_FLAG_X else 0) in
  Z.lor f (if flags &? VM_FLAG_USER then PTE_FLAG_U else 0).

(** The entry [init_pte] makes of an entry [w]. *)
Definition pte_update (w page flags : Z) : Z :=
  w_set_ppn (w_set_flags w (Z.lor (w_flags w) (perm flags))) (page / PAGE_SIZE).

(** Equality of words bit by bit. *)
Ltac zbits :=
  apply Z.bits_inj'; let n := fresh "n" in intros n ?;
  unfold w_flags, w_ppn, w_set_flags, w_set_ppn;
  repeat first
    [ rewrite Z.lor_spec | rewrite Z.land_spec | rewrite Z.ldiff_spec
    | rewrite Z.bits_0 | rewrite Z.testbit_ones by lia
    | rewrite Z.shiftl_spec by lia | rewrite Z.shiftr_spec by lia ];
  repeat match goal with
  | |- context [?a <=? ?b] => destruct (Z.leb_spec a b)
  | |- context [?a <? ?b] => destruct (Z.ltb_spec a b)
  end; simpl; rewrite ?andb_true_r, ?andb_false_r, ?orb_false_l, ?orb_false_r, ?orb_true_r; try lia;
  try (f_equal; lia); auto;
  try (repeat match goal with |- context [Z.testbit ?a ?b] => destruct (Z.testbit a b) end;
       reflexivity).

Lemma bits_small x n k : 0 <= x < 2 ^ n -> 0 <= n <= k -> Z.testbit x k = false.
Proof.
  intros Hx Hk. rewrite <-(Z.mod_small x (2 ^ n)) by done.
  by apply Z.mod_pow2_bits_high.
Qed.

Lemma small_bits x n :
  0 <= n -> (forall k, n <= k -> Z.testbit x k = false) -> 0 <= x < 2 ^ n.
Proof.
  intros Hn H. assert (x = x `mod` 2 ^ n) as ->; [|apply Z.mod_pos_bound; lia].
  apply Z.bits_inj'. intros k Hk. destruct (Z.lt_ge_cases k n).
  - by rewrite Z.mod_pow2_bits_low.
  - rewrite Z.mod_pow2_bits_high by lia. auto.
Qed.

Lemma w_set_flags_flags w f : w_flags (w_set_flags w f) = Z.land f (Z.ones 8).
Proof. zbits. Qed.

Lemma w_set_flags_twice w f g : w_set_flags (w_set_flags w f) g = w_set_flags w g.
Proof. zbits. Qed.

Lemma w_set_ppn_ppn w p : w_ppn (w_set_ppn w p) = Z.land p (Z.ones 44).
Proof. zbits. Qed.

Lemma w_set_ppn_flags w p : w_flags (w_set_ppn w p) = w_flags w.
Proof. zbits. Qed.

Lemma w_set_range w f p :
  0 <= w < 2 ^ 64 -> 0 <= w_set_flags w f < 2 ^ 64 /\ 0 <= w_set_ppn w p < 2 ^ 64.
Proof.
  intros Hw. split; apply small_bits; try lia; intros k Hk; unfold w_set_flags, w_set_ppn.
  - rewrite Z.lor_spec, Z.ldiff_spec, Z.land_spec, Z.testbit_ones by lia.
    rewrite (bits_small w 64 k) by lia. destruct (Z.ltb_spec k 8); [lia|].
    by rewrite andb_false_r, andb_false_r.
  - rewrite Z.lor_spec, Z.ldiff_spec, !Z.shiftl_spec, Z.land_spec, Z.testbit_ones by lia.
    rewrite (bits_small w 64 k) by lia. destruct (Z.ltb_spec (k - 10) 44); [lia|].
    by rewrite andb_false_r, andb_false_r.
Qed.

Lemma perm_range flags : 0 <= perm flags < 2 ^ 8.
Proof. unfold perm. repeat case_match; done. Qed.

Lemma w_flags_range w : 0 <= w_flags w < 2 ^ 8.
Proof. unfold w_flags. rewrite Z.land_ones by lia. apply Z.mod_pos_bound. lia. Qed.

Lemma pte_update_flags w page flags :
  w_flags (pte_update w page flags) = Z.lor (w_flags w) (perm flags).
Proof.
  unfold pte_update. rewrite w_set_ppn_flags, w_set_flags_flags.
  rewrite Z.land_ones by lia. apply Z.mod_small. apply small_bits; [lia|].
  intros k Hk. rewrite Z.lor_spec, !(bits_small _ 8) by (auto using w_flags_range, perm_range with lia || lia).
  done.
Qed.

Lemma pte_update_ppn w page flags :
  0 <= page < 2 ^ 56 -> w_ppn (pte_update w page flags) = page / PAGE_SIZE.
Proof.
  intros Hp. unfold pte_update. rewrite w_set_ppn_ppn, Z.land_ones by lia.
  apply Z.mod_small. unfold PAGE_SIZE.
  split; [apply Z.div_pos; lia|apply Z.div_lt_upper_bound; lia].
Qed.

Lemma pte_update_range w page flags :
  0 <= w < 2 ^ 64 -> 0 <= pte_update w page flags < 2 ^ 64.
Proof.
  intros Hw. unfold pte_update. apply (w_set_range _ 0). by apply (w_set_range _ _ 0).
Qed.

(** A page-aligned address is its page number times the page size. *)
Lemma page_of_ppn p : page_aligned p -> p / PAGE_SIZE * PAGE_SIZE = p.
Proof. unfold page_aligned, PAGE_SIZE. intros H. pose proof (Z.div_mod p 4096). lia. Qed.

(** The flags field is the first byte of the entry. *)
Lemma pte_flags_byte m pte : pte_flags m pte = load 1 m pte.
Proof.
  unfold pte_flags, w_flags. rewrite Z.land_ones by lia. unfold load.
  change (read_bytes m pte 1) with (firstn 1 (read_bytes m pte 8)).
  by rewrite le_combine_firstn.
Qed.

(** ** [init_pte] *)

Lemma or_pte_flags_unch m pte f : unch (inrng pte PTE_SIZE) m (or_pte_flags m pte f).
Proof. apply (store_unch 8). Qed.

Lemma or_pte_flags_load m pte f :
  load 8 (or_pte_flags m pte f) pte =
  w_set_flags (load 8 m pte) (Z.lor (w_flags (load 8 m pte)) f).
Proof.
  unfold or_pte_flags, set_pte_flags, pte_flags.
  rewrite load8_store8, u64_small; [done|]. apply (w_set_range _ _ 0), load8_range.
Qed.

(** One conditional [|=] of [init_pte]. *)
Lemma or_pte_step m pte w acc f (c : bool) :
  load 8 m pte = w_set_flags w (Z.lor (w_flags w) acc) ->
  load 8 (if c then or_pte_flags m pte f else m) pte =
  w_set_flags w (Z.lor (w_flags w) (Z.lor acc (if c then f else 0))).
Proof.
  intros E. destruct c; [|by rewrite Z.lor_0_r].
  rewrite or_pte_flags_load, E, w_set_flags_twice, w_set_flags_flags. zbits.
Qed.

Lemma init_pte_word m pte page flags :
  load 8 (init_pte m pte page flags) pte = pte_update (load 8 m pte) page flags.
Proof.
  unfold init_pte, pte_update, set_pte_ppn.
  rewrite load8_store8, u64_small by (apply (w_set_range _ 0), load8_range).
  f_equal. unfold perm. do 4 apply or_pte_step. apply or_pte_flags_load.
Qed.

Lemma init_pte_unch m pte page flags :
  unch (inrng pte PTE_SIZE) m (init_pte m pte page flags).
Proof.
  unfold init_pte. cbv zeta.
  repeat match goal with
  | |- unch _ _ (set_pte_ppn _ _ _) => etrans; [|apply (store_unch 8)]
  | |- unch _ _ (if ?c then _ else _) => destruct c
  | |- unch _ _ (or_pte_flags _ _ _) => etrans; [|apply or_pte_flags_unch]
  end; reflexivity.
Qed.
