(* ===== verification/VmTree.v ===== *)
(** * Page tables as maps

    The three-level tables that [vm_map_page] builds represent a finite map from
    virtual page numbers to leaf entries.  [vm_map_page] is shown to refine an
    operation on this map (with the tables it has to allocate on the way), the
    hardware's translation is shown to be lookup in it, and [vm_virt_to_phys]
    is compared with the hardware's translation. *)

From S2P Require Import Prelude.
From S2P Require Import Errno.
From S2P Require Import Mem.
From S2P Require Import Layout.
From S2P Require Import Pages.
From S2P Require Import Vm.

(** The tables of an address space and its leaf entries, by virtual page number
    [v] (27 bits): the root table has the entries [v / 2 ^ 18], the table of a
    level-1 key [i] the entries [i * 512 + j], and so on. *)
Record ptree := mkTree {
  t_root : Z;
  t_l1 : gmap Z Z;
  t_l2 : gmap Z Z;
  t_leaf : gmap Z Z;
}.

Definition tables (t : ptree) : list Z :=
  t_root t :: (map_to_list (t_l1 t)).*2 ++ (map_to_list (t_l2 t)).*2.

(** Entry [i] of the table [p]. *)
Definition entry (m : mem) (p i : Z) : Z := load 8 m (p + i * PTE_SIZE).

(** The entry that points to a table, and the empty entry. *)
Definition ptr_word (o : option Z) : Z :=
  match o with Some p => pte_update 0 p 0 | None => 0 end.

(** ** The abstract operation *)

Definition add_l1 (t : ptree) (i p : Z) : ptree :=
  mkTree (t_root t) (<[i := p]> (t_l1 t)) (t_l2 t) (t_leaf t).
Definition add_l2 (t : ptree) (k p : Z) : ptree :=
  mkTree (t_root t) (t_l1 t) (<[k := p]> (t_l2 t)) (t_leaf t).
Definition add_leaf (t : ptree) (v w : Z) : ptree :=
  mkTree (t_root t) (t_l1 t) (t_l2 t) (<[v := w]> (t_leaf t)).

(** A table is added if it is missing; [None] when no page is left for it. *)
Definition need_l1 (t : ptree) (ps : list Z) (v : Z) : option (ptree * list Z) :=
  match t_l1 t !! (v / 2 ^ 18), ps with
  | Some _, _ => Some (t, ps)
  | None, [] => None
  | None, p :: ps => Some (add_l1 t (v / 2 ^ 18) p, ps)
  end.

Definition need_l2 (t : ptree) (ps : list Z) (v : Z) : option (ptree * list Z) :=
  match t_l2 t !! (v / 2 ^ 9), ps with
  | Some _, _ => Some (t, ps)
  | None, [] => None
  | None, p :: ps => Some (add_l2 t (v / 2 ^ 9) p, ps)
  end.

Definition map_abs (t : ptree) (ps : list Z) (v phys flags : Z) : ptree * list Z * Z :=
  match need_l1 t ps v with
  | None => (t, ps, - ENOMEM)
  | Some (t, ps) =>
      match need_l2 t ps v with
      | None => (t, ps, - ENOMEM)
      | Some (t, ps) =>
          (add_leaf t v (pte_update (default 0 (t_leaf t !! v)) phys flags), ps, 0)
      end
  end.

(** ** Representation *)

Definition idx_ok (i : Z) : Prop := 0 <= i < 512.

Record tree_ok (m : mem) (t : ptree) : Prop := {
  ok_root i : idx_ok i -> entry m (t_root t) i = ptr_word (t_l1 t !! i);
  ok_l1 i p : t_l1 t !! i = Some p ->
    idx_ok i /\ forall j, idx_ok j -> entry m p j = ptr_word (t_l2 t !! (i * 512 + j));
  ok_l2 k p : t_l2 t !! k = Some p ->
    is_Some (t_l1 t !! (k / 512)) /\
    forall j, idx_ok j -> entry m p j = default 0 (t_leaf t !! (k * 512 + j));
  ok_leaf v w : t_leaf t !! v = Some w -> is_Some (t_l2 t !! (v / 512));
  ok_nodup : NoDup (tables t);
}.

Section tree.
Context `{PA : PageAllocator} {PAOK : PageAllocatorOk PA}.

(** A tree and the page allocator: the tables are allocated pages. *)
Definition vm_ok (m : mem) (t : ptree) (ps : list Z) : Prop :=
  tree_ok m t /\ pa_pool m ps /\ Forall pa_page (tables t) /\
  (forall p, p ∈ tables t -> p ∉ ps).

Definition in_tables (t : ptree) (a : Z) : Prop :=
  exists p, p ∈ tables t /\ inrng p PAGE_SIZE a.

Lemma tables_l1 t i p : t_l1 t !! i = Some p -> p ∈ tables t.
Proof.
  intros H. right. apply elem_of_app. left. apply list_elem_of_fmap.
  exists (i, p). split; [done|]. by apply elem_of_map_to_list.
Qed.

Lemma tables_l2 t k p : t_l2 t !! k = Some p -> p ∈ tables t.
Proof.
  intros H. right. apply elem_of_app. right. apply list_elem_of_fmap.
  exists (k, p). split; [done|]. by apply elem_of_map_to_list.
Qed.

Lemma tables_add_l1 t i p :
  t_l1 t !! i = None -> tables (add_l1 t i p) ≡ₚ p :: tables t.
Proof.
  intros H. unfold tables, add_l1. simpl. rewrite (map_to_list_insert _ _ _ H). simpl.
  apply Permutation_swap.
Qed.

Lemma tables_add_l2 t k p :
  t_l2 t !! k = None -> tables (add_l2 t k p) ≡ₚ p :: tables t.
Proof.
  intros H. unfold tables, add_l2. simpl. rewrite (map_to_list_insert _ _ _ H). simpl.
  rewrite <-Permutation_middle. apply Permutation_swap.
Qed.

(** An entry is inside its table. *)
Lemma entry_rng p i a : idx_ok i -> inrng (p + i * PTE_SIZE) PTE_SIZE a -> inrng p PAGE_SIZE a.
Proof. unfold idx_ok, PTE_SIZE, PAGE_SIZE. rng. Qed.

Lemma entry_unch F m m' p i :
  idx_ok i -> unch F m m' -> (forall a, inrng p PAGE_SIZE a -> ~ F a) ->
  entry m' p i = entry m p i.
Proof.
  intros Hi HU HF. eapply load_unch; [exact HU|]. intros a Ha. apply HF.
  by eapply entry_rng.
Qed.

Lemma tree_ok_unch F m m' t :
  tree_ok m t -> unch F m m' -> (forall a, in_tables t a -> ~ F a) -> tree_ok m' t.
Proof.
  intros [H1 H2 H3 H4 H5] HU HF.
  assert (forall p i, p ∈ tables t -> idx_ok i -> entry m' p i = entry m p i) as HE.
  { intros p i Hp Hi. eapply entry_unch; [done..|]. intros a Ha. apply HF. by exists p. }
  split; [..|done|done].
  - intros i Hi. rewrite HE; [auto|left|done].
  - intros i p Hp. destruct (H2 i p Hp) as [? HX]. split; [done|].
    intros j Hj. rewrite HE; [auto|by eapply tables_l1|done].
  - intros k p Hp. destruct (H3 k p Hp) as [? HX]. split; [done|].
    intros j Hj. rewrite HE; [auto|by eapply tables_l2|done].
Qed.

Lemma vm_ok_unch F m m' t ps :
  vm_ok m t ps -> unch F m m' ->
  (forall a, in_tables t a \/ pa_own ps a -> ~ F a) -> vm_ok m' t ps.
Proof.
  intros (HT & HP & HF & HD) HU HX. split_and!; [..|done|done].
  - eapply tree_ok_unch; eauto.
  - eapply pa_pool_unch; eauto.
Qed.

(** ** Entries *)

Lemma ptr_word_None : ptr_word None = 0. Proof. done. Qed.

Lemma ptr_word_valid o : (w_flags (ptr_word o) &? PTE_FLAG_V) = bool_decide (is_Some o).
Proof. destruct o as [p|]; [|done]. simpl. by rewrite pte_update_flags. Qed.

Lemma ptr_word_table p :
  pa_page p -> u64 (w_ppn (ptr_word (Some p)) * PAGE_SIZE) = p.
Proof.
  intros Hp. destruct (pa_page_bounds p Hp). simpl. rewrite pte_update_ppn.
  - rewrite page_of_ppn by by apply pa_page_aligned. apply u64_small.
    unfold PAGE_SIZE in *. lia.
  - unfold PAGE_SIZE in *. lia.
Qed.

(** An existing table. *)
Lemma vm_next_table_old m p i q :
  entry m p i = ptr_word (Some q) -> pa_page q ->
  vm_next_table m (p + i * PTE_SIZE) = (m, Some q).
Proof.
  intros E Hq. unfold vm_next_table, pte_flags, pte_ppn. fold (entry m p i). rewrite E.
  rewrite ptr_word_valid, ptr_word_table by done. done.
Qed.

(** A missing table with no page left. *)
Lemma vm_next_table_fail m p i :
  entry m p i = 0 -> pa_pool m [] -> vm_next_table m (p + i * PTE_SIZE) = (m, None).
Proof.
  intros E HP. unfold vm_next_table, pte_flags, vm_create_page_table. fold (entry m p i).
  rewrite E. simpl. by rewrite pa_alloc_nil.
Qed.

(** A missing table made from a fresh page. *)
Lemma vm_next_table_new m p i q ps :
  entry m p i = 0 -> pa_pool m (q :: ps) -> pa_page p -> p ∉ q :: ps -> idx_ok i ->
  exists m', vm_next_table m (p + i * PTE_SIZE) = (m', Some q) /\ pa_pool m' ps /\
    entry m' p i = ptr_word (Some q) /\ (forall j, idx_ok j -> entry m' q j = 0) /\
    (forall j, idx_ok j -> j <> i -> entry m' p j = entry m p j) /\
    unch (fun a => pa_own (q :: ps) a \/ inrng p PAGE_SIZE a) m m'.
Proof.
  intros E HP Hp Hn Hi. destruct (pa_pool_pages _ _ HP) as [[Hq HN]%NoDup_cons [Fq HF]%Forall_cons].
  destruct (pa_alloc_cons m q ps HP) as (m1 & E1 & HP1 & HU1).
  unfold vm_next_table, pte_flags, vm_create_page_table. fold (entry m p i). rewrite E, E1.
  simpl negb. cbv iota.
  pose proof (pa_page_nonnull q Fq) as Hnull. apply Z.eqb_neq in Hnull. rewrite !Hnull.
  set (m2 := mem_set m1 q Init.Byte.x00 PAGE_SIZE).
  pose proof (mem_set_unch m1 q Init.Byte.x00 PAGE_SIZE : unch _ m1 m2) as HU2.
  set (m3 := init_pte m2 (p + i * PTE_SIZE) q 0).
  pose proof (init_pte_unch m2 (p + i * PTE_SIZE) q 0 : unch _ m2 m3) as HU3.
  assert (p <> q) as Hpq by set_solver.
  destruct (page_aligned_sep p q) as [|Hpd]; [by apply pa_page_aligned..|done|].
  assert (forall j, idx_ok j -> entry m2 p j = entry m p j) as HE.
  { intros j Hj. rewrite (entry_unch _ m1 m2 p j Hj HU2) by (unfold PAGE_SIZE in *; rng).
    eapply entry_unch; [done..|]. intros a Ha. by apply (pa_own_page (q :: ps) p); auto. }
  exists m3. split_and!; [done|..].
  - eapply pa_pool_unch; [eapply pa_pool_unch; [exact HP1|exact HU2|]|exact HU3|].
    + intros a Ha Hr. by apply (pa_own_page ps q a HF Fq Hq Hr).
    + intros a Ha Hr. apply (pa_own_page ps p a HF Hp); [set_solver| |done].
      by eapply entry_rng.
  - unfold entry, m3. rewrite init_pte_word. fold (entry m2 p i). by rewrite HE, E.
  - intros j Hj. rewrite (entry_unch _ m2 m3 q j Hj HU3).
    + apply load_zero. intros a Ha. unfold m2. rewrite mem_set_get, decide_True; [done|].
      eapply entry_rng; [done|exact Ha].
    + intros a Ha Hr. apply entry_rng in Hr; [|done]. unfold PAGE_SIZE in *. rng.
  - intros j Hj Hji. rewrite <-HE by done. eapply load_unch; [exact HU3|].
    unfold idx_ok, PTE_SIZE in *. rng.
  - etrans; [eapply unch_mono; [|exact HU1]; tauto|].
    etrans; (eapply unch_mono; [|first [exact HU2|exact HU3]]).
    + intros a Ha. left. apply pa_own_cons. by left.
    + intros a Ha. right. by eapply entry_rng.
Qed.

(** ** Growing the tree *)

(** Tables other than [p] survive the creation of a table in [p]. *)
Lemma other_tables m m' t p q ps :
  vm_ok m t (q :: ps) -> p ∈ tables t ->
  unch (fun a => pa_own (q :: ps) a \/ inrng p PAGE_SIZE a) m m' ->
  forall p' j, p' ∈ tables t -> p' <> p -> idx_ok j -> entry m' p' j = entry m p' j.
Proof.
  intros (HT & HP & HF & HD) Hp HU p' j Hp' Hne Hj.
  destruct (pa_pool_pages _ _ HP) as [_ HFP]. rewrite Forall_forall in HF.
  eapply entry_unch; [done..|]. intros a Ha [Ho|Hr].
  - by apply (pa_own_page (q :: ps) p' a HFP (HF p' Hp') (HD p' Hp') Ha).
  - apply Hne. eapply page_aligned_inj; eauto using pa_page_aligned.
Qed.

Lemma l1_not_root m t i p : tree_ok m t -> t_l1 t !! i = Some p -> p <> t_root t.
Proof.
  intros HT Hp ->. pose proof (ok_nodup _ _ HT) as [HN _]%NoDup_cons. apply HN.
  apply elem_of_app. left. apply list_elem_of_fmap. exists (i, t_root t). split; [done|].
  by apply elem_of_map_to_list.
Qed.

Lemma l2_not_root m t k p : tree_ok m t -> t_l2 t !! k = Some p -> p <> t_root t.
Proof.
  intros HT Hp ->. pose proof (ok_nodup _ _ HT) as [HN _]%NoDup_cons. apply HN.
  apply elem_of_app. right. apply list_elem_of_fmap. exists (k, t_root t). split; [done|].
  by apply elem_of_map_to_list.
Qed.

Lemma l2_not_l1 m t i k p q :
  tree_ok m t -> t_l1 t !! i = Some p -> t_l2 t !! k = Some q -> p <> q.
Proof.
  intros HT Hp Hq ->. pose proof (ok_nodup _ _ HT) as [_ HN]%NoDup_cons.
  apply NoDup_app in HN as (_ & HN & _). apply (HN q); apply list_elem_of_fmap.
  - exists (i, q). split; [done|]. by apply elem_of_map_to_list.
  - exists (k, q). split; [done|]. by apply elem_of_map_to_list.
Qed.

Lemma NoDup_snd_inj (mp : gmap Z Z) i j p :
  NoDup (map_to_list mp).*2 -> mp !! i = Some p -> mp !! j = Some p -> i = j.
Proof.
  intros HN Hi%elem_of_map_to_list Hj%elem_of_map_to_list.
  apply list_elem_of_lookup in Hi as [a Ha], Hj as [b Hb].
  assert (a = b) as ->; [|congruence].
  eapply NoDup_lookup; [exact HN|..]; rewrite list_lookup_fmap.
  - by rewrite Ha.
  - by rewrite Hb.
Qed.

Lemma l1_inj m t i j p :
  tree_ok m t -> t_l1 t !! i = Some p -> t_l1 t !! j = Some p -> i = j.
Proof.
  intros HT. pose proof (ok_nodup _ _ HT) as [_ HN]%NoDup_cons.
  apply NoDup_app in HN as (HN & _ & _). by apply NoDup_snd_inj.
Qed.

Lemma l2_inj m t i j p :
  tree_ok m t -> t_l2 t !! i = Some p -> t_l2 t !! j = Some p -> i = j.
Proof.
  intros HT. pose proof (ok_nodup _ _ HT) as [_ HN]%NoDup_cons.
  apply NoDup_app in HN as (_ & _ & HN). by apply NoDup_snd_inj.
Qed.

(** The pool part of [vm_ok] after a page [q] became a table. *)
Lemma vm_ok_grow m m' t t' q ps :
  vm_ok m t (q :: ps) -> tables t' ≡ₚ q :: tables t -> pa_pool m' ps -> tree_ok m' t' ->
  vm_ok m' t' ps.
Proof.
  intros (_ & HP & HF & HD) HPm HP' HT'.
  destruct (pa_pool_pages _ _ HP) as [[Hq HN]%NoDup_cons [Fq HFP]%Forall_cons].
  split_and!; [done..| |].
  - rewrite HPm. by constructor.
  - intros p. rewrite HPm. intros [->|Hp]%elem_of_cons; [done|]. specialize (HD p Hp). set_solver.
Qed.

Lemma vm_ok_nodup m t q ps : vm_ok m t (q :: ps) -> NoDup (q :: tables t).
Proof.
  intros (HT & _ & _ & HD). apply NoDup_cons. split; [|by apply (ok_nodup m)].
  intros Hq. apply (HD q Hq). left.
Qed.

Lemma tree_add_l1 m m' t i q ps :
  vm_ok m t (q :: ps) -> t_l1 t !! i = None -> idx_ok i ->
  entry m' (t_root t) i = ptr_word (Some q) -> (forall j, idx_ok j -> entry m' q j = 0) ->
  (forall j, idx_ok j -> j <> i -> entry m' (t_root t) j = entry m (t_root t) j) ->
  unch (fun a => pa_own (q :: ps) a \/ inrng (t_root t) PAGE_SIZE a) m m' ->
  tree_ok m' (add_l1 t i q).
Proof.
  intros HV Hi Hio Hnew Hzero Hroot HU. pose proof HV as (HT & _).
  assert (t_root t ∈ tables t) as Hr by left.
  pose proof (other_tables _ _ _ _ _ _ HV Hr HU) as HE.
  split; simpl.
  - intros j Hj. destruct (decide (j = i)) as [->|Hne].
    + by rewrite lookup_insert_eq.
    + rewrite lookup_insert_ne, Hroot by done. by apply (ok_root m).
  - intros i' p. rewrite lookup_insert. case_decide as Hi'.
    + intros [= <-]. subst i'. split; [done|]. intros j Hj. rewrite Hzero by done.
      destruct (t_l2 t !! (i * 512 + j)) as [p|] eqn:E; [|done]. exfalso.
      apply (ok_l2 m t HT) in E as [[? E] _]. unfold idx_ok in *.
      replace ((i * 512 + j) / 512) with i in E; [congruence|].
      rewrite Z.div_add_l, Z.div_small by lia. lia.
    + intros Hp. destruct (ok_l1 m t HT i' p Hp) as [? HX]. split; [done|].
      intros j Hj. rewrite HE; eauto using tables_l1, l1_not_root.
  - intros k p Hp. destruct (ok_l2 m t HT k p Hp) as [HS HX]. split.
    + rewrite lookup_insert. case_decide; [by eexists|done].
    + intros j Hj. rewrite HE; eauto using tables_l2, l2_not_root.
  - apply (ok_leaf m t HT).
  - rewrite (tables_add_l1 t i q Hi). by eapply vm_ok_nodup.
Qed.

Lemma tree_add_l2 m m' t i j p q ps :
  vm_ok m t (q :: ps) -> t_l1 t !! i = Some p -> idx_ok j -> t_l2 t !! (i * 512 + j) = None ->
  entry m' p j = ptr_word (Some q) -> (forall l, idx_ok l -> entry m' q l = 0) ->
  (forall l, idx_ok l -> l <> j -> entry m' p l = entry m p l) ->
  unch (fun a => pa_own (q :: ps) a \/ inrng p PAGE_SIZE a) m m' ->
  tree_ok m' (add_l2 t (i * 512 + j) q).
Proof.
  intros HV Hp Hj Hk Hnew Hzero Hold HU. pose proof HV as (HT & _).
  pose proof (other_tables _ _ _ _ _ _ HV (tables_l1 _ _ _ Hp) HU) as HE.
  split; simpl.
  - intros l Hl. rewrite HE; [by apply (ok_root m)|left| |done].
    intros E. symmetry in E. revert E. by eapply l1_not_root.
  - intros i' p' Hp'. destruct (ok_l1 m t HT i' p' Hp') as [Hi' HX]. split; [done|].
    intros l Hl. rewrite lookup_insert. destruct (decide (i = i')) as [<-|Hne].
    + assert (p' = p) as -> by congruence. case_decide as Ek.
      * by replace l with j by lia.
      * rewrite Hold; [auto|done|]. intros ->. done.
    + rewrite decide_False by (unfold idx_ok in *; lia).
      rewrite HE; [auto|by eapply tables_l1| |done]. intros ->.
      apply Hne. by eapply l1_inj.
  - intros k p'. rewrite lookup_insert. case_decide as Ek.
    + intros [= <-]. subst k. unfold idx_ok in Hj.
      rewrite Z.div_add_l, (Z.div_small j), Z.add_0_r by lia. split; [by eexists|].
      intros l Hl. rewrite Hzero by done.
      destruct (t_leaf t !! _) as [w|] eqn:E; [|done]. exfalso.
      apply (ok_leaf m t HT) in E as [? E]. unfold idx_ok in *.
      rewrite Z.div_add_l, (Z.div_small l), Z.add_0_r in E by lia. congruence.
    + intros Hp'. destruct (ok_l2 m t HT k p' Hp') as [HS HX]. split; [done|].
      intros l Hl. rewrite HE; [auto|by eapply tables_l2| |done].
      intros E. symmetry in E. revert E. by eapply l2_not_l1.
  - intros v w Hw. rewrite lookup_insert. case_decide; [by eexists|].
    by eapply (ok_leaf m t HT).
  - rewrite (tables_add_l2 t _ q Hk). by eapply vm_ok_nodup.
Qed.

Lemma tree_set_leaf m t k j q ps phys flags :
  vm_ok m t ps -> t_l2 t !! k = Some q -> idx_ok j ->
  let v := k * 512 + j in
  let m' := init_pte m (q + j * PTE_SIZE) phys flags in
  vm_ok m' (add_leaf t v (pte_update (default 0 (t_leaf t !! v)) phys flags)) ps /\
  unch (inrng q PAGE_SIZE) m m'.
Proof.
  intros (HT & HP & HF & HD) Hq Hj v m'.
  pose proof (init_pte_unch m (q + j * PTE_SIZE) phys flags : unch _ m m') as HU.
  pose proof (tables_l2 _ _ _ Hq) as Hqt. pose proof HF as HF'. rewrite Forall_forall in HF'.
  destruct (pa_pool_pages _ _ HP) as [_ HFP].
  assert (forall p l, p ∈ tables t -> p <> q -> idx_ok l -> entry m' p l = entry m p l) as HE.
  { intros p l Hp Hne Hl. eapply entry_unch; [done..|]. intros a Ha Hr%entry_rng; [|done].
    apply Hne. eapply page_aligned_inj; eauto using pa_page_aligned. }
  assert (entry m q j = default 0 (t_leaf t !! v)) as E0 by (by apply (ok_l2 m t HT k q Hq)).
  split; [split_and!|]; [split|..|done|done|]; simpl.
  - intros l Hl. rewrite HE; [by apply (ok_root m)|left| |done].
    intros E. symmetry in E. revert E. by eapply l2_not_root.
  - intros i p Hp. destruct (ok_l1 m t HT i p Hp) as [? HX]. split; [done|]. intros l Hl.
    rewrite HE; [auto|by eapply tables_l1| |done]. by eapply l2_not_l1.
  - intros k' p Hp. destruct (ok_l2 m t HT k' p Hp) as [? HX]. split; [done|]. intros l Hl.
    rewrite lookup_insert. destruct (decide (k' = k)) as [->|Hne].
    + assert (p = q) as -> by congruence. case_decide as El.
      * assert (l = j) as -> by (unfold v in El; lia). unfold entry, m'.
        rewrite init_pte_word. fold (entry m q j). by rewrite E0.
      * rewrite <-HX by done. eapply load_unch; [exact HU|]. unfold v in El.
        assert (l <> j) by (intros ->; done). unfold PTE_SIZE. rng.
    + rewrite decide_False by (unfold v, idx_ok in *; lia).
      rewrite HE; [auto|by eapply tables_l2| |done]. intros ->. apply Hne. by eapply l2_inj.
  - intros v' w. rewrite lookup_insert. case_decide as Ev.
    + intros _. subst v'. unfold v, idx_ok in *.
      rewrite Z.div_add_l, (Z.div_small j), Z.add_0_r by lia. by eexists.
    + apply (ok_leaf m t HT).
  - apply (ok_nodup m t HT).
  - eapply pa_pool_unch; [exact HP|exact HU|]. intros a Ha Hr%entry_rng; [|done].
    by apply (pa_own_page ps q a HFP (HF' q Hqt) (HD q Hqt) Hr).
  - eapply unch_mono; [|exact HU]. intros a. by apply entry_rng.
Qed.

(** The table indices of an address. *)
Lemma vm_index virt :
  0 <= virt < 2 ^ 39 ->
  let v := virt / PAGE_SIZE in
  u16 (Z.shiftr virt 30) = v / 2 ^ 18 /\ idx_ok (v / 2 ^ 18) /\
  Z.land (Z.shiftr virt 21) 0x1FF = (v / 2 ^ 9) `mod` 512 /\
  Z.land (Z.shiftr virt 12) 0x1FF = v `mod` 512.
Proof.
  intros Hv v. unfold v, PAGE_SIZE, u16, idx_ok.
  change 0x1FF with (Z.ones 9). rewrite !Z.land_ones, !Z.shiftr_div_pow2 by lia.
  rewrite !Z.div_div by lia.
  change (4096 * 2 ^ 18) with (2 ^ 30). change (4096 * 2 ^ 9) with (2 ^ 21).
  assert (0 <= virt / 2 ^ 30 < 512).
  { split; [apply Z.div_pos; lia|apply Z.div_lt_upper_bound; lia]. }
  rewrite Z.mod_small by lia. done.
Qed.

Lemma key_split k : k = k / 512 * 512 + k `mod` 512 /\ idx_ok (k `mod` 512).
Proof. pose proof (Z.div_mod k 512). pose proof (Z.mod_pos_bound k 512). unfold idx_ok. lia. Qed.

(** One table lookup of [vm_map_page], at each level. *)
Lemma need_l1_refines m t ps v :
  vm_ok m t ps -> idx_ok (v / 2 ^ 18) ->
  match need_l1 t ps v with
  | None => vm_next_table m (t_root t + v / 2 ^ 18 * PTE_SIZE) = (m, None)
  | Some (t', ps') =>
      exists m' p, vm_next_table m (t_root t + v / 2 ^ 18 * PTE_SIZE) = (m', Some p) /\
        t_l1 t' !! (v / 2 ^ 18) = Some p /\ vm_ok m' t' ps' /\
        unch (fun a => pa_own ps a \/ in_tables t a) m m'
  end.
Proof.
  intros HV Hi. pose proof HV as (HT & HP & HF & HD). unfold need_l1.
  pose proof (ok_root m t HT _ Hi) as E. rewrite Forall_forall in HF.
  destruct (t_l1 t !! (v / 2 ^ 18)) as [p|] eqn:El.
  - exists m, p. split_and!; [|done|done|done]. apply vm_next_table_old; [done|].
    apply HF. by eapply tables_l1.
  - destruct ps as [|q ps]; [by apply vm_next_table_fail|].
    assert (t_root t ∈ tables t) as Hr by left.
    destruct (vm_next_table_new m (t_root t) (v / 2 ^ 18) q ps)
      as (m' & E' & HP' & Hnew & Hzero & Hold & HU); auto.
    exists m', q. split_and!; [done|simpl; apply lookup_insert_eq|..].
    + eapply vm_ok_grow; [exact HV|by apply tables_add_l1|done|]. by eapply tree_add_l1.
    + eapply unch_mono; [|exact HU]. intros a [?|?]; [by left|right]. by exists (t_root t).
Qed.

Lemma need_l2_refines m t ps v p :
  vm_ok m t ps -> t_l1 t !! (v / 2 ^ 18) = Some p ->
  match need_l2 t ps v with
  | None => vm_next_table m (p + ((v / 2 ^ 9) `mod` 512) * PTE_SIZE) = (m, None)
  | Some (t', ps') =>
      exists m' q, vm_next_table m (p + ((v / 2 ^ 9) `mod` 512) * PTE_SIZE) = (m', Some q) /\
        t_l2 t' !! (v / 2 ^ 9) = Some q /\ t_leaf t' = t_leaf t /\ vm_ok m' t' ps' /\
        unch (fun a => pa_own ps a \/ in_tables t a) m m'
  end.
Proof.
  intros HV Hp. pose proof HV as (HT & HP & HF & HD). unfold need_l2.
  rewrite Forall_forall in HF. pose proof (tables_l1 _ _ _ Hp) as Hpt.
  destruct (key_split (v / 2 ^ 9)) as [Ek Hj].
  assert (v / 2 ^ 9 / 512 = v / 2 ^ 18) as Ed by (rewrite Z.div_div by lia; done).
  rewrite Ed in Ek. pose proof (ok_l1 m t HT _ _ Hp) as [Hi E]. specialize (E _ Hj).
  rewrite <-Ek in E. destruct (t_l2 t !! (v / 2 ^ 9)) as [q|] eqn:El.
  - exists m, q. split_and!; [|done..]. apply vm_next_table_old; [done|].
    apply HF. by eapply tables_l2.
  - destruct ps as [|q ps]; [by apply vm_next_table_fail|].
    destruct (vm_next_table_new m p ((v / 2 ^ 9) `mod` 512) q ps)
      as (m' & E' & HP' & Hnew & Hzero & Hold & HU); auto.
    exists m', q. split_and!; [done|simpl; apply lookup_insert_eq|done|..].
    + eapply vm_ok_grow; [exact HV|by apply tables_add_l2|done|].
      rewrite Ek. eapply tree_add_l2; eauto. by rewrite <-Ek.
    + eapply unch_mono; [|exact HU]. intros a [?|?]; [by left|right]. by exists p.
Qed.

(** ** [vm_map_page] refines [map_abs] *)

(** The bytes of the tables and of the allocator. *)
Definition vm_foot (t : ptree) (ps : list Z) (a : Z) : Prop := pa_own ps a \/ in_tables t a.

Lemma vm_foot_grow t t' q ps a :
  tables t' ≡ₚ q :: tables t -> vm_foot t' ps a -> vm_foot t (q :: ps) a.
Proof.
  intros HPm [Ho|(p & Hp & Ha)].
  - left. apply pa_own_cons. by right.
  - rewrite HPm in Hp. apply elem_of_cons in Hp as [->|Hp].
    + left. apply pa_own_cons. by left.
    + right. by exists p.
Qed.

Lemma need_l1_foot t ps v t' ps' a :
  need_l1 t ps v = Some (t', ps') -> vm_foot t' ps' a -> vm_foot t ps a.
Proof.
  unfold need_l1. destruct (t_l1 t !! _) eqn:E; [by intros [= <- <-]|].
  destruct ps as [|q ps]; [done|]. intros [= <- <-]. apply vm_foot_grow. by apply tables_add_l1.
Qed.

Lemma need_l2_foot t ps v t' ps' a :
  need_l2 t ps v = Some (t', ps') -> vm_foot t' ps' a -> vm_foot t ps a.
Proof.
  unfold need_l2. destruct (t_l2 t !! _) eqn:E; [by intros [= <- <-]|].
  destruct ps as [|q ps]; [done|]. intros [= <- <-]. apply vm_foot_grow. by apply tables_add_l2.
Qed.

Lemma need_l1_root t ps v t' ps' :
  need_l1 t ps v = Some (t', ps') -> t_root t' = t_root t /\ t_leaf t' = t_leaf t.
Proof. unfold need_l1. repeat case_match; intros; by simplify_eq/=. Qed.

Lemma need_l2_root t ps v t' ps' :
  need_l2 t ps v = Some (t', ps') -> t_root t' = t_root t /\ t_leaf t' = t_leaf t.
Proof. unfold need_l2. repeat case_match; intros; by simplify_eq/=. Qed.

Lemma map_abs_root t ps v phys flags t' ps' ret :
  map_abs t ps v phys flags = (t', ps', ret) -> t_root t' = t_root t.
Proof.
  unfold map_abs. destruct (need_l1 t ps v) as [[t1 ps1]|] eqn:E1; [|by intros [= <- _ _]].
  destruct (need_l2 t1 ps1 v) as [[t2 ps2]|] eqn:E2; intros [= <- _ _]; simpl.
  - apply need_l1_root in E1 as [? _]. apply need_l2_root in E2 as [? _]. congruence.
  - by apply need_l1_root in E1 as [? _].
Qed.

Lemma vm_map_page_refines m t ps virt phys flags :
  vm_ok m t ps -> 0 <= virt < 2 ^ 39 ->
  let '(t', ps', ret) := map_abs t ps (virt / PAGE_SIZE) phys flags in
  exists m', vm_map_page m (t_root t) virt phys flags = (m', ret) /\
    vm_ok m' t' ps' /\ unch (vm_foot t ps) m m'.
Proof.
  intros HV Hvirt. destruct (vm_index virt Hvirt) as (I0 & Hi0 & I1 & I2).
  set (v := virt / PAGE_SIZE) in *. unfold map_abs, vm_map_page. rewrite I0, I1, I2.
  pose proof (need_l1_refines m t ps v HV Hi0) as H1.
  destruct (need_l1 t ps v) as [[t1 ps1]|] eqn:E1; cycle 1.
  { exists m. rewrite H1. done. }
  destruct H1 as (m1 & p & -> & Hp & HV1 & HU1).
  pose proof (need_l2_refines m1 t1 ps1 v p HV1 Hp) as H2.
  destruct (need_l2 t1 ps1 v) as [[t2 ps2]|] eqn:E2; cycle 1.
  { exists m1. rewrite H2. done. }
  destruct H2 as (m2 & q & -> & Hq & Hl & HV2 & HU2).
  destruct (key_split v) as [Ev Hj].
  destruct (tree_set_leaf m2 t2 (v / 2 ^ 9) (v `mod` 512) q ps2 phys flags HV2 Hq Hj) as [HV3 HU3].
  change 512 with (2 ^ 9) in Ev at 1 |- . rewrite <-Ev in HV3.
  eexists. split; [done|]. split; [done|].
  etrans; [exact HU1|]. etrans; (eapply unch_mono; [|first [exact HU2|exact HU3]]).
  - intros a Ha. by eapply need_l1_foot.
  - intros a Ha. eapply need_l1_foot, need_l2_foot; [done..|]. right. exists q.
    split; [by eapply tables_l2|done].
Qed.

(** Success: the leaf is set and no other leaf changes; the page allocator
    supplies at most two tables. *)
Lemma map_abs_ok t ps v phys flags t' ps' :
  map_abs t ps v phys flags = (t', ps', 0) ->
  t_leaf t' = <[v := pte_update (default 0 (t_leaf t !! v)) phys flags]> (t_leaf t) /\
  exists used, ps = used ++ ps' /\ (length used <= 2)%nat.
Proof.
  unfold map_abs, need_l1, need_l2.
  destruct (t_l1 t !! _) as [|]; [|destruct ps as [|q ps]]; simpl; [|done|];
    (destruct (t_l2 t !! _) as [|]; [|destruct ps as [|q' ps]]); simpl;
    intros E; (done || injection E as <- <-); (split; [done|]).
  - exists []. split; [done|simpl; lia].
  - exists [q']. split; [done|simpl; lia].
  - exists [q]. split; [done|simpl; lia].
  - exists [q; q']. split; [done|simpl; lia].
Qed.

(** Failure: only [-ENOMEM], with the pool empty and no leaf changed. *)
Lemma map_abs_fail t ps v phys flags t' ps' ret :
  map_abs t ps v phys flags = (t', ps', ret) -> ret <> 0 ->
  ret = - ENOMEM /\ ps' = [] /\ (length ps <= 1)%nat /\ t_leaf t' = t_leaf t.
Proof.
  unfold map_abs, need_l1, need_l2.
  destruct (t_l1 t !! _) as [|]; [|destruct ps as [|q ps]]; simpl;
    [|intros [= <- <- <-] _; split_and!; done || simpl; lia|];
    (destruct (t_l2 t !! _) as [|]; [|destruct ps as [|q' ps]]); simpl;
    intros [= <- <- <-]; done || (intros _; split_and!; simpl; done || lia).
Qed.
End tree.

(** ** Accounting *)

Lemma length_tables t : length (tables t) = (1 + size (t_l1 t) + size (t_l2 t))%nat.
Proof.
  unfold tables. simpl. by rewrite length_app, !length_fmap, !length_map_to_list.
Qed.

(** Pages only move from the free list to the tables. *)
Lemma map_abs_perm t ps v phys flags t' ps' ret :
  map_abs t ps v phys flags = (t', ps', ret) -> tables t' ++ ps' ≡ₚ tables t ++ ps.
Proof.
  intros H.
  assert (forall t2 ps2 t3 ps3, need_l1 t2 ps2 v = Some (t3, ps3) ->
    tables t3 ++ ps3 ≡ₚ tables t2 ++ ps2) as H1.
  { intros t2 ps2 t3 ps3. unfold need_l1. destruct (t_l1 t2 !! _) eqn:E; [by intros [= <- <-]|].
    destruct ps2 as [|q ps2]; [done|]. intros [= <- <-].
    rewrite (tables_add_l1 t2 _ q E). apply (Permutation_middle (tables t2) ps2 q). }
  assert (forall t2 ps2 t3 ps3, need_l2 t2 ps2 v = Some (t3, ps3) ->
    tables t3 ++ ps3 ≡ₚ tables t2 ++ ps2) as H2.
  { intros t2 ps2 t3 ps3. unfold need_l2. destruct (t_l2 t2 !! _) eqn:E; [by intros [= <- <-]|].
    destruct ps2 as [|q ps2]; [done|]. intros [= <- <-].
    rewrite (tables_add_l2 t2 _ q E). apply (Permutation_middle (tables t2) ps2 q). }
  unfold map_abs in H. destruct (need_l1 t ps v) as [[t1 ps1]|] eqn:E1; [|by simplify_eq].
  apply H1 in E1. destruct (need_l2 t1 ps1 v) as [[t2 ps2]|] eqn:E2; [|by simplify_eq].
  apply H2 in E2. injection H as <- <- _. by rewrite <-E1, <-E2.
Qed.

(** The tables that a set of addresses needs: when a page cannot be mapped, one
    of them is missing. *)
Lemma size_missing {K} `{Countable K} (mp : gmap K Z) (X : gset K) i :
  dom mp ⊆ X -> i ∈ X -> mp !! i = None -> (size mp < size X)%nat.
Proof.
  intros HS Hi Hn. rewrite <-size_dom. apply subset_size. split; [done|].
  intros HX. apply not_elem_of_dom in Hn. set_solver.
Qed.

Lemma map_abs_keys t ps v phys flags t' ps' ret (K1 K2 : gset Z) :
  map_abs t ps v phys flags = (t', ps', ret) ->
  v / 2 ^ 18 ∈ K1 -> v / 2 ^ 9 ∈ K2 -> dom (t_l1 t) ⊆ K1 -> dom (t_l2 t) ⊆ K2 ->
  dom (t_l1 t') ⊆ K1 /\ dom (t_l2 t') ⊆ K2 /\
  (ret <> 0 -> (size (t_l1 t') + size (t_l2 t') < size K1 + size K2)%nat).
Proof.
  intros H Hv1 Hv2 HD1 HD2.
  assert (size (t_l1 t) <= size K1)%nat as HS1 by (rewrite <-size_dom; by apply subseteq_size).
  assert (size (t_l2 t) <= size K2)%nat as HS2 by (rewrite <-size_dom; by apply subseteq_size).
  unfold map_abs, need_l1, need_l2 in H.
  destruct (t_l1 t !! (v / 2 ^ 18)) eqn:E1; [|destruct ps as [|p ps]]; simpl in H;
    [|injection H as <- <- <-|].
  2:{ pose proof (size_missing _ _ _ HD1 Hv1 E1). split_and!; [done..|lia]. }
  - destruct (t_l2 t !! (v / 2 ^ 9)) eqn:E2; [|destruct ps as [|q ps]];
      injection H as <- <- <-; simpl; rewrite ?dom_insert_L; [set_solver| |set_solver].
    pose proof (size_missing _ _ _ HD2 Hv2 E2). split_and!; [done..|lia].
  - destruct (t_l2 t !! (v / 2 ^ 9)) eqn:E2; [|destruct ps as [|q ps]];
      injection H as <- <- <-; simpl; rewrite ?dom_insert_L; [set_solver| |set_solver].
    pose proof (size_missing _ _ _ HD2 Hv2 E2).
    assert (size (<[(v / 2 ^ 18)%Z := p]> (t_l1 t)) <= size K1)%nat.
    { rewrite <-size_dom, dom_insert_L. apply subseteq_size. set_solver. }
    split_and!; [set_solver|done|lia].
Qed.
