(* ===== verification/VmSpec.v ===== *)
(** * What the page tables mean

    The hardware's translation is lookup in the tree of [VmTree]; from this
    follow the contracts of [vm_map_page] and [vm_virt_to_phys] in terms of the
    translation alone. *)

From S2P Require Import Prelude.
From S2P Require Import Errno.
From S2P Require Import Mem.
From S2P Require Import DList.
From S2P Require Import Layout.
From S2P Require Import Pages.
From S2P Require Import PageAlloc.
From S2P Require Import Vm.
From S2P Require Import VmTree.

(** The translation by a leaf entry [w]. *)
Definition leaf_xlate (w va : Z) : option (Z * Z) :=
  if negb (Z.testbit w 0) || (Z.testbit w 2 && negb (Z.testbit w 1)) then None
  else if Z.testbit w 1 || Z.testbit w 3
  then Some (w_ppn w * PAGE_SIZE + va `mod` PAGE_SIZE, w_flags w) else None.

(** Flags the hardware accepts for a leaf: readable or executable, and readable
    if writable. *)
Definition flags_ok (flags : Z) : bool :=
  ((flags &? VM_FLAG_READABLE) || (flags &? VM_FLAG_EXECUTABLE)) &&
  (negb (flags &? VM_FLAG_WRITABLE) || (flags &? VM_FLAG_READABLE)).

Lemma w_flags_bit w k : 0 <= k < 8 -> Z.testbit (w_flags w) k = Z.testbit w k.
Proof.
  intros Hk. unfold w_flags. rewrite Z.land_spec, Z.testbit_ones by lia.
  destruct (Z.ltb_spec k 8); [|lia]. rewrite (proj2 (Z.leb_le 0 k)) by lia. by rewrite andb_true_r.
Qed.

Lemma pte_update_bit w page flags k :
  0 <= k < 8 ->
  Z.testbit (pte_update w page flags) k = Z.testbit w k || Z.testbit (perm flags) k.
Proof.
  intros Hk. rewrite <-(w_flags_bit (pte_update _ _ _)) by done.
  by rewrite pte_update_flags, Z.lor_spec, w_flags_bit.
Qed.

Lemma perm_bits flags :
  Z.testbit (perm flags) 0 = true /\
  Z.testbit (perm flags) 1 = (flags &? VM_FLAG_READABLE) /\
  Z.testbit (perm flags) 2 = (flags &? VM_FLAG_WRITABLE) /\
  Z.testbit (perm flags) 3 = (flags &? VM_FLAG_EXECUTABLE).
Proof. unfold perm. by repeat case_match. Qed.

(** The entry [vm_map_page] writes to an empty slot. *)
Lemma leaf_xlate_new page flags va :
  flags_ok flags = true -> page_aligned page -> 0 <= page < 2 ^ 56 ->
  leaf_xlate (pte_update 0 page flags) va = Some (page + va `mod` PAGE_SIZE, perm flags).
Proof.
  intros HF Ha Hp. unfold leaf_xlate. rewrite !pte_update_bit by lia. rewrite !Z.bits_0.
  destruct (perm_bits flags) as (-> & -> & -> & ->). unfold flags_ok in HF.
  rewrite pte_update_flags, pte_update_ppn, page_of_ppn by done. simpl.
  revert HF. by destruct (flags &? VM_FLAG_READABLE), (flags &? VM_FLAG_WRITABLE),
    (flags &? VM_FLAG_EXECUTABLE).
Qed.

(** An occupied slot: the new page, with the old permissions and the new. *)
Lemma leaf_xlate_again w page flags va :
  flags_ok flags = true -> page_aligned page -> 0 <= page < 2 ^ 56 ->
  (Z.testbit w 2 = true -> Z.testbit w 1 = true) ->
  leaf_xlate (pte_update w page flags) va =
  Some (page + va `mod` PAGE_SIZE, Z.lor (w_flags w) (perm flags)).
Proof.
  intros HF Ha Hp Hw. unfold leaf_xlate. rewrite !pte_update_bit by lia.
  destruct (perm_bits flags) as (-> & -> & -> & ->). unfold flags_ok in HF.
  rewrite pte_update_flags, pte_update_ppn, page_of_ppn by done. revert HF Hw.
  destruct (flags &? VM_FLAG_READABLE), (flags &? VM_FLAG_WRITABLE),
    (flags &? VM_FLAG_EXECUTABLE), (Z.testbit w 0), (Z.testbit w 1), (Z.testbit w 2),
    (Z.testbit w 3); simpl; intros; try done; by specialize (Hw eq_refl).
Qed.

Lemma leaf_xlate_zero va : leaf_xlate 0 va = None.
Proof. done. Qed.

(** ** The walk *)

(** One step of the hardware walk through a pointer entry, and through an
    empty one. *)
Lemma sv39_walk_ptr level m p va q :
  load 8 m (p + 8 * vpn (S level) va) = ptr_word (Some q) ->
  page_aligned q -> 0 <= q < 2 ^ 56 ->
  sv39_walk (S level) m p va = sv39_walk level m q va.
Proof.
  intros E Hq Hb. cbn [sv39_walk]. rewrite E. simpl ptr_word.
  rewrite !pte_update_bit by lia. rewrite !Z.bits_0.
  change (perm 0) with 1. simpl.
  by rewrite pte_update_ppn, page_of_ppn.
Qed.

Lemma sv39_walk_empty level m p va :
  load 8 m (p + 8 * vpn level va) = 0 -> sv39_walk level m p va = None.
Proof. intros E. destruct level; cbn [sv39_walk]; by rewrite E. Qed.

Lemma sv39_walk_leaf m p va :
  sv39_walk 0 m p va = leaf_xlate (load 8 m (p + 8 * vpn 0 va)) va.
Proof.
  cbn [sv39_walk]. unfold leaf_xlate. change (2 ^ (12 + 9 * Z.of_nat 0)) with PAGE_SIZE.
  by rewrite Z.mod_mul by done.
Qed.

Lemma vpn_index va :
  0 <= va < 2 ^ 39 ->
  let v := va / PAGE_SIZE in
  vpn 2 va = v / 2 ^ 18 /\ vpn 1 va = (v / 2 ^ 9) `mod` 512 /\ vpn 0 va = v `mod` 512.
Proof.
  intros Hv v. destruct (vm_index va Hv) as (E0 & Hi & E1 & E2). fold v in E0, Hi, E1, E2.
  unfold vpn. change (Z.ones 9) with 0x1FF. simpl Z.add. split_and!; [|done..].
  change 0x1FF with (Z.ones 9). rewrite Z.land_ones by lia. unfold u16 in E0. unfold idx_ok in Hi.
  change (12 + 9 * Z.of_nat 2) with 30.
  assert (Z.shiftr va 30 = v / 2 ^ 18) as ->.
  { unfold v, PAGE_SIZE. rewrite Z.shiftr_div_pow2, Z.div_div by lia. done. }
  apply Z.mod_small. lia.
Qed.

Section spec.
Context `{PA : PageAllocator} {PAOK : PageAllocatorOk PA}.

Lemma vm_ok_page m t ps p : vm_ok m t ps -> p ∈ tables t -> page_aligned p /\ 0 <= p < 2 ^ 32.
Proof.
  intros (_ & _ & HF & _) Hp. rewrite Forall_forall in HF. specialize (HF p Hp).
  pose proof (pa_page_bounds p HF). split; [by apply pa_page_aligned|].
  unfold PAGE_SIZE in *. lia.
Qed.

(** What the three tables of an address are, from the tree. *)
Inductive path (t : ptree) (v : Z) : Prop :=
| path_none1 : t_l1 t !! (v / 2 ^ 18) = None -> t_leaf t !! v = None -> path t v
| path_none2 p : t_l1 t !! (v / 2 ^ 18) = Some p -> t_l2 t !! (v / 2 ^ 9) = None ->
    t_leaf t !! v = None -> path t v
| path_full p q : t_l1 t !! (v / 2 ^ 18) = Some p -> t_l2 t !! (v / 2 ^ 9) = Some q -> path t v.

Lemma tree_path m t v : tree_ok m t -> path t v.
Proof.
  intros HT.
  assert (t_l2 t !! (v / 2 ^ 9) = None -> t_leaf t !! v = None) as H2.
  { intros E. destruct (t_leaf t !! v) eqn:El; [|done].
    apply (ok_leaf m t HT) in El as [? El]. change 512 with (2 ^ 9) in El. congruence. }
  destruct (t_l1 t !! (v / 2 ^ 18)) as [p|] eqn:E1; cycle 1.
  - apply path_none1; [done|]. apply H2. destruct (t_l2 t !! _) eqn:E2; [|done].
    apply (ok_l2 m t HT) in E2 as [[? E2] _]. rewrite Z.div_div in E2 by lia.
    change (2 ^ 9 * 512) with (2 ^ 18) in E2. congruence.
  - destruct (t_l2 t !! (v / 2 ^ 9)) as [q|] eqn:E2; [by eapply path_full|].
    eapply path_none2; eauto.
Qed.

(** The entries on the path. *)
Lemma path_entries m t v :
  tree_ok m t -> idx_ok (v / 2 ^ 18) ->
  entry m (t_root t) (v / 2 ^ 18) = ptr_word (t_l1 t !! (v / 2 ^ 18)) /\
  (forall p, t_l1 t !! (v / 2 ^ 18) = Some p ->
     entry m p ((v / 2 ^ 9) `mod` 512) = ptr_word (t_l2 t !! (v / 2 ^ 9))) /\
  (forall q, t_l2 t !! (v / 2 ^ 9) = Some q ->
     entry m q (v `mod` 512) = default 0 (t_leaf t !! v)).
Proof.
  intros HT Hi. destruct (key_split (v / 2 ^ 9)) as [Ek Hj], (key_split v) as [Ev Hl].
  rewrite Z.div_div in Ek by lia. change (2 ^ 9 * 512) with (2 ^ 18) in Ek.
  change (v / 512) with (v / 2 ^ 9) in Ev. split_and!.
  - by apply (ok_root m).
  - intros p Hp. destruct (ok_l1 m t HT _ _ Hp) as [_ HX]. by rewrite HX, <-Ek by done.
  - intros q Hq. destruct (ok_l2 m t HT _ _ Hq) as [_ HX]. by rewrite HX, <-Ev by done.
Qed.

Lemma load_entry m p i : load 8 m (p + 8 * i) = entry m p i.
Proof. unfold entry, PTE_SIZE. f_equal. lia. Qed.

(** The hardware walk is lookup. *)
Lemma sv39_lookup m t ps va :
  vm_ok m t ps -> 0 <= va < 2 ^ 39 ->
  sv39 m (t_root t) va = t_leaf t !! (va / PAGE_SIZE) ≫= (fun w => leaf_xlate w va).
Proof.
  intros HV Hva. pose proof HV as (HT & _). set (v := va / PAGE_SIZE) in *.
  destruct (vm_index va Hva) as (_ & Hi & _). destruct (vpn_index va Hva) as (V2 & V1 & V0).
  fold v in Hi, V2, V1, V0. destruct (path_entries m t v HT Hi) as (E1 & E2 & E3).
  unfold sv39. destruct (tree_path m t v HT) as [H1 Hl|p H1 H2 Hl|p q H1 H2].
  - rewrite Hl. apply sv39_walk_empty. by rewrite load_entry, V2, E1, H1.
  - destruct (vm_ok_page m t ps p HV) as [? ?]; [by eapply tables_l1|].
    rewrite Hl, (sv39_walk_ptr 1 m _ va p), sv39_walk_empty; auto; try lia.
    + by rewrite load_entry, V1, (E2 p), H2.
    + by rewrite load_entry, V2, E1, H1.
  - destruct (vm_ok_page m t ps p HV) as [? ?]; [by eapply tables_l1|].
    destruct (vm_ok_page m t ps q HV) as [? ?]; [by eapply tables_l2|].
    rewrite (sv39_walk_ptr 1 m _ va p), (sv39_walk_ptr 0 m _ va q), sv39_walk_leaf; auto; try lia.
    + rewrite load_entry, V0, (E3 q) by done. by destruct (t_leaf t !! v).
    + by rewrite load_entry, V1, (E2 p), H2.
    + by rewrite load_entry, V2, E1, H1.
Qed.

(** [vm_virt_to_phys] stops at a missing table, and does not look at the valid
    bit of the last entry. *)
Lemma vm_virt_to_phys_lookup m t ps virt :
  vm_ok m t ps -> 0 <= virt ->
  vm_virt_to_phys m (t_root t) virt =
  if virt <? 2 ^ 39 then
    match t_l2 t !! (virt / PAGE_SIZE / 2 ^ 9) with
    | None => inl (- EFAULT)
    | Some _ => inr (u64 (w_ppn (default 0 (t_leaf t !! (virt / PAGE_SIZE))) * PAGE_SIZE
                          + virt `mod` PAGE_SIZE))
    end
  else inl (- EFAULT).
Proof.
  intros HV H0. unfold vm_virt_to_phys. rewrite Z.shiftr_div_pow2 by lia.
  destruct (Z.ltb_spec virt (2 ^ 39)) as [Hv|Hv]; cycle 1.
  { destruct (virt / 2 ^ 39 =? 0) eqn:E; [|done]. bool_to_prop.
    apply Z.div_small_iff in E; lia. }
  rewrite (Z.div_small virt) by lia. simpl negb.
  destruct (vm_index virt) as (I0 & Hi & I1 & I2); [lia|]. rewrite I0, I1, I2.
  set (v := virt / PAGE_SIZE) in *. pose proof HV as (HT & _ & HF & _).
  rewrite Forall_forall in HF. destruct (path_entries m t v HT Hi) as (E1 & E2 & E3).
  unfold pte_flags, pte_ppn. fold (entry m (t_root t) (v / 2 ^ 18)). rewrite E1, ptr_word_valid.
  destruct (tree_path m t v HT) as [H1 Hl|p H1 H2 Hl|p q H1 H2].
  - rewrite H1. simpl. destruct (t_l2 t !! _) eqn:E; [|done].
    apply (ok_l2 m t HT) in E as [[? E] _]. rewrite Z.div_div in E by lia.
    change (2 ^ 9 * 512) with (2 ^ 18) in E. congruence.
  - rewrite H1, H2, ptr_word_table by eauto using tables_l1. simpl.
    fold (entry m p ((v / 2 ^ 9) `mod` 512)). by rewrite (E2 p), H2.
  - rewrite H1, H2, ptr_word_table by eauto using tables_l1. simpl.
    fold (entry m p ((v / 2 ^ 9) `mod` 512)). rewrite (E2 p), H2 by done. simpl.
    rewrite pte_update_flags. simpl. fold (ptr_word (Some q)).
    rewrite ptr_word_table by eauto using tables_l2.
    fold (entry m q (v `mod` 512)). rewrite (E3 q) by done. rewrite Z.shiftl_mul_pow2 by lia. done.
Qed.

(** A new, empty address space. *)
Lemma vm_create_spec m p ps :
  pa_pool m (p :: ps) ->
  exists m', vm_create_page_table m = (m', p) /\ vm_ok m' (mkTree p ∅ ∅ ∅) ps /\
             unch (pa_own (p :: ps)) m m'.
Proof.
  intros HP. destruct (pa_pool_pages _ _ HP) as [[Hq HN]%NoDup_cons [Fq HF]%Forall_cons].
  destruct (pa_alloc_cons m p ps HP) as (m1 & E1 & HP1 & HU1).
  unfold vm_create_page_table. rewrite E1.
  rewrite (proj2 (Z.eqb_neq p nullptr)) by by apply pa_page_nonnull.
  pose proof (mem_set_unch m1 p Init.Byte.x00 PAGE_SIZE) as HU2.
  eexists. split; [done|]. split; [split_and!|].
  - split; simpl; [|by intros *; rewrite lookup_empty..|].
    + intros i Hi. rewrite lookup_empty. apply load_zero. intros a Ha.
      rewrite mem_set_get, decide_True; [done|]. by eapply entry_rng.
    + unfold tables. simpl. rewrite map_to_list_empty. apply NoDup_singleton.
  - eapply pa_pool_unch; [exact HP1|exact HU2|].
    intros a Ha Hr. by apply (pa_own_page ps p a HF Fq Hq Hr).
  - unfold tables. simpl. rewrite map_to_list_empty. by constructor.
  - unfold tables. simpl. rewrite map_to_list_empty. by intros q ->%list_elem_of_singleton.
  - etrans; [exact HU1|]. eapply unch_mono; [|exact HU2]. intros a Ha. apply pa_own_cons. by left.
Qed.

(** ** Contracts *)

(** C19. [vm_map_page] on a well-formed address space: it sets one leaf and
    returns 0, taking at most two pages for tables, or changes no leaf and
    returns [-ENOMEM], which happens only when the page allocator is exhausted;
    the tables stay well formed and no byte outside them and the allocator's
    free pages is written. *)
Theorem vm_map_page_contract m t ps virt phys flags :
  vm_ok m t ps -> 0 <= virt < 2 ^ 39 ->
  exists m' ret t' ps', vm_map_page m (t_root t) virt phys flags = (m', ret) /\
    vm_ok m' t' ps' /\ t_root t' = t_root t /\ unch (vm_foot t ps) m m' /\
    ((ret = 0 /\ (exists used, ps = used ++ ps' /\ (length used <= 2)%nat) /\
      t_leaf t' = <[virt / PAGE_SIZE :=
        pte_update (default 0 (t_leaf t !! (virt / PAGE_SIZE))) phys flags]> (t_leaf t)) \/
     (ret = - ENOMEM /\ ps' = [] /\ (length ps <= 1)%nat /\ t_leaf t' = t_leaf t)).
Proof.
  intros HV Hv. pose proof (vm_map_page_refines m t ps virt phys flags HV Hv) as H.
  destruct (map_abs t ps (virt / PAGE_SIZE) phys flags) as [[t' ps'] ret] eqn:E.
  destruct H as (m' & Em & HV' & HU). exists m', ret, t', ps'. split_and!; [done..| |done|].
  - by eapply map_abs_root.
  - destruct (decide (ret = 0)) as [->|Hr].
    + left. apply map_abs_ok in E as [??]. auto.
    + right. by eapply map_abs_fail.
Qed.

(** The translation before and after a call of [vm_map_page]. *)
Lemma vm_map_page_sv39 m t ps virt phys flags m' ret :
  vm_ok m t ps -> 0 <= virt < 2 ^ 39 -> flags_ok flags = true ->
  page_aligned phys -> 0 <= phys < 2 ^ 32 -> t_leaf t !! (virt / PAGE_SIZE) = None ->
  vm_map_page m (t_root t) virt phys flags = (m', ret) ->
  exists t' ps', vm_ok m' t' ps' /\ t_root t' = t_root t /\
  forall va, 0 <= va < 2 ^ 39 ->
    sv39 m' (t_root t) va =
    (if (ret =? 0) && (va / PAGE_SIZE =? virt / PAGE_SIZE)
     then Some (phys + va `mod` PAGE_SIZE, perm flags)
     else sv39 m (t_root t) va) /\
    (ret = 0 -> va / PAGE_SIZE = virt / PAGE_SIZE ->
     vm_virt_to_phys m' (t_root t) va = inr (phys + va `mod` PAGE_SIZE)).
Proof.
  intros HV Hv HF Ha Hp Hn E. pose proof (vm_map_page_refines m t ps virt phys flags HV Hv) as H.
  destruct (map_abs t ps (virt / PAGE_SIZE) phys flags) as [[t' ps'] ret'] eqn:EA.
  destruct H as (m1 & E1 & HV' & _). rewrite E1 in E. injection E as -> ->.
  pose proof (map_abs_root _ _ _ _ _ _ _ _ EA) as Hroot. exists t', ps'. split; [done|].
  split; [done|]. intros va Hva. rewrite (sv39_lookup m t ps) by done.
  rewrite <-Hroot, (sv39_lookup m' t' ps') by done.
  rewrite (vm_virt_to_phys_lookup m' t' ps') by (done || lia).
  rewrite (proj2 (Z.ltb_lt va _)) by lia. destruct (decide (ret = 0)) as [->|Hr]; cycle 1.
  { rewrite (proj2 (Z.eqb_neq ret 0)) by done. apply map_abs_fail in EA as (_ & _ & _ & ->); [|done].
    by split. }
  destruct (map_abs_ok _ _ _ _ _ _ _ EA) as [Hl _]. rewrite Hl, Hn. simpl.
  destruct (Z.eqb_spec (va / PAGE_SIZE) (virt / PAGE_SIZE)) as [Ev|Ev]; cycle 1.
  { rewrite lookup_insert_ne by done. by split. }
  rewrite Ev, lookup_insert_eq. simpl. rewrite leaf_xlate_new by (done || lia). split; [done|].
  intros _ _. destruct HV' as (HT' & _).
  destruct (ok_leaf m' t' HT' (virt / PAGE_SIZE) (pte_update 0 phys flags)) as [q Hq].
  { by rewrite Hl, Hn, lookup_insert_eq. }
  change 512 with (2 ^ 9) in Hq. rewrite Hq, pte_update_ppn, page_of_ppn by (done || lia).
  f_equal. apply u64_small. unfold PAGE_SIZE. pose proof (Z.mod_pos_bound va 4096). lia.
Qed.

(** C3. Mapping a page that is not mapped: afterwards the hardware translates
    every address of the page to the physical page with exactly the requested
    permissions, [vm_virt_to_phys] agrees, and every other address is translated
    as before; if [vm_map_page] fails, no translation changes. *)
Theorem vm_map_page_translates m t ps virt phys flags m' ret :
  vm_ok m t ps -> 0 <= virt < 2 ^ 39 -> flags_ok flags = true ->
  page_aligned phys -> 0 <= phys < 2 ^ 32 -> t_leaf t !! (virt / PAGE_SIZE) = None ->
  vm_map_page m (t_root t) virt phys flags = (m', ret) ->
  forall va, 0 <= va < 2 ^ 39 ->
    sv39 m' (t_root t) va =
    (if (ret =? 0) && (va / PAGE_SIZE =? virt / PAGE_SIZE)
     then Some (phys + va `mod` PAGE_SIZE, perm flags)
     else sv39 m (t_root t) va) /\
    (ret = 0 -> va / PAGE_SIZE = virt / PAGE_SIZE ->
     vm_virt_to_phys m' (t_root t) va = inr (phys + va `mod` PAGE_SIZE)).
Proof.
  intros HV Hv HF Ha Hp Hn E.
  by destruct (vm_map_page_sv39 m t ps virt phys flags m' ret) as (t' & ps' & _ & _ & H).
Qed.

(** C22. Mapping a page again: the new physical page replaces the old one, but the
    permissions are the union of the old and the new. *)
Theorem vm_map_page_again m t ps virt phys flags w :
  vm_ok m t ps -> 0 <= virt < 2 ^ 39 -> flags_ok flags = true ->
  page_aligned phys -> 0 <= phys < 2 ^ 32 -> t_leaf t !! (virt / PAGE_SIZE) = Some w ->
  is_Some (leaf_xlate w virt) ->
  exists m', vm_map_page m (t_root t) virt phys flags = (m', 0) /\
    sv39 m' (t_root t) virt = Some (phys + virt `mod` PAGE_SIZE, Z.lor (w_flags w) (perm flags)).
Proof.
  intros HV Hv HF Ha Hp Hw [x Hx]. pose proof (vm_map_page_refines m t ps virt phys flags HV Hv) as H.
  destruct (map_abs t ps (virt / PAGE_SIZE) phys flags) as [[t' ps'] ret] eqn:EA.
  destruct H as (m' & E & HV' & _). exists m'.
  assert (ret = 0) as ->.
  { pose proof HV as (HT & _). destruct (ok_leaf m t HT _ _ Hw) as [q Hq].
    destruct (ok_l2 m t HT _ _ Hq) as [[p Hp'] _]. rewrite Z.div_div in Hp' by lia.
    unfold map_abs, need_l1, need_l2 in EA. change 512 with (2 ^ 9) in Hq.
    change (512 * 512) with (2 ^ 18) in Hp'. rewrite Hp', Hq in EA. congruence. }
  split; [done|]. rewrite <-(map_abs_root _ _ _ _ _ _ _ _ EA), (sv39_lookup m' t' ps') by done.
  destruct (map_abs_ok _ _ _ _ _ _ _ EA) as [-> _]. rewrite lookup_insert_eq, Hw. simpl.
  apply leaf_xlate_again; [done..|lia|]. revert Hx. unfold leaf_xlate.
  destruct (Z.testbit w 0), (Z.testbit w 2), (Z.testbit w 1); done.
Qed.

Lemma vm_virt_to_phys_hw m t ps virt :
  vm_ok m t ps -> 0 <= virt < 2 ^ 64 ->
  match vm_virt_to_phys m (t_root t) virt with
  | inl e => e = - EFAULT /\ (2 ^ 39 <= virt \/ sv39 m (t_root t) virt = None)
  | inr pa => virt < 2 ^ 39 /\
      forall pa' fl, sv39 m (t_root t) virt = Some (pa', fl) -> pa' < 2 ^ 44 -> pa' = pa
  end.
Proof.
  intros HV Hv. rewrite (vm_virt_to_phys_lookup m t ps) by (done || lia).
  destruct (Z.ltb_spec virt (2 ^ 39)); [|auto].
  rewrite (sv39_lookup m t ps) by (done || lia). pose proof HV as (HT & _).
  destruct (t_l2 t !! _) as [q|] eqn:E2; cycle 1.
  - split; [done|right]. destruct (t_leaf t !! _) eqn:El; [|done].
    apply (ok_leaf m t HT) in El as [? El]. change 512 with (2 ^ 9) in El. congruence.
  - split; [done|]. intros pa' fl. destruct (t_leaf t !! _) as [w|]; [|done]. simpl.
    unfold leaf_xlate. repeat case_match; try done. intros [= <- <-] Hb. symmetry. apply u64_small.
    split; [|lia]. unfold PAGE_SIZE. pose proof (Z.mod_pos_bound virt 4096).
    assert (0 <= w_ppn w); [|lia]. unfold w_ppn. rewrite Z.land_ones by lia.
    apply Z.mod_pos_bound. lia.
Qed.

(** Pages of one last-level table are translated by no other. *)
Lemma sv39_no_table m t ps va :
  vm_ok m t ps -> 0 <= va < 2 ^ 39 -> t_l2 t !! (va / PAGE_SIZE / 2 ^ 9) = None ->
  sv39 m (t_root t) va = None.
Proof.
  intros HV Hva E2. rewrite (sv39_lookup m t ps) by done. pose proof HV as (HT & _).
  destruct (t_leaf t !! _) eqn:El; [|done].
  apply (ok_leaf m t HT) in El as [? El]. change 512 with (2 ^ 9) in El. congruence.
Qed.

(** C21. [vm_virt_to_phys] on the address spaces that [vm_map_page] builds.  An
    address from [2 ^ 39] on is refused with [-EFAULT].  Below, an address whose
    2 MiB region has no last-level table is refused with [-EFAULT]; whenever the
    function fails, the result is [-EFAULT] and the hardware faults on every
    address of that region; and where the hardware translates the address, to a
    physical address below [2 ^ 44], the function succeeds with this address. *)
Theorem vm_virt_to_phys_sound m t ps virt :
  vm_ok m t ps -> 0 <= virt < 2 ^ 64 ->
  (2 ^ 39 <= virt -> vm_virt_to_phys m (t_root t) virt = inl (- EFAULT)) /\
  (virt < 2 ^ 39 -> t_l2 t !! (virt / 2 ^ 21) = None ->
   vm_virt_to_phys m (t_root t) virt = inl (- EFAULT)) /\
  (forall e, virt < 2 ^ 39 -> vm_virt_to_phys m (t_root t) virt = inl e ->
   e = - EFAULT /\ forall va, va / 2 ^ 21 = virt / 2 ^ 21 -> sv39 m (t_root t) va = None) /\
  (forall pa fl, virt < 2 ^ 39 -> sv39 m (t_root t) virt = Some (pa, fl) -> pa < 2 ^ 44 ->
   vm_virt_to_phys m (t_root t) virt = inr pa).
Proof.
  intros HV Hv. assert (forall va, va / PAGE_SIZE / 2 ^ 9 = va / 2 ^ 21) as Hd.
  { intros va. by rewrite Z.div_div by (unfold PAGE_SIZE; lia). }
  split_and!.
  - intros H. rewrite (vm_virt_to_phys_lookup m t ps) by (done || lia).
    by rewrite (proj2 (Z.ltb_ge _ _) H).
  - intros H E. rewrite (vm_virt_to_phys_lookup m t ps) by (done || lia).
    by rewrite (proj2 (Z.ltb_lt _ _) H), Hd, E.
  - intros e H. rewrite (vm_virt_to_phys_lookup m t ps) by (done || lia).
    rewrite (proj2 (Z.ltb_lt _ _) H), Hd.
    destruct (t_l2 t !! _) eqn:E; [done|]. intros [= <-]. split; [done|]. intros va Hva.
    apply (sv39_no_table m t ps); [done| |by rewrite Hd, Hva].
    pose proof (Z.div_mod va (2 ^ 21)). pose proof (Z.mod_pos_bound va (2 ^ 21)).
    assert (0 <= virt / 2 ^ 21 < 2 ^ 18); [|lia].
    split; [apply Z.div_pos; lia|apply Z.div_lt_upper_bound; lia].
  - intros pa fl H Hx Hpa. pose proof (vm_virt_to_phys_hw m t ps virt HV Hv) as HW.
    destruct (vm_virt_to_phys m (t_root t) virt) as [e|pa'].
    + destruct HW as [_ [?|?]]; [lia|congruence].
    + destruct HW as [_ HW]. by rewrite (HW pa fl Hx Hpa).
Qed.

(** C23. [vm_virt_to_phys] does not test the valid bit of the last entry: for an
    unmapped page whose tables exist, the hardware faults and the function
    succeeds with the page offset as the physical address. *)
Theorem vm_virt_to_phys_unmapped m t ps virt q :
  vm_ok m t ps -> 0 <= virt < 2 ^ 39 -> t_leaf t !! (virt / PAGE_SIZE) = None ->
  t_l2 t !! (virt / PAGE_SIZE / 2 ^ 9) = Some q ->
  sv39 m (t_root t) virt = None /\
  vm_virt_to_phys m (t_root t) virt = inr (virt `mod` PAGE_SIZE).
Proof.
  intros HV Hv Hl Hq. rewrite (sv39_lookup m t ps), Hl by done. split; [done|].
  rewrite (vm_virt_to_phys_lookup m t ps), (proj2 (Z.ltb_lt virt _)), Hq, Hl by (done || lia).
  f_equal. apply u64_small. unfold PAGE_SIZE. pose proof (Z.mod_pos_bound virt 4096). simpl. lia.
Qed.
End spec.

(** ** A concrete address space *)

Module Demo.
Import Boot.

Definition pg (i : Z) : Z := sym_heap_start + i * PAGE_SIZE.
Definition tree0 : ptree := mkTree (pg 0) ∅ ∅ ∅.

(** Four free pages, one of which becomes a root table; then the page at
    [0x10000] is mapped readable and executable. *)
Definition space0 : mem := (vm_create_page_table (boot_pages 4)).1.
Definition mapped : ptree * list Z * Z :=
  map_abs tree0 [pg 1; pg 2; pg 3] 0x10 0x80001000 0x5.
Definition space1 : mem := (vm_map_page space0 (pg 0) 0x10000 0x80001000 0x5).1.

Lemma space0_ok : vm_ok space0 tree0 [pg 1; pg 2; pg 3].
Proof.
  destruct (vm_create_spec (boot_pages 4) (pg 0) [pg 1; pg 2; pg 3]) as (m' & E & HV & _).
  - exact (boot_pages_free 4 ltac:(lia)).
  - unfold space0. by rewrite E.
Qed.

Lemma space1_ok : vm_ok space1 mapped.1.1 [pg 3].
Proof.
  pose proof (vm_map_page_refines space0 tree0 [pg 1; pg 2; pg 3] 0x10000 0x80001000 0x5
    space0_ok ltac:(lia)) as H.
  change (0x10000 / PAGE_SIZE) with 0x10 in H. fold mapped in H.
  destruct mapped as [[t' ps'] ret] eqn:Em.
  assert (ps' = [pg 3]) as -> by (by vm_compute in Em; injection Em).
  destruct H as (m' & E & HV & _). unfold space1. unfold tree0 in E. simpl t_root in E.
  by rewrite E.
Qed.

Lemma vm_map_page_contract_witness :
  exists m' ret t' ps', vm_map_page space0 (pg 0) 0x10000 0x80001000 0x5 = (m', ret) /\
    vm_ok m' t' ps'.
Proof.
  destruct (vm_map_page_contract space0 tree0 [pg 1; pg 2; pg 3] 0x10000 0x80001000 0x5
    space0_ok ltac:(lia)) as (m' & ret & t' & ps' & E & HV & _).
  exists m', ret, t', ps'. split; [exact E|exact HV].
Defined.

Lemma vm_map_page_translates_witness :
  sv39 space1 (pg 0) 0x10234 = Some (0x80001234, 0xb) /\
  vm_virt_to_phys space1 (pg 0) 0x10234 = inr 0x80001234.
Proof.
  destruct (vm_map_page_translates space0 tree0 [pg 1; pg 2; pg 3] 0x10000 0x80001000 0x5
    space1 0 space0_ok ltac:(lia) eq_refl eq_refl ltac:(lia) eq_refl) with (va := 0x10234)
    as [H1 H2]; [|lia|].
  - unfold space1. destruct (vm_map_page _ _ _ _ _) as [m' ret] eqn:E.
    pose proof (vm_map_page_refines space0 tree0 [pg 1; pg 2; pg 3] 0x10000 0x80001000 0x5
      space0_ok ltac:(lia)) as (m1 & E1 & _).
    unfold tree0 in *. simpl t_root in *. rewrite E in E1. injection E1 as -> ->. reflexivity.
  - split; [exact H1|]. exact (H2 eq_refl eq_refl).
Defined.

Lemma vm_map_page_again_witness :
  exists m', vm_map_page space1 (pg 0) 0x10000 0x80002000 0x3 = (m', 0) /\
    sv39 m' (pg 0) 0x10000 = Some (0x80002000, 0xf).
Proof.
  refine (vm_map_page_again space1 mapped.1.1 [pg 3] 0x10000 0x80002000 0x3
    (pte_update 0 0x80001000 0x5) space1_ok ltac:(lia) eq_refl eq_refl ltac:(lia) eq_refl _).
  by exists (0x80001000, 0xb).
Defined.

Lemma vm_virt_to_phys_sound_witness :
  vm_virt_to_phys space1 (pg 0) 0x10234 = inr 0x80001234 /\
  vm_virt_to_phys space1 (pg 0) 0x40000000 = inl (- EFAULT) /\
  vm_virt_to_phys space1 (pg 0) (2 ^ 39) = inl (- EFAULT).
Proof.
  split; [|split].
  - refine (proj2 (proj2 (proj2 (vm_virt_to_phys_sound space1 mapped.1.1 [pg 3] 0x10234
      space1_ok ltac:(lia)))) 0x80001234 0xb ltac:(lia) _ ltac:(lia)). vm_compute. reflexivity.
  - refine (proj1 (proj2 (vm_virt_to_phys_sound space1 mapped.1.1 [pg 3] 0x40000000
      space1_ok ltac:(lia))) ltac:(lia) _). vm_compute. reflexivity.
  - exact (proj1 (vm_virt_to_phys_sound space1 mapped.1.1 [pg 3] (2 ^ 39)
      space1_ok ltac:(lia)) ltac:(lia)).
Defined.

Lemma vm_virt_to_phys_unmapped_witness :
  sv39 space1 (pg 0) 0x11234 = None /\ vm_virt_to_phys space1 (pg 0) 0x11234 = inr 0x234.
Proof.
  exact (vm_virt_to_phys_unmapped space1 mapped.1.1 [pg 3] 0x11234 (pg 2)
    space1_ok ltac:(lia) eq_refl eq_refl).
Defined.
End Demo.
