(* ===== verification/InitElf.v ===== *)
(** * The program image: [src/init.c]

    [const u8 INIT_ELF[]], the executable of the first user process, byte for
    byte; the array is cut into parts of 150 source lines, twelve bytes to a
    line as in the source. *)

From S2P Require Import Prelude.

Module Image.
Import Init.Byte.

Definition INIT_ELF_00 : list byte := [
  x7f; x45; x4c; x46; x02; x01; x01; x00; x00; x00; x00; x00;
  x00; x00; x00; x00; x02; x00; xf3; x00; x01; x00; x00; x00;
  x0c; x01; x01; x00; x00; x00; x00; x00; x40; x00; x00; x00;
  x00; x00; x00; x00; x40; x04; x01; x00; x00; x00; x00; x00;
  x05; x00; x00; x00; x40; x00; x38; x00; x03; x00; x40; x00;
  x15; x00; x14; x00; x03; x00; x00; x70; x04; x00; x00; x00;
  x7f; xcb; x00; x00; x00; x00; x00; x00; x00; x00; x00; x00;
  x00; x00; x00; x00; x00; x00; x00; x00; x00; x00; x00; x00;
  x4b; x00; x00; x00; x00; x00; x00; x00; x00; x00; x00; x00;
  x00; x00; x00; x00; x01; x00; x00; x00; x00; x00; x00; x00;
  x01; x00; x00; x00; x05; x00; x00; x00; x00; x00; x00; x00;
  x00; x00; x00; x00; x00; x00; x01; x00; x00; x00; x00; x00;
  x00; x00; x01; x00; x00; x00; x00; x00; x50; xb7; x00; x00;
  x00; x00; x00; x00; x50; xb7; x00; x00; x00; x00; x00; x00;
  x00; x10; x00; x00; x00; x00; x00; x00; x01; x00; x00; x00;
  x06; x00; x00; x00; x00; xc0; x00; x00; x00; x00; x00; x00;
  x00; xc0; x01; x00; x00; x00; x00; x00; x00; xc0; x01; x00;
  x00; x00; x00; x00; x70; x0b; x00; x00; x00; x00; x00; x00;
  xf8; x0d; x40; x00; x00; x00; x00; x00; x00; x10; x00; x00;
  x00; x00; x00; x00; x41; x11; x06; xe4; x22; xe0; x00; x08;
  x81; x46; x09; x46; x81; x45; x17; xb5; x00; x00; x13; x05;
  x25; xea; xef; x00; x40; x64; x01; x00; xa2; x60; x02; x64;
  x41; x01; x82; x80; x41; x11; x06; xe4; x22; xe0; x00; x08;
  x97; xd1; x00; x00; x93; x81; x41; x23; x97; x00; x00; x00;
  xe7; x80; xc0; xfc; xaa; x87; x3e; x85; x97; x00; x00; x00;
  xe7; x80; x80; x00; x01; x11; x06; xec; x22; xe8; x00; x10;
  xaa; x87; x23; x26; xf4; xfe; x83; x27; xc4; xfe; x81; x45;
  x3e; x85; xef; x00; x30; x68; x93; x87; x81; x82; x9c; x63;
  x89; xc7; x93; x87; x81; x82; x9c; x63; x82; x97; x83; x27;
  xc4; xfe; x3e; x85; xef; x00; x50; x30; x01; x11; x06; xec;
  x22; xe8; x00; x10; x23; x34; xa4; xfe; xae; x87; x32; x87;
  x23; x22; xf4; xfe; xba; x87; x23; x20; xf4; xfe; x83; x37;
  x84; xfe; x23; xb0; x07; x00; x83; x37; x84; xfe; x23; xa4;
  x07; x00; x83; x37; x84; xfe; x23; xa6; x07; x00; x83; x27;
  x44; xfe; x1b; x97; x07; x01; x1b; x57; x07; x41; x83; x37;
  x84; xfe; x23; x98; xe7; x00; x83; x37; x84; xfe; x23; xa6;
  x07; x0a; x83; x27; x04; xfe; x1b; x97; x07; x01; x1b; x57;
  x07; x41; x83; x37; x84; xfe; x23; x99; xe7; x00; x83; x37;
  x84; xfe; x23; xbc; x07; x00; x83; x37; x84; xfe; x23; xa0;
  x07; x02; x83; x37; x84; xfe; x23; xa4; x07; x02; x83; x37;
  x84; xfe; x93; x87; x47; x0a; x21; x46; x81; x45; x3e; x85;
  xef; x00; x30; x53; x83; x37; x84; xfe; x03; x37; x84; xfe;
  x98; xfb; x83; x37; x84; xfe; x17; x07; x00; x00; x13; x07;
  x27; x5b; x98; xff; x83; x37; x84; xfe; x17; x07; x00; x00;
  x13; x07; x67; x63; xb8; xe3; x83; x37; x84; xfe; x17; x07;
  x00; x00; x13; x07; x07; x6b; xb8; xe7; x83; x37; x84; xfe;
  x17; x07; x00; x00; x13; x07; x67; x72; xb8; xeb; x01; x00;
  xe2; x60; x42; x64; x05; x61; x82; x80; x01; x11; x06; xec;
  x22; xe8; x00; x10; x23; x34; xa4; xfe; x01; x46; x91; x45;
  x03; x35; x84; xfe; xef; xf0; x5f; xf1; x01; x00; xe2; x60;
  x42; x64; x05; x61; x82; x80; x01; x11; x06; xec; x22; xe8;
  x00; x10; x23; x34; xa4; xfe; x05; x46; xa5; x45; x03; x35;
  x84; xfe; xef; xf0; x3f; xef; x01; x00; xe2; x60; x42; x64;
  x05; x61; x82; x80; x01; x11; x06; xec; x22; xe8; x00; x10;
  x23; x34; xa4; xfe; x09; x46; xc9; x45; x03; x35; x84; xfe;
  xef; xf0; x1f; xed; x01; x00; xe2; x60; x42; x64; x05; x61;
  x82; x80; x79; x71; x06; xf4; x22; xf0; x00; x18; x23; x3c;
  xa4; xfc; xae; x87; x23; x2a; xf4; xfc; x83; x27; x44; xfd;
  xfd; x37; x81; x27; x3e; x87; x93; x07; x00; x0b; xb3; x07;
  xf7; x02; x93; x87; x87; x0c; xbe; x85; x03; x35; x84; xfd;
  xef; x10; x60; x79; x23; x34; xa4; xfe; x83; x37; x84; xfe;
  x99; xe3; x81; x47; x91; xa0; x83; x37; x84; xfe; x23; xb0;
  x07; x00; x83; x37; x84; xfe; x03; x27; x44; xfd; x98; xc7;
  x83; x37; x84; xfe; x13; x87; x87; x01; x83; x37; x84; xfe;
  x98; xeb; x83; x37; x84; xfe; x93; x86; x87; x01; x03; x27;
  x44; xfd; x93; x07; x00; x0b; xb3; x07; xf7; x02; x3e; x86;
  x81; x45; x36; x85; xef; x00; x30; x40; x83; x37; x84; xfe;
  x3e; x85; xa2; x70; x02; x74; x45; x61; x82; x80; x41; x11;
  x06; xe4; x22; xe0; x00; x08; x17; xc6; x00; x00; x13; x06;
  xa6; xcc; x97; x45; x00; x00; x93; x85; x85; xf7; x17; xc5;
  x00; x00; x13; x05; x25; xcd; xef; x00; x00; x2e; x01; x00;
  xa2; x60; x02; x64; x41; x01; x82; x80; x41; x11; x06; xe4;
  x22; xe0; x00; x08; x93; x87; x81; x82; x9c; x63; x85; xeb;
  x93; x87; x81; x82; x17; x07; x00; x00; x13; x07; xe7; xfb;
  x98; xe3; x17; xd5; x00; x00; x13; x05; xe5; x82; xef; xf0;
  xbf; xeb; x17; xd5; x00; x00; x13; x05; x25; x8d; xef; xf0;
  x1f; xed; x13; x85; x01; x9c; xef; xf0; xbf; xee; x01; x00;
  xa2; x60; x02; x64; x41; x01; x82; x80; x39; x71; x06; xfc;
  x22; xf8; x80; x00; x23; x34; xa4; xfc; xef; x00; xa0; x1d;
  xef; xf0; x9f; xfa; x97; xc7; x00; x00; x93; x87; x87; xc4;
  x23; x3c; xf4; xfc; x83; x37; x84; xfd; x9c; x6b; x23; x34;
  xf4; xfe; x83; x37; x84; xfd; x9c; x47; x23; x22; xf4; xfe;
  x21; xa8; x83; x37; x84; xfe; x83; x97; x07; x01; xad; xc3;
  x83; x37; x84; xfe; x93; x87; x07; x0b; x23; x34; xf4; xfe;
  x83; x27; x44; xfe; xfd; x37; x23; x22; xf4; xfe; x83; x27;
  x44; xfe; x81; x27; xe3; xdd; x07; xfc; x83; x37; x84; xfd;
  x9c; x63; x91; xef; x91; x45; x03; x35; x84; xfc; xef; xf0;
  x1f; xe9; x2a; x87; x83; x37; x84; xfd; x98; xe3; x83; x37;
  x84; xfd; x9c; x63; x99; xc7; x83; x37; x84; xfd; x9c; x63;
  x23; x3c; xf4; xfc; x51; xbf; x01; x00; xef; x00; x40; x16;
  x83; x37; x84; xfc; x31; x47; x98; xc3; x81; x47; x69; xa0;
  x01; x00; x83; x37; x84; xfe; x7d; x57; x23; x99; xe7; x00;
  x83; x37; x84; xfe; x05; x47; x23; x98; xe7; x00; x83; x37;
  x84; xfe; x23; xa6; x07; x0a; xef; x00; x60; x13; x83; x37;
  x84; xfe; x23; xb0; x07; x00; x83; x37; x84; xfe; x23; xa6;
  x07; x00; x83; x37; x84; xfe; x23; xa4; x07; x00; x83; x37;
  x84; xfe; x23; xbc; x07; x00; x83; x37; x84; xfe; x23; xa0;
  x07; x02; x83; x37; x84; xfe; x23; xa4; x07; x02; x83; x37;
  x84; xfe; x93; x87; x47; x0a; x21; x46; x81; x45; x3e; x85;
  xef; x00; xb0; x27; x83; x37; x84; xfe; x23; xbc; x07; x04;
  x83; x37; x84; xfe; x23; xa0; x07; x06; x83; x37; x84; xfe;
  x23; xbc; x07; x06; x83; x37; x84; xfe; x23; xa0; x07; x08;
  x83; x37; x84; xfe; x3e; x85; xe2; x70; x42; x74; x21; x61;
  x82; x80; x01; x11; x06; xec; x22; xe8; x00; x10; x23; x34;
  xa4; xfe; x83; x37; x84; xfe; x98; x67; x97; xc7; x00; x00;
  x93; x87; x07; x6c; x63; x0a; xf7; x00; x83; x37; x84; xfe;
  x9c; x67; xbe; x85; x03; x35; x84; xfe; xef; x30; x70; x5b;
  x83; x37; x84; xfe; x98; x6b; x97; xc7; x00; x00; x93; x87;
  xe7; x74; x63; x0a; xf7; x00; x83; x37; x84; xfe; x9c; x6b;
  xbe; x85; x03; x35; x84; xfe; xef; x30; x50; x59; x83; x37;
  x84; xfe; x98; x6f; x93; x87; x01; x9c; x63; x0a; xf7; x00;
  x83; x37; x84; xfe; x9c; x6f; xbe; x85; x03; x35; x84; xfe;
  xef; x30; x70; x57; x01; x00; xe2; x60; x42; x64; x05; x61;
  x82; x80; x01; x11; x06; xec; x22; xe8; x00; x10; x23; x34;
  xa4; xfe; xef; x00; x00; x03; x83; x37; x84; xfe; xbc; x67;
  x81; xc7; xef; x00; x20; x03; x21; xa8; x83; x37; x84; xfe;
  x17; x07; x00; x00; x13; x07; x67; xf6; xb8; xe7; xef; xf0;
  x3f; xde; xef; x00; xa0; x01; xe2; x60; x42; x64; x05; x61;
  x82; x80; x41; x11; x22; xe4; x00; x08; x01; x00; x22; x64;
  x41; x01; x82; x80; x41; x11; x22; xe4; x00; x08; x01; x00;
  x22; x64; x41; x01; x82; x80; x01; x11; x22; xec; x00; x10;
  x23; x34; xa4; xfe; x23; x30; xb4; xfe; x81; x47; x3e; x85;
  x62; x64; x05; x61; x82; x80; x01; x11; x22; xec; x00; x10;
  x23; x34; xa4; xfe; x23; x30; xb4; xfe; x81; x47; x3e; x85;
  x62; x64; x05; x61; x82; x80; x41; x11; x06; xe4; x22; xe0;
  x00; x08; xef; xf0; xdf; xfa; x17; xc6; x00; x00; x13; x06;
  xe6; xa1; x97; x05; x00; x00; x93; x85; xc5; xfb; x01; x45;
  xef; x00; xa0; x03; x01; x00; xa2; x60; x02; x64; x41; x01;
  x82; x80; x41; x11; x06; xe4; x22; xe0; x00; x08; x17; xc6;
  x00; x00; x13; x06; x66; x9f; x97; x05; x00; x00; x93; x85;
  xc5; xfa; x01; x45; xef; x00; x20; x01; xef; xf0; x9f; xf7;
  x01; x00; xa2; x60; x02; x64; x41; x01; x82; x80; x39; x71;
  x06; xfc; x22; xf8; x80; x00; x23; x3c; xa4; xfc; x23; x38;
  xb4; xfc; x23; x34; xc4; xfc; x23; x20; x04; xfe; x83; x37;
  x84; xfc; x9c; x6b; x23; x34; xf4; xfe; x83; x37; x84; xfc;
  x9c; x47; x23; x22; xf4; xfe; x91; xa8; x83; x37; x84; xfe;
  x83; x97; x07; x01; x9d; xcf; x83; x37; x84; xfe; x83; x97;
  x07; x01; x3e; x87; x85; x47; x63; x08; xf7; x02; x83; x37;
  x84; xfe; x83; x97; x27; x01; x3e; x87; xfd; x57; x63; x00;
  xf7; x02; x83; x37; x04; xfd; x83; x35; x84; xfe; x03; x35;
  x84; xfd; x82; x97; xaa; x87; x3e; x87; x83; x27; x04; xfe;
  xd9; x8f; x23; x20; xf4; xfe; x83; x37; x84; xfe; x93; x87;
  x07; x0b; x23; x34; xf4; xfe; x83; x27; x44; xfe; xfd; x37;
  x23; x22; xf4; xfe; x83; x27; x44; xfe; x81; x27; xe3; xdf;
  x07; xf8; x83; x37; x84; xfc; x9c; x63; x23; x34; xf4; xfc;
  x83; x37; x84; xfc; xbd; xfb; x83; x27; x04; xfe; x3e; x85;
  xe2; x70; x42; x74; x21; x61; x82; x80; x59; x71; x06; xfc;
  x22; xf8; x80; x00; x23; x3c; xa4; xfc; x23; x38; xb4; xfc;
  x10; xe0; x14; xe4; x18; xe8; x1c; xec; x23; x30; x04; x03;
  x23; x34; x14; x03; x93; x07; x04; x03; x23; x34; xf4; xfc].

Definition INIT_ELF_01 : list byte := [
  x83; x37; x84; xfc; x93; x87; x07; xfd; x23; x30; xf4; xfe;
  x83; x37; x84; xfd; x9c; x6b; x03; x37; x04; xfe; xba; x86;
  x03; x36; x04; xfd; xbe; x85; x03; x35; x84; xfd; xef; x10;
  x30; x65; xaa; x87; x23; x26; xf4; xfe; x83; x27; xc4; xfe;
  x3e; x85; xe2; x70; x42; x74; x65; x61; x82; x80; x19; x71;
  x06; xfc; x22; xf8; x80; x00; x23; x34; xa4; xfc; x0c; xe4;
  x10; xe8; x14; xec; x18; xf0; x1c; xf4; x23; x38; x04; x03;
  x23; x3c; x14; x03; x97; xc7; x00; x00; x93; x87; x07; x3f;
  x9c; x63; x23; x34; xf4; xfe; x93; x07; x04; x04; x23; x30;
  xf4; xfc; x83; x37; x04; xfc; x93; x87; x87; xfc; x23; x3c;
  xf4; xfc; x83; x37; x84; xfe; x9c; x6b; x03; x37; x84; xfd;
  xba; x86; x03; x36; x84; xfc; xbe; x85; x03; x35; x84; xfe;
  xef; x10; x50; x5e; xaa; x87; x23; x22; xf4; xfe; x83; x27;
  x44; xfe; x3e; x85; xe2; x70; x42; x74; x09; x61; x82; x80;
  x39; x71; x06; xfc; x22; xf8; x26; xf4; x4a; xf0; x80; x00;
  x23; x3c; xa4; xfc; x23; x38; xb4; xfc; x23; x34; xc4; xfc;
  xb6; x87; x23; x22; xf4; xfc; x83; x34; x04; xfd; x83; x97;
  x24; x01; x3e; x87; x83; x27; x44; xfc; xbe; x86; x03; x36;
  x84; xfc; xba; x85; x03; x35; x84; xfd; xef; x00; x40; x37;
  x2a; x89; x63; x46; x09; x00; xdc; x68; xca; x97; xdc; xe8;
  x21; xa8; x03; x97; x04; x01; xfd; x77; xfd; x17; xf9; x8f;
  x9b; x97; x07; x01; x9b; xd7; x07; x41; x23; x98; xf4; x00;
  xca; x87; x3e; x85; xe2; x70; x42; x74; xa2; x74; x02; x79;
  x21; x61; x82; x80; x79; x71; x22; xf4; x00; x18; x23; x34;
  xa4; xfe; x23; x30; xb4; xfe; x23; x3c; xc4; xfc; xb6; x87;
  x23; x2a; xf4; xfc; x81; x47; x3e; x85; x22; x74; x45; x61;
  x82; x80; x5d; x71; x86; xe4; xa2; xe0; x26; xfc; x80; x08;
  x23; x34; xa4; xfc; x23; x30; xb4; xfc; x23; x3c; xc4; xfa;
  xb6; x87; x23; x2a; xf4; xfa; x83; x34; x04; xfc; x83; x97;
  x04; x01; xc2; x17; xc1; x93; x81; x27; x93; xf7; x07; x10;
  x81; x27; x91; xcb; x83; x97; x24; x01; x89; x46; x01; x46;
  xbe; x85; x03; x35; x84; xfc; xef; x00; x00; x27; x03; x97;
  x04; x01; xfd; x77; xfd; x17; xf9; x8f; x9b; x97; x07; x01;
  x9b; xd7; x07; x41; x23; x98; xf4; x00; x83; x97; x24; x01;
  x3e; x87; x83; x27; x44; xfb; xbe; x86; x03; x36; x84; xfb;
  xba; x85; x03; x35; x84; xfc; xef; x00; xe0; x30; x23; x3c;
  xa4; xfc; x83; x37; x84; xfd; x3e; x85; xa6; x60; x06; x64;
  xe2; x74; x61; x61; x82; x80; x39; x71; x06; xfc; x22; xf8;
  x26; xf4; x4a; xf0; x80; x00; x23; x3c; xa4; xfc; x23; x38;
  xb4; xfc; x23; x34; xc4; xfc; xb6; x87; x23; x22; xf4; xfc;
  x83; x34; x04; xfd; x83; x97; x24; x01; x3e; x87; x83; x27;
  x44; xfc; xbe; x86; x03; x36; x84; xfc; xba; x85; x03; x35;
  x84; xfd; xef; x00; x00; x1f; x2a; x89; xfd; x57; x63; x1e;
  xf9; x00; x03; x97; x04; x01; xfd; x77; xfd; x17; xf9; x8f;
  x9b; x97; x07; x01; x9b; xd7; x07; x41; x23; x98; xf4; x00;
  x29; xa8; x03; x97; x04; x01; x85; x67; xd9; x8f; x9b; x97;
  x07; x01; x9b; xd7; x07; x41; x23; x98; xf4; x00; x23; xb8;
  x24; x09; xca; x87; x3e; x85; xe2; x70; x42; x74; xa2; x74;
  x02; x79; x21; x61; x82; x80; x79; x71; x06; xf4; x22; xf0;
  x00; x18; x23; x3c; xa4; xfc; x23; x38; xb4; xfc; x83; x37;
  x04; xfd; x23; x34; xf4; xfe; x83; x37; x84; xfe; x83; x97;
  x27; x01; xbe; x85; x03; x35; x84; xfd; xef; x00; x00; x01;
  xaa; x87; x3e; x85; xa2; x70; x02; x74; x45; x61; x82; x80;
  x79; x71; x06; xf4; x22; xf0; x00; x18; x23; x3c; xa4; xfc;
  xae; x87; x23; x2a; xf4; xfc; x93; x87; x01; x83; x23; xa0;
  x07; x00; x83; x27; x44; xfd; x3e; x85; xef; x00; x00; x28;
  xaa; x87; x23; x26; xf4; xfe; x83; x27; xc4; xfe; x1b; x87;
  x07; x00; xfd; x57; x63; x1c; xf7; x00; x93; x87; x01; x83;
  x9c; x43; x99; xc7; x93; x87; x01; x83; x98; x43; x83; x37;
  x84; xfd; x98; xc3; x83; x27; xc4; xfe; x3e; x85; xa2; x70;
  x02; x74; x45; x61; x82; x80; x5d; x71; x86; xe4; xa2; xe0;
  x80; x08; x23; x3c; xa4; xfa; x97; xc7; x00; x00; x93; x87;
  x67; x16; x9c; x63; x03; x37; x84; xfb; x63; x08; xf7; x0e;
  x83; x37; x84; xfb; xbc; x77; xad; xc7; x23; x26; x04; xfe;
  x99; xa0; x83; x37; x84; xfb; xb8; x77; x83; x27; xc4; xfe;
  x8e; x07; xba; x97; x9c; x63; x23; x30; xf4; xfe; x05; xa0;
  x83; x37; x04; xfe; x23; x38; xf4; xfc; x83; x37; x04; xfe;
  x9c; x63; x23; x30; xf4; xfe; x83; x35; x04; xfd; x03; x35;
  x84; xfb; xef; x00; x80; x6b; x83; x37; x04; xfe; xf9; xff;
  x83; x27; xc4; xfe; x85; x27; x23; x26; xf4; xfe; x83; x27;
  xc4; xfe; x3e; x87; x93; x07; xf0; x03; xe3; xf9; xe7; xfa;
  x83; x37; x84; xfb; xbc; x77; xbe; x85; x03; x35; x84; xfb;
  xef; x00; xa0; x68; x83; x37; x84; xfb; xbc; x6b; x89; xcb;
  x83; x37; x84; xfb; xbc; x6b; xbe; x85; x03; x35; x84; xfb;
  xef; x00; x20; x67; x83; x37; x84; xfb; xbc; x73; x8d; xcb;
  x83; x37; x84; xfb; xbc; x73; x23; x3c; xf4; xfc; x05; xa0;
  x83; x37; x84; xfd; x23; x34; xf4; xfc; x83; x37; x84; xfd;
  x9c; x63; x23; x3c; xf4; xfc; x83; x35; x84; xfc; x03; x35;
  x84; xfb; xef; x00; x00; x64; x83; x37; x84; xfd; xf9; xff;
  x83; x37; x84; xfb; xbc; x7f; x89; xcb; x83; x37; x84; xfb;
  xbc; x7f; xbe; x85; x03; x35; x84; xfb; xef; x00; x20; x62;
  x83; x37; x84; xfb; xbc; x67; x99; xc7; x83; x37; x84; xfb;
  xbc; x67; x03; x35; x84; xfb; x82; x97; x01; x00; xa6; x60;
  x06; x64; x61; x61; x82; x80; x39; x71; x06; xfc; x22; xf8;
  x80; x00; x23; x3c; xa4; xfc; xae; x87; x23; x34; xc4; xfc;
  x36; x87; x23; x2a; xf4; xfc; xba; x87; x23; x28; xf4; xfc;
  x93; x87; x01; x83; x23; xa0; x07; x00; x03; x27; x04; xfd;
  x83; x27; x44; xfd; x3a; x86; x83; x35; x84; xfc; x3e; x85;
  xef; x00; xc0; x22; x23; x34; xa4; xfe; x03; x37; x84; xfe;
  xfd; x57; x63; x1c; xf7; x00; x93; x87; x01; x83; x9c; x43;
  x99; xc7; x93; x87; x01; x83; x98; x43; x83; x37; x84; xfd;
  x98; xc3; x83; x37; x84; xfe; x3e; x85; xe2; x70; x42; x74;
  x21; x61; x82; x80; x39; x71; x06; xfc; x22; xf8; x80; x00;
  x23; x3c; xa4; xfc; xae; x87; x23; x34; xc4; xfc; x23; x30;
  xd4; xfc; x23; x2a; xf4; xfc; x93; x87; x01; x83; x23; xa0;
  x07; x00; x83; x27; x44; xfd; x03; x36; x04; xfc; x83; x35;
  x84; xfc; x3e; x85; xef; x00; x80; x22; x23; x34; xa4; xfe;
  x03; x37; x84; xfe; xfd; x57; x63; x1c; xf7; x00; x93; x87;
  x01; x83; x9c; x43; x99; xc7; x93; x87; x01; x83; x98; x43;
  x83; x37; x84; xfd; x98; xc3; x83; x37; x84; xfe; x3e; x85;
  xe2; x70; x42; x74; x21; x61; x82; x80; x39; x71; x06; xfc;
  x22; xf8; x80; x00; x23; x3c; xa4; xfc; xae; x87; x23; x34;
  xc4; xfc; x23; x30; xd4; xfc; x23; x2a; xf4; xfc; x93; x87;
  x01; x83; x23; xa0; x07; x00; x83; x27; x44; xfd; x03; x36;
  x04; xfc; x83; x35; x84; xfc; x3e; x85; xef; x00; x20; x2d;
  x23; x34; xa4; xfe; x03; x37; x84; xfe; xfd; x57; x63; x1c;
  xf7; x00; x93; x87; x01; x83; x9c; x43; x99; xc7; x93; x87;
  x01; x83; x98; x43; x83; x37; x84; xfd; x98; xc3; x83; x37;
  x84; xfe; x3e; x85; xe2; x70; x42; x74; x21; x61; x82; x80;
  x01; x11; x22; xec; x00; x10; xaa; x87; x23; x26; xf4; xfe;
  x81; x47; x3e; x85; x62; x64; x05; x61; x82; x80; x79; x71;
  x06; xf4; x22; xf0; x00; x18; x23; x34; xa4; xfe; x23; x30;
  xb4; xfe; x23; x3c; xc4; xfc; xef; x40; x40; x34; x2a; x87;
  xb5; x47; x1c; xc3; xfd; x57; x3e; x85; xa2; x70; x02; x74;
  x45; x61; x82; x80; x01; x11; x22; xec; x00; x10; xaa; x87;
  x23; x26; xf4; xfe; x83; x27; xc4; xfe; x3e; x85; x81; x48;
  x73; x00; x00; x00; x41; x11; x06; xe4; x22; xe0; x00; x08;
  xef; x40; xe0; x30; x2a; x87; xad; x47; x1c; xc3; xfd; x57;
  x3e; x85; xa2; x60; x02; x64; x41; x01; x82; x80; x01; x11;
  x22; xec; x00; x10; xaa; x87; x23; x30; xb4; xfe; x23; x26;
  xf4; xfe; x83; x37; x04; xfe; x09; x67; xd8; xc3; x81; x47;
  x3e; x85; x62; x64; x05; x61; x82; x80; x41; x11; x22; xe4;
  x00; x08; x95; x48; x73; x00; x00; x00; xaa; x87; x81; x27;
  x3e; x85; x22; x64; x41; x01; x82; x80; x01; x11; x22; xec;
  x00; x10; x23; x34; xa4; xfe; x23; x30; xb4; xfe; x81; x47;
  x3e; x85; x62; x64; x05; x61; x82; x80; x01; x11; x22; xec;
  x00; x10; xaa; x87; x23; x26; xf4; xfe; x85; x47; x3e; x85;
  x62; x64; x05; x61; x82; x80; x01; x11; x06; xec; x22; xe8;
  x00; x10; xaa; x87; x2e; x87; x23; x26; xf4; xfe; xba; x87;
  x23; x24; xf4; xfe; xef; x40; xa0; x27; x2a; x87; x85; x47;
  x1c; xc3; xfd; x57; x3e; x85; xe2; x60; x42; x64; x05; x61;
  x82; x80; x01; x11; x06; xec; x22; xe8; x00; x10; x23; x34;
  xa4; xfe; x23; x30; xb4; xfe; xef; x40; x40; x25; x2a; x87;
  xb5; x47; x1c; xc3; xfd; x57; x3e; x85; xe2; x60; x42; x64;
  x05; x61; x82; x80; x01; x11; x06; xec; x22; xe8; x00; x10;
  xaa; x87; x23; x30; xb4; xfe; x32; x87; x23; x26; xf4; xfe;
  xba; x87; x23; x24; xf4; xfe; xef; x40; x40; x22; x2a; x87;
  xf5; x47; x1c; xc3; xfd; x57; x3e; x85; xe2; x60; x42; x64;
  x05; x61; x82; x80; x01; x11; x06; xec; x22; xe8; x00; x10;
  x23; x34; xa4; xfe; xae; x87; x32; x87; x23; x22; xf4; xfe;
  xba; x87; x23; x20; xf4; xfe; xef; x40; x40; x1f; x2a; x87;
  xb5; x47; x1c; xc3; xfd; x57; x3e; x85; xe2; x60; x42; x64;
  x05; x61; x82; x80; x39; x71; x06; xfc; x22; xf8; x26; xf4;
  x80; x00; xaa; x87; x23; x38; xb4; xfc; x23; x34; xc4; xfc;
  x23; x2e; xf4; xfc; x83; x27; xc4; xfd; x3e; x85; x83; x37;
  x04; xfd; xbe; x85; x03; x36; x84; xfc; x85; x48; x73; x00;
  x00; x00; xaa; x87; x81; x27; x63; xde; x07; x00; xaa; x87;
  x9b; x84; x07; x00; xef; x40; x20; x1a; x2a; x87; xbb; x07;
  x90; x40; x81; x27; x1c; xc3; xfd; x57; x11; xa0; xaa; x87;
  x3e; x85; xe2; x70; x42; x74; xa2; x74; x21; x61; x82; x80].

Definition INIT_ELF_02 : list byte := [
  x79; x71; x22; xf4; x00; x18; x23; x3c; xa4; xfc; x93; x87;
  x01; x81; x9c; x63; x23; x34; xf4; xfe; x93; x87; x01; x81;
  x98; x63; x83; x37; x84; xfd; x3e; x97; x93; x87; x01; x81;
  x98; xe3; x83; x37; x84; xfe; x3e; x85; x22; x74; x45; x61;
  x82; x80; x01; x11; x22; xec; x00; x10; x23; x34; xa4; xfe;
  xfd; x57; x3e; x85; x62; x64; x05; x61; x82; x80; x01; x11;
  x06; xec; x22; xe8; x00; x10; x23; x34; xa4; xfe; xef; x40;
  x00; x13; x2a; x87; xb5; x47; x1c; xc3; xfd; x57; x3e; x85;
  xe2; x60; x42; x64; x05; x61; x82; x80; x79; x71; x06; xf4;
  x22; xf0; x26; xec; x00; x18; x23; x3c; xa4; xfc; x83; x37;
  x84; xfd; x3e; x85; x9d; x48; x73; x00; x00; x00; xaa; x87;
  x81; x27; x63; xde; x07; x00; xaa; x87; x9b; x84; x07; x00;
  xef; x40; x20; x0f; x2a; x87; xbb; x07; x90; x40; x81; x27;
  x1c; xc3; xfd; x57; x19; xa0; xaa; x87; x81; x27; x3e; x85;
  xa2; x70; x02; x74; xe2; x64; x45; x61; x82; x80; x39; x71;
  x06; xfc; x22; xf8; x26; xf4; x80; x00; xaa; x87; x23; x38;
  xb4; xfc; x23; x34; xc4; xfc; x23; x2e; xf4; xfc; x83; x27;
  xc4; xfd; x3e; x85; x83; x37; x04; xfd; xbe; x85; x03; x36;
  x84; xfc; x89; x48; x73; x00; x00; x00; xaa; x87; x81; x27;
  x63; xde; x07; x00; xaa; x87; x9b; x84; x07; x00; xef; x40;
  x40; x09; x2a; x87; xbb; x07; x90; x40; x81; x27; x1c; xc3;
  xfd; x57; x11; xa0; xaa; x87; x3e; x85; xe2; x70; x42; x74;
  xa2; x74; x21; x61; x82; x80; x3d; x43; x2a; x87; x63; x71;
  xc3; x02; x93; x77; xf7; x00; xc1; xe3; xbd; xe1; x93; x76;
  x06; xff; x3d; x8a; xba; x96; x0c; xe3; x0c; xe7; x41; x07;
  xe3; x6d; xd7; xfe; x11; xe2; x82; x80; xb3; x06; xc3; x40;
  x8a; x06; x97; x02; x00; x00; x96; x96; x67; x80; xa6; x00;
  x23; x07; xb7; x00; xa3; x06; xb7; x00; x23; x06; xb7; x00;
  xa3; x05; xb7; x00; x23; x05; xb7; x00; xa3; x04; xb7; x00;
  x23; x04; xb7; x00; xa3; x03; xb7; x00; x23; x03; xb7; x00;
  xa3; x02; xb7; x00; x23; x02; xb7; x00; xa3; x01; xb7; x00;
  x23; x01; xb7; x00; xa3; x00; xb7; x00; x23; x00; xb7; x00;
  x82; x80; x93; xf5; xf5; x0f; x93; x96; x85; x00; xd5; x8d;
  x93; x96; x05; x01; xd5; x8d; x93; x96; x05; x02; xd5; x8d;
  x59; xb7; x93; x96; x27; x00; x97; x02; x00; x00; x96; x96;
  x86; x82; xe7; x80; x26; xfa; x96; x80; xc1; x17; x1d; x8f;
  x3e; x96; xe3; x71; xc3; xf8; x9d; xb7; x1d; x71; x86; xec;
  xa2; xe8; xa6; xe4; xca; xe0; x4e; xfc; x80; x10; xaa; x87;
  x23; x30; xb4; xfa; x23; x26; xf4; xfa; x93; x87; x81; x83;
  x84; x63; x93; x87; x81; x83; x23; x34; xf4; xfc; x01; x00;
  xe5; xc8; x93; x89; x04; x11; x9c; x44; xfd; x37; x1b; x89;
  x07; x00; xe9; xa8; x85; x47; xbb; x97; x27; x01; x23; x22;
  xf4; xfc; x83; x37; x04; xfa; x81; xcf; x63; x8d; x09; x0a;
  x93; x07; x09; x02; x8e; x07; xce; x97; x9c; x63; x03; x37;
  x04; xfa; x63; x14; xf7; x0a; x93; x07; x29; x00; x8e; x07;
  xa6; x97; x9c; x63; x23; x3c; xf4; xfa; x9c; x44; xfd; x37;
  x81; x27; x4a; x87; x63; x17; xf7; x00; x9c; x44; xfd; x37;
  x81; x27; x9c; xc4; x39; xa0; x93; x07; x29; x00; x8e; x07;
  xa6; x97; x23; xb0; x07; x00; x83; x37; x84; xfb; xb5; xcb;
  x9c; x44; x23; x2a; xf4; xfa; x63; x89; x09; x00; x03; xa7;
  x09; x20; x83; x27; x44; xfc; xf9; x8f; x81; x27; x89; xe7;
  x83; x37; x84; xfb; x82; x97; x25; xa8; x03; xa7; x49; x20;
  x83; x27; x44; xfc; xf9; x8f; x81; x27; x89; xef; x93; x17;
  x39; x00; xce; x97; x94; x63; x03; x27; xc4; xfa; x83; x37;
  x84; xfb; xb6; x85; x3a; x85; x82; x97; x09; xa8; x93; x17;
  x39; x00; xce; x97; x98; x63; x83; x37; x84; xfb; x3a; x85;
  x82; x97; x98; x44; x83; x27; x44; xfb; x81; x27; xe3; x93;
  xe7; xf2; x83; x37; x84; xfc; x9c; x63; x63; x86; xf4; x00;
  x21; xbf; x01; x00; x11; xa0; x01; x00; x9b; x07; xf9; xff;
  x1b; x89; x07; x00; xca; x87; xe3; xd3; x07; xf2; x11; xa0;
  x01; x00; x01; x00; xe6; x60; x46; x64; xa6; x64; x06; x69;
  xe2; x79; x25; x61; x82; x80; x59; x71; x86; xf4; xa2; xf0;
  x80; x18; x23; x3c; xa4; xf8; x23; x38; xb4; xf8; x83; x37;
  x04; xf9; x63; x8c; x07; x46; x03; x35; x84; xf9; xef; x10;
  x60; x31; x83; x37; x04; xf9; xc1; x17; x23; x34; xf4; xfe;
  x83; x37; x84; xfe; x9c; x67; x23; x30; xf4; xfc; x83; x37;
  x04; xfc; xf9; x9b; x23; x30; xf4; xfe; x03; x37; x84; xfe;
  x83; x37; x04; xfe; xba; x97; x23; x3c; xf4; xfa; x83; x37;
  x84; xfb; x9c; x67; xf1; x9b; x23; x38; xf4; xfa; x97; xb7;
  x00; x00; x93; x87; x67; x04; x9c; x6b; x03; x37; x84; xfb;
  x63; x18; xf7; x0a; x03; x37; x04; xfe; x83; x37; x04; xfb;
  xba; x97; x23; x30; xf4; xfe; x83; x37; x04; xfc; x85; x8b;
  xb1; xeb; x83; x37; x84; xfe; x9c; x63; x23; x34; xf4; xfa;
  x83; x37; x84; xfa; xb3; x07; xf0; x40; x03; x37; x84; xfe;
  xba; x97; x23; x34; xf4; xfe; x03; x37; x04; xfe; x83; x37;
  x84; xfa; xba; x97; x23; x30; xf4; xfe; x83; x37; x84; xfe;
  x9c; x6f; x23; x3c; xf4; xfc; x83; x37; x84; xfe; x9c; x6b;
  x23; x38; xf4; xfc; x83; x37; x04; xfd; x03; x37; x84; xfd;
  x98; xef; x83; x37; x84; xfd; x03; x37; x04; xfd; x98; xeb;
  x83; x37; x04; xfe; x13; xe7; x17; x00; x83; x37; x84; xfe;
  x98; xe7; x97; xb7; x00; x00; x93; x87; xe7; xfb; x03; x37;
  x84; xfe; x98; xeb; x93; x87; x81; x81; x9c; x63; x03; x37;
  x04; xfe; x63; x6a; xf7; x00; x93; x87; x01; x84; x9c; x63;
  xbe; x85; x03; x35; x84; xf9; xef; x00; xe0; x38; x03; x35;
  x84; xf9; xef; x10; x40; x23; xad; xae; x83; x37; x84; xfb;
  x03; x37; x04; xfb; x98; xe7; x23; x26; x04; xfc; x83; x37;
  x04; xfc; x85; x8b; xbd; xe7; x83; x37; x84; xfe; x9c; x63;
  x23; x34; xf4; xfa; x83; x37; x84; xfa; xb3; x07; xf0; x40;
  x03; x37; x84; xfe; xba; x97; x23; x34; xf4; xfe; x03; x37;
  x04; xfe; x83; x37; x84; xfa; xba; x97; x23; x30; xf4; xfe;
  x83; x37; x84; xfe; x98; x6b; x97; xb7; x00; x00; x93; x87;
  x27; xf5; x63; x16; xf7; x00; x85; x47; x23; x26; xf4; xfc;
  x2d; xa0; x83; x37; x84; xfe; x9c; x6f; x23; x3c; xf4; xfc;
  x83; x37; x84; xfe; x9c; x6b; x23; x38; xf4; xfc; x83; x37;
  x04; xfd; x03; x37; x84; xfd; x98; xef; x83; x37; x84; xfd;
  x03; x37; x04; xfd; x98; xeb; x03; x37; x84; xfb; x83; x37;
  x04; xfb; xba; x97; x9c; x67; x85; x8b; xd9; xe7; x03; x37;
  x04; xfe; x83; x37; x04; xfb; xba; x97; x23; x30; xf4; xfe;
  x83; x27; xc4; xfc; x81; x27; xa1; xeb; x83; x37; x84; xfb;
  x98; x6b; x97; xb7; x00; x00; x93; x87; xa7; xee; x63; x10;
  xf7; x04; x85; x47; x23; x26; xf4; xfc; x97; xb7; x00; x00;
  x93; x87; x87; xed; x03; x37; x84; xfe; x98; xef; x17; xb7;
  x00; x00; x13; x07; xa7; xec; x9c; x6f; x1c; xeb; x17; xb7;
  x00; x00; x13; x07; xe7; xeb; x83; x37; x84; xfe; x98; xef;
  x83; x37; x84; xfe; x98; x6f; x83; x37; x84; xfe; x98; xeb;
  x2d; xa0; x83; x37; x84; xfb; x9c; x6f; x23; x3c; xf4; xfc;
  x83; x37; x84; xfb; x9c; x6b; x23; x38; xf4; xfc; x83; x37;
  x04; xfd; x03; x37; x84; xfd; x98; xef; x83; x37; x84; xfd;
  x03; x37; x04; xfd; x98; xeb; x83; x37; x04; xfe; x13; xe7;
  x17; x00; x83; x37; x84; xfe; x98; xe7; x03; x37; x84; xfe;
  x83; x37; x04; xfe; xba; x97; x03; x37; x04; xfe; x98; xe3;
  x83; x27; xc4; xfc; x81; x27; x63; x95; x07; x22; x03; x37;
  x04; xfe; x93; x07; xf0; x1f; x63; xec; xe7; x08; x83; x37;
  x04; xfe; x8d; x83; x23; x22; xf4; xfa; x97; xb7; x00; x00;
  x93; x87; xc7; xe2; x94; x67; x83; x27; x44; xfa; x1b; xd7;
  xf7; x41; x1b; x57; xe7; x01; xb9; x9f; x9b; xd7; x27; x40;
  x81; x27; x3e; x87; x85; x47; x33; x97; xe7; x00; x97; xb7;
  x00; x00; x93; x87; x67; xe0; x55; x8f; x98; xe7; x83; x27;
  x44; xfa; x85; x27; x81; x27; x9b; x97; x17; x00; x81; x27;
  x13; x97; x37; x00; x97; xb7; x00; x00; x93; x87; x87; xde;
  xba; x97; xc1; x17; x23; x3c; xf4; xfc; x83; x37; x84; xfd;
  x9c; x6b; x23; x38; xf4; xfc; x83; x37; x84; xfe; x03; x37;
  x84; xfd; x98; xef; x83; x37; x84; xfe; x03; x37; x04; xfd;
  x98; xeb; x83; x37; x84; xfd; x03; x37; x84; xfe; x98; xeb;
  x83; x37; x84; xfd; x98; x6b; x83; x37; x04; xfd; x98; xef;
  x61; xa2; x83; x37; x04; xfe; xa5; x83; x91; xe7; x83; x37;
  x04; xfe; x8d; x83; x81; x27; x75; xa0; x83; x37; x04; xfe;
  x13; xd7; x97; x00; x91; x47; x63; xeb; xe7; x00; x83; x37;
  x04; xfe; x99; x83; x81; x27; x9b; x87; x87; x03; x81; x27;
  x81; x27; x71; xa0; x83; x37; x04; xfe; x13; xd7; x97; x00;
  xd1; x47; x63; xeb; xe7; x00; x83; x37; x04; xfe; xa5; x83;
  x81; x27; x9b; x87; xb7; x05; x81; x27; x81; x27; xb5; xa0;
  x83; x37; x04; xfe; x13; xd7; x97; x00; x93; x07; x40; x05;
  x63; xeb; xe7; x00; x83; x37; x04; xfe; xb1; x83; x81; x27;
  x9b; x87; xe7; x06; x81; x27; x81; x27; xa9; xa0; x83; x37;
  x04; xfe; x13; xd7; x97; x00; x93; x07; x40; x15; x63; xeb;
  xe7; x00; x83; x37; x04; xfe; xbd; x83; x81; x27; x9b; x87;
  x77; x07; x81; x27; x81; x27; x25; xa0; x83; x37; x04; xfe;
  x13; xd7; x97; x00; x93; x07; x40; x55; x63; xeb; xe7; x00;
  x83; x37; x04; xfe; xc9; x83; x81; x27; x9b; x87; xc7; x07;
  x81; x27; x81; x27; x19; xa0; x93; x07; xe0; x07; x23; x22;
  xf4; xfa; x83; x27; x44; xfa; x85; x27; x81; x27; x9b; x97;
  x17; x00; x81; x27; x13; x97; x37; x00; x97; xb7; x00; x00;
  x93; x87; x07; xcd; xba; x97; xc1; x17; x23; x3c; xf4; xfc;
  x83; x37; x84; xfd; x9c; x6b; x23; x38; xf4; xfc; x03; x37;
  x04; xfd; x83; x37; x84; xfd; x63; x11; xf7; x04; x97; xb7;
  x00; x00; x93; x87; xa7; xca; x94; x67; x83; x27; x44; xfa;
  x1b; xd7; xf7; x41; x1b; x57; xe7; x01; xb9; x9f; x9b; xd7;
  x27; x40; x81; x27; x3e; x87; x85; x47; x33; x97; xe7; x00;
  x97; xb7; x00; x00; x93; x87; x47; xc8; x55; x8f; x98; xe7].

Definition INIT_ELF_03 : list byte := [
  x0d; xa8; x83; x37; x04; xfd; x9c; x6b; x23; x38; xf4; xfc;
  x03; x37; x04; xfd; x83; x37; x84; xfd; x63; x0a; xf7; x00;
  x83; x37; x04; xfd; x9c; x67; xf1; x9b; x03; x37; x04; xfe;
  xe3; x6f; xf7; xfc; x83; x37; x04; xfd; x9c; x6f; x23; x3c;
  xf4; xfc; x83; x37; x84; xfe; x03; x37; x84; xfd; x98; xef;
  x83; x37; x84; xfe; x03; x37; x04; xfd; x98; xeb; x83; x37;
  x84; xfd; x03; x37; x84; xfe; x98; xeb; x83; x37; x84; xfd;
  x98; x6b; x83; x37; x04; xfd; x98; xef; x03; x35; x84; xf9;
  xef; x00; xf0; x6b; x11; xa0; x01; x00; xa6; x70; x06; x74;
  x65; x61; x82; x80; x5d; x71; x86; xe4; xa2; xe0; x80; x08;
  x23; x3c; xa4; xfa; x23; x38; xb4; xfa; x85; x67; x23; x34;
  xf4; xfe; x03; x35; x84; xfb; xef; x00; x30; x68; x97; xb7;
  x00; x00; x93; x87; xa7; xbe; x9c; x6b; x9c; x67; xf1; x9b;
  x23; x30; xf4; xfe; x03; x37; x04; xfe; x83; x37; x04; xfb;
  x1d; x8f; x83; x37; x84; xfe; xba; x97; x13; x87; xf7; xfd;
  x83; x37; x84; xfe; xb3; x57; xf7; x02; x13; x87; xf7; xff;
  x83; x37; x84; xfe; xb3; x07; xf7; x02; x23; x3c; xf4; xfc;
  x83; x37; x84; xfe; x03; x37; x84; xfd; x63; x58; xf7; x00;
  x03; x35; x84; xfb; xef; x00; x30; x64; x81; x47; x31; xa2;
  x81; x45; x03; x35; x84; xfb; xef; x30; x10; x14; x23; x38;
  xa4; xfc; x97; xb7; x00; x00; x93; x87; x67; xb8; x98; x6b;
  x83; x37; x04; xfe; xba; x97; x03; x37; x04; xfd; x63; x08;
  xf7; x00; x03; x35; x84; xfb; xef; x00; x10; x61; x81; x47;
  xe9; xa8; x83; x37; x84; xfd; xb3; x07; xf0; x40; xbe; x85;
  x03; x35; x84; xfb; xef; x30; x70; x10; x23; x34; xa4; xfc;
  x03; x37; x84; xfc; xfd; x57; x63; x17; xf7; x06; x81; x45;
  x03; x35; x84; xfb; xef; x30; xf0; x0e; x23; x38; xa4; xfc;
  x97; xb7; x00; x00; x93; x87; x47; xb3; x9c; x6b; x03; x37;
  x04; xfd; xb3; x07; xf7; x40; x23; x30; xf4; xfe; x03; x37;
  x04; xfe; xfd; x47; x63; xda; xe7; x02; x93; x87; x01; x82;
  x9c; x63; x03; x37; x04; xfd; xb3; x07; xf7; x40; x1b; x87;
  x07; x00; x97; xb7; x40; x00; x93; x87; xa7; x73; x98; xc3;
  x83; x37; x04; xfe; x13; xe7; x17; x00; x97; xb7; x00; x00;
  x93; x87; x07; xaf; x9c; x6b; x98; xe7; x03; x35; x84; xfb;
  xef; x00; x70; x58; x81; x47; x81; xa8; x03; x37; x04; xfe;
  x83; x37; x84; xfd; xb3; x07; xf7; x40; x13; xe7; x17; x00;
  x97; xb7; x00; x00; x93; x87; x87; xac; x9c; x6b; x98; xe7;
  x97; xb7; x40; x00; x93; x87; x47; x6f; x9c; x43; x1b; x87;
  x07; x00; x83; x37; x84; xfd; x81; x27; xbb; x07; xf7; x40;
  x81; x27; x1b; x87; x07; x00; x97; xb7; x40; x00; x93; x87;
  x67; x6d; x98; xc3; x03; x35; x84; xfb; xef; x00; x70; x53;
  x85; x47; x3e; x85; xa6; x60; x06; x64; x61; x61; x82; x80;
  x19; x71; x86; xfc; xa2; xf8; x00; x01; x23; x34; xa4; xf8;
  x23; x30; xb4; xf8; x23; x26; x04; xfc; x97; xb7; x00; x00;
  x93; x87; xc7; xa6; x9c; x6b; x23; x30; xf4; xfc; x83; x37;
  x04; xfc; x9c; x67; xf1; x9b; x23; x3c; xf4; xfa; x03; x37;
  x04; xfc; x83; x37; x84; xfb; xba; x97; x23; x38; xf4; xfa;
  x93; x87; x01; x84; x98; x63; x83; x37; x04; xf8; xba; x97;
  x93; x87; x07; x02; x23; x38; xf4; xfc; x85; x67; x23; x34;
  xf4; xfa; x93; x87; x01; x82; x98; x63; xfd; x57; x63; x00;
  xf7; x02; x03; x37; x84; xfa; x83; x37; x04; xfd; xba; x97;
  x13; x87; xf7; xff; x83; x37; x84; xfa; xb3; x07; xf0; x40;
  xf9; x8f; x23; x38; xf4; xfc; x83; x37; x04; xfd; xbe; x85;
  x03; x35; x84; xf8; xef; x30; xa0; x7a; x23; x34; xa4; xfe;
  x03; x37; x84; xfe; xfd; x57; x63; x0b; xf7; x2a; x03; x37;
  x84; xfe; x83; x37; x04; xfb; x63; x7a; xf7; x00; x97; xb7;
  x00; x00; x93; x87; xa7; x9d; x03; x37; x04; xfc; x63; x1d;
  xf7; x28; x97; xb7; x40; x00; x93; x87; x27; x60; x9c; x43;
  x1b; x87; x07; x00; x83; x37; x04; xfd; x81; x27; xb9; x9f;
  x81; x27; x1b; x87; x07; x00; x97; xb7; x40; x00; x93; x87;
  x67; x5e; x98; xc3; x03; x37; x84; xfe; x83; x37; x04; xfb;
  x63; x1c; xf7; x02; x83; x37; x84; xfa; x13; x87; xf7; xff;
  x83; x37; x04; xfb; xf9; x8f; x9d; xe3; x03; x37; x04; xfd;
  x83; x37; x84; xfb; xba; x97; x23; x30; xf4; xfa; x97; xb7;
  x00; x00; x93; x87; xa7; x97; x9c; x6b; x03; x37; x04; xfa;
  x13; x67; x17; x00; x98; xe7; xc5; xa2; x93; x87; x01; x82;
  x98; x63; xfd; x57; x63; x18; xf7; x00; x93; x87; x01; x82;
  x03; x37; x84; xfe; x98; xe3; x05; xa8; x97; xb7; x40; x00;
  x93; x87; x47; x58; x9c; x43; x1b; x87; x07; x00; x83; x36;
  x84; xfe; x83; x37; x04; xfb; xb3; x87; xf6; x40; x81; x27;
  xb9; x9f; x81; x27; x1b; x87; x07; x00; x97; xb7; x40; x00;
  x93; x87; x07; x56; x98; xc3; x83; x37; x84; xfe; xc1; x07;
  xbd; x8b; x23; x3c; xf4; xf8; x83; x37; x84; xf9; x85; xc3;
  x41; x47; x83; x37; x84; xf9; xb3; x07; xf7; x40; x23; x30;
  xf4; xfe; x03; x37; x84; xfe; x83; x37; x04; xfe; xba; x97;
  x23; x34; xf4; xfe; x19; xa0; x23; x30; x04; xfe; x03; x37;
  x84; xfe; x83; x37; x04; xfd; xba; x97; x3e; x87; x83; x37;
  x84; xfa; xfd; x17; xf9; x8f; x03; x37; x84; xfa; xb3; x07;
  xf7; x40; x03; x37; x04; xfe; xba; x97; x23; x30; xf4; xfe;
  x83; x37; x84; xfa; xfd; x17; x03; x37; x04; xfe; xf9; x8f;
  x23; x30; xf4; xfe; x83; x37; x04; xfe; xbe; x85; x03; x35;
  x84; xf8; xef; x30; xc0; x65; x23; x3c; xa4; xfc; x03; x37;
  x84; xfd; xfd; x57; x63; x19; xf7; x02; x23; x30; x04; xfe;
  x85; x47; x23; x26; xf4; xfc; x03; x37; x84; xfe; x83; x37;
  x04; xfd; xba; x97; x23; x3c; xf4; xfc; x83; x37; x84; xf9;
  x89; xcb; x83; x37; x84; xf9; xc1; x17; x03; x37; x84; xfd;
  xba; x97; x23; x3c; xf4; xfc; x97; xb7; x40; x00; x93; x87;
  x27; x4a; x9c; x43; x1b; x87; x07; x00; x83; x37; x04; xfe;
  x81; x27; xb9; x9f; x81; x27; x1b; x87; x07; x00; x97; xb7;
  x40; x00; x93; x87; x67; x48; x98; xc3; x97; xb7; x00; x00;
  x93; x87; x47; x84; x03; x37; x84; xfe; x98; xeb; x03; x37;
  x84; xfd; x83; x37; x84; xfe; xb3; x07; xf7; x40; x3e; x87;
  x83; x37; x04; xfe; xba; x97; x23; x30; xf4; xfa; x97; xb7;
  x00; x00; x93; x87; xe7; x81; x9c; x6b; x03; x37; x04; xfa;
  x13; x67; x17; x00; x98; xe7; x97; xb7; x00; x00; x93; x87;
  xa7; x80; x03; x37; x04; xfc; x63; x0c; xf7; x06; x03; x37;
  x84; xfb; xfd; x47; x63; xea; xe7; x00; x97; xa7; x00; x00;
  x93; x87; x07; x7f; x9c; x6b; x05; x47; x98; xe7; x45; xa8;
  x83; x37; x84; xfb; xa1; x17; xc1; x9b; x23; x3c; xf4; xfa;
  x83; x37; x04; xfc; x9c; x67; x13; xf7; x17; x00; x83; x37;
  x84; xfb; x5d; x8f; x83; x37; x04; xfc; x98; xe7; x03; x37;
  x04; xfc; x83; x37; x84; xfb; xba; x97; x25; x47; x98; xe7;
  x83; x37; x84; xfb; xa1; x07; x03; x37; x04; xfc; xba; x97;
  x25; x47; x98; xe7; x03; x37; x84; xfb; xfd; x47; x63; xfa;
  xe7; x00; x83; x37; x04; xfc; xc1; x07; xbe; x85; x03; x35;
  x84; xf8; xef; xf0; xcf; xee; x97; xb7; x40; x00; x93; x87;
  xe7; x3b; x9c; x43; x3e; x87; x93; x87; x81; x84; x9c; x63;
  x63; xfb; xe7; x00; x97; xb7; x40; x00; x93; x87; x87; x3a;
  x9c; x43; x3e; x87; x93; x87; x81; x84; x98; xe3; x97; xb7;
  x40; x00; x93; x87; x67; x39; x9c; x43; x3e; x87; x93; x87;
  x01; x85; x9c; x63; x63; xfd; xe7; x00; x97; xb7; x40; x00;
  x93; x87; x07; x38; x9c; x43; x3e; x87; x93; x87; x01; x85;
  x98; xe3; x11; xa0; x01; x00; xe6; x70; x46; x74; x09; x61;
  x82; x80; x75; x71; x06; xe5; x22; xe1; x00; x09; x23; x3c;
  xa4; xf6; x23; x38; xb4; xf6; x83; x37; x04; xf7; x13; x87;
  x77; x01; x93; x07; xe0; x02; x63; xf7; xe7; x00; x83; x37;
  x04; xf7; xdd; x07; xc1; x9b; x19; xa0; x93; x07; x00; x02;
  x23; x30; xf4; xfa; x03; x37; x04; xfa; xb7; x07; x00; x80;
  x93; xc7; xf7; xff; x63; xe8; xe7; x00; x03; x37; x04; xfa;
  x83; x37; x04; xf7; x63; x79; xf7; x00; x83; x37; x84; xf7;
  x31; x47; x98; xc3; x81; x47; x6f; x00; xd0; x15; x03; x35;
  x84; xf7; xef; x00; xf0; x15; x03; x37; x04; xfa; x93; x07;
  x70; x1f; x63; xea; xe7; x0c; x83; x37; x04; xfa; x8d; x83;
  x23; x22; xf4; xfe; x83; x27; x44; xfe; x85; x27; x81; x27;
  x9b; x97; x17; x00; x81; x27; x13; x97; x37; x00; x97; xa7;
  x00; x00; x93; x87; xe7; x69; xba; x97; xc1; x17; x23; x34;
  xf4; xfa; x83; x37; x84; xfa; x9c; x6f; x23; x34; xf4; xfe;
  x03; x37; x84; xfe; x83; x37; x84; xfa; x63; x1c; xf7; x00;
  x83; x37; x84; xfa; xc1; x07; x23; x34; xf4; xfa; x83; x37;
  x84; xfa; x9c; x6f; x23; x34; xf4; xfe; x03; x37; x84; xfe;
  x83; x37; x84; xfa; x63; x03; xf7; x06; x83; x37; x84; xfe;
  x9c; x67; xf1; x9b; x23; x3c; xf4; xf8; x83; x37; x84; xfe;
  x9c; x6f; x23; x38; xf4; xfa; x83; x37; x84; xfe; x9c; x6b;
  x23; x3c; xf4; xfa; x83; x37; x84; xfb; x03; x37; x04; xfb;
  x98; xef; x83; x37; x04; xfb; x03; x37; x84; xfb; x98; xeb;
  x03; x37; x84; xfe; x83; x37; x84; xf9; xba; x97; x98; x67;
  x83; x36; x84; xfe; x83; x37; x84; xf9; xb6; x97; x13; x67;
  x17; x00; x98; xe7; x03; x35; x84; xf7; xef; x00; xb0; x0a;
  x83; x37; x84; xfe; xc1; x07; x6f; x00; x50; x08; x83; x27;
  x44; xfe; x89; x27; x23; x22; xf4; xfe; x79; xaa; x83; x37;
  x04; xfa; xa5; x83; x91; xe7; x83; x37; x04; xfa; x8d; x83;
  x81; x27; x75; xa0; x83; x37; x04; xfa; x13; xd7; x97; x00;
  x91; x47; x63; xeb; xe7; x00; x83; x37; x04; xfa; x99; x83;
  x81; x27; x9b; x87; x87; x03; x81; x27; x81; x27; x71; xa0;
  x83; x37; x04; xfa; x13; xd7; x97; x00; xd1; x47; x63; xeb;
  xe7; x00; x83; x37; x04; xfa; xa5; x83; x81; x27; x9b; x87;
  xb7; x05; x81; x27; x81; x27; xb5; xa0; x83; x37; x04; xfa;
  x13; xd7; x97; x00; x93; x07; x40; x05; x63; xeb; xe7; x00;
  x83; x37; x04; xfa; xb1; x83; x81; x27; x9b; x87; xe7; x06;
  x81; x27; x81; x27; xa9; xa0; x83; x37; x04; xfa; x13; xd7].

Definition INIT_ELF_04 : list byte := [
  x97; x00; x93; x07; x40; x15; x63; xeb; xe7; x00; x83; x37;
  x04; xfa; xbd; x83; x81; x27; x9b; x87; x77; x07; x81; x27;
  x81; x27; x25; xa0; x83; x37; x04; xfa; x13; xd7; x97; x00;
  x93; x07; x40; x55; x63; xeb; xe7; x00; x83; x37; x04; xfa;
  xc9; x83; x81; x27; x9b; x87; xc7; x07; x81; x27; x81; x27;
  x19; xa0; x93; x07; xe0; x07; x23; x22; xf4; xfe; x83; x27;
  x44; xfe; x85; x27; x81; x27; x9b; x97; x17; x00; x81; x27;
  x13; x97; x37; x00; x97; xa7; x00; x00; x93; x87; x87; x51;
  xba; x97; xc1; x17; x23; x3c; xf4; xfc; x83; x37; x84; xfd;
  x9c; x6f; x23; x34; xf4; xfe; x69; xa8; x83; x37; x84; xfe;
  x9c; x67; xf1; x9b; x23; x3c; xf4; xf8; x03; x37; x84; xf9;
  x83; x37; x04; xfa; xb3; x07; xf7; x40; x23; x38; xf4; xfc;
  x03; x37; x04; xfd; xfd; x47; x63; xd8; xe7; x00; x83; x27;
  x44; xfe; xfd; x37; x23; x22; xf4; xfe; x95; xa8; x83; x37;
  x04; xfd; x63; xcc; x07; x04; x83; x37; x84; xfe; x9c; x6f;
  x23; x38; xf4; xfa; x83; x37; x84; xfe; x9c; x6b; x23; x3c;
  xf4; xfa; x83; x37; x84; xfb; x03; x37; x04; xfb; x98; xef;
  x83; x37; x04; xfb; x03; x37; x84; xfb; x98; xeb; x03; x37;
  x84; xfe; x83; x37; x84; xf9; xba; x97; x98; x67; x83; x36;
  x84; xfe; x83; x37; x84; xf9; xb6; x97; x13; x67; x17; x00;
  x98; xe7; x03; x35; x84; xf7; xef; x00; x00; x72; x83; x37;
  x84; xfe; xc1; x07; xed; xad; x83; x37; x84; xfe; x9c; x6f;
  x23; x34; xf4; xfe; x03; x37; x84; xfe; x83; x37; x84; xfd;
  xe3; x10; xf7; xf6; x83; x27; x44; xfe; x85; x27; x23; x22;
  xf4; xfe; x97; xa7; x00; x00; x93; x87; xe7; x45; x9c; x6b;
  x23; x34; xf4; xfe; x97; xa7; x00; x00; x93; x87; x07; x45;
  x03; x37; x84; xfe; x63; x01; xf7; x32; x83; x37; x84; xfe;
  x9c; x67; xf1; x9b; x23; x3c; xf4; xf8; x03; x37; x84; xf9;
  x83; x37; x04; xfa; xb3; x07; xf7; x40; x23; x38; xf4; xfc;
  x03; x37; x04; xfd; xfd; x47; x63; xd2; xe7; x08; x03; x37;
  x84; xfe; x83; x37; x04; xfa; xba; x97; x23; x34; xf4; xf8;
  x83; x37; x04; xfa; x13; xe7; x17; x00; x83; x37; x84; xfe;
  x98; xe7; x97; xa7; x00; x00; x93; x87; xe7; x3f; x03; x37;
  x84; xf8; x98; xef; x17; xa7; x00; x00; x13; x07; x07; x3f;
  x9c; x6f; x1c; xeb; x17; xa7; x00; x00; x13; x07; x47; x3e;
  x83; x37; x84; xf8; x98; xef; x83; x37; x84; xf8; x98; x6f;
  x83; x37; x84; xf8; x98; xeb; x83; x37; x04; xfd; x93; xe7;
  x17; x00; x3e; x87; x83; x37; x84; xf8; x98; xe7; x83; x37;
  x04; xfd; x03; x37; x84; xf8; xba; x97; x03; x37; x04; xfd;
  x98; xe3; x03; x35; x84; xf7; xef; x00; xc0; x63; x83; x37;
  x84; xfe; xc1; x07; x19; xad; x97; xa7; x00; x00; x93; x87;
  xa7; x39; x17; xa7; x00; x00; x13; x07; x27; x39; x98; xef;
  x17; xa7; x00; x00; x13; x07; x87; x38; x9c; x6f; x1c; xeb;
  x83; x37; x04; xfd; x63; xc8; x07; x02; x03; x37; x84; xfe;
  x83; x37; x84; xf9; xba; x97; x98; x67; x83; x36; x84; xfe;
  x83; x37; x84; xf9; xb6; x97; x13; x67; x17; x00; x98; xe7;
  x03; x35; x84; xf7; xef; x00; xa0; x5e; x83; x37; x84; xfe;
  xc1; x07; xd1; xa3; x03; x37; x84; xf9; x93; x07; xf0; x1f;
  x63; xec; xe7; x08; x83; x37; x84; xf9; x8d; x83; x23; x2a;
  xf4; xf8; x97; xa7; x00; x00; x93; x87; x27; x32; x94; x67;
  x83; x27; x44; xf9; x1b; xd7; xf7; x41; x1b; x57; xe7; x01;
  xb9; x9f; x9b; xd7; x27; x40; x81; x27; x3e; x87; x85; x47;
  x33; x97; xe7; x00; x97; xa7; x00; x00; x93; x87; xc7; x2f;
  x55; x8f; x98; xe7; x83; x27; x44; xf9; x85; x27; x81; x27;
  x9b; x97; x17; x00; x81; x27; x13; x97; x37; x00; x97; xa7;
  x00; x00; x93; x87; xe7; x2d; xba; x97; xc1; x17; x23; x38;
  xf4; xfa; x83; x37; x04; xfb; x9c; x6b; x23; x3c; xf4; xfa;
  x83; x37; x84; xfe; x03; x37; x04; xfb; x98; xef; x83; x37;
  x84; xfe; x03; x37; x84; xfb; x98; xeb; x83; x37; x04; xfb;
  x03; x37; x84; xfe; x98; xeb; x83; x37; x04; xfb; x98; x6b;
  x83; x37; x84; xfb; x98; xef; x61; xa2; x83; x37; x84; xf9;
  xa5; x83; x91; xe7; x83; x37; x84; xf9; x8d; x83; x81; x27;
  x75; xa0; x83; x37; x84; xf9; x13; xd7; x97; x00; x91; x47;
  x63; xeb; xe7; x00; x83; x37; x84; xf9; x99; x83; x81; x27;
  x9b; x87; x87; x03; x81; x27; x81; x27; x71; xa0; x83; x37;
  x84; xf9; x13; xd7; x97; x00; xd1; x47; x63; xeb; xe7; x00;
  x83; x37; x84; xf9; xa5; x83; x81; x27; x9b; x87; xb7; x05;
  x81; x27; x81; x27; xb5; xa0; x83; x37; x84; xf9; x13; xd7;
  x97; x00; x93; x07; x40; x05; x63; xeb; xe7; x00; x83; x37;
  x84; xf9; xb1; x83; x81; x27; x9b; x87; xe7; x06; x81; x27;
  x81; x27; xa9; xa0; x83; x37; x84; xf9; x13; xd7; x97; x00;
  x93; x07; x40; x15; x63; xeb; xe7; x00; x83; x37; x84; xf9;
  xbd; x83; x81; x27; x9b; x87; x77; x07; x81; x27; x81; x27;
  x25; xa0; x83; x37; x84; xf9; x13; xd7; x97; x00; x93; x07;
  x40; x55; x63; xeb; xe7; x00; x83; x37; x84; xf9; xc9; x83;
  x81; x27; x9b; x87; xc7; x07; x81; x27; x81; x27; x19; xa0;
  x93; x07; xe0; x07; x23; x2a; xf4; xf8; x83; x27; x44; xf9;
  x85; x27; x81; x27; x9b; x97; x17; x00; x81; x27; x13; x97;
  x37; x00; x97; xa7; x00; x00; x93; x87; x67; x1c; xba; x97;
  xc1; x17; x23; x38; xf4; xfa; x83; x37; x04; xfb; x9c; x6b;
  x23; x3c; xf4; xfa; x03; x37; x84; xfb; x83; x37; x04; xfb;
  x63; x11; xf7; x04; x97; xa7; x00; x00; x93; x87; x07; x1a;
  x94; x67; x83; x27; x44; xf9; x1b; xd7; xf7; x41; x1b; x57;
  xe7; x01; xb9; x9f; x9b; xd7; x27; x40; x81; x27; x3e; x87;
  x85; x47; x33; x97; xe7; x00; x97; xa7; x00; x00; x93; x87;
  xa7; x17; x55; x8f; x98; xe7; x0d; xa8; x83; x37; x84; xfb;
  x9c; x6b; x23; x3c; xf4; xfa; x03; x37; x84; xfb; x83; x37;
  x04; xfb; x63; x0a; xf7; x00; x83; x37; x84; xfb; x9c; x67;
  xf1; x9b; x03; x37; x84; xf9; xe3; x6f; xf7; xfc; x83; x37;
  x84; xfb; x9c; x6f; x23; x38; xf4; xfa; x83; x37; x84; xfe;
  x03; x37; x04; xfb; x98; xef; x83; x37; x84; xfe; x03; x37;
  x84; xfb; x98; xeb; x83; x37; x04; xfb; x03; x37; x84; xfe;
  x98; xeb; x83; x37; x04; xfb; x98; x6b; x83; x37; x84; xfb;
  x98; xef; x83; x27; x44; xfe; x1b; xd7; xf7; x41; x1b; x57;
  xe7; x01; xb9; x9f; x9b; xd7; x27; x40; x81; x27; x3e; x87;
  x85; x47; xb3; x97; xe7; x00; x23; x34; xf4; xfc; x97; xa7;
  x00; x00; x93; x87; x27; x0f; x9c; x67; x03; x37; x84; xfc;
  x63; xe6; xe7; x28; x97; xa7; x00; x00; x93; x87; x07; x0e;
  x98; x67; x83; x37; x84; xfc; xf9; x8f; xa9; xe3; x83; x27;
  x44; xfe; xf1; x9b; x81; x27; x91; x27; x23; x22; xf4; xfe;
  x83; x37; x84; xfc; x86; x07; x23; x34; xf4; xfc; x19; xa8;
  x83; x27; x44; xfe; x91; x27; x23; x22; xf4; xfe; x83; x37;
  x84; xfc; x86; x07; x23; x34; xf4; xfc; x97; xa7; x00; x00;
  x93; x87; x07; x0a; x98; x67; x83; x37; x84; xfc; xf9; x8f;
  xf1; xdf; x83; x27; x44; xfe; x23; x22; xf4; xfc; x83; x27;
  x44; xfe; x85; x27; x81; x27; x9b; x97; x17; x00; x81; x27;
  x13; x97; x37; x00; x97; xa7; x00; x00; x93; x87; x47; x07;
  xba; x97; xc1; x17; x23; x3c; xf4; xfc; x83; x37; x84; xfd;
  x23; x34; xf4; xfa; x83; x37; x84; xfd; x9c; x6f; x23; x34;
  xf4; xfe; x1d; xaa; x83; x37; x84; xfe; x9c; x67; xf1; x9b;
  x23; x3c; xf4; xf8; x03; x37; x84; xf9; x83; x37; x04; xfa;
  xb3; x07; xf7; x40; x23; x38; xf4; xfc; x03; x37; x04; xfd;
  xfd; x47; x63; xd6; xe7; x0a; x03; x37; x84; xfe; x83; x37;
  x04; xfa; xba; x97; x23; x34; xf4; xf8; x83; x37; x04; xfa;
  x13; xe7; x17; x00; x83; x37; x84; xfe; x98; xe7; x83; x37;
  x84; xfe; x9c; x6f; x23; x38; xf4; xfa; x83; x37; x84; xfe;
  x9c; x6b; x23; x3c; xf4; xfa; x83; x37; x84; xfb; x03; x37;
  x04; xfb; x98; xef; x83; x37; x04; xfb; x03; x37; x84; xfb;
  x98; xeb; x97; xa7; x00; x00; x93; x87; x67; xff; x03; x37;
  x84; xf8; x98; xef; x17; xa7; x00; x00; x13; x07; x87; xfe;
  x9c; x6f; x1c; xeb; x17; xa7; x00; x00; x13; x07; xc7; xfd;
  x83; x37; x84; xf8; x98; xef; x83; x37; x84; xf8; x98; x6f;
  x83; x37; x84; xf8; x98; xeb; x83; x37; x04; xfd; x93; xe7;
  x17; x00; x3e; x87; x83; x37; x84; xf8; x98; xe7; x83; x37;
  x04; xfd; x03; x37; x84; xf8; xba; x97; x03; x37; x04; xfd;
  x98; xe3; x03; x35; x84; xf7; xef; x00; x40; x23; x83; x37;
  x84; xfe; xc1; x07; x39; xa4; x83; x37; x04; xfd; x63; xcc;
  x07; x04; x03; x37; x84; xfe; x83; x37; x84; xf9; xba; x97;
  x98; x67; x83; x36; x84; xfe; x83; x37; x84; xf9; xb6; x97;
  x13; x67; x17; x00; x98; xe7; x83; x37; x84; xfe; x9c; x6f;
  x23; x38; xf4; xfa; x83; x37; x84; xfe; x9c; x6b; x23; x3c;
  xf4; xfa; x83; x37; x84; xfb; x03; x37; x04; xfb; x98; xef;
  x83; x37; x04; xfb; x03; x37; x84; xfb; x98; xeb; x03; x35;
  x84; xf7; xef; x00; x80; x1d; x83; x37; x84; xfe; xc1; x07;
  x4d; xaa; x83; x37; x84; xfe; x9c; x6f; x23; x34; xf4; xfe;
  x03; x37; x84; xfe; x83; x37; x84; xfd; xe3; x12; xf7; xec;
  x83; x37; x84; xfd; xc1; x07; x23; x3c; xf4; xfc; x83; x27;
  x44; xfe; x85; x27; x23; x22; xf4; xfe; x83; x27; x44; xfe;
  x8d; x8b; x81; x27; xe3; x9c; x07; xe8; x83; x27; x44; xfc;
  x8d; x8b; x81; x27; x8d; xe3; x97; xa7; x00; x00; x93; x87;
  x67; xee; x94; x67; x83; x37; x84; xfc; x13; xc7; xf7; xff;
  x97; xa7; x00; x00; x93; x87; x47; xed; x75; x8f; x98; xe7;
  x15; xa0; x83; x27; x44; xfc; xfd; x37; x23; x22; xf4; xfc;
  x83; x37; x84; xfa; xc1; x17; x23; x34; xf4; xfa; x83; x37;
  x84; xfa; x9c; x6b; x03; x37; x84; xfa; xe3; x0c; xf7; xfa;
  x83; x37; x84; xfc; x86; x07; x23; x34; xf4; xfc; x97; xa7;
  x00; x00; x93; x87; xa7; xe9; x9c; x67; x03; x37; x84; xfc;
  x63; xea; xe7; x02; x83; x37; x84; xfc; x95; xc7; x19; xa8;
  x83; x27; x44; xfe; x91; x27; x23; x22; xf4; xfe; x83; x37;
  x84; xfc; x86; x07; x23; x34; xf4; xfc; x97; xa7; x00; x00].

Definition INIT_ELF_05 : list byte := [
  x93; x87; xc7; xe6; x98; x67; x83; x37; x84; xfc; xf9; x8f;
  xf1; xdf; xf1; xb3; x97; xa7; x00; x00; x93; x87; x87; xe5;
  x9c; x6b; x9c; x67; x13; xf7; xc7; xff; x83; x37; x04; xfa;
  xb3; x07; xf7; x40; x23; x38; xf4; xfc; x97; xa7; x00; x00;
  x93; x87; xc7; xe3; x9c; x6b; x9c; x67; xf1; x9b; x03; x37;
  x04; xfa; x63; xe7; xe7; x00; x03; x37; x04; xfd; xfd; x47;
  x63; xcc; xe7; x04; x83; x35; x04; xfa; x03; x35; x84; xf7;
  xef; xf0; x4f; xb9; x97; xa7; x00; x00; x93; x87; x07; xe1;
  x9c; x6b; x9c; x67; x13; xf7; xc7; xff; x83; x37; x04; xfa;
  xb3; x07; xf7; x40; x23; x38; xf4; xfc; x97; xa7; x00; x00;
  x93; x87; x47; xdf; x9c; x6b; x9c; x67; xf1; x9b; x03; x37;
  x04; xfa; x63; xe7; xe7; x00; x03; x37; x04; xfd; xfd; x47;
  x63; xc8; xe7; x00; x03; x35; x84; xf7; xef; x00; x60; x07;
  x81; x47; x91; xa8; x97; xa7; x00; x00; x93; x87; x87; xdc;
  x9c; x6b; x23; x34; xf4; xfe; x83; x37; x04; xfa; x13; xe7;
  x17; x00; x83; x37; x84; xfe; x98; xe7; x97; xa7; x00; x00;
  x93; x87; xc7; xda; x83; x36; x84; xfe; x03; x37; x04; xfa;
  x36; x97; x98; xeb; x83; x37; x04; xfd; x13; xe7; x17; x00;
  x97; xa7; x00; x00; x93; x87; x07; xd9; x9c; x6b; x98; xe7;
  x03; x35; x84; xf7; xef; x00; x60; x02; x83; x37; x84; xfe;
  xc1; x07; x3e; x85; xaa; x60; x0a; x64; x49; x61; x82; x80;
  x01; x11; x22; xec; x00; x10; x23; x34; xa4; xfe; x01; x00;
  x62; x64; x05; x61; x82; x80; x01; x11; x22; xec; x00; x10;
  x23; x34; xa4; xfe; x01; x00; x62; x64; x05; x61; x82; x80;
  x13; x01; x01; xb0; x23; x3c; x11; x4e; x23; x38; x81; x4e;
  x23; x34; x91; x4e; x13; x04; x01; x50; x23; x3c; xa4; xb0;
  xae; x84; x23; x38; xc4; xb0; x23; x34; xd4; xb0; x83; x97;
  x04; x01; xf5; x9b; x9b; x97; x07; x01; x9b; xd7; x07; x41;
  x23; x1c; xf4; xf2; x83; xa7; xc4; x0a; x23; x2a; xf4; xfc;
  x83; x97; x24; x01; x23; x1d; xf4; xf2; x9c; x78; x23; x3c;
  xf4; xf4; xbc; x60; x23; x34; xf4; xf6; x93; x07; x84; xb2;
  x23; x34; xf4; xf2; x83; x37; x84; xf2; x23; x30; xf4; xf4;
  x93; x07; x00; x40; x23; x2a; xf4; xf2; x83; x27; x44; xf3;
  x23; x24; xf4; xf4; x23; x28; x04; xf4; x93; x07; x84; xf2;
  x83; x36; x84; xb0; x03; x36; x04; xb1; xbe; x85; x03; x35;
  x84; xb1; xef; x00; xe0; x0a; xaa; x87; x23; x2e; xf4; xfc;
  x83; x27; xc4; xfd; x81; x27; x63; xce; x07; x00; x93; x07;
  x84; xf2; xbe; x85; x03; x35; x84; xb1; xef; x20; x20; x15;
  xaa; x87; x81; xc7; xfd; x57; x23; x2e; xf4; xfc; x83; x17;
  x84; xf3; xc2; x17; xc1; x93; x81; x27; x93; xf7; x07; x04;
  x81; x27; x99; xcb; x83; x97; x04; x01; x93; xe7; x07; x04;
  x9b; x97; x07; x01; x9b; xd7; x07; x41; x23; x98; xf4; x00;
  x83; x27; xc4; xfd; x3e; x85; x83; x30; x81; x4f; x03; x34;
  x01; x4f; x83; x34; x81; x4e; x13; x01; x01; x50; x82; x80;
  x39; x71; x06; xfc; x22; xf8; x80; x00; x23; x3c; xa4; xfc;
  x23; x38; xb4; xfc; x23; x34; xc4; xfc; x97; xa7; x00; x00;
  x93; x87; x47; x60; x9c; x63; x83; x36; x84; xfc; x03; x36;
  x04; xfd; x83; x35; x84; xfd; x3e; x85; xef; x00; x80; x01;
  xaa; x87; x23; x26; xf4; xfe; x83; x27; xc4; xfe; x3e; x85;
  xe2; x70; x42; x74; x21; x61; x82; x80; x45; x71; x86; xe7;
  xa2; xe3; x26; xff; x4a; xfb; x4e; xf7; x52; xf3; x56; xef;
  x5a; xeb; x80; x0b; x23; x34; xa4; xe4; x23; x30; xb4; xe4;
  x23; x3c; xc4; xe2; x23; x38; xd4; xe2; x03; x35; x84; xe4;
  xef; x20; xb0; x15; xaa; x87; x9c; x63; x23; x38; xf4; xf6;
  x03; x35; x04; xf7; xef; x20; x90; x70; x23; x34; xa4; xf6;
  x23; x3c; x04; xf2; x23; x28; x04; xfa; x23; x22; x04; xf2;
  x23; x34; x04; xf8; x23; x30; x04; xf8; x83; x37; x84; xe4;
  x23; x30; xf4; xf6; x83; x37; x04; xf6; x89; xcb; x83; x37;
  x04; xf6; xbc; x67; x89; xe7; x03; x35; x04; xf6; xef; xd0;
  x5f; xf6; x83; x37; x04; xe4; x83; x97; x07; x01; xc2; x17;
  xc1; x93; x1b; x87; x07; x00; x89; x67; xf9; x8f; x81; x27;
  x85; xef; x83; x37; x04; xe4; x03; x97; x07; x01; x89; x67;
  xd9; x8f; x1b; x97; x07; x01; x1b; x57; x07; x41; x83; x37;
  x04; xe4; x23; x98; xe7; x00; x83; x37; x04; xe4; x03; xa7;
  xc7; x0a; xf9; x77; xfd; x17; xf9; x8f; x1b; x87; x07; x00;
  x83; x37; x04; xe4; x23; xa6; xe7; x0a; x83; x37; x04; xe4;
  x83; xa7; xc7; x0a; x9b; xd7; xd7; x40; x81; x27; x85; x8b;
  x93; xf7; xf7; x0f; x81; xc7; xfd; x57; x6f; x10; x70; x0f;
  x83; x37; x04; xe4; x83; x97; x07; x01; xc2; x17; xc1; x93;
  x81; x27; xa1; x8b; x81; x27; x89; xc7; x83; x37; x04; xe4;
  x9c; x6f; x81; xef; x83; x35; x04; xe4; x03; x35; x84; xe4;
  xef; x20; xc0; x50; xaa; x87; x81; xc7; xfd; x57; x6f; x10;
  x50; x0c; x83; x37; x04; xe4; x83; x97; x07; x01; xc2; x17;
  xc1; x93; x81; x27; xe9; x8b; x81; x27; x3e; x87; xa9; x47;
  x63; x16; xf7; x02; x83; x37; x04; xe4; x83; x97; x27; x01;
  x63; xc0; x07; x02; x83; x37; x04; xe3; xbe; x86; x03; x36;
  x84; xe3; x83; x35; x04; xe4; x03; x35; x84; xe4; xef; xf0;
  x7f; xd8; xaa; x87; x6f; x10; x30; x08; x03; x3b; x84; xe3;
  x93; x04; x84; xe8; x23; x34; x94; xf0; x23; x3c; x04; xf0;
  x23; x28; x04; xf0; x23; x2e; x04; xfa; xda; x89; x11; xa0;
  x05; x0b; x83; x47; x0b; x00; x81; xcb; x83; x47; x0b; x00;
  x3e; x87; x93; x07; x50; x02; xe3; x17; xf7; xfe; xb3; x07;
  x3b; x41; x1b; x89; x07; x00; x63; x0e; x09; x04; x23; xb0;
  x34; x01; xca; x87; x9c; xe4; x83; x37; x84; xf1; x4a; x87;
  xba; x97; x23; x3c; xf4; xf0; xc1; x04; x83; x27; x04; xf1;
  x85; x27; x81; x27; x23; x28; xf4; xf0; x83; x27; x04; xf1;
  x3e; x87; x9d; x47; x63; xd1; xe7; x02; x93; x07; x84; xf0;
  x3e; x86; x83; x35; x04; xe4; x03; x35; x84; xe4; xef; x10;
  x50; x32; xaa; x87; x99; xc3; x6f; x10; xc0; x7c; x93; x04;
  x84; xe8; x83; x27; xc4; xfb; xbb; x87; x27; x01; x23; x2e;
  xf4; xfa; x83; x47; x0b; x00; x99; xe3; x6f; x10; xc0; x78;
  x23; x3c; x64; xf5; x05; x0b; x01; x49; x23; x2c; x04; xf8;
  x23; x2c; x04; xfa; xfd; x57; x23; x2a; xf4; xfa; xa3; x03;
  x04; xf4; x23; x26; x04; xfa; xda; x87; x13; x8b; x17; x00;
  x83; xc7; x07; x00; x9b; x8a; x07; x00; x9b; x86; x0a; xfe;
  x1b; x87; x06; x00; x93; x07; x80; x05; xe3; xe0; xe7; x12;
  x93; x97; x06; x02; x81; x93; x13; x97; x27; x00; x97; x97;
  x00; x00; x93; x87; x27; x88; xba; x97; x9c; x43; x1b; x87;
  x07; x00; x97; x97; x00; x00; x93; x87; x27; x87; xba; x97;
  x82; x87; x83; x47; x74; xf4; xc5; xff; x93; x07; x00; x02;
  xa3; x03; xf4; xf4; x7d; xb7; x93; x67; x19; x00; x1b; x89;
  x07; x00; x55; xb7; x83; x37; x04; xe3; x13; x87; x87; x00;
  x23; x38; xe4; xe2; x9c; x43; x23; x2c; xf4; xfa; x83; x27;
  x84; xfb; x81; x27; x63; xc3; x07; x00; x59; xb7; x83; x27;
  x84; xfb; xbb; x07; xf0; x40; x23; x2c; xf4; xfa; x93; x67;
  x49; x00; x1b; x89; x07; x00; x85; xbf; x93; x07; xb0; x02;
  xa3; x03; xf4; xf4; x9d; xb7; xda; x87; x13; x8b; x17; x00;
  x83; xc7; x07; x00; x9b; x8a; x07; x00; x56; x87; x93; x07;
  xa0; x02; x63; x14; xf7; x02; x83; x37; x04; xe3; x13; x87;
  x87; x00; x23; x38; xe4; xe2; x9c; x43; x23; x2a; xf4; xfa;
  x83; x27; x44; xfb; x81; x27; xe3; xda; x07; xf2; xfd; x57;
  x23; x2a; xf4; xfa; x2d; xb7; x01; x4a; x3d; xa0; x52; x87;
  xba; x87; x9b; x97; x27; x00; xb9; x9f; x9b; x97; x17; x00;
  x1b; x87; x07; x00; x9b; x87; x0a; xfd; x81; x27; xb9; x9f;
  x1b; x8a; x07; x00; xda; x87; x13; x8b; x17; x00; x83; xc7;
  x07; x00; x9b; x8a; x07; x00; x9b; x87; x0a; xfd; x81; x27;
  x81; x27; x3e; x87; xa5; x47; xe3; xf4; xe7; xfc; xd2; x87;
  x1b; x87; x07; x00; x63; x53; x07; x00; xfd; x57; x23; x2a;
  xf4; xfa; xdd; xb5; x93; x67; x09; x08; x1b; x89; x07; x00;
  xf9; xb5; x01; x4a; x52; x87; xba; x87; x9b; x97; x27; x00;
  xb9; x9f; x9b; x97; x17; x00; x1b; x87; x07; x00; x9b; x87;
  x0a; xfd; x81; x27; xb9; x9f; x1b; x8a; x07; x00; xda; x87;
  x13; x8b; x17; x00; x83; xc7; x07; x00; x9b; x8a; x07; x00;
  x9b; x87; x0a; xfd; x81; x27; x81; x27; x3e; x87; xa5; x47;
  xe3; xf4; xe7; xfc; x23; x2c; x44; xfb; x61; xbd; x93; x67;
  x89; x00; x1b; x89; x07; x00; x41; xb5; x93; x67; x09; x04;
  x1b; x89; x07; x00; x9d; xbd; x93; x67; x09; x01; x1b; x89;
  x07; x00; xb5; xb5; x93; x67; x09; x01; x1b; x89; x07; x00;
  x8d; xb5; x93; x09; x04; xe6; x83; x37; x04; xe3; x13; x87;
  x87; x00; x23; x38; xe4; xe2; x9c; x43; x93; xf7; xf7; x0f;
  x23; x80; xf9; x00; x85; x47; x23; x28; xf4; xf8; xa3; x03;
  x04; xf4; x51; xaf; x93; x67; x09; x01; x1b; x89; x07; x00;
  x93; x77; x09; x01; x81; x27; x89; xcb; x83; x37; x04; xe3;
  x13; x87; x87; x00; x23; x38; xe4; xe2; x9c; x63; x05; xa8;
  x93; x77; x09; x04; x81; x27; x89; xcf; x83; x37; x04; xe3;
  x13; x87; x87; x00; x23; x38; xe4; xe2; x9c; x43; x9b; x97;
  x07; x01; x9b; xd7; x07; x41; x01; xa8; x83; x37; x04; xe3;
  x13; x87; x87; x00; x23; x38; xe4; xe2; x9c; x43; x23; x30;
  xf4; xfa; x83; x37; x04; xfa; x63; xdc; x07; x00; x83; x37;
  x04; xfa; xb3; x07; xf0; x40; x23; x30; xf4; xfa; x93; x07;
  xd0; x02; xa3; x03; xf4; xf4; x85; x47; x23; x2e; xf4; xf8;
  x51; xa3; x93; x77; x89; x00; x81; x27; x8d; xc7; x83; x37;
  x04; xe3; xbd; x07; x93; xf6; x07; xff; x93; x87; x06; x01;
  x23; x38; xf4; xe2; x98; x62; x9c; x66; x3a; x85; xbe; x85;
  xef; x80; xc0; x38; xd3; x07; xa5; x22; x27; x3c; xf4; xf2;
  x11; xa8; x83; x37; x04; xe3; x13; x87; x87; x00; x23; x38;
  xe4; xe2; x9c; x23; x27; x3c; xf4; xf2; x87; x37; x84; xf3;
  xd3; xa7; xf7; x22; x97; x87; x00; x00; x93; x87; x87; x7a;
  x98; x23; x73; x27; x10; x00; xd3; x17; xf7; xa2; x73; x10;
  x17; x00; x93; xb7; x17; x00; x93; xf7; xf7; x0f; x93; xc7].

Definition INIT_ELF_06 : list byte := [
  x17; x00; x93; xf7; xf7; x0f; x99; xc3; x85; x47; x11; xa0;
  x81; x47; xb1; xc3; x87; x37; x84; xf3; x53; x07; x00; xf2;
  xd3; x97; xe7; xa2; x89; xc7; x93; x07; xd0; x02; xa3; x03;
  xf4; xf4; x56; x87; x93; x07; x70; x04; x63; xc7; xe7; x00;
  x97; x89; x00; x00; x93; x89; x89; x55; x29; xa0; x97; x89;
  x00; x00; x93; x89; x69; x55; x8d; x47; x23; x28; xf4; xf8;
  x93; x77; xf9; xf7; x1b; x89; x07; x00; x8d; xa5; x87; x37;
  x84; xf3; x53; xa7; xf7; xa2; xd3; xa7; xf7; xa2; xf9; x8f;
  xa9; xe3; x83; x37; x84; xf3; xfd; x93; x85; x8b; x81; x27;
  x89; xc7; x93; x07; xd0; x02; xa3; x03; xf4; xf4; x56; x87;
  x93; x07; x70; x04; x63; xc7; xe7; x00; x97; x89; x00; x00;
  x93; x89; x89; x51; x29; xa0; x97; x89; x00; x00; x93; x89;
  x69; x51; x8d; x47; x23; x28; xf4; xf8; x93; x77; xf9; xf7;
  x1b; x89; x07; x00; x09; xad; x83; x27; x44; xfb; x1b; x87;
  x07; x00; xfd; x57; x63; x16; xf7; x00; x99; x47; x23; x2a;
  xf4; xfa; x15; xa0; x56; x87; x93; x07; x70; x06; x63; x07;
  xf7; x00; x56; x87; x93; x07; x70; x04; x63; x19; xf7; x00;
  x83; x27; x44; xfb; x81; x27; x81; xe7; x85; x47; x23; x2a;
  xf4; xfa; x93; x67; x09; x10; x1b; x89; x07; x00; x87; x37;
  x84; xf3; x93; x07; x44; xf2; x13; x07; x44; xf3; x93; x06;
  x64; xf4; x83; x25; x44; xfb; xce; x88; x3e; x88; xd6; x87;
  x4a; x86; x53; x85; xf7; x22; x03; x35; x84; xe4; xef; x10;
  xa0; x42; xaa; x89; x56; x87; x93; x07; x70; x06; x63; x07;
  xf7; x00; x56; x87; x93; x07; x70; x04; x63; x16; xf7; x02;
  x83; x27; x44; xf3; x3e; x87; xf5; x57; x63; x49; xf7; x00;
  x03; x27; x44; xf3; x83; x27; x44; xfb; x81; x27; x63; xd7;
  xe7; x00; x9b; x87; xea; xff; x9b; x8a; x07; x00; x19; xa0;
  x93; x0a; x70; x06; x56; x87; x93; x07; x50; x06; x63; xc1;
  xe7; x06; x83; x27; x44; xf3; xfd; x37; x81; x27; x23; x2a;
  xf4; xf2; x03; x27; x44; xf3; x93; x07; x84; xf2; x56; x86;
  xba; x85; x3e; x85; xef; x10; x00; x5a; xaa; x87; x23; x28;
  xf4; xfa; x83; x27; x44; xf2; x03; x27; x04; xfb; xb9; x9f;
  x23; x28; xf4; xf8; x83; x27; x44; xf2; x3e; x87; x85; x47;
  x63; xc7; xe7; x00; x93; x77; x19; x00; x81; x27; x63; x81;
  x07; x10; x83; x37; x84; xf6; x1b; x87; x07; x00; x83; x27;
  x04; xf9; xb9; x9f; x81; x27; x23; x28; xf4; xf8; xed; xa0;
  x56; x87; x93; x07; x60; x06; x63; x1a; xf7; x06; x83; x27;
  x44; xf3; x63; x5e; xf0; x02; x83; x27; x44; xf3; x23; x28;
  xf4; xf8; x83; x27; x44; xfb; x81; x27; x89; xe7; x93; x77;
  x19; x00; x81; x27; xc5; xcf; x83; x37; x84; xf6; x1b; x87;
  x07; x00; x83; x27; x44; xfb; xb9; x9f; x1b; x87; x07; x00;
  x83; x27; x04; xf9; xb9; x9f; x81; x27; x23; x28; xf4; xf8;
  x61; xa8; x83; x27; x44; xfb; x81; x27; x89; xe7; x93; x77;
  x19; x00; x81; x27; x89; xcf; x83; x37; x84; xf6; x1b; x87;
  x07; x00; x83; x27; x44; xfb; xb9; x9f; x81; x27; x85; x27;
  x81; x27; x81; x27; x11; xa0; x85; x47; x23; x28; xf4; xf8;
  xa5; xa0; x03; x27; x44; xf3; x83; x27; x44; xf2; x63; x45;
  xf7; x02; x83; x27; x44; xf3; x23; x28; xf4; xf8; x93; x77;
  x19; x00; x81; x27; xb1; xc7; x83; x37; x84; xf6; x1b; x87;
  x07; x00; x83; x27; x04; xf9; xb9; x9f; x81; x27; x23; x28;
  xf4; xf8; x1d; xa8; x83; x37; x84; xf6; x1b; x87; x07; x00;
  x83; x27; x44; xf2; x81; x27; xb9; x9f; x81; x27; x23; x28;
  xf4; xf8; x83; x27; x44; xf3; x63; x4d; xf0; x00; x83; x27;
  x44; xf3; x05; x47; xbb; x07; xf7; x40; x81; x27; x03; x27;
  x04; xf9; xb9; x9f; x23; x28; xf4; xf8; x83; x27; x44; xf3;
  x23; x26; xf4; xfa; x83; x47; x64; xf4; x63; x8a; x07; x40;
  x93; x07; xd0; x02; xa3; x03; xf4; xf4; x21; xa1; x93; x77;
  x09; x01; x81; x27; x89; xcf; x83; x37; x04; xe3; x13; x87;
  x87; x00; x23; x38; xe4; xe2; x9c; x63; x03; x27; xc4; xfb;
  x98; xe3; x6f; x10; xa0; x1f; x93; x77; x09; x04; x81; x27;
  x95; xc3; x83; x37; x04; xe3; x13; x87; x87; x00; x23; x38;
  xe4; xe2; x9c; x63; x03; x27; xc4; xfb; x1b; x17; x07; x01;
  x1b; x57; x07; x41; x23; x90; xe7; x00; x6f; x10; x00; x1d;
  x83; x37; x04; xe3; x13; x87; x87; x00; x23; x38; xe4; xe2;
  x9c; x63; x03; x27; xc4; xfb; x98; xc3; x6f; x10; x80; x1b;
  x93; x67; x09; x01; x1b; x89; x07; x00; x93; x77; x09; x01;
  x81; x27; x89; xcb; x83; x37; x04; xe3; x13; x87; x87; x00;
  x23; x38; xe4; xe2; x9c; x63; x05; xa8; x93; x77; x09; x04;
  x81; x27; x99; xcb; x83; x37; x04; xe3; x13; x87; x87; x00;
  x23; x38; xe4; xe2; x9c; x43; xc2; x17; xc1; x93; x11; xa8;
  x83; x37; x04; xe3; x13; x87; x87; x00; x23; x38; xe4; xe2;
  x9c; x43; x82; x17; x81; x93; x23; x30; xf4; xfa; x23; x2e;
  x04; xf8; x4d; xaa; x83; x37; x04; xe3; x13; x87; x87; x00;
  x23; x38; xe4; xe2; x9c; x63; x23; x30; xf4; xfa; x89; x47;
  x23; x2e; xf4; xf8; x97; x87; x00; x00; x93; x87; xc7; x22;
  x23; x34; xf4; xf8; x93; x67; x29; x00; x1b; x89; x07; x00;
  x93; x07; x00; x03; x23; x0c; xf4; xe4; x93; x0a; x80; x07;
  x93; x07; x80; x07; xa3; x0c; xf4; xe4; x85; xaa; x83; x37;
  x04; xe3; x13; x87; x87; x00; x23; x38; xe4; xe2; x83; xb9;
  x07; x00; xa3; x03; x04; xf4; x63; x92; x09; x02; x97; x89;
  x00; x00; x93; x89; x29; x20; x83; x27; x44; xfb; x9b; x86;
  x07; x00; x19; x47; x63; x73; xd7; x00; x99; x47; x81; x27;
  x23; x28; xf4; xf8; xd9; xac; x83; x27; x44; xfb; x81; x27;
  x63; xca; x07; x02; x83; x27; x44; xfb; x3e; x86; x81; x45;
  x4e; x85; xef; x10; xf0; x6d; x23; x38; xa4; xf4; x83; x37;
  x04; xf5; x81; xcb; x83; x37; x04; xf5; xb3; x87; x37; x41;
  x23; x28; xf4; xf8; x5d; xa4; x83; x27; x44; xfb; x23; x28;
  xf4; xf8; x71; xac; x4e; x85; xef; x20; x20; x67; xaa; x87;
  x23; x28; xf4; xf8; x79; xa4; x93; x67; x09; x01; x1b; x89;
  x07; x00; x93; x77; x09; x01; x81; x27; x89; xcb; x83; x37;
  x04; xe3; x13; x87; x87; x00; x23; x38; xe4; xe2; x9c; x63;
  x05; xa8; x93; x77; x09; x04; x81; x27; x99; xcb; x83; x37;
  x04; xe3; x13; x87; x87; x00; x23; x38; xe4; xe2; x9c; x43;
  xc2; x17; xc1; x93; x11; xa8; x83; x37; x04; xe3; x13; x87;
  x87; x00; x23; x38; xe4; xe2; x9c; x43; x82; x17; x81; x93;
  x23; x30; xf4; xfa; x85; x47; x23; x2e; xf4; xf8; x59; xa8;
  x97; x87; x00; x00; x93; x87; x87; x14; x23; x34; xf4; xf8;
  x39; xa0; x97; x87; x00; x00; x93; x87; xa7; x11; x23; x34;
  xf4; xf8; x93; x77; x09; x01; x81; x27; x89; xcb; x83; x37;
  x04; xe3; x13; x87; x87; x00; x23; x38; xe4; xe2; x9c; x63;
  x05; xa8; x93; x77; x09; x04; x81; x27; x99; xcb; x83; x37;
  x04; xe3; x13; x87; x87; x00; x23; x38; xe4; xe2; x9c; x43;
  xc2; x17; xc1; x93; x11; xa8; x83; x37; x04; xe3; x13; x87;
  x87; x00; x23; x38; xe4; xe2; x9c; x43; x82; x17; x81; x93;
  x23; x30; xf4; xfa; x89; x47; x23; x2e; xf4; xf8; x93; x77;
  x19; x00; x81; x27; x8d; xc3; x83; x37; x04; xfa; x91; xcf;
  x93; x07; x00; x03; x23; x0c; xf4; xe4; x93; xf7; xfa; x0f;
  xa3; x0c; xf4; xe4; x93; x67; x29; x00; x1b; x89; x07; x00;
  x11; xa0; x01; x00; xa3; x03; x04; xf4; x83; x27; x44; xfb;
  x23; x2c; xf4; xf8; x83; x27; x84; xf9; x81; x27; x63; xc6;
  x07; x00; x93; x77; xf9; xf7; x1b; x89; x07; x00; x93; x09;
  x04; xe6; x93; x89; x89; x02; x83; x37; x04; xfa; x91; xe7;
  x83; x27; x44; xfb; x81; x27; x63; x81; x07; x12; x83; x27;
  xc4; xf9; x1b; x87; x07; x00; x89; x47; x63; x08; xf7; x0c;
  x83; x27; xc4; xf9; x1b; x87; x07; x00; x89; x47; x63; xe5;
  xe7; x0e; x83; x27; xc4; xf9; x81; x27; x91; xcb; x83; x27;
  xc4; xf9; x1b; x87; x07; x00; x85; x47; x63; x0b; xf7; x04;
  xc1; xa8; x01; x00; x83; x37; x04; xfa; x93; xf7; xf7; x0f;
  x9d; x8b; x93; xf7; xf7; x0f; xfd; x19; x9b; x87; x07; x03;
  x93; xf7; xf7; x0f; x23; x80; xf9; x00; x83; x37; x04; xfa;
  x8d; x83; x23; x30; xf4; xfa; x83; x37; x04; xfa; xf1; xfb;
  x93; x77; x19; x00; x81; x27; xcd; xcb; x83; xc7; x09; x00;
  x3e; x87; x93; x07; x00; x03; x63; x03; xf7; x0a; xfd; x19;
  x93; x07; x00; x03; x23; x80; xf9; x00; x61; xa8; x03; x37;
  x04; xfa; xa5; x47; x63; xee; xe7; x00; x83; x37; x04; xfa;
  x93; xf7; xf7; x0f; xfd; x19; x9b; x87; x07; x03; x93; xf7;
  xf7; x0f; x23; x80; xf9; x00; xa5; xa8; x03; x37; x04; xfa;
  xa9; x47; xb3; x77; xf7; x02; x93; xf7; xf7; x0f; xfd; x19;
  x9b; x87; x07; x03; x93; xf7; xf7; x0f; x23; x80; xf9; x00;
  x03; x37; x04; xfa; xa9; x47; xb3; x57; xf7; x02; x23; x30;
  xf4; xfa; x83; x37; x04; xfa; xe9; xfb; x99; xa0; x01; x00;
  x83; x37; x04; xfa; xbd; x8b; x03; x37; x84; xf8; xba; x97;
  xfd; x19; x83; xc7; x07; x00; x23; x80; xf9; x00; x83; x37;
  x04; xfa; x91; x83; x23; x30; xf4; xfa; x83; x37; x04; xfa;
  xe9; xff; x31; xa8; x97; x89; x00; x00; x93; x89; x49; xf9;
  x4e; x85; xef; x20; x60; x43; xaa; x87; x23; x28; xf4; xf8;
  x01; x00; x81; xa8; x01; x00; x31; xa8; x83; x27; xc4; xf9;
  x81; x27; x91; xeb; x93; x77; x19; x00; x81; x27; x91; xc7;
  xfd; x19; x93; x07; x00; x03; x23; x80; xf9; x00; x93; x07;
  x04; xe6; x93; x87; x87; x02; xb3; x87; x37; x41; x23; x28;
  xf4; xf8; x05; xa0; xe3; x8a; x0a; x62; x93; x09; x04; xe6;
  x93; xf7; xfa; x0f; x23; x80; xf9; x00; x85; x47; x23; x28;
  xf4; xf8; xa3; x03; x04; xf4; x11; xa0; x01; x00; x83; x27;
  x84; xf9; x3e; x86; x83; x27; x04; xf9; x9b; x86; x07; x00;
  x1b; x07; x06; x00; x63; xd3; xe6; x00; xb2; x87; x23; x2a;
  xf4; xf8; x83; x47; x74; xf4; x91; xc7; x83; x27; x44; xf9;
  x85; x27; x23; x2a; xf4; xf8; x93; x77; x29; x00; x81; x27;
  x91; xc7; x83; x27; x44; xf9; x89; x27; x23; x2a; xf4; xf8;
  x93; x77; x49; x08; x81; x27; xe9; xe7; x83; x27; x84; xfb;
  x3e; x87; x83; x27; x44; xf9; xbb; x07; xf7; x40; x1b; x8a].

Definition INIT_ELF_07 : list byte := [
  x07; x00; xd2; x87; x63; x5a; xf0; x0a; xa1; xa8; x97; x87;
  x00; x00; x93; x87; x67; x05; x9c; xe0; xc1; x47; x9c; xe4;
  x83; x37; x84; xf1; xc1; x07; x23; x3c; xf4; xf0; xc1; x04;
  x83; x27; x04; xf1; x85; x27; x81; x27; x23; x28; xf4; xf0;
  x83; x27; x04; xf1; x3e; x87; x9d; x47; x63; xd0; xe7; x02;
  x93; x07; x84; xf0; x3e; x86; x83; x35; x04; xe4; x03; x35;
  x84; xe4; xef; x10; x80; x0e; xaa; x87; xe3; x99; x07; x58;
  x93; x04; x84; xe8; x9b; x07; x0a; xff; x1b; x8a; x07; x00;
  x52; x87; xc1; x47; xe3; xc3; xe7; xfa; x97; x87; x00; x00;
  x93; x87; x87; xff; x9c; xe0; xd2; x87; x9c; xe4; x83; x37;
  x84; xf1; x52; x87; xba; x97; x23; x3c; xf4; xf0; xc1; x04;
  x83; x27; x04; xf1; x85; x27; x81; x27; x23; x28; xf4; xf0;
  x83; x27; x04; xf1; x3e; x87; x9d; x47; x63; xd0; xe7; x02;
  x93; x07; x84; xf0; x3e; x86; x83; x35; x04; xe4; x03; x35;
  x84; xe4; xef; x10; x80; x08; xaa; x87; xe3; x99; x07; x52;
  x93; x04; x84; xe8; x83; x47; x74; xf4; xb1; xc7; x93; x07;
  x74; xf4; x9c; xe0; x85; x47; x9c; xe4; x83; x37; x84; xf1;
  x85; x07; x23; x3c; xf4; xf0; xc1; x04; x83; x27; x04; xf1;
  x85; x27; x81; x27; x23; x28; xf4; xf0; x83; x27; x04; xf1;
  x3e; x87; x9d; x47; x63; xd0; xe7; x02; x93; x07; x84; xf0;
  x3e; x86; x83; x35; x04; xe4; x03; x35; x84; xe4; xef; x10;
  x80; x03; xaa; x87; xe3; x91; x07; x4e; x93; x04; x84; xe8;
  x93; x77; x29; x00; x81; x27; xb1; xc7; x93; x07; x84; xe5;
  x9c; xe0; x89; x47; x9c; xe4; x83; x37; x84; xf1; x89; x07;
  x23; x3c; xf4; xf0; xc1; x04; x83; x27; x04; xf1; x85; x27;
  x81; x27; x23; x28; xf4; xf0; x83; x27; x04; xf1; x3e; x87;
  x9d; x47; x63; xd0; xe7; x02; x93; x07; x84; xf0; x3e; x86;
  x83; x35; x04; xe4; x03; x35; x84; xe4; xef; x00; x70; x7e;
  xaa; x87; xe3; x98; x07; x48; x93; x04; x84; xe8; x93; x77;
  x49; x08; x81; x27; x3e; x87; x93; x07; x00; x08; x63; x16;
  xf7; x0c; x83; x27; x84; xfb; x3e; x87; x83; x27; x44; xf9;
  xbb; x07; xf7; x40; x1b; x8a; x07; x00; xd2; x87; x63; x5a;
  xf0; x0a; xa1; xa8; x97; x87; x00; x00; x93; x87; xc7; xee;
  x9c; xe0; xc1; x47; x9c; xe4; x83; x37; x84; xf1; xc1; x07;
  x23; x3c; xf4; xf0; xc1; x04; x83; x27; x04; xf1; x85; x27;
  x81; x27; x23; x28; xf4; xf0; x83; x27; x04; xf1; x3e; x87;
  x9d; x47; x63; xd0; xe7; x02; x93; x07; x84; xf0; x3e; x86;
  x83; x35; x04; xe4; x03; x35; x84; xe4; xef; x00; xf0; x76;
  xaa; x87; xe3; x9c; x07; x40; x93; x04; x84; xe8; x9b; x07;
  x0a; xff; x1b; x8a; x07; x00; x52; x87; xc1; x47; xe3; xc3;
  xe7; xfa; x97; x87; x00; x00; x93; x87; xe7; xe8; x9c; xe0;
  xd2; x87; x9c; xe4; x83; x37; x84; xf1; x52; x87; xba; x97;
  x23; x3c; xf4; xf0; xc1; x04; x83; x27; x04; xf1; x85; x27;
  x81; x27; x23; x28; xf4; xf0; x83; x27; x04; xf1; x3e; x87;
  x9d; x47; x63; xd0; xe7; x02; x93; x07; x84; xf0; x3e; x86;
  x83; x35; x04; xe4; x03; x35; x84; xe4; xef; x00; xf0; x70;
  xaa; x87; xe3; x9c; x07; x3a; x93; x04; x84; xe8; x83; x27;
  x84; xf9; x3e; x87; x83; x27; x04; xf9; xbb; x07; xf7; x40;
  x1b; x8a; x07; x00; xd2; x87; x63; x5a; xf0; x0a; xa1; xa8;
  x97; x87; x00; x00; x93; x87; x47; xe2; x9c; xe0; xc1; x47;
  x9c; xe4; x83; x37; x84; xf1; xc1; x07; x23; x3c; xf4; xf0;
  xc1; x04; x83; x27; x04; xf1; x85; x27; x81; x27; x23; x28;
  xf4; xf0; x83; x27; x04; xf1; x3e; x87; x9d; x47; x63; xd0;
  xe7; x02; x93; x07; x84; xf0; x3e; x86; x83; x35; x04; xe4;
  x03; x35; x84; xe4; xef; x00; x70; x6a; xaa; x87; xe3; x98;
  x07; x34; x93; x04; x84; xe8; x9b; x07; x0a; xff; x1b; x8a;
  x07; x00; x52; x87; xc1; x47; xe3; xc3; xe7; xfa; x97; x87;
  x00; x00; x93; x87; x67; xdc; x9c; xe0; xd2; x87; x9c; xe4;
  x83; x37; x84; xf1; x52; x87; xba; x97; x23; x3c; xf4; xf0;
  xc1; x04; x83; x27; x04; xf1; x85; x27; x81; x27; x23; x28;
  xf4; xf0; x83; x27; x04; xf1; x3e; x87; x9d; x47; x63; xd0;
  xe7; x02; x93; x07; x84; xf0; x3e; x86; x83; x35; x04; xe4;
  x03; x35; x84; xe4; xef; x00; x70; x64; xaa; x87; xe3; x98;
  x07; x2e; x93; x04; x84; xe8; x93; x77; x09; x10; x81; x27;
  xb1; xeb; x23; xb0; x34; x01; x83; x27; x04; xf9; x9c; xe4;
  x03; x37; x84; xf1; x83; x27; x04; xf9; xba; x97; x23; x3c;
  xf4; xf0; xc1; x04; x83; x27; x04; xf1; x85; x27; x81; x27;
  x23; x28; xf4; xf0; x83; x27; x04; xf1; x3e; x87; x9d; x47;
  xe3; xdd; xe7; x14; x93; x07; x84; xf0; x3e; x86; x83; x35;
  x04; xe4; x03; x35; x84; xe4; xef; x00; x10; x5f; xaa; x87;
  xe3; x9d; x07; x28; x93; x04; x84; xe8; x6f; x00; xb0; x13;
  x56; x87; x93; x07; x50; x06; x63; xde; xe7; x6a; x87; x37;
  x84; xf3; x53; x07; x00; xf2; xd3; xa7; xe7; xa2; x63; x8d;
  x07; x16; x97; x87; x00; x00; x93; x87; xa7; xb8; x9c; xe0;
  x85; x47; x9c; xe4; x83; x37; x84; xf1; x85; x07; x23; x3c;
  xf4; xf0; xc1; x04; x83; x27; x04; xf1; x85; x27; x81; x27;
  x23; x28; xf4; xf0; x83; x27; x04; xf1; x3e; x87; x9d; x47;
  x63; xd0; xe7; x02; x93; x07; x84; xf0; x3e; x86; x83; x35;
  x04; xe4; x03; x35; x84; xe4; xef; x00; x50; x58; xaa; x87;
  xe3; x97; x07; x22; x93; x04; x84; xe8; x03; x27; x44; xf3;
  x83; x27; x44; xf2; x63; x47; xf7; x00; x93; x77; x19; x00;
  x81; x27; xe3; x8e; x07; x0a; x83; x37; x04; xf7; x9c; xe0;
  x83; x37; x84; xf6; x9c; xe4; x03; x37; x84; xf1; x83; x37;
  x84; xf6; xba; x97; x23; x3c; xf4; xf0; xc1; x04; x83; x27;
  x04; xf1; x85; x27; x81; x27; x23; x28; xf4; xf0; x83; x27;
  x04; xf1; x3e; x87; x9d; x47; x63; xd0; xe7; x02; x93; x07;
  x84; xf0; x3e; x86; x83; x35; x04; xe4; x03; x35; x84; xe4;
  xef; x00; xf0; x51; xaa; x87; xe3; x94; x07; x1c; x93; x04;
  x84; xe8; x83; x27; x44; xf2; xfd; x37; x1b; x8a; x07; x00;
  xd2; x87; xe3; x5e; xf0; x04; xa1; xa8; x97; x87; x00; x00;
  x93; x87; xc7; xc3; x9c; xe0; xc1; x47; x9c; xe4; x83; x37;
  x84; xf1; xc1; x07; x23; x3c; xf4; xf0; xc1; x04; x83; x27;
  x04; xf1; x85; x27; x81; x27; x23; x28; xf4; xf0; x83; x27;
  x04; xf1; x3e; x87; x9d; x47; x63; xd0; xe7; x02; x93; x07;
  x84; xf0; x3e; x86; x83; x35; x04; xe4; x03; x35; x84; xe4;
  xef; x00; xf0; x4b; xaa; x87; xe3; x94; x07; x16; x93; x04;
  x84; xe8; x9b; x07; x0a; xff; x1b; x8a; x07; x00; x52; x87;
  xc1; x47; xe3; xc3; xe7; xfa; x97; x87; x00; x00; x93; x87;
  xe7; xbd; x9c; xe0; xd2; x87; x9c; xe4; x83; x37; x84; xf1;
  x52; x87; xba; x97; x23; x3c; xf4; xf0; xc1; x04; x83; x27;
  x04; xf1; x85; x27; x81; x27; x23; x28; xf4; xf0; x83; x27;
  x04; xf1; x3e; x87; x9d; x47; x63; xd4; xe7; x7c; x93; x07;
  x84; xf0; x3e; x86; x83; x35; x04; xe4; x03; x35; x84; xe4;
  xef; x00; xf0; x45; xaa; x87; xe3; x94; x07; x10; x93; x04;
  x84; xe8; x65; xa7; x83; x27; x44; xf3; x63; x45; xf0; x1c;
  x97; x87; x00; x00; x93; x87; xc7; xa0; x9c; xe0; x85; x47;
  x9c; xe4; x83; x37; x84; xf1; x85; x07; x23; x3c; xf4; xf0;
  xc1; x04; x83; x27; x04; xf1; x85; x27; x81; x27; x23; x28;
  xf4; xf0; x83; x27; x04; xf1; x3e; x87; x9d; x47; x63; xd0;
  xe7; x02; x93; x07; x84; xf0; x3e; x86; x83; x35; x04; xe4;
  x03; x35; x84; xe4; xef; x00; x70; x40; xaa; x87; xe3; x98;
  x07; x0a; x93; x04; x84; xe8; x83; x27; x44; xf3; x89; xeb;
  x83; x27; x44; xf2; x91; xe7; x93; x77; x19; x00; x81; x27;
  x63; x8f; x07; x72; x83; x37; x04; xf7; x9c; xe0; x83; x37;
  x84; xf6; x9c; xe4; x03; x37; x84; xf1; x83; x37; x84; xf6;
  xba; x97; x23; x3c; xf4; xf0; xc1; x04; x83; x27; x04; xf1;
  x85; x27; x81; x27; x23; x28; xf4; xf0; x83; x27; x04; xf1;
  x3e; x87; x9d; x47; x63; xd0; xe7; x02; x93; x07; x84; xf0;
  x3e; x86; x83; x35; x04; xe4; x03; x35; x84; xe4; xef; x00;
  x10; x3a; xaa; x87; xe3; x95; x07; x04; x93; x04; x84; xe8;
  x83; x27; x44; xf3; xbb; x07; xf0; x40; x1b; x8a; x07; x00;
  xd2; x87; x63; x5a; xf0; x0a; xa1; xa8; x97; x87; x00; x00;
  x93; x87; xc7; xab; x9c; xe0; xc1; x47; x9c; xe4; x83; x37;
  x84; xf1; xc1; x07; x23; x3c; xf4; xf0; xc1; x04; x83; x27;
  x04; xf1; x85; x27; x81; x27; x23; x28; xf4; xf0; x83; x27;
  x04; xf1; x3e; x87; x9d; x47; x63; xd0; xe7; x02; x93; x07;
  x84; xf0; x3e; x86; x83; x35; x04; xe4; x03; x35; x84; xe4;
  xef; x00; xf0; x33; xaa; x87; x63; x94; x07; x7e; x93; x04;
  x84; xe8; x9b; x07; x0a; xff; x1b; x8a; x07; x00; x52; x87;
  xc1; x47; xe3; xc3; xe7; xfa; x97; x87; x00; x00; x93; x87;
  xe7; xa5; x9c; xe0; xd2; x87; x9c; xe4; x83; x37; x84; xf1;
  x52; x87; xba; x97; x23; x3c; xf4; xf0; xc1; x04; x83; x27;
  x04; xf1; x85; x27; x81; x27; x23; x28; xf4; xf0; x83; x27;
  x04; xf1; x3e; x87; x9d; x47; x63; xd0; xe7; x02; x93; x07;
  x84; xf0; x3e; x86; x83; x35; x04; xe4; x03; x35; x84; xe4;
  xef; x00; xf0; x2d; xaa; x87; x63; x94; x07; x78; x93; x04;
  x84; xe8; x23; xb0; x34; x01; x83; x27; x44; xf2; x9c; xe4;
  x83; x37; x84; xf1; x03; x27; x44; xf2; xba; x97; x23; x3c;
  xf4; xf0; xc1; x04; x83; x27; x04; xf1; x85; x27; x81; x27;
  x23; x28; xf4; xf0; x83; x27; x04; xf1; x3e; x87; x9d; x47;
  x63; xdd; xe7; x5e; x93; x07; x84; xf0; x3e; x86; x83; x35;
  x04; xe4; x03; x35; x84; xe4; xef; x00; x10; x29; xaa; x87;
  x63; x9d; x07; x72; x93; x04; x84; xe8; xe9; xab; x23; x34;
  x34; xf5; x83; x27; x44; xf2; x3e; x87; x83; x37; x84; xf4;
  xba; x97; xb3; x87; x37; x41; x23; x2e; xf4; xf6; x83; x27;
  xc4; xf7; x3e; x87; x83; x27; xc4; xfa; x01; x27; x81; x27;
  x63; xd6; xe7; x00; x83; x27; xc4; xfa; x23; x2e; xf4; xf6;
  x83; x27; xc4; xf7; x81; x27; x63; x59; xf0; x04; x23; xb0;
  x34; x01; x83; x27; xc4; xf7; x9c; xe4; x03; x37; x84; xf1;
  x83; x27; xc4; xf7; xba; x97; x23; x3c; xf4; xf0; xc1; x04].

Definition INIT_ELF_08 : list byte := [
  x83; x27; x04; xf1; x85; x27; x81; x27; x23; x28; xf4; xf0;
  x83; x27; x04; xf1; x3e; x87; x9d; x47; x63; xd0; xe7; x02;
  x93; x07; x84; xf0; x3e; x86; x83; x35; x04; xe4; x03; x35;
  x84; xe4; xef; x00; x50; x20; xaa; x87; x63; x97; x07; x6a;
  x93; x04; x84; xe8; x83; x27; xc4; xf7; x3e; x87; x9b; x07;
  x07; x00; x63; xd3; x07; x00; x01; x47; x9b; x07; x07; x00;
  x03; x27; xc4; xfa; xbb; x07; xf7; x40; x23; x2e; xf4; xf6;
  x83; x27; xc4; xf7; x81; x27; x63; x50; xf0; x0c; xa9; xa8;
  x97; x87; x00; x00; x93; x87; x87; x90; x9c; xe0; xc1; x47;
  x9c; xe4; x83; x37; x84; xf1; xc1; x07; x23; x3c; xf4; xf0;
  xc1; x04; x83; x27; x04; xf1; x85; x27; x81; x27; x23; x28;
  xf4; xf0; x83; x27; x04; xf1; x3e; x87; x9d; x47; x63; xd0;
  xe7; x02; x93; x07; x84; xf0; x3e; x86; x83; x35; x04; xe4;
  x03; x35; x84; xe4; xef; x00; xb0; x18; xaa; x87; x63; x9a;
  x07; x62; x93; x04; x84; xe8; x83; x27; xc4; xf7; xc1; x37;
  x23; x2e; xf4; xf6; x83; x27; xc4; xf7; x1b; x87; x07; x00;
  xc1; x47; xe3; xcf; xe7; xf8; x97; x87; x00; x00; x93; x87;
  x27; x8a; x9c; xe0; x83; x27; xc4; xf7; x9c; xe4; x03; x37;
  x84; xf1; x83; x27; xc4; xf7; xba; x97; x23; x3c; xf4; xf0;
  xc1; x04; x83; x27; x04; xf1; x85; x27; x81; x27; x23; x28;
  xf4; xf0; x83; x27; x04; xf1; x3e; x87; x9d; x47; x63; xd0;
  xe7; x02; x93; x07; x84; xf0; x3e; x86; x83; x35; x04; xe4;
  x03; x35; x84; xe4; xef; x00; xf0; x11; xaa; x87; x63; x94;
  x07; x5c; x93; x04; x84; xe8; x83; x27; xc4; xfa; xbe; x99;
  x03; x27; x44; xf3; x83; x27; x44; xf2; x63; x46; xf7; x00;
  x93; x77; x19; x00; x81; x27; xa9; xcb; x83; x37; x04; xf7;
  x9c; xe0; x83; x37; x84; xf6; x9c; xe4; x03; x37; x84; xf1;
  x83; x37; x84; xf6; xba; x97; x23; x3c; xf4; xf0; xc1; x04;
  x83; x27; x04; xf1; x85; x27; x81; x27; x23; x28; xf4; xf0;
  x83; x27; x04; xf1; x3e; x87; x9d; x47; x63; xd0; xe7; x02;
  x93; x07; x84; xf0; x3e; x86; x83; x35; x04; xe4; x03; x35;
  x84; xe4; xef; x00; x50; x0b; xaa; x87; x63; x9f; x07; x54;
  x93; x04; x84; xe8; x83; x27; x44; xf2; x3e; x87; x83; x37;
  x84; xf4; xba; x97; xb3; x87; x37; x41; x23; x2c; xf4; xf6;
  x03; x27; x44; xf2; x83; x27; x44; xf3; xbb; x07; xf7; x40;
  x1b; x87; x07; x00; x83; x27; x84; xf7; x81; x27; x63; x5a;
  xf7; x00; x03; x27; x44; xf2; x83; x27; x44; xf3; xbb; x07;
  xf7; x40; x23; x2c; xf4; xf6; x83; x27; x84; xf7; x81; x27;
  x63; x59; xf0; x04; x23; xb0; x34; x01; x83; x27; x84; xf7;
  x9c; xe4; x03; x37; x84; xf1; x83; x27; x84; xf7; xba; x97;
  x23; x3c; xf4; xf0; xc1; x04; x83; x27; x04; xf1; x85; x27;
  x81; x27; x23; x28; xf4; xf0; x83; x27; x04; xf1; x3e; x87;
  x9d; x47; x63; xd0; xe7; x02; x93; x07; x84; xf0; x3e; x86;
  x83; x35; x04; xe4; x03; x35; x84; xe4; xef; x00; xf0; x01;
  xaa; x87; x63; x94; x07; x4c; x93; x04; x84; xe8; x03; x27;
  x44; xf2; x83; x27; x44; xf3; xbb; x07; xf7; x40; x1b; x87;
  x07; x00; x83; x27; x84; xf7; xbe; x86; x9b; x87; x06; x00;
  x63; xd3; x07; x00; x81; x46; x9b; x87; x06; x00; xbb; x07;
  xf7; x40; x23; x2c; xf4; xf6; x83; x27; x84; xf7; x81; x27;
  x63; x5b; xf0; x32; xa9; xa8; x97; x77; x00; x00; x93; x87;
  x67; x71; x9c; xe0; xc1; x47; x9c; xe4; x83; x37; x84; xf1;
  xc1; x07; x23; x3c; xf4; xf0; xc1; x04; x83; x27; x04; xf1;
  x85; x27; x81; x27; x23; x28; xf4; xf0; x83; x27; x04; xf1;
  x3e; x87; x9d; x47; x63; xd0; xe7; x02; x93; x07; x84; xf0;
  x3e; x86; x83; x35; x04; xe4; x03; x35; x84; xe4; xef; x00;
  x80; x79; xaa; x87; x63; x91; x07; x44; x93; x04; x84; xe8;
  x83; x27; x84; xf7; xc1; x37; x23; x2c; xf4; xf6; x83; x27;
  x84; xf7; x1b; x87; x07; x00; xc1; x47; xe3; xcf; xe7; xf8;
  x97; x77; x00; x00; x93; x87; x07; x6b; x9c; xe0; x83; x27;
  x84; xf7; x9c; xe4; x03; x37; x84; xf1; x83; x27; x84; xf7;
  xba; x97; x23; x3c; xf4; xf0; xc1; x04; x83; x27; x04; xf1;
  x85; x27; x81; x27; x23; x28; xf4; xf0; x83; x27; x04; xf1;
  x3e; x87; x9d; x47; x63; xdb; xe7; x28; x93; x07; x84; xf0;
  x3e; x86; x83; x35; x04; xe4; x03; x35; x84; xe4; xef; x00;
  xc0; x72; xaa; x87; x63; x9b; x07; x3c; x93; x04; x84; xe8;
  x9d; xac; x83; x27; x44; xf2; x3e; x87; x85; x47; x63; xc7;
  xe7; x00; x93; x77; x19; x00; x81; x27; x63; x83; x07; x1c;
  x23; xb0; x34; x01; x85; x47; x9c; xe4; x83; x37; x84; xf1;
  x85; x07; x23; x3c; xf4; xf0; xc1; x04; x83; x27; x04; xf1;
  x85; x27; x81; x27; x23; x28; xf4; xf0; x83; x27; x04; xf1;
  x3e; x87; x9d; x47; x63; xd0; xe7; x02; x93; x07; x84; xf0;
  x3e; x86; x83; x35; x04; xe4; x03; x35; x84; xe4; xef; x00;
  xc0; x6c; xaa; x87; x63; x9b; x07; x36; x93; x04; x84; xe8;
  x85; x09; x83; x37; x04; xf7; x9c; xe0; x83; x37; x84; xf6;
  x9c; xe4; x03; x37; x84; xf1; x83; x37; x84; xf6; xba; x97;
  x23; x3c; xf4; xf0; xc1; x04; x83; x27; x04; xf1; x85; x27;
  x81; x27; x23; x28; xf4; xf0; x83; x27; x04; xf1; x3e; x87;
  x9d; x47; x63; xd0; xe7; x02; x93; x07; x84; xf0; x3e; x86;
  x83; x35; x04; xe4; x03; x35; x84; xe4; xef; x00; xa0; x67;
  xaa; x87; x63; x92; x07; x32; x93; x04; x84; xe8; x87; x37;
  x84; xf3; x53; x07; x00; xf2; xd3; xa7; xe7; xa2; xa9; xef;
  x23; xb0; x34; x01; x83; x27; x44; xf2; xfd; x37; x81; x27;
  x9c; xe4; x83; x37; x84; xf1; x03; x27; x44; xf2; x7d; x37;
  x01; x27; xba; x97; x23; x3c; xf4; xf0; xc1; x04; x83; x27;
  x04; xf1; x85; x27; x81; x27; x23; x28; xf4; xf0; x83; x27;
  x04; xf1; x3e; x87; x9d; x47; x63; xd7; xe7; x12; x93; x07;
  x84; xf0; x3e; x86; x83; x35; x04; xe4; x03; x35; x84; xe4;
  xef; x00; x60; x61; xaa; x87; x63; x90; x07; x2c; x93; x04;
  x84; xe8; x39; xa2; x83; x27; x44; xf2; xfd; x37; x1b; x8a;
  x07; x00; xd2; x87; x63; x50; xf0; x10; xa1; xa8; x97; x77;
  x00; x00; x93; x87; x27; x53; x9c; xe0; xc1; x47; x9c; xe4;
  x83; x37; x84; xf1; xc1; x07; x23; x3c; xf4; xf0; xc1; x04;
  x83; x27; x04; xf1; x85; x27; x81; x27; x23; x28; xf4; xf0;
  x83; x27; x04; xf1; x3e; x87; x9d; x47; x63; xd0; xe7; x02;
  x93; x07; x84; xf0; x3e; x86; x83; x35; x04; xe4; x03; x35;
  x84; xe4; xef; x00; x40; x5b; xaa; x87; x63; x9f; x07; x24;
  x93; x04; x84; xe8; x9b; x07; x0a; xff; x1b; x8a; x07; x00;
  x52; x87; xc1; x47; xe3; xc3; xe7; xfa; x97; x77; x00; x00;
  x93; x87; x47; x4d; x9c; xe0; xd2; x87; x9c; xe4; x83; x37;
  x84; xf1; x52; x87; xba; x97; x23; x3c; xf4; xf0; xc1; x04;
  x83; x27; x04; xf1; x85; x27; x81; x27; x23; x28; xf4; xf0;
  x83; x27; x04; xf1; x3e; x87; x9d; x47; x63; xd6; xe7; x06;
  x93; x07; x84; xf0; x3e; x86; x83; x35; x04; xe4; x03; x35;
  x84; xe4; xef; x00; x40; x55; xaa; x87; x63; x9f; x07; x1e;
  x93; x04; x84; xe8; xb1; xa0; x23; xb0; x34; x01; x85; x47;
  x9c; xe4; x83; x37; x84; xf1; x85; x07; x23; x3c; xf4; xf0;
  xc1; x04; x83; x27; x04; xf1; x85; x27; x81; x27; x23; x28;
  xf4; xf0; x83; x27; x04; xf1; x3e; x87; x9d; x47; x63; xd2;
  xe7; x02; x93; x07; x84; xf0; x3e; x86; x83; x35; x04; xe4;
  x03; x35; x84; xe4; xef; x00; xa0; x50; xaa; x87; x63; x9a;
  x07; x1a; x93; x04; x84; xe8; x11; xa0; x01; x00; x93; x07;
  x84; xf2; x9c; xe0; x83; x27; x04; xfb; x9c; xe4; x03; x37;
  x84; xf1; x83; x27; x04; xfb; xba; x97; x23; x3c; xf4; xf0;
  xc1; x04; x83; x27; x04; xf1; x85; x27; x81; x27; x23; x28;
  xf4; xf0; x83; x27; x04; xf1; x3e; x87; x9d; x47; x63; xd0;
  xe7; x02; x93; x07; x84; xf0; x3e; x86; x83; x35; x04; xe4;
  x03; x35; x84; xe4; xef; x00; x60; x4b; xaa; x87; x63; x90;
  x07; x16; x93; x04; x84; xe8; x93; x77; x49; x00; x81; x27;
  xe9; xc3; x83; x27; x84; xfb; x3e; x87; x83; x27; x44; xf9;
  xbb; x07; xf7; x40; x1b; x8a; x07; x00; xd2; x87; x63; x56;
  xf0; x0a; xa1; xa8; x97; x77; x00; x00; x93; x87; x47; x3b;
  x9c; xe0; xc1; x47; x9c; xe4; x83; x37; x84; xf1; xc1; x07;
  x23; x3c; xf4; xf0; xc1; x04; x83; x27; x04; xf1; x85; x27;
  x81; x27; x23; x28; xf4; xf0; x83; x27; x04; xf1; x3e; x87;
  x9d; x47; x63; xd0; xe7; x02; x93; x07; x84; xf0; x3e; x86;
  x83; x35; x04; xe4; x03; x35; x84; xe4; xef; x00; x60; x44;
  xaa; x87; x63; x98; x07; x0e; x93; x04; x84; xe8; x9b; x07;
  x0a; xff; x1b; x8a; x07; x00; x52; x87; xc1; x47; xe3; xc3;
  xe7; xfa; x97; x77; x00; x00; x93; x87; x67; x35; x9c; xe0;
  xd2; x87; x9c; xe4; x83; x37; x84; xf1; x52; x87; xba; x97;
  x23; x3c; xf4; xf0; x83; x27; x04; xf1; x85; x27; x81; x27;
  x23; x28; xf4; xf0; x83; x27; x04; xf1; x3e; x87; x9d; x47;
  x63; xdd; xe7; x00; x93; x07; x84; xf0; x3e; x86; x83; x35;
  x04; xe4; x03; x35; x84; xe4; xef; x00; x80; x3e; xaa; x87;
  xc9; xeb; x83; x27; x84; xfb; x3e; x86; x83; x27; x44; xf9;
  xbe; x86; x1b; x87; x06; x00; x9b; x07; x06; x00; x63; x53;
  xf7; x00; xb2; x86; x9b; x87; x06; x00; x03; x27; xc4; xfb;
  xb9; x9f; x23; x2e; xf4; xfa; x83; x37; x84; xf1; x81; xcf;
  x93; x07; x84; xf0; x3e; x86; x83; x35; x04; xe4; x03; x35;
  x84; xe4; xef; x00; x40; x3a; xaa; x87; xb9; xe7; x23; x28;
  x04; xf0; x93; x04; x84; xe8; x83; x37; x04; xf8; x99; xe3;
  x6f; xe0; x9f; x80; x83; x35; x04; xf8; x03; x35; x84; xe4;
  xef; xd0; xaf; xa0; x23; x30; x04; xf8; x6f; xe0; x4f; xff;
  x01; x00; x11; xa0; x01; x00; x83; x37; x84; xf1; x81; xcf;
  x93; x07; x84; xf0; x3e; x86; x83; x35; x04; xe4; x03; x35;
  x84; xe4; xef; x00; xc0; x35; xaa; x87; x99; xe3; x23; x28;
  x04; xf0; x83; x37; x04; xf8; x99; xc7; x83; x35; x04; xf8;
  x03; x35; x84; xe4; xef; xd0; xaf; x9c; x83; x37; x04; xe4;
  x83; x97; x07; x01; xc2; x17; xc1; x93; x81; x27; x93; xf7;
  x07; x04; x81; x27; x81; xe7; x83; x27; xc4; xfb; x11; xa0].

Definition INIT_ELF_09 : list byte := [
  xfd; x57; x3e; x85; xbe; x60; x1e; x64; xfa; x74; x5a; x79;
  xba; x79; x1a; x7a; xfa; x6a; x5a; x6b; x79; x61; x82; x80;
  x19; x71; x86; xfc; xa2; xf8; x00; x01; x23; x3c; xa4; xfa;
  x27; x38; xa4; xfa; x23; x30; xd4; xfa; x23; x3c; xe4; xf8;
  x3e; x87; x23; x34; x04; xf9; x23; x30; x14; xf9; xae; x87;
  x23; x26; xf4; xfa; xb2; x87; x23; x24; xf4; xfa; xba; x87;
  x23; x2a; xf4; xf8; x87; x37; x04; xfb; x27; x30; xf4; xfc;
  x83; x27; x44; xfc; x81; x27; x63; xdf; x07; x00; x87; x37;
  x04; xfb; xd3; x97; xf7; x22; x27; x38; xf4; xfa; x83; x37;
  x04; xfa; x13; x07; xd0; x02; x23; x80; xe7; x00; x29; xa0;
  x83; x37; x04; xfa; x23; x80; x07; x00; x83; x27; x44; xf9;
  x1b; x87; x07; x00; x93; x07; x60; x06; x63; x0a; xf7; x00;
  x83; x27; x44; xf9; x1b; x87; x07; x00; x93; x07; x60; x04;
  x63; x16; xf7; x00; x8d; x47; x23; x26; xf4; xfe; x0d; xa8;
  x83; x27; x44; xf9; x1b; x87; x07; x00; x93; x07; x50; x06;
  x63; x0a; xf7; x00; x83; x27; x44; xf9; x1b; x87; x07; x00;
  x93; x07; x50; x04; x63; x17; xf7; x00; x83; x27; xc4; xfa;
  x85; x27; x23; x26; xf4; xfa; x89; x47; x23; x26; xf4; xfe;
  x93; x07; x84; xfc; x13; x07; x44; xfd; x03; x26; xc4; xfa;
  x83; x25; xc4; xfe; x83; x36; x84; xf9; x07; x35; x04; xfb;
  x03; x35; x84; xfb; xef; x10; x50; x25; x23; x3c; xa4; xfc;
  x83; x27; x44; xf9; x1b; x87; x07; x00; x93; x07; x70; x06;
  x63; x0a; xf7; x00; x83; x27; x44; xf9; x1b; x87; x07; x00;
  x93; x07; x70; x04; x63; x17; xf7; x00; x83; x27; x84; xfa;
  x85; x8b; x81; x27; xd5; xc7; x83; x27; xc4; xfa; x03; x37;
  x84; xfd; xba; x97; x23; x30; xf4; xfe; x83; x27; x44; xf9;
  x1b; x87; x07; x00; x93; x07; x60; x06; x63; x0a; xf7; x00;
  x83; x27; x44; xf9; x1b; x87; x07; x00; x93; x07; x60; x04;
  x63; x14; xf7; x04; x83; x37; x84; xfd; x83; xc7; x07; x00;
  x3e; x87; x93; x07; x00; x03; x63; x12; xf7; x02; x87; x37;
  x04; xfb; x53; x07; x00; xf2; xd3; xa7; xe7; xa2; x91; xeb;
  x85; x47; x03; x27; xc4; xfa; x99; x9f; x1b; x87; x07; x00;
  x83; x37; x84; xf9; x98; xc3; x83; x37; x84; xf9; x9c; x43;
  x3e; x87; x83; x37; x04; xfe; xba; x97; x23; x30; xf4; xfe;
  x87; x37; x04; xfb; x53; x07; x00; xf2; xd3; xa7; xe7; xa2;
  x85; xc3; x83; x37; x04; xfe; x23; x34; xf4; xfc; x19; xa8;
  x83; x37; x84; xfc; x13; x87; x17; x00; x23; x34; xe4; xfc;
  x13; x07; x00; x03; x23; x80; xe7; x00; x83; x37; x84; xfc;
  x03; x37; x04; xfe; xe3; xe2; xe7; xfe; x03; x37; x84; xfc;
  x83; x37; x84; xfd; xb3; x07; xf7; x40; x1b; x87; x07; x00;
  x83; x37; x84; xf8; x98; xc3; x83; x37; x84; xfd; x3e; x85;
  xe6; x70; x46; x74; x09; x61; x82; x80; x39; x71; x22; xfc;
  x26; xf8; x4a; xf4; x80; x00; x23; x34; xa4; xfc; xae; x87;
  x32; x87; x23; x22; xf4; xfc; xba; x87; x23; x20; xf4; xfc;
  x03; x39; x84; xfc; xca; x87; x13; x89; x17; x00; x03; x27;
  x04; xfc; x13; x77; xf7; x0f; x23; x80; xe7; x00; x83; x27;
  x44; xfc; x81; x27; x63; xd0; x07; x02; x83; x27; x44; xfc;
  xbb; x07; xf0; x40; x23; x22; xf4; xfc; xca; x87; x13; x89;
  x17; x00; x13; x07; xd0; x02; x23; x80; xe7; x00; x01; xa8;
  xca; x87; x13; x89; x17; x00; x13; x07; xb0; x02; x23; x80;
  xe7; x00; x93; x04; x84; xfd; x9d; x04; x83; x27; x44; xfc;
  x1b; x87; x07; x00; xa5; x47; x63; xdd; xe7; x06; x83; x27;
  x44; xfc; x3e; x87; xa9; x47; xbb; x67; xf7; x02; x81; x27;
  x93; xf7; xf7; x0f; xfd; x14; x9b; x87; x07; x03; x93; xf7;
  xf7; x0f; x23; x80; xf4; x00; x83; x27; x44; xfc; x3e; x87;
  xa9; x47; xbb; x47; xf7; x02; x23; x22; xf4; xfc; x83; x27;
  x44; xfc; x1b; x87; x07; x00; xa5; x47; xe3; xc3; xe7; xfc;
  x83; x27; x44; xfc; x93; xf7; xf7; x0f; xfd; x14; x9b; x87;
  x07; x03; x93; xf7; xf7; x0f; x23; x80; xf4; x00; x19; xa8;
  x26; x87; x93; x04; x17; x00; xca; x87; x13; x89; x17; x00;
  x03; x47; x07; x00; x23; x80; xe7; x00; x93; x07; x84; xfd;
  x9d; x07; xe3; xe3; xf4; xfe; x2d; xa0; xca; x87; x13; x89;
  x17; x00; x13; x07; x00; x03; x23; x80; xe7; x00; x83; x27;
  x44; xfc; x13; xf7; xf7; x0f; xca; x87; x13; x89; x17; x00;
  x1b; x07; x07; x03; x13; x77; xf7; x0f; x23; x80; xe7; x00;
  x83; x37; x84; xfc; xb3; x07; xf9; x40; x81; x27; x3e; x85;
  x62; x74; xc2; x74; x22; x79; x21; x61; x82; x80; x79; x71;
  x06; xf4; x22; xf0; x26; xec; x4a; xe8; x00; x18; x23; x3c;
  xa4; xfc; x23; x38; xb4; xfc; xb2; x84; x9c; x68; x89; xe7;
  x23; xa4; x04; x00; x81; x47; x39; xa8; x26; x86; x83; x35;
  x04; xfd; x03; x35; x84; xfd; xef; x00; xa0; x44; xaa; x87;
  x3e; x89; x23; xb8; x04; x00; x23; xa4; x04; x00; xca; x87;
  x3e; x85; xa2; x70; x02; x74; xe2; x64; x42; x69; x45; x61;
  x82; x80; x39; x71; x06; xfc; x22; xf8; x26; xf4; x80; x00;
  x23; x34; xa4; xfc; xae; x84; x99; xe0; x81; x47; x5d; xa8;
  x83; x37; x84; xfc; x23; x38; xf4; xfc; x83; x37; x04; xfd;
  x89; xcb; x83; x37; x04; xfd; xbc; x67; x89; xe7; x03; x35;
  x04; xfd; xef; xc0; x8f; xa6; x83; x97; x04; x01; x99; xe3;
  x81; x47; x79; xa0; xa6; x85; x03; x35; x84; xfc; xef; x00;
  xa0; x0b; xaa; x87; x23; x2e; xf4; xfc; xbc; x68; x89; xcf;
  xbc; x68; x98; x78; xba; x85; x03; x35; x84; xfc; x82; x97;
  xaa; x87; x63; xd5; x07; x00; xfd; x57; x23; x2e; xf4; xfc;
  x83; x97; x04; x01; xc2; x17; xc1; x93; x81; x27; x93; xf7;
  x07; x08; x81; x27; x99; xc7; x9c; x6c; xbe; x85; x03; x35;
  x84; xfc; xef; xc0; x9f; xdb; xbc; x6c; x91; xcf; xb8; x6c;
  x93; x87; x44; x07; x63; x08; xf7; x00; xbc; x6c; xbe; x85;
  x03; x35; x84; xfc; xef; xc0; xff; xd9; x23; xbc; x04; x04;
  xbc; x7c; x89; xcb; xbc; x7c; xbe; x85; x03; x35; x84; xfc;
  xef; xc0; xbf; xd8; x23; xbc; x04; x06; xef; xc0; xaf; xa1;
  x23; x98; x04; x00; xef; xc0; x0f; xa2; x83; x27; xc4; xfd;
  x3e; x85; xe2; x70; x42; x74; xa2; x74; x21; x61; x82; x80;
  x41; x11; x06; xe4; x22; xe0; x00; x08; x2a; x87; x97; x87;
  x00; x00; x93; x87; xa7; x7b; x9c; x63; xba; x85; x3e; x85;
  xef; xf0; x3f; xf1; xaa; x87; x3e; x85; xa2; x60; x02; x64;
  x41; x01; x82; x80; x1d; x71; x86; xec; xa2; xe8; xa6; xe4;
  xca; xe0; x4e; xfc; x52; xf8; x80; x10; x23; x34; xa4; xfa;
  xae; x84; x83; xd7; x04; x01; x23; x11; xf4; xfc; x83; x57;
  x24; xfc; x81; x27; xa1; x8b; x81; x27; x63; x9a; x07; x1c;
  x03; x97; x04; x01; x85; x67; x93; x87; x07; x80; xd9; x8f;
  x9b; x97; x07; x01; x9b; xd7; x07; x41; x23; x98; xf4; x00;
  x9c; x44; x63; x45; xf0; x00; xbc; x58; x63; x56; xf0; x1a;
  xbc; x64; x63; x83; x07; x1a; x83; x37; x84; xfa; x9c; x43;
  x23; x2e; xf4; xfa; x83; x37; x84; xfa; x23; xa0; x07; x00;
  x83; x97; x04; x01; xc2; x17; xc1; x93; x1b; x87; x07; x00;
  x85; x67; xf9; x8f; x81; x27; x89; xc7; xdc; x68; x23; x34;
  xf4; xfc; x95; xa8; xbc; x64; x98; x78; x85; x46; x01; x46;
  xba; x85; x03; x35; x84; xfa; x82; x97; x23; x34; xa4; xfc;
  x03; x37; x84; xfc; xfd; x57; x63; x1c; xf7; x04; x83; x37;
  x84; xfa; x9c; x43; xb9; xc7; xfd; x57; x23; x22; xf4; xfc;
  x83; x37; x84; xfa; x9c; x43; x3e; x87; xf5; x47; x63; x09;
  xf7; x00; x83; x37; x84; xfa; x9c; x43; x3e; x87; xd9; x47;
  x63; x1a; xf7; x00; x23; x22; x04; xfc; x83; x37; x84; xfa;
  x03; x27; xc4; xfb; x98; xc3; x19; xa8; x83; x97; x04; x01;
  x93; xe7; x07; x04; x9b; x97; x07; x01; x9b; xd7; x07; x41;
  x23; x98; xf4; x00; x83; x27; x44; xfc; x51; xa2; x83; x97;
  x04; x01; xc2; x17; xc1; x93; x81; x27; x91; x8b; x81; x27;
  x8d; xc3; x9c; x44; x3e; x87; x83; x37; x84; xfc; x99; x8f;
  x23; x34; xf4; xfc; xbc; x6c; x81; xcb; xbc; x58; x3e; x87;
  x83; x37; x84; xfc; x99; x8f; x23; x34; xf4; xfc; xbc; x64;
  x98; x78; x81; x46; x03; x36; x84; xfc; xba; x85; x03; x35;
  x84; xfa; x82; x97; x23; x34; xa4; xfc; x03; x37; x84; xfc;
  xfd; x57; x63; x14; xf7; x02; x83; x37; x84; xfa; x9c; x43;
  x99; xcf; x83; x37; x84; xfa; x9c; x43; x3e; x87; xf5; x47;
  x63; x09; xf7; x00; x83; x37; x84; xfa; x9c; x43; x3e; x87;
  xd9; x47; x63; x1d; xf7; x06; x03; x97; x04; x01; xfd; x77;
  x93; x87; xf7; x7f; xf9; x8f; x9b; x97; x07; x01; x9b; xd7;
  x07; x41; x23; x98; xf4; x00; x23; xa4; x04; x00; x9c; x6c;
  x9c; xe0; x83; x97; x04; x01; xc2; x17; xc1; x93; x1b; x87;
  x07; x00; x85; x67; xf9; x8f; x81; x27; x89; xcf; x03; x37;
  x84; xfc; xfd; x57; x63; x16; xf7; x00; x83; x37; x84; xfa;
  x9c; x43; x81; xe7; x83; x37; x84; xfc; xdc; xe8; x83; x37;
  x84; xfa; x03; x27; xc4; xfb; x98; xc3; xbc; x6c; x9d; xcb;
  xb8; x6c; x93; x87; x44; x07; x63; x08; xf7; x00; xbc; x6c;
  xbe; x85; x03; x35; x84; xfa; xef; xc0; x9f; xb6; x23; xbc;
  x04; x04; x29; xa8; x83; x97; x04; x01; x93; xe7; x07; x04;
  x9b; x97; x07; x01; x9b; xd7; x07; x41; x23; x98; xf4; x00;
  xfd; x57; x49; xa0; x81; x47; xbd; xa8; x03; xb9; x84; x01;
  x63; x14; x09; x00; x81; x47; x8d; xa8; x9c; x60; xb3; x87;
  x27; x41; x9b; x89; x07; x00; x23; xb0; x24; x01; x83; x57;
  x24; xfc; x81; x27; x8d; x8b; x81; x27; x99; xe3; x9c; x50;
  x11; xa0; x81; x47; xdc; xc4; x99; xa0; xbc; x60; x98; x78;
  xce; x86; x4a; x86; xba; x85; x03; x35; x84; xfa; x82; x97;
  x2a; x8a; x63; x4e; x40; x01; x83; x97; x04; x01; x93; xe7;
  x07; x04; x9b; x97; x07; x01; x9b; xd7; x07; x41; x23; x98;
  xf4; x00; xfd; x57; x05; xa0; xd2; x87; x3e; x99; x1b; x87;
  x09; x00; x9b; x07; x0a; x00; xbb; x07; xf7; x40; x81; x27;
  x9b; x89; x07; x00; xce; x87; xe3; x4d; xf0; xfa; x81; x47;
  x3e; x85; xe6; x60; x46; x64; xa6; x64; x06; x69; xe2; x79;
  x42; x7a; x25; x61; x82; x80; x39; x71; x06; xfc; x22; xf8;
  x26; xf4; x80; x00; x23; x34; xa4; xfc; xae; x84; x83; x37].

Definition INIT_ELF_10 : list byte := [
  x84; xfc; x23; x3c; xf4; xfc; x83; x37; x84; xfd; x89; xcb;
  x83; x37; x84; xfd; xbc; x67; x89; xe7; x03; x35; x84; xfd;
  xef; xb0; x7f; xee; x83; x97; x04; x01; x99; xe3; x81; x47;
  x19; xa8; xa6; x85; x03; x35; x84; xfc; xef; xf0; x9f; xd3;
  xaa; x87; x23; x2a; xf4; xfc; x83; x27; x44; xfd; x3e; x85;
  xe2; x70; x42; x74; xa2; x74; x21; x61; x82; x80; x41; x11;
  x06; xe4; x22; xe0; x00; x08; xaa; x87; x8d; xe3; x17; x86;
  x00; x00; x13; x06; xe6; x95; x97; x05; x00; x00; x93; x85;
  x45; xf9; x17; x85; x00; x00; x13; x05; x65; x96; xef; xb0;
  x5f; xf7; xaa; x87; x19; xa8; x17; x87; x00; x00; x13; x07;
  xe7; x48; x18; x63; xbe; x85; x3a; x85; xef; xf0; xff; xf6;
  xaa; x87; x3e; x85; xa2; x60; x02; x64; x41; x01; x82; x80;
  x19; x71; x86; xfc; xa2; xf8; xa6; xf4; xca; xf0; xce; xec;
  xd2; xe8; xd6; xe4; xda; xe0; x00; x01; x23; x34; xa4; xf8;
  xae; x84; x32; x8b; x01; x4a; x03; x39; x0b; x01; x63; x14;
  x09; x00; x81; x47; xad; xa1; x83; x97; x04; x01; xc2; x17;
  xc1; x93; x81; x27; xa1; x8b; x81; x27; x99; xc3; x9c; x6c;
  x91; xeb; xa6; x85; x03; x35; x84; xf8; xef; x00; x40; x46;
  xaa; x87; x99; xc3; xfd; x57; x91; xa1; x83; x3a; x0b; x00;
  x01; x49; x83; x97; x04; x01; xc2; x17; xc1; x93; x81; x27;
  x89; x8b; x81; x27; xb1; xcf; x31; xa0; x03; xba; x0a; x00;
  x03; xb9; x8a; x00; xc1; x0a; xe3; x0b; x09; xfe; xb8; x60;
  x8c; x78; xca; x87; xb7; x06; x00; x80; x93; xc6; x06; xc0;
  x63; xf6; xf6; x00; xb7; x07; x00; x80; x93; xc7; x07; xc0;
  x81; x27; xbe; x86; x52; x86; x03; x35; x84; xf8; x02; x97;
  xaa; x89; x63; x5a; x30; x3d; xce; x87; x3e; x9a; xce; x87;
  x33; x09; xf9; x40; x83; x37; x0b; x01; x4e; x87; x99; x8f;
  x23; x38; xfb; x00; x83; x37; x0b; x01; xdd; xfb; x45; xae;
  x83; x97; x04; x01; xc2; x17; xc1; x93; x81; x27; x85; x8b;
  x81; x27; x63; x92; x07; x26; x31; xa0; x03; xba; x0a; x00;
  x03; xb9; x8a; x00; xc1; x0a; xe3; x0b; x09; xfe; xdc; x44;
  xbe; x89; x83; x97; x04; x01; xc2; x17; xc1; x93; x81; x27;
  x93; xf7; x07; x20; x81; x27; x63; x8d; x07; x16; xce; x87;
  x63; x6f; xf9; x12; x83; x97; x04; x01; xc2; x17; xc1; x93;
  x81; x27; x93; xf7; x07; x48; x81; x27; x63; x85; x07; x12;
  x98; x60; x9c; x6c; xb3; x07; xf7; x40; x23; x2e; xf4; xf8;
  x9c; x50; x3e; x87; xba; x87; x9b; x97; x17; x00; xb9; x9f;
  x81; x27; x1b; xd7; xf7; x01; xb9; x9f; x9b; xd7; x17; x40;
  x23; x26; xf4; xfa; x03; x27; xc4; xfa; x83; x27; xc4; xf9;
  xca; x97; x85; x07; x63; x7c; xf7; x00; x1b; x07; x09; x00;
  x83; x27; xc4; xf9; xb9; x9f; x81; x27; x85; x27; x81; x27;
  x23; x26; xf4; xfa; x83; x97; x04; x01; xc2; x17; xc1; x93;
  x81; x27; x93; xf7; x07; x40; x81; x27; xa1; xcf; x83; x27;
  xc4; xfa; xbe; x85; x03; x35; x84; xf8; xef; xd0; xaf; xa0;
  x23; x38; xa4; xfa; x83; x37; x04; xfb; x91; xe7; x83; x37;
  x84; xf8; x31; x47; x98; xc3; xed; xa4; x9c; x6c; x03; x27;
  xc4; xf9; x3a; x86; xbe; x85; x03; x35; x04; xfb; xef; x00;
  x70; x0e; x83; x97; x04; x01; x93; xf7; xf7; xb7; x9b; x97;
  x07; x01; x9b; xd7; x07; x41; x93; xe7; x07; x08; x9b; x97;
  x07; x01; x9b; xd7; x07; x41; x23; x98; xf4; x00; xa1; xa0;
  x9c; x6c; x03; x27; xc4; xfa; x3a; x86; xbe; x85; x03; x35;
  x84; xf8; xef; x30; x30; x73; x23; x38; xa4; xfa; x83; x37;
  x04; xfb; x95; xe7; x9c; x6c; xbe; x85; x03; x35; x84; xf8;
  xef; xc0; x7f; x82; x83; x97; x04; x01; x93; xf7; xf7; xf7;
  x9b; x97; x07; x01; x9b; xd7; x07; x41; x23; x98; xf4; x00;
  x83; x37; x84; xf8; x31; x47; x98; xc3; x85; xac; x83; x37;
  x04; xfb; x9c; xec; x83; x27; xc4; xf9; x03; x37; x04; xfb;
  xba; x97; x9c; xe0; x83; x27; xc4; xfa; x9c; xd0; xca; x89;
  x83; x27; xc4; xfa; x3e; x87; x83; x27; xc4; xf9; xbb; x07;
  xf7; x40; x81; x27; xdc; xc4; xce; x87; x63; x73; xf9; x00;
  xca; x89; x9c; x60; x4e; x87; x3a; x86; xd2; x85; x3e; x85;
  xef; x00; xe0; x67; xdc; x44; x1b; x87; x07; x00; x9b; x87;
  x09; x00; xbb; x07; xf7; x40; x81; x27; x81; x27; xdc; xc4;
  x9c; x60; x4e; x87; xba; x97; x9c; xe0; xca; x89; x55; xa0;
  x98; x60; x9c; x6c; x63; xe5; xe7; x00; x9c; x50; x63; x77;
  xf9; x04; x4e; x87; xca; x87; x63; x73; xf7; x00; xba; x87;
  xbe; x89; x9c; x60; x4e; x87; x3a; x86; xd2; x85; x3e; x85;
  xef; x00; x60; x63; xdc; x44; x1b; x87; x07; x00; x9b; x87;
  x09; x00; xbb; x07; xf7; x40; x81; x27; x81; x27; xdc; xc4;
  x9c; x60; x4e; x87; xba; x97; x9c; xe0; xdc; x44; xa9; xef;
  xa6; x85; x03; x35; x84; xf8; xef; xf0; x1f; xca; xaa; x87;
  xb1; xc7; x5d; xaa; xb7; x07; x00; x80; x93; xc7; xe7; xff;
  x63; xe5; x27; x01; x9b; x07; x09; x00; x29; xa0; xb7; x07;
  x00; x80; x93; xc7; xf7; xff; x98; x50; xbb; xc7; xe7; x02;
  x1b; x87; x07; x00; x9c; x50; xbb; x07; xf7; x02; x81; x27;
  xbe; x89; xbc; x60; x98; x78; x9b; x86; x09; x00; x52; x86;
  xba; x85; x03; x35; x84; xf8; x82; x97; xaa; x89; x63; x56;
  x30; x17; x11; xa0; x01; x00; xce; x87; x3e; x9a; xce; x87;
  x33; x09; xf9; x40; x83; x37; x0b; x01; x4e; x87; x99; x8f;
  x23; x38; xfb; x00; x83; x37; x0b; x01; xe3; x99; x07; xda;
  x3d; xaa; x23; x2e; x04; xfa; x23; x2c; x04; xfa; x01; xa8;
  x23; x2e; x04; xfa; x03; xba; x0a; x00; x03; xb9; x8a; x00;
  xc1; x0a; xe3; x09; x09; xfe; x83; x27; xc4; xfb; x81; x27;
  x85; xef; x4a; x86; xa9; x45; x52; x85; xef; x00; x40; x2c;
  x23; x30; xa4; xfa; x83; x37; x04; xfa; x81; xcb; x83; x37;
  x04; xfa; x85; x07; xb3; x87; x47; x41; x81; x27; x31; xa0;
  x9b; x07; x09; x00; x85; x27; x81; x27; x81; x27; x23; x2c;
  xf4; xfa; x85; x47; x23; x2e; xf4; xfa; x03; x27; x84; xfb;
  xca; x87; x63; x73; xf7; x00; xba; x87; xbe; x80; xd8; x44;
  x9c; x50; xb9; x9f; x81; x27; xbe; x89; x98; x60; x9c; x6c;
  x63; xf7; xe7; x02; x63; xd5; x19; x02; x9c; x60; x4e; x87;
  x3a; x86; xd2; x85; x3e; x85; xef; x00; x00; x51; x9c; x60;
  x4e; x87; xba; x97; x9c; xe0; xa6; x85; x03; x35; x84; xf8;
  xef; xf0; x3f; xb9; xaa; x87; xa9; xcb; x65; xa0; x9c; x50;
  xbe; x89; x63; xcf; x30; x01; xbc; x60; x98; x78; x9b; x86;
  x09; x00; x52; x86; xba; x85; x03; x35; x84; xf8; x82; x97;
  xaa; x89; x63; x49; x30; x03; x59; xa0; x86; x89; x9c; x60;
  x4e; x87; x3a; x86; xd2; x85; x3e; x85; xef; x00; x60; x4c;
  xdc; x44; x1b; x87; x07; x00; x9b; x87; x09; x00; xbb; x07;
  xf7; x40; x81; x27; x81; x27; xdc; xc4; x9c; x60; x4e; x87;
  xba; x97; x9c; xe0; x03; x27; x84; xfb; x9b; x87; x09; x00;
  xbb; x07; xf7; x40; x81; x27; x23; x2c; xf4; xfa; x83; x27;
  x84; xfb; x81; x27; x91; xeb; xa6; x85; x03; x35; x84; xf8;
  xef; xf0; xbf; xb1; xaa; x87; x85; xeb; x23; x2e; x04; xfa;
  xce; x87; x3e; x9a; xce; x87; x33; x09; xf9; x40; x83; x37;
  x0b; x01; x4e; x87; x99; x8f; x23; x38; xfb; x00; x83; x37;
  x0b; x01; xe3; x90; x07; xee; x81; x47; x0d; xa0; x01; x00;
  x21; xa0; x01; x00; x11; xa0; x01; x00; x83; x97; x04; x01;
  x93; xe7; x07; x04; x9b; x97; x07; x01; x9b; xd7; x07; x41;
  x23; x98; xf4; x00; xfd; x57; x3e; x85; xe6; x70; x46; x74;
  xa6; x74; x06; x79; xe6; x69; x46; x6a; xa6; x6a; x06; x6b;
  x09; x61; x82; x80; x39; x71; x06; xfc; x22; xf8; x26; xf4;
  x80; x00; x23; x34; xa4; xfc; xae; x84; x97; x87; x00; x00;
  x93; x87; x87; xfb; x9c; x63; x23; x3c; xf4; xfc; x83; x37;
  x84; xfd; x89; xcb; x83; x37; x84; xfd; xbc; x67; x89; xe7;
  x03; x35; x84; xfd; xef; xb0; x7f; x99; x83; x97; x04; x01;
  xc2; x17; xc1; x93; x81; x27; xa1; x8b; x81; x27; xc1; xeb;
  x83; x97; x04; x01; xc2; x17; xc1; x93; x81; x27; xc1; x8b;
  x81; x27; x8d; xe3; x83; x37; x84; xfc; x25; x47; x98; xc3;
  x83; x97; x04; x01; x93; xe7; x07; x04; x9b; x97; x07; x01;
  x9b; xd7; x07; x41; x23; x98; xf4; x00; xfd; x57; xed; xa8;
  x83; x97; x04; x01; xc2; x17; xc1; x93; x81; x27; x91; x8b;
  x81; x27; x95; xcf; xbc; x6c; x91; xcf; xb8; x6c; x93; x87;
  x44; x07; x63; x08; xf7; x00; xbc; x6c; xbe; x85; x03; x35;
  x84; xfc; xef; xc0; x0f; xcd; x23; xbc; x04; x04; x83; x97;
  x04; x01; x93; xf7; xb7; xfd; x9b; x97; x07; x01; x9b; xd7;
  x07; x41; x23; x98; xf4; x00; x23; xa4; x04; x00; x9c; x6c;
  x9c; xe0; x83; x97; x04; x01; x93; xe7; x87; x00; x9b; x97;
  x07; x01; x9b; xd7; x07; x41; x23; x98; xf4; x00; x9c; x6c;
  x85; xeb; x83; x97; x04; x01; xc2; x17; xc1; x93; x81; x27;
  x93; xf7; x07; x20; x81; x27; x91; xcb; x83; x97; x04; x01;
  xc2; x17; xc1; x93; x81; x27; x93; xf7; x07; x08; x81; x27;
  x91; xc7; xa6; x85; x03; x35; x84; xfc; xef; x40; x20; x59;
  x83; x97; x04; x01; xc2; x17; xc1; x93; x81; x27; x85; x8b;
  x81; x27; x89; xcb; x23; xa6; x04; x00; x9c; x50; xbb; x07;
  xf0; x40; x81; x27; x9c; xd4; x29; xa8; x83; x97; x04; x01;
  xc2; x17; xc1; x93; x81; x27; x89; x8b; x81; x27; x99; xe3;
  x9c; x50; x11; xa0; x81; x47; xdc; xc4; x9c; x6c; x95; xe7;
  x83; x97; x04; x01; xc2; x17; xc1; x93; x81; x27; x93; xf7;
  x07; x08; x81; x27; x89; xcf; x83; x97; x04; x01; x93; xe7;
  x07; x04; x9b; x97; x07; x01; x9b; xd7; x07; x41; x23; x98;
  xf4; x00; xfd; x57; x11; xa0; x81; x47; x3e; x85; xe2; x70;
  x42; x74; xa2; x74; x21; x61; x82; x80; x5d; x71; xa2; xe4;
  x80; x08; x23; x34; xa4; xfc; xae; x87; x23; x3c; xc4; xfa;
  x23; x22; xf4; xfc; x83; x37; x84; xfc; x23; x34; xf4; xfe;
  x83; x27; x44; xfc; xa3; x09; xf4; xfc; x25; xa8; x83; x37;
  x84; xfb; x13; x87; xf7; xff; x23; x3c; xe4; xfa; x99; xe3;
  x81; x47; x81; xa2; x83; x37; x84; xfe; x03; xc7; x07; x00;
  x83; x47; x34; xfd; x93; xf7; xf7; x0f; x63; x95; xe7; x00;
  x83; x37; x84; xfe; x1d; xa2; x83; x37; x84; xfe; x85; x07].

Definition INIT_ELF_11 : list byte := [
  x23; x34; xf4; xfe; x83; x37; x84; xfe; x9d; x8b; xf1; xf3;
  x03; x37; x84; xfb; x9d; x47; x63; xfe; xe7; x0e; x83; x37;
  x84; xfe; x23; x30; xf4; xfe; x83; x47; x34; xfd; x81; x27;
  x3e; x87; xba; x87; x9b; x97; x87; x00; xb9; x9f; x81; x27;
  x81; x27; x23; x3c; xf4; xfc; x83; x37; x84; xfd; xc2; x07;
  x03; x37; x84; xfd; xd9; x8f; x23; x3c; xf4; xfc; x93; x07;
  x00; x02; x23; x2a; xf4; xfc; x1d; xa0; x83; x27; x44; xfd;
  x3e; x87; x83; x37; x84; xfd; xb3; x97; xe7; x00; x03; x37;
  x84; xfd; xd9; x8f; x23; x3c; xf4; xfc; x83; x27; x44; xfd;
  x9b; x97; x17; x00; x23; x2a; xf4; xfc; x83; x27; x44; xfd;
  x1b; x87; x07; x00; x93; x07; xf0; x03; xe3; xf8; xe7; xfc;
  xb9; xa0; x83; x37; x04; xfe; x98; x63; x83; x37; x84; xfd;
  x3d; x8f; x97; x67; x00; x00; x93; x87; x67; x3d; x9c; x63;
  x3e; x97; x83; x37; x04; xfe; x94; x63; x83; x37; x84; xfd;
  xb5; x8f; x93; xc7; xf7; xff; x7d; x8f; x97; x67; x00; x00;
  x93; x87; x07; x3c; x9c; x63; xf9; x8f; x8d; xe3; x83; x37;
  x84; xfb; xe1; x17; x23; x3c; xf4; xfa; x83; x37; x04; xfe;
  xa1; x07; x23; x30; xf4; xfe; x03; x37; x84; xfb; x9d; x47;
  xe3; xe7; xe7; xfa; x11; xa0; x01; x00; x83; x37; x04; xfe;
  x23; x34; xf4; xfe; x1d; xa0; x83; x37; x84; xfe; x03; xc7;
  x07; x00; x83; x47; x34; xfd; x93; xf7; xf7; x0f; x63; x95;
  xe7; x00; x83; x37; x84; xfe; x31; xa8; x83; x37; x84; xfe;
  x85; x07; x23; x34; xf4; xfe; x83; x37; x84; xfb; x13; x87;
  xf7; xff; x23; x3c; xe4; xfa; xe1; xfb; x81; x47; x3e; x85;
  x26; x64; x61; x61; x82; x80; x41; x11; x22; xe4; x00; x08;
  x97; x87; x00; x00; x93; x87; xc7; xb1; x3e; x85; x22; x64;
  x41; x01; x82; x80; x41; x11; x06; xe4; x22; xe0; x00; x08;
  xef; xf0; x3f; xfe; xaa; x87; x3e; x85; xa2; x60; x02; x64;
  x41; x01; x82; x80; x41; x11; x06; xe4; x22; xe0; x00; x08;
  xef; xf0; xbf; xfc; xaa; x87; x3e; x85; xa2; x60; x02; x64;
  x41; x01; x82; x80; x79; x71; x06; xf4; x22; xf0; x00; x18;
  x23; x3c; xa4; xfc; x83; x37; x84; xfd; x93; x87; x07; x10;
  x23; x34; xf4; xfe; xef; xf0; x1f; xfd; x2a; x87; x83; x37;
  x84; xfd; x63; x95; xe7; x00; x83; x37; x84; xfe; x19; xa0;
  x83; x37; x84; xfe; x3e; x85; xa2; x70; x02; x74; x45; x61;
  x82; x80; x01; x11; x06; xec; x22; xe8; x00; x10; x23; x34;
  xa4; xfe; xef; xf0; xbf; xf8; xaa; x87; x3e; x85; xef; xf0;
  x3f; xfb; xaa; x87; x3e; x85; xe2; x60; x42; x64; x05; x61;
  x82; x80; x41; x11; x06; xe4; x22; xe0; x00; x08; xef; xf0;
  xbf; xf6; xaa; x87; x3e; x85; xef; xf0; x3f; xf9; xaa; x87;
  x3e; x85; xa2; x60; x02; x64; x41; x01; x82; x80; x79; x71;
  x06; xf4; x22; xf0; x00; x18; x23; x3c; xa4; xfc; x23; x38;
  xb4; xfc; x93; x87; x01; x83; x23; xa0; x07; x00; x03; x35;
  x04; xfd; xef; xb0; x3f; xeb; x23; x34; xa4; xfe; x03; x37;
  x84; xfe; xfd; x57; x63; x1c; xf7; x00; x93; x87; x01; x83;
  x9c; x43; x99; xc7; x93; x87; x01; x83; x98; x43; x83; x37;
  x84; xfd; x98; xc3; x83; x37; x84; xfe; x3e; x85; xa2; x70;
  x02; x74; x45; x61; x82; x80; x41; x11; x22; xe4; x00; x08;
  x97; x87; x00; x00; x93; x87; x87; xbb; x9c; x63; x3e; x85;
  x22; x64; x41; x01; x82; x80; x5d; x71; xa2; xe4; x80; x08;
  x23; x34; xa4; xfc; x23; x30; xb4; xfc; x23; x3c; xc4; xfa;
  x83; x37; x84; xfc; x23; x34; xf4; xfe; x83; x37; x04; xfc;
  x23; x30; xf4; xfe; x03; x37; x04; xfe; x83; x37; x84; xfe;
  x63; x74; xf7; x06; x03; x37; x04; xfe; x83; x37; x84; xfb;
  xba; x97; x03; x37; x84; xfe; x63; x7b; xf7; x04; x03; x37;
  x04; xfe; x83; x37; x84; xfb; xba; x97; x23; x30; xf4; xfe;
  x03; x37; x84; xfe; x83; x37; x84; xfb; xba; x97; x23; x34;
  xf4; xfe; x1d; xa0; x83; x37; x04; xfe; xfd; x17; x23; x30;
  xf4; xfe; x83; x37; x84; xfe; xfd; x17; x23; x34; xf4; xfe;
  x83; x37; x04; xfe; x03; xc7; x07; x00; x83; x37; x84; xfe;
  x23; x80; xe7; x00; x83; x37; x84; xfb; x13; x87; xf7; xff;
  x23; x3c; xe4; xfa; xe1; xfb; x0d; xa2; x03; x37; x84; xfb;
  xfd; x47; x63; xf6; xe7; x10; x03; x37; x04; xfe; x83; x37;
  x84; xfe; xd9; x8f; x9d; x8b; xf5; xef; x83; x37; x84; xfe;
  x23; x3c; xf4; xfc; x83; x37; x04; xfe; x23; x38; xf4; xfc;
  xb5; xa8; x03; x37; x04; xfd; x93; x07; x87; x00; x23; x38;
  xf4; xfc; x83; x37; x84; xfd; x93; x86; x87; x00; x23; x3c;
  xd4; xfc; x18; x63; x98; xe3; x03; x37; x04; xfd; x93; x07;
  x87; x00; x23; x38; xf4; xfc; x83; x37; x84; xfd; x93; x86;
  x87; x00; x23; x3c; xd4; xfc; x18; x63; x98; xe3; x03; x37;
  x04; xfd; x93; x07; x87; x00; x23; x38; xf4; xfc; x83; x37;
  x84; xfd; x93; x86; x87; x00; x23; x3c; xd4; xfc; x18; x63;
  x98; xe3; x03; x37; x04; xfd; x93; x07; x87; x00; x23; x38;
  xf4; xfc; x83; x37; x84; xfd; x93; x86; x87; x00; x23; x3c;
  xd4; xfc; x18; x63; x98; xe3; x83; x37; x84; xfb; x81; x17;
  x23; x3c; xf4; xfa; x03; x37; x84; xfb; xfd; x47; xe3; xe0;
  xe7; xf8; x25; xa0; x03; x37; x04; xfd; x93; x07; x87; x00;
  x23; x38; xf4; xfc; x83; x37; x84; xfd; x93; x86; x87; x00;
  x23; x3c; xd4; xfc; x18; x63; x98; xe3; x83; x37; x84; xfb;
  xe1; x17; x23; x3c; xf4; xfa; x03; x37; x84; xfb; x9d; x47;
  xe3; xea; xe7; xfc; x83; x37; x84; xfd; x23; x34; xf4; xfe;
  x83; x37; x04; xfd; x23; x30; xf4; xfe; x0d; xa0; x03; x37;
  x04; xfe; x93; x07; x17; x00; x23; x30; xf4; xfe; x83; x37;
  x84; xfe; x93; x86; x17; x00; x23; x34; xd4; xfe; x03; x47;
  x07; x00; x23; x80; xe7; x00; x83; x37; x84; xfb; x13; x87;
  xf7; xff; x23; x3c; xe4; xfa; xf1; xfb; x83; x37; x84; xfc;
  x3e; x85; x26; x64; x61; x61; x82; x80; x55; x71; xa2; xe5;
  x80; x09; x23; x34; xa4; xf4; x23; x30; xb4; xf4; x23; x3c;
  xc4; xf2; x83; x37; x84; xf4; x23; x34; xf4; xfe; x83; x37;
  x04; xf4; x23; x30; xf4; xfe; x03; x37; x84; xfe; x83; x37;
  x84; xf3; xba; x97; x23; x34; xf4; xfc; x9d; x47; x23; x30;
  xf4; xfc; x03; x37; x84; xfe; x83; x37; x04; xfe; x3d; x8f;
  x83; x37; x04; xfc; xf9; x8f; xb3; x37; xf0; x00; x93; xf7;
  xf7; x0f; x81; xeb; x83; x37; x84; xf3; x93; xb7; x87; x00;
  x93; xf7; xf7; x0f; xb1; xcf; x01; x00; x11; xa0; x01; x00;
  x03; x37; x84; xfe; x83; x37; x84; xfc; xb3; x37; xf7; x00;
  x93; xf7; xf7; x0f; x9d; xcf; x05; xa8; x83; x37; x04; xfe;
  x83; xc7; x07; x00; xa3; x0f; xf4; xf4; x83; x37; x84; xfe;
  x85; x07; x23; x34; xf4; xfe; x83; x37; x04; xfe; x85; x07;
  x23; x30; xf4; xfe; x83; x37; x84; xfe; xfd; x17; x03; x47;
  xf4; xf5; x23; x80; xe7; x00; x03; x37; x84; xfe; x83; x37;
  x84; xfc; xe3; x65; xf7; xfc; x83; x37; x84; xf4; xa1; xa4;
  x03; x37; x84; xfe; x83; x37; x04; xfc; xf9; x8f; xb3; x37;
  xf0; x00; x93; xf7; xf7; x0f; x9d; xcf; x05; xa8; x83; x37;
  x04; xfe; x83; xc7; x07; x00; xa3; x0f; xf4; xfa; x83; x37;
  x84; xfe; x85; x07; x23; x34; xf4; xfe; x83; x37; x04; xfe;
  x85; x07; x23; x30; xf4; xfe; x83; x37; x84; xfe; xfd; x17;
  x03; x47; xf4; xfb; x23; x80; xe7; x00; x03; x37; x84; xfe;
  x83; x37; x04; xfc; xf9; x8f; xe1; xf7; x83; x37; x84; xfe;
  x23; x3c; xf4; xfc; x83; x37; x04; xfe; x23; x38; xf4; xfc;
  x83; x37; x04; xfc; x13; xc7; xf7; xff; x83; x37; x84; xfc;
  xf9; x8f; x23; x38; xf4; xfa; x03; x37; x04; xfb; x83; x37;
  x84; xfd; xb3; x07; xf7; x40; x93; xa7; x17; x04; x93; xb7;
  x17; x00; x93; xf7; xf7; x0f; x63; x84; x07; x18; x99; xa2;
  x83; x37; x04; xfd; x13; x87; x87; x00; x23; x38; xe4; xfc;
  x9c; x63; x23; x34; xf4; xfa; x83; x37; x04; xfd; x13; x87;
  x87; x00; x23; x38; xe4; xfc; x9c; x63; x23; x30; xf4; xfa;
  x83; x37; x04; xfd; x13; x87; x87; x00; x23; x38; xe4; xfc;
  x9c; x63; x23; x3c; xf4; xf8; x83; x37; x04; xfd; x13; x87;
  x87; x00; x23; x38; xe4; xfc; x9c; x63; x23; x38; xf4; xf8;
  x83; x37; x04; xfd; x13; x87; x87; x00; x23; x38; xe4; xfc;
  x9c; x63; x23; x34; xf4; xf8; x83; x37; x04; xfd; x13; x87;
  x87; x00; x23; x38; xe4; xfc; x9c; x63; x23; x30; xf4; xf8;
  x83; x37; x04; xfd; x13; x87; x87; x00; x23; x38; xe4; xfc;
  x9c; x63; x23; x3c; xf4; xf6; x83; x37; x04; xfd; x13; x87;
  x87; x00; x23; x38; xe4; xfc; x9c; x63; x23; x38; xf4; xf6;
  x83; x37; x04; xfd; x13; x87; x87; x00; x23; x38; xe4; xfc;
  x9c; x63; x23; x34; xf4; xf6; x83; x37; x84; xfd; x13; x87;
  x87; x00; x23; x3c; xe4; xfc; x03; x37; x84; xfa; x98; xe3;
  x83; x37; x84; xfd; x13; x87; x87; x00; x23; x3c; xe4; xfc;
  x03; x37; x04; xfa; x98; xe3; x83; x37; x84; xfd; x13; x87;
  x87; x00; x23; x3c; xe4; xfc; x03; x37; x84; xf9; x98; xe3;
  x83; x37; x84; xfd; x13; x87; x87; x00; x23; x3c; xe4; xfc;
  x03; x37; x04; xf9; x98; xe3; x83; x37; x84; xfd; x13; x87;
  x87; x00; x23; x3c; xe4; xfc; x03; x37; x84; xf8; x98; xe3;
  x83; x37; x84; xfd; x13; x87; x87; x00; x23; x3c; xe4; xfc;
  x03; x37; x04; xf8; x98; xe3; x83; x37; x84; xfd; x13; x87;
  x87; x00; x23; x3c; xe4; xfc; x03; x37; x84; xf7; x98; xe3;
  x83; x37; x84; xfd; x13; x87; x87; x00; x23; x3c; xe4; xfc;
  x03; x37; x04; xf7; x98; xe3; x83; x37; x84; xfd; x13; x87;
  x87; x00; x23; x3c; xe4; xfc; x03; x37; x84; xf6; x98; xe3;
  x03; x37; x04; xfb; x83; x37; x84; xfd; x1d; x8f; x93; x07;
  x00; x04; xe3; xc7; xe7; xea; x35; xa0; x83; x37; x04; xfd;
  x9c; x63; x23; x30; xf4; xf6; x83; x37; x84; xfd; xa1; x07;
  x23; x3c; xf4; xfc; x83; x37; x04; xfd; xa1; x07; x23; x38;
  xf4; xfc; x83; x37; x84; xfd; xe1; x17; x03; x37; x04; xf6;
  x98; xe3; x03; x37; x84; xfd; x83; x37; x04; xfb; xe3; x67;
  xf7; xfc; x83; x37; x84; xfd; x23; x34; xf4; xfe; x83; x37;
  x04; xfd; x23; x30; xf4; xfe; x03; x37; x84; xfe; x83; x37;
  x84; xfc; xb3; x37; xf7; x00; x93; xf7; xf7; x0f; xe3; x96].

Definition INIT_ELF_12 : list byte := [
  x07; xd6; x83; x37; x84; xf4; x3e; x85; x2e; x64; x69; x61;
  x82; x80; x79; x71; x22; xf4; x00; x18; x23; x3c; xa4; xfc;
  xb7; x87; x7f; x7f; x93; x87; xf7; xf7; x23; x34; xf4; xfe;
  x83; x37; x84; xfe; x82; x17; x03; x37; x84; xfe; xd9; x8f;
  x23; x34; xf4; xfe; x03; x37; x84; xfd; x83; x37; x84; xfe;
  x7d; x8f; x83; x37; x84; xfe; x3e; x97; x83; x37; x84; xfd;
  x5d; x8f; x83; x37; x84; xfe; xd9; x8f; x93; xc7; xf7; xff;
  x3e; x85; x22; x74; x45; x61; x82; x80; x5d; x71; x86; xe4;
  xa2; xe0; x80; x08; x23; x3c; xa4; xfa; x83; x37; x84; xfb;
  x23; x30; xf4; xfe; x83; x37; x84; xfb; x9d; x8b; x8d; xcf;
  x83; x37; x84; xfb; x83; xc7; x07; x00; xa3; x0f; xf4; xfc;
  x83; x37; x84; xfb; x85; x07; x23; x3c; xf4; xfa; x83; x47;
  xf4; xfd; x93; xf7; xf7; x0f; x89; xeb; x03; x37; x84; xfb;
  x83; x37; x04; xfe; xb3; x07; xf7; x40; xfd; x17; xf1; xaa;
  x83; x37; x84; xfb; x9d; x8b; xe9; xf7; x83; x37; x84; xfb;
  x23; x34; xf4; xfe; x01; x00; x83; x37; x84; xfe; x13; x87;
  x87; x00; x23; x34; xe4; xfe; x9c; x63; x3e; x85; xef; xf0;
  x5f; xf4; xaa; x87; xed; xd7; x83; x37; x84; xfe; x23; x34;
  xf4; xfe; x83; x37; x84; xfe; x23; x3c; xf4; xfa; x03; x37;
  x84; xfb; x83; x37; x04; xfe; xb3; x07; xf7; x40; x23; x38;
  xf4; xfc; xa1; x47; x23; x34; xf4; xfc; x83; x37; x84; xfc;
  xb3; x07; xf0; x40; x03; x37; x84; xfb; xba; x97; x83; xc7;
  x07; x00; xa3; x03; xf4; xfc; x05; x47; x83; x37; x84; xfc;
  xb3; x07; xf7; x40; x03; x37; x84; xfb; xba; x97; x83; xc7;
  x07; x00; x23; x03; xf4; xfc; x09; x47; x83; x37; x84; xfc;
  xb3; x07; xf7; x40; x03; x37; x84; xfb; xba; x97; x83; xc7;
  x07; x00; xa3; x02; xf4; xfc; x0d; x47; x83; x37; x84; xfc;
  xb3; x07; xf7; x40; x03; x37; x84; xfb; xba; x97; x83; xc7;
  x07; x00; x23; x02; xf4; xfc; x83; x47; x74; xfc; x93; xf7;
  xf7; x0f; x81; xeb; x03; x37; x04; xfd; x83; x37; x84; xfc;
  xb3; x07; xf7; x40; x19; xaa; x83; x47; x64; xfc; x93; xf7;
  xf7; x0f; x89; xeb; x03; x37; x04; xfd; x83; x37; x84; xfc;
  xb3; x07; xf7; x40; x85; x07; xf5; xa8; x83; x47; x54; xfc;
  x93; xf7; xf7; x0f; x89; xeb; x03; x37; x04; xfd; x83; x37;
  x84; xfc; xb3; x07; xf7; x40; x89; x07; xcd; xa0; x03; x37;
  x84; xfc; x91; x47; x63; x07; xf7; x00; x83; x47; x44; xfc;
  x93; xf7; xf7; x0f; x89; xeb; x03; x37; x04; xfd; x83; x37;
  x84; xfc; xb3; x07; xf7; x40; x8d; x07; x7d; xa8; x11; x47;
  x83; x37; x84; xfc; xb3; x07; xf7; x40; x03; x37; x84; xfb;
  xba; x97; x83; xc7; x07; x00; xa3; x03; xf4; xfc; x15; x47;
  x83; x37; x84; xfc; xb3; x07; xf7; x40; x03; x37; x84; xfb;
  xba; x97; x83; xc7; x07; x00; x23; x03; xf4; xfc; x19; x47;
  x83; x37; x84; xfc; xb3; x07; xf7; x40; x03; x37; x84; xfb;
  xba; x97; x83; xc7; x07; x00; xa3; x02; xf4; xfc; x1d; x47;
  x83; x37; x84; xfc; xb3; x07; xf7; x40; x03; x37; x84; xfb;
  xba; x97; x83; xc7; x07; x00; x23; x02; xf4; xfc; x83; x47;
  x74; xfc; x93; xf7; xf7; x0f; x89; xeb; x03; x37; x04; xfd;
  x83; x37; x84; xfc; xb3; x07; xf7; x40; x91; x07; x91; xa0;
  x83; x47; x64; xfc; x93; xf7; xf7; x0f; x89; xeb; x03; x37;
  x04; xfd; x83; x37; x84; xfc; xb3; x07; xf7; x40; x95; x07;
  x2d; xa0; x83; x47; x54; xfc; x93; xf7; xf7; x0f; x89; xeb;
  x03; x37; x04; xfd; x83; x37; x84; xfc; xb3; x07; xf7; x40;
  x99; x07; x01; xa8; x03; x37; x04; xfd; x83; x37; x84; xfc;
  xb3; x07; xf7; x40; x9d; x07; x3e; x85; xa6; x60; x06; x64;
  x61; x61; x82; x80; x59; x71; x86; xf4; xa2; xf0; x80; x18;
  x23; x3c; xa4; xf8; x23; x38; xb4; xf8; x83; x37; x04; xf9;
  xdc; x4b; x23; x26; xf4; xfe; x83; x37; x84; xf9; xd8; x4b;
  x83; x27; xc4; xfe; x81; x27; x63; x54; xf7; x00; x81; x47;
  xbd; xa6; x83; x37; x04; xf9; xe1; x07; x23; x34; xf4; xfc;
  x83; x27; xc4; xfe; xfd; x37; x23; x26; xf4; xfe; x83; x27;
  xc4; xfe; x8a; x07; x03; x37; x84; xfc; xba; x97; x23; x30;
  xf4; xfc; x83; x37; x84; xf9; xe1; x07; x23; x3c; xf4; xfc;
  x83; x27; xc4; xfe; x8a; x07; x03; x37; x84; xfd; xba; x97;
  x23; x38; xf4; xfc; x83; x37; x04; xfd; x98; x43; x83; x37;
  x04; xfc; x9c; x43; x85; x27; x81; x27; xbb; x57; xf7; x02;
  x23; x20; xf4; xfe; x83; x27; x04; xfe; x81; x27; x63; x89;
  x07; x16; x23; x24; x04; xfe; x23; x22; x04; xfe; x83; x37;
  x84; xfc; x13; x87; x47; x00; x23; x34; xe4; xfc; x9c; x43;
  x23; x2e; xf4; xfa; x83; x27; xc4; xfb; x3e; x87; xc1; x67;
  xfd; x17; xf9; x8f; x81; x27; x03; x27; x04; xfe; xbb; x07;
  xf7; x02; x81; x27; x03; x27; x44; xfe; xb9; x9f; x23; x2c;
  xf4; xfa; x83; x27; xc4; xfb; x9b; xd7; x07; x01; x81; x27;
  x03; x27; x04; xfe; xbb; x07; xf7; x02; x1b; x87; x07; x00;
  x83; x27; x84; xfb; x9b; xd7; x07; x01; x81; x27; xb9; x9f;
  x23; x2a; xf4; xfa; x83; x27; x44; xfb; x9b; xd7; x07; x01;
  x23; x22; xf4; xfe; x83; x37; x84; xfd; x9c; x43; x3e; x87;
  xc1; x67; xfd; x17; xf9; x8f; x1b; x87; x07; x00; x83; x27;
  x84; xfb; xbe; x86; xc1; x67; xfd; x17; xf5; x8f; x81; x27;
  xbb; x07; xf7; x40; x1b; x87; x07; x00; x83; x27; x84; xfe;
  xb9; x9f; x81; x27; x23; x28; xf4; xfa; x83; x27; x04; xfb;
  x9b; xd7; x07; x41; x23; x24; xf4; xfe; x83; x37; x84; xfd;
  x9c; x43; x9b; xd7; x07; x01; x1b; x87; x07; x00; x83; x27;
  x44; xfb; xbe; x86; xc1; x67; xfd; x17; xf5; x8f; x81; x27;
  xbb; x07; xf7; x40; x1b; x87; x07; x00; x83; x27; x84; xfe;
  xb9; x9f; x81; x27; x23; x26; xf4; xfa; x83; x27; xc4; xfa;
  x9b; xd7; x07; x41; x23; x24; xf4; xfe; x83; x27; xc4; xfa;
  x9b; x97; x07; x01; x1b; x87; x07; x00; x83; x27; x04; xfb;
  xbe; x86; xc1; x67; xfd; x17; xf5; x8f; x81; x27; xd9; x8f;
  x9b; x86; x07; x00; x83; x37; x84; xfd; x13; x87; x47; x00;
  x23; x3c; xe4; xfc; x1b; x87; x06; x00; x98; xc3; x03; x37;
  x84; xfc; x83; x37; x04; xfc; xe3; xf2; xe7; xee; x83; x37;
  x04; xfd; x9c; x43; xa1; xe3; x83; x37; x84; xf9; xe1; x07;
  x23; x3c; xf4; xfc; x31; xa0; x83; x27; xc4; xfe; xfd; x37;
  x23; x26; xf4; xfe; x83; x37; x04; xfd; xf1; x17; x23; x38;
  xf4; xfc; x03; x37; x04; xfd; x83; x37; x84; xfd; x63; xf6;
  xe7; x00; x83; x37; x04; xfd; x9c; x43; xe9; xdf; x83; x37;
  x84; xf9; x03; x27; xc4; xfe; xd8; xcb; x83; x35; x04; xf9;
  x03; x35; x84; xf9; xef; x20; x80; x3d; xaa; x87; x63; xc6;
  x07; x18; x83; x27; x04; xfe; x85; x27; x23; x20; xf4; xfe;
  x23; x24; x04; xfe; x23; x22; x04; xfe; x83; x37; x84; xf9;
  xe1; x07; x23; x3c; xf4; xfc; x83; x37; x04; xf9; xe1; x07;
  x23; x34; xf4; xfc; x83; x37; x84; xfc; x13; x87; x47; x00;
  x23; x34; xe4; xfc; x9c; x43; x23; x2e; xf4; xfa; x83; x27;
  xc4; xfb; x3e; x87; xc1; x67; xfd; x17; xf9; x8f; x81; x27;
  x03; x27; x44; xfe; xb9; x9f; x23; x2c; xf4; xfa; x83; x27;
  xc4; xfb; x9b; xd7; x07; x01; x1b; x87; x07; x00; x83; x27;
  x84; xfb; x9b; xd7; x07; x01; x81; x27; xb9; x9f; x23; x2a;
  xf4; xfa; x83; x27; x44; xfb; x9b; xd7; x07; x01; x23; x22;
  xf4; xfe; x83; x37; x84; xfd; x9c; x43; x3e; x87; xc1; x67;
  xfd; x17; xf9; x8f; x1b; x87; x07; x00; x83; x27; x84; xfb;
  xbe; x86; xc1; x67; xfd; x17; xf5; x8f; x81; x27; xbb; x07;
  xf7; x40; x1b; x87; x07; x00; x83; x27; x84; xfe; xb9; x9f;
  x81; x27; x23; x28; xf4; xfa; x83; x27; x04; xfb; x9b; xd7;
  x07; x41; x23; x24; xf4; xfe; x83; x37; x84; xfd; x9c; x43;
  x9b; xd7; x07; x01; x1b; x87; x07; x00; x83; x27; x44; xfb;
  xbe; x86; xc1; x67; xfd; x17; xf5; x8f; x81; x27; xbb; x07;
  xf7; x40; x1b; x87; x07; x00; x83; x27; x84; xfe; xb9; x9f;
  x81; x27; x23; x26; xf4; xfa; x83; x27; xc4; xfa; x9b; xd7;
  x07; x41; x23; x24; xf4; xfe; x83; x27; xc4; xfa; x9b; x97;
  x07; x01; x1b; x87; x07; x00; x83; x27; x04; xfb; xbe; x86;
  xc1; x67; xfd; x17; xf5; x8f; x81; x27; xd9; x8f; x9b; x86;
  x07; x00; x83; x37; x84; xfd; x13; x87; x47; x00; x23; x3c;
  xe4; xfc; x1b; x87; x06; x00; x98; xc3; x03; x37; x84; xfc;
  x83; x37; x04; xfc; xe3; xfc; xe7; xee; x83; x37; x84; xf9;
  xe1; x07; x23; x3c; xf4; xfc; x83; x27; xc4; xfe; x8a; x07;
  x03; x37; x84; xfd; xba; x97; x23; x38; xf4; xfc; x83; x37;
  x04; xfd; x9c; x43; x9d; xeb; x31; xa0; x83; x27; xc4; xfe;
  xfd; x37; x23; x26; xf4; xfe; x83; x37; x04; xfd; xf1; x17;
  x23; x38; xf4; xfc; x03; x37; x04; xfd; x83; x37; x84; xfd;
  x63; xf6; xe7; x00; x83; x37; x04; xfd; x9c; x43; xe9; xdf;
  x83; x37; x84; xf9; x03; x27; xc4; xfe; xd8; xcb; x83; x27;
  x04; xfe; x3e; x85; xa6; x70; x06; x74; x65; x61; x82; x80;
  x2d; x71; x06; xee; x22; xea; x00; x12; x23; x34; xa4; xf0;
  x27; x30; xa4; xf0; x23; x38; xd4; xee; x23; x34; xe4; xee;
  x23; x30; xf4; xee; xae; x87; x23; x2e; xf4; xee; xb2; x87;
  x23; x2c; xf4; xee; x23; x3c; x04; xf8; x87; x37; x04; xf0;
  x27; x34; xf4; xf2; x83; x37; x84; xf0; xbc; x6b; x9d; xcf;
  x83; x37; x84; xf0; xbc; x6b; x03; x37; x84; xf0; x38; x4f;
  x98; xc7; x83; x37; x84; xf0; xb8; x4f; x83; x37; x84; xf0;
  xbc; x6b; x85; x46; x3b; x97; xe6; x00; x01; x27; xd8; xc7;
  x83; x37; x84; xf0; xbc; x6b; xbe; x85; x03; x35; x84; xf0;
  xef; x10; xa0; x58; x83; x37; x84; xf0; x23; xb8; x07; x04;
  x83; x27; xc4; xf2; x81; x27; x63; xd2; x07; x02; x83; x37;
  x84; xee; x05; x47; x98; xc3; x83; x27; xc4; xf2; x3e; x87;
  xb7; x07; x00; x80; x93; xc7; xf7; xff; xf9; x8f; x81; x27;
  x23; x26; xf4; xf2; x29; xa0; x83; x37; x84; xee; x23; xa0;
  x07; x00; x83; x27; xc4; xf2; x3e; x87; xb7; x07; xf0; x7f;
  xf9; x8f; x81; x27; x3e; x87; xb7; x07; xf0; x7f; x63; x16;
  xf7; x06; x83; x37; x04; xef; x09; x67; x13; x07; xf7; x70;
  x98; xc3; x83; x27; x84; xf2; x99; xef; x83; x27; xc4; xf2].

Definition INIT_ELF_13 : list byte := [
  x3e; x87; xb7; x07; x10; x00; xfd; x17; xf9; x8f; x81; x27;
  x91; xe7; x97; x57; x00; x00; x93; x87; xa7; x65; x29; xa0;
  x97; x57; x00; x00; x93; x87; x07; x66; x23; x3c; xf4; xf6;
  x83; x37; x04; xee; x8d; xc3; x83; x37; x84; xf7; x8d; x07;
  x83; xc7; x07; x00; x89; xc7; x83; x37; x84; xf7; xa1; x07;
  x21; xa0; x83; x37; x84; xf7; x8d; x07; x03; x37; x04; xee;
  x1c; xe3; x83; x37; x84; xf7; x6f; x10; xc0; x3e; x87; x37;
  x84; xf2; x53; x07; x00; xf2; xd3; xa7; xe7; xa2; x8d; xcb;
  x83; x37; x04; xef; x05; x47; x98; xc3; x97; x57; x00; x00;
  x93; x87; x87; x61; x23; x3c; xf4; xf6; x83; x37; x04; xee;
  x81; xcb; x83; x37; x84; xf7; x13; x87; x17; x00; x83; x37;
  x04; xee; x98; xe3; x83; x37; x84; xf7; x6f; x10; xe0; x3a;
  x87; x37; x84; xf2; x13; x07; x44; xf3; x93; x07; x04; xf3;
  x3a; x86; xbe; x85; x53; x85; xf7; x22; x03; x35; x84; xf0;
  xef; x20; xe0; x6d; x23; x30; xa4; xfa; x83; x27; xc4; xf2;
  x9b; xd7; x47; x01; x81; x27; x81; x27; x93; xf7; xf7; x7f;
  x23; x20; xf4; xfe; x83; x27; x04; xfe; x81; x27; xa9; xc3;
  x87; x37; x84; xf2; x27; x30; xf4; xf2; x83; x27; x44; xf2;
  x3e; x87; xb7; x07; x10; x00; xfd; x17; xf9; x8f; x81; x27;
  x23; x22; xf4; xf2; x83; x27; x44; xf2; x3e; x87; xb7; x07;
  xf0; x3f; xd9; x8f; x81; x27; x23; x22; xf4; xf2; x83; x27;
  x04; xfe; x9b; x87; x17; xc0; x23; x20; xf4; xfe; x23; x24;
  x04; xfa; x79; xa8; x03; x27; x44; xf3; x83; x27; x04; xf3;
  xb9; x9f; x81; x27; x9b; x87; x27; x43; x23; x20; xf4; xfe;
  x83; x27; x04; xfe; x1b; x87; x07; x00; x93; x07; x00; x02;
  x63; xda; xe7; x02; x83; x27; xc4; xf2; x13; x07; x00; x04;
  x83; x26; x04; xfe; x15; x9f; x01; x27; xbb; x97; xe7; x00;
  x1b; x87; x07; x00; x83; x27; x84; xf2; x83; x26; x04; xfe;
  x81; x36; x81; x26; xbb; xd7; xd7; x00; x81; x27; xd9; x8f;
  x81; x27; x21; xa8; x83; x27; x84; xf2; x13; x07; x00; x02;
  x83; x26; x04; xfe; x15; x9f; x01; x27; xbb; x97; xe7; x00;
  x81; x27; x23; x2a; xf4; xf6; x83; x27; x44; xf7; xd3; x87;
  x17; xd2; x27; x30; xf4; xf2; x03; x27; x44; xf2; xb7; x07;
  x10; xfe; xb9; x9f; x81; x27; x23; x22; xf4; xf2; x83; x27;
  x04; xfe; x9b; x87; xd7; xbc; x23; x20; xf4; xfe; x85; x47;
  x23; x24; xf4; xfa; x07; x37; x04; xf2; x97; x57; x00; x00;
  x93; x87; x47; x53; x9c; x23; x53; x77; xf7; x0a; x97; x57;
  x00; x00; x93; x87; xe7; x52; x9c; x23; x53; x77; xf7; x12;
  x97; x57; x00; x00; x93; x87; x87; x52; x9c; x23; x53; x77;
  xf7; x02; x83; x27; x04; xfe; xd3; x86; x07; xd2; x97; x57;
  x00; x00; x93; x87; xa7; x51; x9c; x23; xd3; xf7; xf6; x12;
  xd3; x77; xf7; x02; x27; x30; xf4; xf8; x87; x37; x04; xf8;
  xd3; x97; x07; xc2; x23; x26; xf4; xfc; x87; x37; x04; xf8;
  x53; x07; x00; xf2; xd3; x97; xe7; xa2; x99; xcf; x83; x27;
  xc4; xfc; xd3; x87; x07; xd2; x07; x37; x04; xf8; xd3; x27;
  xf7; xa2; x91; xe7; x83; x27; xc4; xfc; xfd; x37; x23; x26;
  xf4; xfc; x85; x47; x23; x24; xf4; xfc; x83; x27; xc4; xfc;
  x81; x27; x63; xce; x07; x02; x83; x27; xc4; xfc; x1b; x87;
  x07; x00; xd9; x47; x63; xc7; xe7; x02; x07; x37; x84; xf2;
  x17; x57; x00; x00; x13; x07; xc7; x51; x83; x27; xc4; xfc;
  x8e; x07; xba; x97; x9c; x23; xd3; x17; xf7; xa2; x91; xc7;
  x83; x27; xc4; xfc; xfd; x37; x23; x26; xf4; xfc; x23; x24;
  x04; xfc; x83; x27; x44; xf3; x03; x27; x04; xfe; x99; x9f;
  x81; x27; xfd; x37; x23; x28; xf4; xfc; x83; x27; x04; xfd;
  x81; x27; x63; xc9; x07; x00; x23; x26; x04; xfe; x83; x27;
  x04; xfd; x23; x2c; xf4; xfa; x09; xa8; x83; x27; x04; xfd;
  xbb; x07; xf0; x40; x23; x26; xf4; xfe; x23; x2c; x04; xfa;
  x83; x27; xc4; xfc; x81; x27; x63; xc1; x07; x02; x23; x24;
  x04; xfe; x83; x27; xc4; xfc; x23; x2a; xf4; xfa; x83; x27;
  x84; xfb; x3e; x87; x83; x27; xc4; xfc; xb9; x9f; x23; x2c;
  xf4; xfa; x15; xa0; x83; x27; xc4; xfe; x3e; x87; x83; x27;
  xc4; xfc; xbb; x07; xf7; x40; x23; x26; xf4; xfe; x83; x27;
  xc4; xfc; xbb; x07; xf0; x40; x23; x24; xf4; xfe; x23; x2a;
  x04; xfa; x83; x27; xc4; xef; x81; x27; x63; xc9; x07; x00;
  x83; x27; xc4; xef; x1b; x87; x07; x00; xa5; x47; x63; xd4;
  xe7; x00; x23; x2e; x04; xee; x85; x47; x23; x26; xf4; xfa;
  x83; x27; xc4; xef; x1b; x87; x07; x00; x95; x47; x63; xd9;
  xe7; x00; x83; x27; xc4; xef; xf1; x37; x23; x2e; xf4; xee;
  x23; x26; x04; xfa; x85; x47; x23; x22; xf4; xfc; xfd; x57;
  x23; x2a; xf4; xfc; x83; x27; x44; xfd; x23; x2c; xf4; xfc;
  x83; x27; xc4; xef; x1b; x87; x07; x00; x95; x47; x63; xee;
  xe7; x08; x83; x67; xc4; xef; x13; x97; x27; x00; x97; x57;
  x00; x00; x93; x87; x67; x36; xba; x97; x9c; x43; x1b; x87;
  x07; x00; x97; x57; x00; x00; x93; x87; x67; x35; xba; x97;
  x82; x87; xc9; x47; x23; x20; xf4; xfe; x23; x2c; x04; xee;
  xad; xa0; x23; x22; x04; xfc; x83; x27; x84; xef; x81; x27;
  x63; x45; xf0; x00; x85; x47; x23; x2c; xf4; xee; x83; x27;
  x84; xef; x23; x20; xf4; xfe; x83; x27; x04; xfe; x23; x2a;
  xf4; xfc; x83; x27; x44; xfd; x23; x2c; xf4; xfc; x35; xa8;
  x23; x22; x04; xfc; x83; x27; x84; xef; x3e; x87; x83; x27;
  xc4; xfc; xb9; x9f; x81; x27; x85; x27; x23; x20; xf4; xfe;
  x83; x27; x04; xfe; x23; x2c; xf4; xfc; x83; x27; x04; xfe;
  xfd; x37; x23; x2a; xf4; xfc; x83; x27; x04; xfe; x81; x27;
  x63; x45; xf0; x00; x85; x47; x23; x20; xf4; xfe; x91; x47;
  x23; x28; xf4; xfc; x83; x37; x84; xf0; x23; xac; x07; x04;
  x05; xa0; x83; x37; x84; xf0; xbc; x4f; x85; x27; x1b; x87;
  x07; x00; x83; x37; x84; xf0; xb8; xcf; x83; x27; x04; xfd;
  x9b; x97; x17; x00; x23; x28; xf4; xfc; x83; x27; x04; xfd;
  x13; x87; xc7; x01; x83; x27; x04; xfe; xe3; xfb; xe7; xfc;
  x83; x37; x84; xf0; xbc; x4f; xbe; x85; x03; x35; x84; xf0;
  xef; x10; xc0; x00; x23; x34; xa4; xf6; x83; x37; x84; xf6;
  x91; xef; x97; x56; x00; x00; x93; x86; x26; x24; x01; x46;
  x93; x05; xf0; x1a; x17; x55; x00; x00; x13; x05; xc5; x24;
  xef; x30; x80; x6d; x03; x37; x84; xf6; x83; x37; x84; xf0;
  xb8; xeb; x83; x37; x84; xf0; xbc; x6b; x23; x30; xf4; xf6;
  x83; x37; x04; xf6; x23; x3c; xf4; xf6; x83; x27; x84; xfd;
  x81; x27; x63; xce; x07; x48; x83; x27; x84; xfd; x1b; x87;
  x07; x00; xb9; x47; x63; xc7; xe7; x48; x83; x27; xc4; xfa;
  x81; x27; x63; x82; x07; x48; x23; x20; x04; xfe; x87; x37;
  x84; xf2; x27; x30; xf4; xf2; x83; x27; xc4; xfc; x23; x2e;
  xf4; xf4; x83; x27; x84; xfd; x23; x2c; xf4; xf4; x89; x47;
  x23; x2e; xf4; xfc; x83; x27; xc4; xfc; x81; x27; x63; x51;
  xf0; x0c; x83; x27; xc4; xfc; xbd; x8b; x81; x27; x17; x57;
  x00; x00; x13; x07; x67; x29; x8e; x07; xba; x97; x9c; x23;
  x27; x30; xf4; xf8; x83; x27; xc4; xfc; x9b; xd7; x47; x40;
  x23; x28; xf4; xfc; x83; x27; x04; xfd; xc1; x8b; x81; x27;
  xbd; xcb; x83; x27; x04; xfd; xbd; x8b; x23; x28; xf4; xfc;
  x07; x37; x84; xf2; x97; x57; x00; x00; x93; x87; x87; x32;
  x9c; x33; xd3; x77; xf7; x1a; x27; x34; xf4; xf2; x83; x27;
  xc4; xfd; x85; x27; x23; x2e; xf4; xfc; xa9; xa0; x83; x27;
  x04; xfd; x85; x8b; x81; x27; x8d; xc7; x83; x27; xc4; xfd;
  x85; x27; x23; x2e; xf4; xfc; x17; x57; x00; x00; x13; x07;
  x67; x2f; x83; x27; x04; xfe; x8e; x07; xba; x97; x9c; x23;
  x07; x37; x04; xf8; xd3; x77; xf7; x12; x27; x30; xf4; xf8;
  x83; x27; x04; xfd; x9b; xd7; x17; x40; x23; x28; xf4; xfc;
  x83; x27; x04; xfe; x85; x27; x23; x20; xf4; xfe; x83; x27;
  x04; xfd; x81; x27; xcd; xfb; x07; x37; x84; xf2; x87; x37;
  x04; xf8; xd3; x77; xf7; x1a; x27; x34; xf4; xf2; x59; xa8;
  x83; x27; xc4; xfc; xbb; x07; xf0; x40; x23; x2a; xf4; xf4;
  x83; x27; x44; xf5; x81; x27; xc9; xc3; x07; x37; x84; xf2;
  x83; x27; x44; xf5; xbd; x8b; x81; x27; x17; x57; x00; x00;
  x13; x07; x07; x1c; x8e; x07; xba; x97; x9c; x23; xd3; x77;
  xf7; x12; x27; x34; xf4; xf2; x83; x27; x44; xf5; x9b; xd7;
  x47; x40; x23; x28; xf4; xfc; xa9; xa0; x83; x27; x04; xfd;
  x85; x8b; x81; x27; x8d; xc7; x83; x27; xc4; xfd; x85; x27;
  x23; x2e; xf4; xfc; x07; x37; x84; xf2; x17; x57; x00; x00;
  x13; x07; xc7; x24; x83; x27; x04; xfe; x8e; x07; xba; x97;
  x9c; x23; xd3; x77; xf7; x12; x27; x34; xf4; xf2; x83; x27;
  x04; xfd; x9b; xd7; x17; x40; x23; x28; xf4; xfc; x83; x27;
  x04; xfe; x85; x27; x23; x20; xf4; xfe; x83; x27; x04; xfd;
  x81; x27; xcd; xfb; x83; x27; x84; xfc; x81; x27; xb1; xcf;
  x07; x37; x84; xf2; x97; x57; x00; x00; x93; x87; x87; x0d;
  x9c; x23; xd3; x17; xf7; xa2; xa1; xc7; x83; x27; x84; xfd;
  x81; x27; x63; x50; xf0; x04; x83; x27; x44; xfd; x81; x27;
  x63; x58; xf0; x2a; x83; x27; x44; xfd; x23; x2c; xf4; xfc;
  x83; x27; xc4; xfc; xfd; x37; x23; x26; xf4; xfc; x07; x37;
  x84; xf2; x97; x57; x00; x00; x93; x87; x67; x0a; x9c; x23;
  xd3; x77; xf7; x12; x27; x34; xf4; xf2; x83; x27; xc4; xfd;
  x85; x27; x23; x2e; xf4; xfc; x83; x27; xc4; xfd; x53; x87;
  x07; xd2; x87; x37; x84; xf2; x53; x77; xf7; x12; x97; x57;
  x00; x00; x93; x87; x27; x08; x9c; x23; xd3; x77; xf7; x02;
  x27; x3c; xf4; xf0; x03; x27; xc4; xf1; xb7; x07; xc0; xfc;
  xb9; x9f; x81; x27; x23; x2e; xf4; xf0; x83; x27; x84; xfd;
  x81; x27; xa9; xe7; x23; x38; x04; xf8; x83; x37; x04; xf9;
  x23; x34; xf4; xf8; x07; x37; x84; xf2; x97; x57; x00; x00;
  x93; x87; x07; x05; x9c; x23; xd3; x77; xf7; x0a; x27; x34;
  xf4; xf2; x07; x37; x84; xf2; x87; x37; x84; xf1; xd3; x97;
  xe7; xa2; xe3; x9a; x07; x06; x07; x37; x84; xf2; x87; x37;
  x84; xf1; xd3; x97; xf7; x22; xd3; x17; xf7; xa2; xe3; x94;
  x07; x04; x01; xa4; x83; x27; x44; xfc; x81; x27; xfd; xc7].

Definition INIT_ELF_14 : list byte := [
  x83; x27; x84; xfd; xfd; x37; x81; x27; x17; x57; x00; x00;
  x13; x07; x87; x05; x8e; x07; xba; x97; x9c; x23; x97; x57;
  x00; x00; x93; x87; x27; x00; x98; x23; x53; x77; xf7; x1a;
  x87; x37; x84; xf1; xd3; x77; xf7; x0a; x27; x3c; xf4; xf0;
  x23; x20; x04; xfe; x87; x37; x84; xf2; xd3; x97; x07; xc2;
  x23; x28; xf4; xf4; x07; x37; x84; xf2; x83; x27; x04; xf5;
  xd3; x87; x07; xd2; xd3; x77; xf7; x0a; x27; x34; xf4; xf2;
  x83; x27; x04; xf5; x13; xf7; xf7; x0f; x83; x37; x84; xf7;
  x93; x86; x17; x00; x23; x3c; xd4; xf6; x1b; x07; x07; x03;
  x13; x77; xf7; x0f; x23; x80; xe7; x00; x07; x37; x84; xf2;
  x87; x37; x84; xf1; xd3; x17; xf7; xa2; xe3; x9a; x07; x46;
  x87; x37; x84; xf2; x97; x57; x00; x00; x93; x87; x07; xf7;
  x98; x23; x53; x77; xf7; x0a; x87; x37; x84; xf1; xd3; x17;
  xf7; xa2; x63; x95; x07; x28; x83; x27; x04; xfe; x85; x27;
  x23; x20; xf4; xfe; x83; x27; x04; xfe; x3e; x87; x83; x27;
  x84; xfd; x01; x27; x81; x27; x63; x5d; xf7; x12; x07; x37;
  x84; xf1; x97; x57; x00; x00; x93; x87; xe7; xf3; x9c; x23;
  xd3; x77; xf7; x12; x27; x3c; xf4; xf0; x07; x37; x84; xf2;
  x97; x57; x00; x00; x93; x87; x87; xf2; x9c; x23; xd3; x77;
  xf7; x12; x27; x34; xf4; xf2; xa9; xb7; x07; x37; x84; xf1;
  x83; x27; x84; xfd; xfd; x37; x81; x27; x17; x57; x00; x00;
  x13; x07; x87; xf6; x8e; x07; xba; x97; x9c; x23; xd3; x77;
  xf7; x12; x27; x3c; xf4; xf0; x85; x47; x23; x20; xf4; xfe;
  x87; x37; x84; xf2; xd3; x97; x07; xc2; x23; x28; xf4; xf4;
  x07; x37; x84; xf2; x83; x27; x04; xf5; xd3; x87; x07; xd2;
  xd3; x77; xf7; x0a; x27; x34; xf4; xf2; x83; x27; x04; xf5;
  x13; xf7; xf7; x0f; x83; x37; x84; xf7; x93; x86; x17; x00;
  x23; x3c; xd4; xf6; x1b; x07; x07; x03; x13; x77; xf7; x0f;
  x23; x80; xe7; x00; x83; x27; x04; xfe; x3e; x87; x83; x27;
  x84; xfd; x01; x27; x81; x27; x63; x16; xf7; x06; x07; x37;
  x84; xf2; x87; x36; x84; xf1; x97; x57; x00; x00; x93; x87;
  xa7; xea; x9c; x23; xd3; xf7; xf6; x02; xd3; x97; xe7; xa2;
  x63; x96; x07; x1a; x07; x37; x84; xf2; x87; x37; x84; xf1;
  x97; x57; x00; x00; x93; x87; xc7; xe8; x94; x23; xd3; xf7;
  xf6; x0a; xd3; x17; xf7; xa2; x91; xe3; x99; xa8; x01; x00;
  x83; x37; x84; xf7; xfd; x17; x23; x3c; xf4; xf6; x83; x37;
  x84; xf7; x83; xc7; x07; x00; x3e; x87; x93; x07; x00; x03;
  xe3; x04; xf7; xfe; x83; x37; x84; xf7; x85; x07; x23; x3c;
  xf4; xf6; x6f; x00; x10; x33; x83; x27; x04; xfe; x85; x27;
  x23; x20; xf4; xfe; x07; x37; x84; xf2; x97; x57; x00; x00;
  x93; x87; x47; xe2; x9c; x23; xd3; x77; xf7; x12; x27; x34;
  xf4; xf2; x1d; xb7; x01; x00; x11; xa0; x01; x00; x83; x37;
  x04; xf6; x23; x3c; xf4; xf6; x87; x37; x04; xf2; x27; x34;
  xf4; xf2; x83; x27; xc4; xf5; x23; x26; xf4; xfc; x83; x27;
  x84; xf5; x23; x2c; xf4; xfc; x83; x27; x04; xf3; x63; xc9;
  x07; x1a; x83; x27; xc4; xfc; x1b; x87; x07; x00; xb9; x47;
  x63; xc2; xe7; x1a; x17; x57; x00; x00; x13; x07; x47; xe3;
  x83; x27; xc4; xfc; x8e; x07; xba; x97; x9c; x23; x27; x30;
  xf4; xf8; x83; x27; x84; xef; x81; x27; x63; xd2; x07; x04;
  x83; x27; x84; xfd; x81; x27; x63; x4d; xf0; x02; x23; x38;
  x04; xf8; x83; x37; x04; xf9; x23; x34; xf4; xf8; x83; x27;
  x84; xfd; x81; x27; x63; xcb; x07; x5c; x07; x37; x84; xf2;
  x87; x36; x04; xf8; x97; x57; x00; x00; x93; x87; xc7; xd9;
  x9c; x23; xd3; xf7; xf6; x12; xd3; x07; xf7; xa2; x63; x9c;
  x07; x5a; xf9; xa3; x85; x47; x23; x20; xf4; xfe; x07; x37;
  x84; xf2; x87; x37; x04; xf8; xd3; x77; xf7; x1a; xd3; x97;
  x07; xc2; x23; x28; xf4; xf4; x07; x37; x84; xf2; x83; x27;
  x04; xf5; xd3; x86; x07; xd2; x87; x37; x04; xf8; xd3; xf7;
  xf6; x12; xd3; x77; xf7; x0a; x27; x34; xf4; xf2; x83; x27;
  x04; xf5; x13; xf7; xf7; x0f; x83; x37; x84; xf7; x93; x86;
  x17; x00; x23; x3c; xd4; xf6; x1b; x07; x07; x03; x13; x77;
  xf7; x0f; x23; x80; xe7; x00; x83; x27; x04; xfe; x3e; x87;
  x83; x27; x84; xfd; x01; x27; x81; x27; x63; x10; xf7; x0a;
  x87; x37; x84; xf2; xd3; xf7; xf7; x02; x27; x34; xf4; xf2;
  x87; x37; x84; xf2; x07; x37; x04; xf8; xd3; x17; xf7; xa2;
  x95; xe3; x87; x37; x84; xf2; x07; x37; x04; xf8; xd3; x27;
  xf7; xa2; xdd; xc3; x83; x27; x04; xf5; x85; x8b; x81; x27;
  xd1; xcf; x29; xa0; x01; x00; x3d; xa0; x01; x00; x2d; xa0;
  x01; x00; x1d; xa0; x03; x37; x84; xf7; x83; x37; x04; xf6;
  x63; x1e; xf7; x00; x83; x27; xc4; xfc; x85; x27; x23; x26;
  xf4; xfc; x83; x37; x84; xf7; x13; x07; x00; x03; x23; x80;
  xe7; x00; x39; xa8; x83; x37; x84; xf7; xfd; x17; x23; x3c;
  xf4; xf6; x83; x37; x84; xf7; x83; xc7; x07; x00; x3e; x87;
  x93; x07; x90; x03; xe3; x02; xf7; xfc; x83; x37; x84; xf7;
  x13; x87; x17; x00; x23; x3c; xe4; xf6; x03; xc7; x07; x00;
  x05; x27; x13; x77; xf7; x0f; x23; x80; xe7; x00; x0d; xa8;
  x07; x37; x84; xf2; x97; x57; x00; x00; x93; x87; xc7; xc6;
  x9c; x23; xd3; x77; xf7; x12; x27; x34; xf4; xf2; x87; x37;
  x84; xf2; x53; x07; x00; xf2; xd3; xa7; xe7; xa2; x91; xeb;
  x83; x27; x04; xfe; x85; x27; x23; x20; xf4; xfe; xd1; xbd;
  x01; x00; x6f; x00; x90; x13; x01; x00; x6f; x00; x30; x13;
  x83; x27; xc4; xfe; x23; x20; xf4; xfc; x83; x27; x84; xfe;
  x23; x2e; xf4; xfa; x23; x3c; x04; xf8; x83; x37; x84; xf9;
  x23; x38; xf4; xf8; x83; x27; x44; xfc; x81; x27; xed; xcb;
  x83; x27; xc4; xef; x1b; x87; x07; x00; x85; x47; x63; xc6;
  xe7; x02; x83; x27; x84; xfa; x81; x27; x99; xc7; x83; x27;
  x04; xf3; x9b; x87; x37; x43; x81; x27; x01; xa8; x83; x27;
  x44; xf3; x13; x07; x60; x03; xbb; x07; xf7; x40; x81; x27;
  x23; x20; xf4; xfe; x79; xa0; x83; x27; x84; xfd; xfd; x37;
  x23; x28; xf4; xfc; x83; x27; xc4; xfb; x3e; x87; x83; x27;
  x04; xfd; x01; x27; x81; x27; x63; x4c; xf7; x00; x83; x27;
  xc4; xfb; x3e; x87; x83; x27; x04; xfd; xbb; x07; xf7; x40;
  x23; x2e; xf4; xfa; x1d; xa8; x83; x27; x04; xfd; x3e; x87;
  x83; x27; xc4; xfb; xbb; x07; xf7; x40; x23; x28; xf4; xfc;
  x83; x27; x04; xfd; x03; x27; x44; xfb; xb9; x9f; x23; x2a;
  xf4; xfa; x83; x27; x84; xfe; x3e; x87; x83; x27; x04; xfd;
  xb9; x9f; x23; x24; xf4; xfe; x23; x2e; x04; xfa; x83; x27;
  x84; xfd; x23; x20; xf4; xfe; x83; x27; x04; xfe; x81; x27;
  x63; xdd; x07; x00; x83; x27; x04; xfc; x3e; x87; x83; x27;
  x04; xfe; xbb; x07; xf7; x40; x23; x20; xf4; xfc; x23; x20;
  x04; xfe; x83; x27; xc4; xfe; x3e; x87; x83; x27; x04; xfe;
  xb9; x9f; x23; x26; xf4; xfe; x83; x27; x84; xfb; x3e; x87;
  x83; x27; x04; xfe; xb9; x9f; x23; x2c; xf4; xfa; x85; x45;
  x03; x35; x84; xf0; xef; x00; x90; x63; x23; x38; xa4; xf8;
  x83; x27; x04; xfc; x81; x27; x63; x50; xf0; x06; x83; x27;
  x84; xfb; x81; x27; x63; x5b; xf0; x04; x83; x27; x04; xfc;
  x3e; x86; x83; x27; x84; xfb; x9b; x86; x07; x00; x1b; x07;
  x06; x00; x63; x53; xd7; x00; xb2; x87; x23; x20; xf4; xfe;
  x83; x27; xc4; xfe; x3e; x87; x83; x27; x04; xfe; xbb; x07;
  xf7; x40; x23; x26; xf4; xfe; x83; x27; x04; xfc; x3e; x87;
  x83; x27; x04; xfe; xbb; x07; xf7; x40; x23; x20; xf4; xfc;
  x83; x27; x84; xfb; x3e; x87; x83; x27; x04; xfe; xbb; x07;
  xf7; x40; x23; x2c; xf4; xfa; x83; x27; x84; xfe; x81; x27;
  x63; x5e; xf0; x08; x83; x27; x44; xfc; x81; x27; xb5; xcf;
  x83; x27; xc4; xfb; x81; x27; x63; x51; xf0; x04; x83; x27;
  xc4; xfb; x3e; x86; x83; x35; x04; xf9; x03; x35; x84; xf0;
  xef; x10; x00; x1c; x23; x38; xa4; xf8; x03; x36; x04; xfa;
  x83; x35; x04; xf9; x03; x35; x84; xf0; xef; x00; x50; x5f;
  x23; x34; xa4; xf4; x83; x35; x04; xfa; x03; x35; x84; xf0;
  xef; x00; x30; x08; x83; x37; x84; xf4; x23; x30; xf4; xfa;
  x83; x27; x84; xfe; x3e; x87; x83; x27; xc4; xfb; xbb; x07;
  xf7; x40; x23; x28; xf4; xfc; x83; x27; x04; xfd; x81; x27;
  x85; xcb; x83; x27; x04; xfd; x3e; x86; x83; x35; x04; xfa;
  x03; x35; x84; xf0; xef; x10; x80; x16; x23; x30; xa4; xfa;
  x21; xa8; x83; x27; x84; xfe; x3e; x86; x83; x35; x04; xfa;
  x03; x35; x84; xf0; xef; x10; x00; x15; x23; x30; xa4; xfa;
  x85; x45; x03; x35; x84; xf0; xef; x00; x30; x52; x23; x34;
  xa4; xf8; x83; x27; x44; xfb; x81; x27; x63; x5d; xf0; x00;
  x83; x27; x44; xfb; x3e; x86; x83; x35; x84; xf8; x03; x35;
  x84; xf0; xef; x10; x20; x12; x23; x34; xa4; xf8; x23; x28;
  x04; xfa; x83; x27; xc4; xef; x1b; x87; x07; x00; x85; x47;
  x63; xc3; xe7; x04; x83; x27; x84; xf2; x9d; xef; x83; x27;
  xc4; xf2; x3e; x87; xb7; x07; x10; x00; xfd; x17; xf9; x8f;
  x81; x27; x95; xe7; x83; x27; xc4; xf2; x3e; x87; xb7; x07;
  xf0; x7f; xf9; x8f; x81; x27; x91; xcf; x83; x27; xc4; xfe;
  x85; x27; x23; x26; xf4; xfe; x83; x27; x84; xfb; x85; x27;
  x23; x2c; xf4; xfa; x85; x47; x23; x28; xf4; xfa; x83; x27;
  x44; xfb; x81; x27; x95; xc7; x83; x37; x84; xf8; xdc; x4b;
  xfd; x37; x81; x27; x03; x37; x84; xf8; x91; x07; x8a; x07;
  xba; x97; x9c; x47; x3e; x85; xef; x00; xb0; x30; xaa; x87;
  x3e; x87; x93; x07; x00; x02; x99; x9f; x81; x27; x11; xa0;
  x85; x47; x03; x27; x84; xfb; xb9; x9f; x81; x27; xfd; x8b;
  x23; x20; xf4; xfe; x83; x27; x04; xfe; x81; x27; x81; xcb;
  x93; x07; x00; x02; x03; x27; x04; xfe; x99; x9f; x23; x20;
  xf4; xfe; x83; x27; x04; xfe; x1b; x87; x07; x00; x91; x47;
  x63; xd0; xe7; x04; x83; x27; x04; xfe; xf1; x37; x23; x20;
  xf4; xfe; x83; x27; xc4; xfe; x3e; x87; x83; x27; x04; xfe;
  xb9; x9f; x23; x26; xf4; xfe; x83; x27; x04; xfc; x3e; x87;
  x83; x27; x04; xfe; xb9; x9f; x23; x20; xf4; xfc; x83; x27;
  x84; xfb; x3e; x87; x83; x27; x04; xfe; xb9; x9f; x23; x2c].

Definition INIT_ELF_15 : list byte := [
  xf4; xfa; xa9; xa0; x83; x27; x04; xfe; x1b; x87; x07; x00;
  x8d; x47; x63; xcf; xe7; x02; x83; x27; x04; xfe; xf1; x27;
  x23; x20; xf4; xfe; x83; x27; xc4; xfe; x3e; x87; x83; x27;
  x04; xfe; xb9; x9f; x23; x26; xf4; xfe; x83; x27; x04; xfc;
  x3e; x87; x83; x27; x04; xfe; xb9; x9f; x23; x20; xf4; xfc;
  x83; x27; x84; xfb; x3e; x87; x83; x27; x04; xfe; xb9; x9f;
  x23; x2c; xf4; xfa; x83; x27; xc4; xfe; x81; x27; x63; x5d;
  xf0; x00; x83; x27; xc4; xfe; x3e; x86; x83; x35; x04; xfa;
  x03; x35; x84; xf0; xef; x10; x00; x10; x23; x30; xa4; xfa;
  x83; x27; x84; xfb; x81; x27; x63; x5d; xf0; x00; x83; x27;
  x84; xfb; x3e; x86; x83; x35; x84; xf8; x03; x35; x84; xf0;
  xef; x10; x00; x0e; x23; x34; xa4; xf8; x83; x27; x84; xfc;
  x81; x27; xb9; xcb; x83; x35; x84; xf8; x03; x35; x04; xfa;
  xef; x10; x40; x2b; xaa; x87; x63; xd3; x07; x04; x83; x27;
  xc4; xfc; xfd; x37; x23; x26; xf4; xfc; x81; x46; x29; x46;
  x83; x35; x04; xfa; x03; x35; x84; xf0; xef; x00; xc0; x69;
  x23; x30; xa4; xfa; x83; x27; x44; xfc; x81; x27; x99; xcb;
  x81; x46; x29; x46; x83; x35; x04; xf9; x03; x35; x84; xf0;
  xef; x00; x00; x68; x23; x38; xa4; xf8; x83; x27; x44; xfd;
  x23; x2c; xf4; xfc; x83; x27; x84; xfd; x81; x27; x63; x41;
  xf0; x08; x83; x27; xc4; xef; x1b; x87; x07; x00; x89; x47;
  x63; xda; xe7; x06; x83; x27; x84; xfd; x81; x27; x63; xca;
  x07; x02; x81; x46; x15; x46; x83; x35; x84; xf8; x03; x35;
  x84; xf0; xef; x00; x20; x64; x23; x34; xa4; xf8; x83; x35;
  x84; xf8; x03; x35; x04; xfa; xef; x10; xa0; x22; xaa; x87;
  x63; x41; xf0; x02; x29; xa0; x01; x00; x21; xa0; x01; x00;
  x11; xa0; x01; x00; x83; x27; x84; xef; x93; xc7; xf7; xff;
  x23; x26; xf4; xfc; x9d; xa1; x01; x00; x11; xa0; x01; x00;
  x83; x37; x84; xf7; x13; x87; x17; x00; x23; x3c; xe4; xf6;
  x13; x07; x10; x03; x23; x80; xe7; x00; x83; x27; xc4; xfc;
  x85; x27; x23; x26; xf4; xfc; x81; xa1; x83; x27; x44; xfc;
  x81; x27; x63; x8e; x07; x2e; x83; x27; x04; xfc; x81; x27;
  x63; x5d; xf0; x00; x83; x27; x04; xfc; x3e; x86; x83; x35;
  x04; xf9; x03; x35; x84; xf0; xef; x00; x30; x7d; x23; x38;
  xa4; xf8; x83; x37; x04; xf9; x23; x3c; xf4; xf8; x83; x27;
  x04; xfb; x81; x27; xb5; xcb; x83; x37; x04; xf9; x9c; x47;
  xbe; x85; x03; x35; x84; xf0; xef; x00; xe0; x47; x23; x30;
  xa4; xf4; x83; x37; x04; xf4; x91; xef; x97; x46; x00; x00;
  x93; x86; x46; x6b; x01; x46; x93; x05; xf0; x2e; x17; x45;
  x00; x00; x13; x05; xe5; x6b; xef; x20; xb0; x34; x83; x37;
  x04; xf4; x23; x38; xf4; xf8; x83; x37; x04; xf9; x13; x87;
  x07; x01; x83; x37; x84; xf9; x93; x86; x07; x01; x83; x37;
  x84; xf9; xdc; x4b; x89; x07; x8a; x07; x3e; x86; xb6; x85;
  x3a; x85; xef; xe0; xaf; xde; x05; x46; x83; x35; x04; xf9;
  x03; x35; x84; xf0; xef; x00; x10; x75; x23; x38; xa4; xf8;
  x85; x47; x23; x20; xf4; xfe; x83; x35; x84; xf8; x03; x35;
  x04; xfa; xef; xe0; xbf; xb4; xaa; x87; x9b; x87; x07; x03;
  x23; x22; xf4; xfe; x83; x35; x84; xf9; x03; x35; x04; xfa;
  xef; x10; x00; x11; xaa; x87; x23; x28; xf4; xfc; x03; x36;
  x04; xf9; x83; x35; x84; xf8; x03; x35; x84; xf0; xef; x10;
  x60; x1c; x23; x3c; xa4; xf2; x83; x37; x84; xf3; x9c; x4b;
  x89; xeb; x83; x35; x84; xf3; x03; x35; x04; xfa; xef; x10;
  x20; x0e; xaa; x87; x11; xa0; x85; x47; x23; x2a; xf4; xf4;
  x83; x35; x84; xf3; x03; x35; x84; xf0; xef; x00; xa0; x48;
  x83; x27; x44; xf5; x81; x27; xa9; xeb; x83; x27; xc4; xef;
  x81; x27; xa9; xe7; x83; x27; x84; xf2; x85; x8b; x81; x27;
  xa1; xe3; x83; x27; x44; xfe; x1b; x87; x07; x00; x93; x07;
  x90; x03; x63; x06; xf7; x0e; x83; x27; x04; xfd; x81; x27;
  x63; x57; xf0; x00; x83; x27; x44; xfe; x85; x27; x23; x22;
  xf4; xfe; x83; x37; x84; xf7; x13; x87; x17; x00; x23; x3c;
  xe4; xf6; x03; x27; x44; xfe; x13; x77; xf7; x0f; x23; x80;
  xe7; x00; xc1; xac; x83; x27; x04; xfd; x81; x27; x63; xcf;
  x07; x00; x83; x27; x04; xfd; x81; x27; xd9; xe7; x83; x27;
  xc4; xef; x81; x27; xd9; xe3; x83; x27; x84; xf2; x85; x8b;
  x81; x27; xb5; xef; x83; x27; x44; xf5; x81; x27; x63; x5d;
  xf0; x04; x05; x46; x83; x35; x04; xfa; x03; x35; x84; xf0;
  xef; x00; xd0; x64; x23; x30; xa4; xfa; x83; x35; x84; xf8;
  x03; x35; x04; xfa; xef; x10; x80; x02; xaa; x87; x23; x2a;
  xf4; xf4; x83; x27; x44; xf5; x81; x27; x63; x4b; xf0; x00;
  x83; x27; x44; xf5; x81; x27; x8d; xe3; x83; x27; x44; xfe;
  x85; x8b; x81; x27; x81; xcf; x83; x27; x44; xfe; x1b; x87;
  x17; x00; x23; x22; xe4; xfe; x3e; x87; x93; x07; x90; x03;
  x63; x0f; xf7; x02; x83; x37; x84; xf7; x13; x87; x17; x00;
  x23; x3c; xe4; xf6; x03; x27; x44; xfe; x13; x77; xf7; x0f;
  x23; x80; xe7; x00; x0d; xac; x83; x27; x44; xf5; x81; x27;
  x63; x59; xf0; x04; x83; x27; x44; xfe; x1b; x87; x07; x00;
  x93; x07; x90; x03; x63; x11; xf7; x02; x21; xa0; x01; x00;
  x11; xa0; x01; x00; x83; x37; x84; xf7; x13; x87; x17; x00;
  x23; x3c; xe4; xf6; x13; x07; x90; x03; x23; x80; xe7; x00;
  xb5; xa2; x83; x27; x44; xfe; x13; xf7; xf7; x0f; x83; x37;
  x84; xf7; x93; x86; x17; x00; x23; x3c; xd4; xf6; x05; x27;
  x13; x77; xf7; x0f; x23; x80; xe7; x00; xe9; xaa; x83; x37;
  x84; xf7; x13; x87; x17; x00; x23; x3c; xe4; xf6; x03; x27;
  x44; xfe; x13; x77; xf7; x0f; x23; x80; xe7; x00; x83; x27;
  x04; xfe; x3e; x87; x83; x27; x84; xfd; x01; x27; x81; x27;
  x63; x0e; xf7; x0c; x81; x46; x29; x46; x83; x35; x04; xfa;
  x03; x35; x84; xf0; xef; x00; xc0; x34; x23; x30; xa4; xfa;
  x03; x37; x84; xf9; x83; x37; x04; xf9; x63; x11; xf7; x02;
  x81; x46; x29; x46; x83; x35; x04; xf9; x03; x35; x84; xf0;
  xef; x00; xc0; x32; x23; x38; xa4; xf8; x83; x37; x04; xf9;
  x23; x3c; xf4; xf8; x2d; xa0; x81; x46; x29; x46; x83; x35;
  x84; xf9; x03; x35; x84; xf0; xef; x00; xe0; x30; x23; x3c;
  xa4; xf8; x81; x46; x29; x46; x83; x35; x04; xf9; x03; x35;
  x84; xf0; xef; x00; xa0; x2f; x23; x38; xa4; xf8; x83; x27;
  x04; xfe; x85; x27; x23; x20; xf4; xfe; x4d; xbb; x85; x47;
  x23; x20; xf4; xfe; x83; x35; x84; xf8; x03; x35; x04; xfa;
  xef; xe0; x5f; x8f; xaa; x87; x9b; x87; x07; x03; x23; x22;
  xf4; xfe; x83; x37; x84; xf7; x13; x87; x17; x00; x23; x3c;
  xe4; xf6; x03; x27; x44; xfe; x13; x77; xf7; x0f; x23; x80;
  xe7; x00; x83; x27; x04; xfe; x3e; x87; x83; x27; x84; xfd;
  x01; x27; x81; x27; x63; x54; xf7; x02; x81; x46; x29; x46;
  x83; x35; x04; xfa; x03; x35; x84; xf0; xef; x00; x40; x29;
  x23; x30; xa4; xfa; x83; x27; x04; xfe; x85; x27; x23; x20;
  xf4; xfe; x4d; xb7; x01; x00; x11; xa0; x01; x00; x05; x46;
  x83; x35; x04; xfa; x03; x35; x84; xf0; xef; x00; xd0; x47;
  x23; x30; xa4; xfa; x83; x35; x84; xf8; x03; x35; x04; xfa;
  xef; x00; x90; x65; xaa; x87; x23; x28; xf4; xfc; x83; x27;
  x04; xfd; x81; x27; x63; x4b; xf0; x00; x83; x27; x04; xfd;
  x81; x27; xb5; xeb; x83; x27; x44; xfe; x85; x8b; x81; x27;
  xad; xc7; x01; x00; x3d; xa0; x03; x37; x84; xf7; x83; x37;
  x04; xf6; x63; x12; xf7; x02; x83; x27; xc4; xfc; x85; x27;
  x23; x26; xf4; xfc; x83; x37; x84; xf7; x13; x87; x17; x00;
  x23; x3c; xe4; xf6; x13; x07; x10; x03; x23; x80; xe7; x00;
  x8d; xa0; x83; x37; x84; xf7; xfd; x17; x23; x3c; xf4; xf6;
  x83; x37; x84; xf7; x83; xc7; x07; x00; x3e; x87; x93; x07;
  x90; x03; xe3; x0e; xf7; xfa; x83; x37; x84; xf7; x13; x87;
  x17; x00; x23; x3c; xe4; xf6; x03; xc7; x07; x00; x05; x27;
  x13; x77; xf7; x0f; x23; x80; xe7; x00; x2d; xa0; x01; x00;
  x83; x37; x84; xf7; xfd; x17; x23; x3c; xf4; xf6; x83; x37;
  x84; xf7; x83; xc7; x07; x00; x3e; x87; x93; x07; x00; x03;
  xe3; x04; xf7; xfe; x83; x37; x84; xf7; x85; x07; x23; x3c;
  xf4; xf6; x83; x35; x84; xf8; x03; x35; x84; xf0; xef; x00;
  x80; x15; x83; x37; x04; xf9; x8d; xcb; x83; x37; x84; xf9;
  x89; xcf; x03; x37; x84; xf9; x83; x37; x04; xf9; x63; x08;
  xf7; x00; x83; x35; x84; xf9; x03; x35; x84; xf0; xef; x00;
  x40; x13; x83; x35; x04; xf9; x03; x35; x84; xf0; xef; x00;
  x80; x12; x21; xa0; x01; x00; x11; xa0; x01; x00; x83; x35;
  x04; xfa; x03; x35; x84; xf0; xef; x00; x40; x11; x83; x37;
  x84; xf7; x23; x80; x07; x00; x83; x27; xc4; xfc; x85; x27;
  x1b; x87; x07; x00; x83; x37; x04; xef; x98; xc3; x83; x37;
  x04; xee; x91; xc7; x83; x37; x04; xee; x03; x37; x84; xf7;
  x98; xe3; x83; x37; x04; xf6; x3e; x85; xf2; x60; x52; x64;
  x15; x61; x82; x80; x79; x71; x06; xf4; x22; xf0; x00; x18;
  x23; x3c; xa4; xfc; xae; x87; x23; x2a; xf4; xfc; x83; x37;
  x84; xfd; xbc; x77; x95; xe3; x13; x06; x10; x04; xa1; x45;
  x03; x35; x84; xfd; xef; x20; x80; x76; x2a; x87; x83; x37;
  x84; xfd; xb8; xf7; x83; x37; x84; xfd; xbc; x77; x99; xe3;
  x81; x47; x59; xa8; x83; x37; x84; xfd; xb8; x77; x83; x27;
  x44; xfd; x8e; x07; xba; x97; x9c; x63; x23; x34; xf4; xfe;
  x83; x37; x84; xfe; x89; xcf; x83; x37; x84; xfd; xb8; x77;
  x83; x27; x44; xfd; x8e; x07; xba; x97; x03; x37; x84; xfe;
  x18; x63; x98; xe3; xb1; xa0; x83; x27; x44; xfd; x3e; x87;
  x85; x47; xbb; x97; xe7; x00; x23; x22; xf4; xfe; x83; x27;
  x44; xfe; xfd; x37; x81; x27; xa1; x07; x8a; x07; x3e; x86;
  x85; x45; x03; x35; x84; xfd; xef; x20; xa0; x6f; x23; x34;
  xa4; xfe; x83; x37; x84; xfe; x99; xe3; x81; x47; x3d; xa0;
  x83; x37; x84; xfe; x03; x27; x44; xfd; x98; xc7; x83; x37;
  x84; xfe; x03; x27; x44; xfe; xd8; xc7; x83; x37; x84; xfe;
  x23; xaa; x07; x00; x83; x37; x84; xfe; xd8; x4b; x83; x37;
  x84; xfe; x98; xcb; x83; x37; x84; xfe; x3e; x85; xa2; x70].

Definition INIT_ELF_16 : list byte := [
  x02; x74; x45; x61; x82; x80; x01; x11; x22; xec; x00; x10;
  x23; x34; xa4; xfe; x23; x30; xb4; xfe; x83; x37; x04; xfe;
  x85; xcb; x83; x37; x84; xfe; xb8; x77; x83; x37; x04; xfe;
  x9c; x47; x8e; x07; xba; x97; x98; x63; x83; x37; x04; xfe;
  x98; xe3; x83; x37; x84; xfe; xb8; x77; x83; x37; x04; xfe;
  x9c; x47; x8e; x07; xba; x97; x03; x37; x04; xfe; x98; xe3;
  x01; x00; x62; x64; x05; x61; x82; x80; x1d; x71; x86; xec;
  xa2; xe8; x80; x10; x23; x3c; xa4; xfa; x23; x38; xb4; xfa;
  xb2; x87; x36; x87; x23; x26; xf4; xfa; xba; x87; x23; x24;
  xf4; xfa; x83; x37; x04; xfb; xdc; x4b; x23; x2e; xf4; xfc;
  x83; x37; x04; xfb; xe1; x07; x23; x30; xf4; xfe; x23; x26;
  x04; xfe; x83; x37; x04; xfe; x9c; x43; x23; x2c; xf4; xfc;
  x83; x27; x84; xfd; x3e; x87; xc1; x67; xfd; x17; xf9; x8f;
  x1b; x87; x07; x00; x83; x27; xc4; xfa; xbb; x07; xf7; x02;
  x1b; x87; x07; x00; x83; x27; x84; xfa; xb9; x9f; x23; x2a;
  xf4; xfc; x83; x27; x84; xfd; x9b; xd7; x07; x01; x1b; x87;
  x07; x00; x83; x27; xc4; xfa; xbb; x07; xf7; x02; x1b; x87;
  x07; x00; x83; x27; x44; xfd; x9b; xd7; x07; x01; x81; x27;
  xb9; x9f; x23; x28; xf4; xfc; x83; x27; x04; xfd; x9b; xd7;
  x07; x01; x81; x27; x23; x24; xf4; xfa; x83; x27; x04; xfd;
  x9b; x97; x07; x01; x9b; x86; x07; x00; x83; x27; x44; xfd;
  x3e; x87; xc1; x67; xfd; x17; xf9; x8f; x1b; x87; x07; x00;
  x83; x37; x04; xfe; x13; x86; x47; x00; x23; x30; xc4; xfe;
  x35; x9f; x01; x27; x98; xc3; x83; x27; xc4; xfe; x85; x27;
  x23; x26; xf4; xfe; x83; x27; xc4; xfe; x3e; x87; x83; x27;
  xc4; xfd; x01; x27; x81; x27; xe3; x4a; xf7; xf4; x83; x27;
  x84; xfa; x81; x27; xc5; xcb; x83; x37; x04; xfb; xd8; x47;
  x83; x27; xc4; xfd; x81; x27; x63; xce; xe7; x06; x83; x37;
  x04; xfb; x9c; x47; x85; x27; x81; x27; xbe; x85; x03; x35;
  x84; xfb; xef; xf0; xff; xdc; x23; x34; xa4; xfc; x83; x37;
  x84; xfc; x91; xef; x97; x46; x00; x00; x93; x86; x46; x0a;
  x01; x46; x93; x05; xa0; x0b; x17; x45; x00; x00; x13; x05;
  xe5; x0a; xef; x20; xa0; x49; x83; x37; x84; xfc; x23; x30;
  xf4; xfc; x83; x37; x04; xfc; x13; x87; x07; x01; x83; x37;
  x04; xfb; x93; x86; x07; x01; x83; x37; x04; xfb; xdc; x4b;
  x89; x07; x8a; x07; x3e; x86; xb6; x85; x3a; x85; xef; xd0;
  xbf; xf3; x83; x35; x04; xfb; x03; x35; x84; xfb; xef; xf0;
  xdf; xe4; x83; x37; x04; xfc; x23; x38; xf4; xfa; x83; x27;
  xc4; xfd; x1b; x87; x17; x00; x23; x2e; xe4; xfc; x03; x27;
  x84; xfa; x83; x36; x04; xfb; x91; x07; x8a; x07; xb6; x97;
  x98; xc7; x83; x37; x04; xfb; x03; x27; xc4; xfd; xd8; xcb;
  x83; x37; x04; xfb; x3e; x85; xe6; x60; x46; x64; x25; x61;
  x82; x80; x5d; x71; x86; xe4; xa2; xe0; x80; x08; x23; x34;
  xa4; xfc; x23; x30; xb4; xfc; xb2; x87; x23; x2e; xf4; xfa;
  xb6; x87; x23; x2c; xf4; xfa; xba; x87; x23; x2a; xf4; xfa;
  x83; x27; x84; xfb; xa1; x27; x81; x27; x3e; x87; xa5; x47;
  xbb; x47; xf7; x02; x23; x2c; xf4; xfc; x23; x20; x04; xfe;
  x85; x47; x23; x2e; xf4; xfc; x21; xa8; x83; x27; xc4; xfd;
  x9b; x97; x17; x00; x23; x2e; xf4; xfc; x83; x27; x04; xfe;
  x85; x27; x23; x20; xf4; xfe; x83; x27; x84; xfd; x3e; x87;
  x83; x27; xc4; xfd; x01; x27; x81; x27; xe3; xce; xe7; xfc;
  x83; x27; x04; xfe; xbe; x85; x03; x35; x84; xfc; xef; xf0;
  xff; xcb; x23; x38; xa4; xfc; x83; x37; x04; xfd; x91; xef;
  x97; x46; x00; x00; x93; x86; x46; xf9; x01; x46; x93; x05;
  x30; x0d; x17; x45; x00; x00; x13; x05; xe5; xf9; xef; x20;
  xa0; x38; x83; x37; x04; xfd; x23; x34; xf4; xfe; x83; x37;
  x84; xfe; x03; x27; x44; xfb; x98; xcf; x83; x37; x84; xfe;
  x05; x47; xd8; xcb; xa5; x47; x23; x22; xf4; xfe; x83; x27;
  xc4; xfb; x1b; x87; x07; x00; xa5; x47; x63; xd1; xe7; x06;
  x83; x37; x04; xfc; xa5; x07; x23; x30; xf4; xfc; x83; x37;
  x04; xfc; x13; x87; x17; x00; x23; x30; xe4; xfc; x83; xc7;
  x07; x00; x81; x27; x9b; x87; x07; xfd; x81; x27; xbe; x86;
  x29; x46; x83; x35; x84; xfe; x03; x35; x84; xfc; xef; xf0;
  xff; xd5; x23; x34; xa4; xfe; x83; x27; x44; xfe; x85; x27;
  x23; x22; xf4; xfe; x83; x27; x44; xfe; x3e; x87; x83; x27;
  xc4; xfb; x01; x27; x81; x27; xe3; x4e; xf7; xfa; x83; x37;
  x04; xfc; x85; x07; x23; x30; xf4; xfc; x91; xa0; x83; x37;
  x04; xfc; xa9; x07; x23; x30; xf4; xfc; x25; xa8; x83; x37;
  x04; xfc; x13; x87; x17; x00; x23; x30; xe4; xfc; x83; xc7;
  x07; x00; x81; x27; x9b; x87; x07; xfd; x81; x27; xbe; x86;
  x29; x46; x83; x35; x84; xfe; x03; x35; x84; xfc; xef; xf0;
  xff; xcf; x23; x34; xa4; xfe; x83; x27; x44; xfe; x85; x27;
  x23; x22; xf4; xfe; x83; x27; x44; xfe; x3e; x87; x83; x27;
  x84; xfb; x01; x27; x81; x27; xe3; x4e; xf7; xfa; x83; x37;
  x84; xfe; x3e; x85; xa6; x60; x06; x64; x61; x61; x82; x80;
  x41; x11; x22; xe4; x26; xe0; x00; x08; xaa; x87; x81; x44;
  xbe; x86; x41; x67; x63; xf6; xe6; x00; xc1; x44; x9b; x97;
  x07; x01; x81; x27; xbe; x86; x37; x07; x00; x01; x63; xf9;
  xe6; x00; x1b; x87; x84; x00; x9b; x04; x07; x00; x9b; x97;
  x87; x00; x81; x27; xbe; x86; x37; x07; x00; x10; x63; xf9;
  xe6; x00; x1b; x87; x44; x00; x9b; x04; x07; x00; x9b; x97;
  x47; x00; x81; x27; xbe; x86; x37; x07; x00; x40; x63; xf9;
  xe6; x00; x1b; x87; x24; x00; x9b; x04; x07; x00; x9b; x97;
  x27; x00; x81; x27; x1b; x87; x07; x00; x63; x4f; x07; x00;
  x1b; x87; x14; x00; x9b; x04; x07; x00; x3e; x87; xb7; x07;
  x00; x40; xf9; x8f; x81; x27; x81; xe7; x93; x07; x00; x02;
  x11; xa0; xa6; x87; x3e; x85; x22; x64; x82; x64; x41; x01;
  x82; x80; x79; x71; x22; xf4; x26; xf0; x4a; xec; x00; x18;
  x23; x3c; xa4; xfc; x83; x37; x84; xfd; x84; x43; xa6; x87;
  x9d; x8b; x81; x27; x8d; xcf; xa6; x87; x85; x8b; x81; x27;
  x99; xc3; x81; x47; x65; xa8; xa6; x87; x89; x8b; x81; x27;
  x91; xcb; x9b; xd7; x14; x00; x1b; x87; x07; x00; x83; x37;
  x84; xfd; x98; xc3; x85; x47; x79; xa8; x9b; xd7; x24; x00;
  x1b; x87; x07; x00; x83; x37; x84; xfd; x98; xc3; x89; x47;
  x71; xa0; x01; x49; x26; x87; xc1; x67; xfd; x17; xf9; x8f;
  x81; x27; x91; xe7; x41; x49; x9b; xd7; x04; x01; x9b; x84;
  x07; x00; xa6; x87; x93; xf7; xf7; x0f; x81; x27; x89; xeb;
  x9b; x07; x89; x00; x1b; x89; x07; x00; x9b; xd7; x84; x00;
  x9b; x84; x07; x00; xa6; x87; xbd; x8b; x81; x27; x89; xeb;
  x9b; x07; x49; x00; x1b; x89; x07; x00; x9b; xd7; x44; x00;
  x9b; x84; x07; x00; xa6; x87; x8d; x8b; x81; x27; x89; xeb;
  x9b; x07; x29; x00; x1b; x89; x07; x00; x9b; xd7; x24; x00;
  x9b; x84; x07; x00; xa6; x87; x85; x8b; x81; x27; x89; xef;
  x9b; x07; x19; x00; x1b; x89; x07; x00; x9b; xd7; x14; x00;
  x9b; x84; x07; x00; x81; xe4; x93; x07; x00; x02; x29; xa0;
  x83; x37; x84; xfd; x84; xc3; xca; x87; x3e; x85; x22; x74;
  x82; x74; x62; x69; x45; x61; x82; x80; x79; x71; x06; xf4;
  x22; xf0; x00; x18; x23; x3c; xa4; xfc; xae; x87; x23; x2a;
  xf4; xfc; x85; x45; x03; x35; x84; xfd; xef; xf0; x5f; xa1;
  x23; x34; xa4; xfe; x83; x37; x84; xfe; x91; xef; x97; x46;
  x00; x00; x93; x86; xa6; xce; x01; x46; x93; x05; x50; x14;
  x17; x45; x00; x00; x13; x05; x45; xcf; xef; x20; x00; x0e;
  x83; x37; x84; xfe; x23; x30; xf4; xfe; x03; x27; x44; xfd;
  x83; x37; x04; xfe; x98; xcf; x83; x37; x04; xfe; x05; x47;
  xd8; xcb; x83; x37; x04; xfe; x3e; x85; xa2; x70; x02; x74;
  x45; x61; x82; x80; x35; x71; x06; xed; x22; xe9; x00; x11;
  x23; x3c; xa4; xf6; x23; x38; xb4; xf6; x23; x34; xc4; xf6;
  x83; x37; x04; xf7; xd8; x4b; x83; x37; x84; xf6; xdc; x4b;
  x63; x5e; xf7; x00; x83; x37; x04; xf7; x23; x38; xf4; xfa;
  x83; x37; x84; xf6; x23; x38; xf4; xf6; x83; x37; x04; xfb;
  x23; x34; xf4; xf6; x83; x37; x04; xf7; x9c; x47; x23; x26;
  xf4; xfe; x83; x37; x04; xf7; xdc; x4b; x23; x26; xf4; xfa;
  x83; x37; x84; xf6; xdc; x4b; x23; x24; xf4; xfa; x83; x27;
  xc4; xfa; x3e; x87; x83; x27; x84; xfa; xb9; x9f; x23; x24;
  xf4; xfe; x83; x37; x04; xf7; xd8; x47; x83; x27; x84; xfe;
  x81; x27; x63; x57; xf7; x00; x83; x27; xc4; xfe; x85; x27;
  x23; x26; xf4; xfe; x83; x27; xc4; xfe; xbe; x85; x03; x35;
  x84; xf7; xef; xf0; x7f; x93; x23; x30; xa4; xfa; x83; x37;
  x04; xfa; x91; xef; x97; x46; x00; x00; x93; x86; xc6; xc0;
  x01; x46; x93; x05; x20; x16; x17; x45; x00; x00; x13; x05;
  x65; xc1; xef; x20; x20; x00; x83; x37; x04; xfa; x23; x38;
  xf4; xfa; x83; x37; x04; xfb; xe1; x07; x23; x3c; xf4; xfc;
  x83; x27; x84; xfe; x8a; x07; x03; x37; x84; xfd; xba; x97;
  x23; x3c; xf4; xf8; x11; xa8; x83; x37; x84; xfd; x23; xa0;
  x07; x00; x83; x37; x84; xfd; x91; x07; x23; x3c; xf4; xfc;
  x03; x37; x84; xfd; x83; x37; x84; xf9; xe3; x63; xf7; xfe;
  x83; x37; x04; xf7; xe1; x07; x23; x3c; xf4; xf8; x83; x27;
  xc4; xfa; x8a; x07; x03; x37; x84; xf9; xba; x97; x23; x38;
  xf4; xf8; x83; x37; x84; xf6; xe1; x07; x23; x38; xf4; xfc;
  x83; x27; x84; xfa; x8a; x07; x03; x37; x04; xfd; xba; x97;
  x23; x34; xf4; xf8; x83; x37; x04; xfb; xe1; x07; x23; x30;
  xf4; xfc; x31; xac; x83; x37; x04; xfd; x9c; x43; x3e; x87;
  xc1; x67; xfd; x17; xf9; x8f; x23; x22; xf4; xf8; x83; x27;
  x44; xf8; x81; x27; xe5; xc7; x83; x37; x84; xf9; x23; x3c;
  xf4; xfc; x83; x37; x04; xfc; x23; x34; xf4; xfc; x23; x22;
  x04; xfe; x83; x37; x84; xfd; x9c; x43; x3e; x87; xc1; x67;
  xfd; x17; xf9; x8f; x81; x27; x03; x27; x44; xf8; xbb; x07;
  xf7; x02; x1b; x87; x07; x00; x83; x37; x84; xfc; x9c; x43;
  xbe; x86; xc1; x67; xfd; x17; xf5; x8f; x81; x27; xb9; x9f;
  x81; x27; x03; x27; x44; xfe; xb9; x9f; x23; x20; xf4; xf8].

Definition INIT_ELF_17 : list byte := [
  x83; x27; x04; xf8; x9b; xd7; x07; x01; x23; x22; xf4; xfe;
  x83; x37; x84; xfd; x13; x87; x47; x00; x23; x3c; xe4; xfc;
  x9c; x43; x9b; xd7; x07; x01; x81; x27; x03; x27; x44; xf8;
  xbb; x07; xf7; x02; x1b; x87; x07; x00; x83; x37; x84; xfc;
  x9c; x43; x9b; xd7; x07; x01; x81; x27; xb9; x9f; x81; x27;
  x03; x27; x44; xfe; xb9; x9f; x23; x2e; xf4; xfa; x83; x27;
  xc4; xfb; x9b; xd7; x07; x01; x23; x22; xf4; xfe; x83; x27;
  xc4; xfb; x9b; x97; x07; x01; x9b; x86; x07; x00; x83; x27;
  x04; xf8; x3e; x87; xc1; x67; xfd; x17; xf9; x8f; x1b; x86;
  x07; x00; x83; x37; x84; xfc; x13; x87; x47; x00; x23; x34;
  xe4; xfc; x32; x87; x55; x8f; x01; x27; x98; xc3; x03; x37;
  x84; xfd; x83; x37; x04; xf9; xe3; x6e; xf7; xf2; x83; x37;
  x84; xfc; x03; x27; x44; xfe; x98; xc3; x83; x37; x04; xfd;
  x9c; x43; x9b; xd7; x07; x01; x23; x22; xf4; xf8; x83; x27;
  x44; xf8; x81; x27; xed; xcb; x83; x37; x84; xf9; x23; x3c;
  xf4; xfc; x83; x37; x04; xfc; x23; x34; xf4; xfc; x23; x22;
  x04; xfe; x83; x37; x84; xfc; x9c; x43; x23; x2e; xf4; xfa;
  x83; x37; x84; xfd; x9c; x43; x3e; x87; xc1; x67; xfd; x17;
  xf9; x8f; x81; x27; x03; x27; x44; xf8; xbb; x07; xf7; x02;
  x1b; x87; x07; x00; x83; x37; x84; xfc; x9c; x43; x9b; xd7;
  x07; x01; x81; x27; xb9; x9f; x81; x27; x03; x27; x44; xfe;
  xb9; x9f; x23; x20; xf4; xf8; x83; x27; x04; xf8; x9b; xd7;
  x07; x01; x23; x22; xf4; xfe; x83; x27; x04; xf8; x9b; x97;
  x07; x01; x9b; x86; x07; x00; x83; x27; xc4; xfb; x3e; x87;
  xc1; x67; xfd; x17; xf9; x8f; x1b; x86; x07; x00; x83; x37;
  x84; xfc; x13; x87; x47; x00; x23; x34; xe4; xfc; x32; x87;
  x55; x8f; x01; x27; x98; xc3; x83; x37; x84; xfd; x13; x87;
  x47; x00; x23; x3c; xe4; xfc; x9c; x43; x9b; xd7; x07; x01;
  x81; x27; x03; x27; x44; xf8; xbb; x07; xf7; x02; x1b; x87;
  x07; x00; x83; x37; x84; xfc; x9c; x43; xbe; x86; xc1; x67;
  xfd; x17; xf5; x8f; x81; x27; xb9; x9f; x81; x27; x03; x27;
  x44; xfe; xb9; x9f; x23; x2e; xf4; xfa; x83; x27; xc4; xfb;
  x9b; xd7; x07; x01; x23; x22; xf4; xfe; x03; x37; x84; xfd;
  x83; x37; x04; xf9; xe3; x6e; xf7; xf2; x83; x37; x84; xfc;
  x03; x27; xc4; xfb; x98; xc3; x83; x37; x04; xfd; x91; x07;
  x23; x38; xf4; xfc; x83; x37; x04; xfc; x91; x07; x23; x30;
  xf4; xfc; x03; x37; x04; xfd; x83; x37; x84; xf8; xe3; x6f;
  xf7; xdc; x83; x37; x04; xfb; xe1; x07; x23; x30; xf4; xfc;
  x83; x27; x84; xfe; x8a; x07; x03; x37; x04; xfc; xba; x97;
  x23; x34; xf4; xfc; x31; xa0; x83; x27; x84; xfe; xfd; x37;
  x23; x24; xf4; xfe; x83; x27; x84; xfe; x81; x27; x63; x5b;
  xf0; x00; x83; x37; x84; xfc; xf1; x17; x23; x34; xf4; xfc;
  x83; x37; x84; xfc; x9c; x43; xf1; xdf; x83; x37; x04; xfb;
  x03; x27; x84; xfe; xd8; xcb; x83; x37; x04; xfb; x3e; x85;
  xea; x60; x4a; x64; x0d; x61; x82; x80; x5d; x71; x86; xe4;
  xa2; xe0; x80; x08; x23; x34; xa4; xfc; x23; x30; xb4; xfc;
  xb2; x87; x23; x2e; xf4; xfa; x83; x27; xc4; xfb; x8d; x8b;
  x23; x2e; xf4; xfc; x83; x27; xc4; xfd; x81; x27; x95; xc7;
  x83; x27; xc4; xfd; xfd; x37; x81; x27; x17; x47; x00; x00;
  x13; x07; x87; xa1; x8a; x07; xba; x97; x9c; x43; x81; x46;
  x3e; x86; x83; x35; x04; xfc; x03; x35; x84; xfc; xef; xf0;
  x6f; xee; x23; x30; xa4; xfc; x83; x27; xc4; xfb; x9b; xd7;
  x27; x40; x23; x2e; xf4; xfa; x83; x27; xc4; xfb; x81; x27;
  x81; xe7; x83; x37; x04; xfc; xe1; xa0; x83; x37; x84; xfc;
  xbc; x73; x23; x34; xf4; xfe; x83; x37; x84; xfe; x85; xe7;
  x93; x05; x10; x27; x03; x35; x84; xfc; xef; xf0; xdf; xb5;
  x2a; x87; x83; x37; x84; xfc; xb8; xf3; x83; x37; x84; xfc;
  xbc; x73; x23; x34; xf4; xfe; x83; x37; x84; xfe; x23; xb0;
  x07; x00; x83; x27; xc4; xfb; x85; x8b; x81; x27; x8d; xc7;
  x03; x36; x84; xfe; x83; x35; x04; xfc; x03; x35; x84; xfc;
  xef; xf0; x1f; xb9; x23; x38; xa4; xfc; x83; x35; x04; xfc;
  x03; x35; x84; xfc; xef; xf0; xef; xe1; x83; x37; x04; xfd;
  x23; x30; xf4; xfc; x83; x27; xc4; xfb; x9b; xd7; x17; x40;
  x23; x2e; xf4; xfa; x83; x27; xc4; xfb; x81; x27; xb9; xc3;
  x83; x37; x84; xfe; x9c; x63; x23; x30; xf4; xfe; x83; x37;
  x04; xfe; x95; xe7; x03; x36; x84; xfe; x83; x35; x84; xfe;
  x03; x35; x84; xfc; xef; xf0; x5f; xb4; x2a; x87; x83; x37;
  x84; xfe; x98; xe3; x83; x37; x84; xfe; x9c; x63; x23; x30;
  xf4; xfe; x83; x37; x04; xfe; x23; xb0; x07; x00; x83; x37;
  x04; xfe; x23; x34; xf4; xfe; xa5; xbf; x01; x00; x83; x37;
  x04; xfc; x3e; x85; xa6; x60; x06; x64; x61; x61; x82; x80;
  x59; x71; x86; xf4; xa2; xf0; x80; x18; x23; x34; xa4; xfa;
  x23; x30; xb4; xfa; xb2; x87; x23; x2e; xf4; xf8; x83; x27;
  xc4; xf9; x9b; xd7; x57; x40; x23; x24; xf4; xfc; x83; x37;
  x04; xfa; x9c; x47; x23; x24; xf4; xfe; x83; x37; x04; xfa;
  xdc; x4b; x03; x27; x84; xfc; xb9; x9f; x81; x27; x85; x27;
  x23; x22; xf4; xfe; x83; x37; x04; xfa; xdc; x47; x23; x26;
  xf4; xfe; x21; xa8; x83; x27; x84; xfe; x85; x27; x23; x24;
  xf4; xfe; x83; x27; xc4; xfe; x9b; x97; x17; x00; x23; x26;
  xf4; xfe; x83; x27; x44; xfe; x3e; x87; x83; x27; xc4; xfe;
  x01; x27; x81; x27; xe3; xce; xe7; xfc; x83; x27; x84; xfe;
  xbe; x85; x03; x35; x84; xfa; xef; xf0; x2f; xc5; x23; x30;
  xa4; xfc; x83; x37; x04; xfc; x91; xef; x97; x36; x00; x00;
  x93; x86; x86; x72; x01; x46; x93; x05; xe0; x1d; x17; x35;
  x00; x00; x13; x05; x25; x73; xef; x10; xf0; x31; x83; x37;
  x04; xfc; x23; x3c; xf4; xfa; x83; x37; x84; xfb; xe1; x07;
  x23; x38; xf4; xfc; x23; x26; x04; xfe; x31; xa8; x83; x37;
  x04; xfd; x13; x87; x47; x00; x23; x38; xe4; xfc; x23; xa0;
  x07; x00; x83; x27; xc4; xfe; x85; x27; x23; x26; xf4; xfe;
  x83; x27; xc4; xfe; x3e; x87; x83; x27; x84; xfc; x01; x27;
  x81; x27; xe3; x4c; xf7; xfc; x83; x37; x04; xfa; xe1; x07;
  x23; x3c; xf4; xfc; x83; x37; x04; xfa; xdc; x4b; x8a; x07;
  x03; x37; x84; xfd; xba; x97; x23; x38; xf4; xfa; x83; x27;
  xc4; xf9; xfd; x8b; x23; x2e; xf4; xf8; x83; x27; xc4; xf9;
  x81; x27; xd1; xc3; x93; x07; x00; x02; x03; x27; xc4; xf9;
  x99; x9f; x23; x24; xf4; xfe; x23; x26; x04; xfc; x83; x37;
  x84; xfd; x9c; x43; x03; x27; xc4; xf9; xbb; x97; xe7; x00;
  x1b; x86; x07; x00; x83; x37; x04; xfd; x13; x87; x47; x00;
  x23; x38; xe4; xfc; x03; x27; xc4; xfc; xba; x86; x32; x87;
  x55; x8f; x01; x27; x98; xc3; x83; x37; x84; xfd; x13; x87;
  x47; x00; x23; x3c; xe4; xfc; x9c; x43; x03; x27; x84; xfe;
  xbb; xd7; xe7; x00; x23; x26; xf4; xfc; x03; x37; x84; xfd;
  x83; x37; x04; xfb; xe3; x69; xf7; xfa; x83; x37; x04; xfd;
  x03; x27; xc4; xfc; x98; xc3; x83; x37; x04; xfd; x9c; x43;
  x9d; xcb; x83; x27; x44; xfe; x85; x27; x23; x22; xf4; xfe;
  x2d; xa0; x03; x37; x84; xfd; x93; x07; x47; x00; x23; x3c;
  xf4; xfc; x83; x37; x04; xfd; x93; x86; x47; x00; x23; x38;
  xd4; xfc; x18; x43; x98; xc3; x03; x37; x84; xfd; x83; x37;
  x04; xfb; xe3; x6e; xf7; xfc; x83; x27; x44; xfe; xfd; x37;
  x1b; x87; x07; x00; x83; x37; x84; xfb; xd8; xcb; x83; x35;
  x04; xfa; x03; x35; x84; xfa; xef; xf0; x0f; xbd; x83; x37;
  x84; xfb; x3e; x85; xa6; x70; x06; x74; x65; x61; x82; x80;
  x5d; x71; xa2; xe4; x80; x08; x23; x3c; xa4; xfa; x23; x38;
  xb4; xfa; x83; x37; x84; xfb; xdc; x4b; x23; x2e; xf4; xfc;
  x83; x37; x04; xfb; xdc; x4b; x23; x2c; xf4; xfc; x83; x27;
  xc4; xfd; x3e; x87; x83; x27; x84; xfd; xbb; x07; xf7; x40;
  x23; x2e; xf4; xfc; x83; x27; xc4; xfd; x81; x27; x81; xc7;
  x83; x27; xc4; xfd; x51; xa0; x83; x37; x84; xfb; xe1; x07;
  x23; x38; xf4; xfc; x83; x27; x84; xfd; x8a; x07; x03; x37;
  x04; xfd; xba; x97; x23; x34; xf4; xfe; x83; x37; x04; xfb;
  xe1; x07; x23; x34; xf4; xfc; x83; x27; x84; xfd; x8a; x07;
  x03; x37; x84; xfc; xba; x97; x23; x30; xf4; xfe; x83; x37;
  x84; xfe; xf1; x17; x23; x34; xf4; xfe; x83; x37; x84; xfe;
  x98; x43; x83; x37; x04; xfe; xf1; x17; x23; x30; xf4; xfe;
  x83; x37; x04; xfe; x9c; x43; x63; x0e; xf7; x00; x83; x37;
  x84; xfe; x98; x43; x83; x37; x04; xfe; x9c; x43; x63; x74;
  xf7; x00; xfd; x57; x21; xa8; x85; x47; x11; xa8; x03; x37;
  x84; xfe; x83; x37; x04; xfd; x63; xf3; xe7; x00; x65; xbf;
  x01; x00; x81; x47; x3e; x85; x26; x64; x61; x61; x82; x80;
  x75; x71; x06; xe5; x22; xe1; x00; x09; x23; x34; xa4; xf8;
  x23; x30; xb4; xf8; x23; x3c; xc4; xf6; x83; x35; x84; xf7;
  x03; x35; x04; xf8; xef; xf0; x9f; xf1; xaa; x87; x23; x26;
  xf4; xfe; x83; x27; xc4; xfe; x81; x27; xb9; xe7; x81; x45;
  x03; x35; x84; xf8; xef; xf0; x4f; x9e; x23; x38; xa4; xf8;
  x83; x37; x04; xf9; x91; xef; x97; x36; x00; x00; x93; x86;
  xa6; x4b; x01; x46; x93; x05; x70; x23; x17; x35; x00; x00;
  x13; x05; x45; x4c; xef; x10; x10; x0b; x83; x37; x04; xf9;
  x23; x30; xf4; xfc; x83; x37; x04; xfc; x05; x47; xd8; xcb;
  x83; x37; x04; xfc; x23; xac; x07; x00; x83; x37; x04; xfc;
  xa9; xac; x83; x27; xc4; xfe; x81; x27; x63; xd2; x07; x02;
  x83; x37; x04; xf8; x23; x30; xf4; xfc; x83; x37; x84; xf7;
  x23; x30; xf4; xf8; x83; x37; x04; xfc; x23; x3c; xf4; xf6;
  x85; x47; x23; x26; xf4; xfe; x19; xa0; x23; x26; x04; xfe;
  x83; x37; x04; xf8; x9c; x47; xbe; x85; x03; x35; x84; xf8;
  xef; xf0; x4f; x96; x23; x3c; xa4; xfa; x83; x37; x84; xfb;
  x91; xef; x97; x36; x00; x00; x93; x86; xa6; x43; x01; x46;
  x93; x05; x50; x24; x17; x35; x00; x00; x13; x05; x45; x44;
  xef; x10; x10; x03; x83; x37; x84; xfb; x23; x30; xf4; xfc;
  x83; x37; x04; xfc; x03; x27; xc4; xfe; x98; xcb; x83; x37;
  x04; xf8; xdc; x4b; x23; x24; xf4; xfe; x83; x37; x04; xf8].

Definition INIT_ELF_18 : list byte := [
  xe1; x07; x23; x3c; xf4; xfc; x83; x27; x84; xfe; x8a; x07;
  x03; x37; x84; xfd; xba; x97; x23; x38; xf4; xfa; x83; x37;
  x84; xf7; xdc; x4b; x23; x26; xf4; xfa; x83; x37; x84; xf7;
  xe1; x07; x23; x38; xf4; xfc; x83; x27; xc4; xfa; x8a; x07;
  x03; x37; x04; xfd; xba; x97; x23; x30; xf4; xfa; x83; x37;
  x04; xfc; xe1; x07; x23; x34; xf4; xfc; x23; x22; x04; xfe;
  x83; x37; x84; xfd; x9c; x43; x3e; x87; xc1; x67; xfd; x17;
  xf9; x8f; x1b; x87; x07; x00; x83; x37; x04; xfd; x9c; x43;
  xbe; x86; xc1; x67; xfd; x17; xf5; x8f; x81; x27; xbb; x07;
  xf7; x40; x1b; x87; x07; x00; x83; x27; x44; xfe; xb9; x9f;
  x81; x27; x23; x2e; xf4; xf8; x83; x27; xc4; xf9; x9b; xd7;
  x07; x41; x23; x22; xf4; xfe; x83; x37; x84; xfd; x13; x87;
  x47; x00; x23; x3c; xe4; xfc; x9c; x43; x9b; xd7; x07; x01;
  x1b; x87; x07; x00; x83; x37; x04; xfd; x93; x86; x47; x00;
  x23; x38; xd4; xfc; x9c; x43; x9b; xd7; x07; x01; x81; x27;
  xbb; x07; xf7; x40; x1b; x87; x07; x00; x83; x27; x44; xfe;
  xb9; x9f; x81; x27; x23; x2c; xf4; xf8; x83; x27; x84; xf9;
  x9b; xd7; x07; x41; x23; x22; xf4; xfe; x83; x27; x84; xf9;
  x9b; x97; x07; x01; x1b; x87; x07; x00; x83; x27; xc4; xf9;
  xbe; x86; xc1; x67; xfd; x17; xf5; x8f; x81; x27; xd9; x8f;
  x9b; x86; x07; x00; x83; x37; x84; xfc; x13; x87; x47; x00;
  x23; x34; xe4; xfc; x1b; x87; x06; x00; x98; xc3; x03; x37;
  x04; xfd; x83; x37; x04; xfa; xe3; x6d; xf7; xf2; x71; xa0;
  x83; x37; x84; xfd; x9c; x43; x3e; x87; xc1; x67; xfd; x17;
  xf9; x8f; x1b; x87; x07; x00; x83; x27; x44; xfe; xb9; x9f;
  x81; x27; x23; x2e; xf4; xf8; x83; x27; xc4; xf9; x9b; xd7;
  x07; x41; x23; x22; xf4; xfe; x83; x37; x84; xfd; x13; x87;
  x47; x00; x23; x3c; xe4; xfc; x9c; x43; x9b; xd7; x07; x01;
  x1b; x87; x07; x00; x83; x27; x44; xfe; xb9; x9f; x81; x27;
  x23; x2c; xf4; xf8; x83; x27; x84; xf9; x9b; xd7; x07; x41;
  x23; x22; xf4; xfe; x83; x27; x84; xf9; x9b; x97; x07; x01;
  x1b; x87; x07; x00; x83; x27; xc4; xf9; xbe; x86; xc1; x67;
  xfd; x17; xf5; x8f; x81; x27; xd9; x8f; x9b; x86; x07; x00;
  x83; x37; x84; xfc; x13; x87; x47; x00; x23; x34; xe4; xfc;
  x1b; x87; x06; x00; x98; xc3; x03; x37; x84; xfd; x83; x37;
  x04; xfb; xe3; x67; xf7; xf6; x31; xa0; x83; x27; x84; xfe;
  xfd; x37; x23; x24; xf4; xfe; x83; x37; x84; xfc; xf1; x17;
  x23; x34; xf4; xfc; x83; x37; x84; xfc; x9c; x43; xfd; xd3;
  x83; x37; x04; xfc; x03; x27; x84; xfe; xd8; xcb; x83; x37;
  x04; xfc; x3e; x85; xaa; x60; x0a; x64; x49; x61; x82; x80;
  x79; x71; x22; xf4; x26; xf0; x00; x18; x27; x3c; xa4; xfc;
  x87; x37; x84; xfd; x27; x34; xf4; xfe; x83; x27; xc4; xfe;
  x3e; x87; xb7; x07; xf0; x7f; xf9; x8f; x1b; x87; x07; x00;
  xb7; x07; xc0; xfc; xb9; x9f; x81; x27; x9b; x84; x07; x00;
  xa6; x87; x63; x59; xf0; x00; x9b; x87; x04; x00; x23; x22;
  xf4; xfe; x23; x20; x04; xfe; x99; xa8; xbb; x07; x90; x40;
  x81; x27; x9b; xd7; x47; x41; x9b; x84; x07; x00; x26; x87;
  xcd; x47; x63; xcd; xe7; x00; xb7; x07; x08; x00; xbb; xd7;
  x97; x40; x81; x27; x81; x27; x23; x22; xf4; xfe; x23; x20;
  x04; xfe; x2d; xa0; x23; x22; x04; xfe; x9b; x87; xc4; xfe;
  x9b; x84; x07; x00; x26; x87; xf9; x47; x63; xc9; xe7; x00;
  x26; x87; xb7; x07; x00; x80; xbb; xd7; xe7; x00; x81; x27;
  x11; xa0; x85; x47; x23; x20; xf4; xfe; x87; x37; x04; xfe;
  x53; x85; xf7; x22; x22; x74; x82; x74; x45; x61; x82; x80;
  x5d; x71; x86; xe4; xa2; xe0; x80; x08; x23; x3c; xa4; xfa;
  x23; x38; xb4; xfa; x83; x37; x84; xfb; xe1; x07; x23; x30;
  xf4; xfe; x83; x37; x84; xfb; xdc; x4b; x8a; x07; x03; x37;
  x04; xfe; xba; x97; x23; x34; xf4; xfe; x83; x37; x84; xfe;
  xf1; x17; x23; x34; xf4; xfe; x83; x37; x84; xfe; x9c; x43;
  x23; x2e; xf4; xfc; x83; x27; xc4; xfd; x3e; x85; xef; xf0;
  x6f; xaa; xaa; x87; x23; x2c; xf4; xfc; x93; x07; x00; x02;
  x03; x27; x84; xfd; x99; x9f; x1b; x87; x07; x00; x83; x37;
  x04; xfb; x98; xc3; x83; x27; x84; xfd; x1b; x87; x07; x00;
  xa9; x47; x63; xce; xe7; x06; xad; x47; x03; x27; x84; xfd;
  x99; x9f; x81; x27; x03; x27; xc4; xfd; xbb; x57; xf7; x00;
  x81; x27; x3e; x87; xb7; x07; xf0; x3f; xd9; x8f; x81; x27;
  x23; x26; xf4; xfc; x03; x37; x84; xfe; x83; x37; x04; xfe;
  x63; xfb; xe7; x00; x83; x37; x84; xfe; xf1; x17; x23; x34;
  xf4; xfe; x83; x37; x84; xfe; x9c; x43; x11; xa0; x81; x47;
  x23; x28; xf4; xfc; x83; x27; x84; xfd; xd5; x27; x81; x27;
  x03; x27; xc4; xfd; xbb; x17; xf7; x00; x1b; x87; x07; x00;
  xad; x47; x83; x26; x84; xfd; x95; x9f; x81; x27; x83; x26;
  x04; xfd; xbb; xd7; xf6; x00; x81; x27; xd9; x8f; x81; x27;
  x23; x24; xf4; xfc; xf9; xa8; x03; x37; x84; xfe; x83; x37;
  x04; xfe; x63; xfb; xe7; x00; x83; x37; x84; xfe; xf1; x17;
  x23; x34; xf4; xfe; x83; x37; x84; xfe; x9c; x43; x11; xa0;
  x81; x47; x23; x2a; xf4; xfc; x83; x27; x84; xfd; xd5; x37;
  x23; x2c; xf4; xfc; x83; x27; x84; xfd; x81; x27; xd9; xc7;
  x83; x27; x84; xfd; x03; x27; xc4; xfd; xbb; x17; xf7; x00;
  x1b; x87; x07; x00; x93; x07; x00; x02; x83; x26; x84; xfd;
  x95; x9f; x81; x27; x83; x26; x44; xfd; xbb; xd7; xf6; x00;
  x81; x27; xd9; x8f; x81; x27; x3e; x87; xb7; x07; xf0; x3f;
  xd9; x8f; x81; x27; x23; x26; xf4; xfc; x03; x37; x84; xfe;
  x83; x37; x04; xfe; x63; xfb; xe7; x00; x83; x37; x84; xfe;
  xf1; x17; x23; x34; xf4; xfe; x83; x37; x84; xfe; x9c; x43;
  x11; xa0; x81; x47; x23; x2e; xf4; xfc; x83; x27; x84; xfd;
  x03; x27; x44; xfd; xbb; x17; xf7; x00; x1b; x87; x07; x00;
  x93; x07; x00; x02; x83; x26; x84; xfd; x95; x9f; x81; x27;
  x83; x26; xc4; xfd; xbb; xd7; xf6; x00; x81; x27; xd9; x8f;
  x81; x27; x23; x24; xf4; xfc; x31; xa8; x83; x27; xc4; xfd;
  x3e; x87; xb7; x07; xf0; x3f; xd9; x8f; x81; x27; x23; x26;
  xf4; xfc; x83; x27; x44; xfd; x23; x24; xf4; xfc; x87; x37;
  x84; xfc; x53; x85; xf7; x22; xa6; x60; x06; x64; x61; x61;
  x82; x80; x19; x71; x86; xfc; xa2; xf8; xa6; xf4; x00; x01;
  x23; x3c; xa4; xf8; x27; x38; xa4; xf8; x23; x34; xb4; xf8;
  x23; x30; xc4; xf8; x87; x37; x04; xf9; x27; x38; xf4; xfa;
  x87; x37; x04; xf9; x27; x38; xf4; xfa; x85; x45; x03; x35;
  x84; xf9; xef; xe0; xff; xc8; x23; x38; xa4; xfc; x83; x37;
  x04; xfd; x91; xef; x97; x36; x00; x00; x93; x86; x46; xf6;
  x01; x46; x93; x05; xf0; x30; x17; x35; x00; x00; x13; x05;
  xe5; xf6; xef; x10; xa0; x35; x83; x37; x04; xfd; x23; x34;
  xf4; xfc; x83; x37; x84; xfc; xe1; x07; x23; x30; xf4; xfc;
  x83; x27; x44; xfb; x3e; x87; xb7; x07; x10; x00; xfd; x17;
  xf9; x8f; x81; x27; x23; x24; xf4; xfa; x83; x27; x44; xfb;
  x3e; x87; xb7; x07; x00; x80; x93; xc7; xf7; xff; xf9; x8f;
  x81; x27; x23; x2a; xf4; xfa; x83; x27; x44; xfb; x9b; xd7;
  x47; x01; x81; x27; x23; x2e; xf4; xfa; x83; x27; xc4; xfb;
  x81; x27; x91; xcb; x83; x27; x84; xfa; x3e; x87; xb7; x07;
  x10; x00; xd9; x8f; x81; x27; x23; x24; xf4; xfa; x83; x27;
  x04; xfb; xc1; xcb; x83; x27; x04; xfb; x23; x26; xf4; xfa;
  x93; x07; xc4; xfa; x3e; x85; xef; xf0; x8f; x8d; xaa; x87;
  x23; x2c; xf4; xfc; x83; x27; x84; xfd; x81; x27; x9d; xcf;
  x83; x27; x84; xfa; x13; x07; x00; x02; x83; x26; x84; xfd;
  x15; x9f; x01; x27; xbb; x97; xe7; x00; x1b; x87; x07; x00;
  x83; x27; xc4; xfa; xd9; x8f; x1b; x87; x07; x00; x83; x37;
  x04; xfc; x98; xc3; x83; x27; x84; xfa; x03; x27; x84; xfd;
  xbb; xd7; xe7; x00; x81; x27; x23; x24; xf4; xfa; x31; xa0;
  x03; x27; xc4; xfa; x83; x37; x04; xfc; x98; xc3; x83; x37;
  x04; xfc; x91; x07; x03; x27; x84; xfa; x98; xc3; x9c; x43;
  x99; xc3; x89; x47; x11; xa0; x85; x47; x03; x37; x84; xfc;
  x5c; xcb; x83; x37; x84; xfc; xdc; x4b; x23; x2e; xf4; xfc;
  x2d; xa8; x93; x07; x84; xfa; x3e; x85; xef; xf0; x2f; x85;
  xaa; x87; x23; x2c; xf4; xfc; x03; x27; x84; xfa; x83; x37;
  x04; xfc; x98; xc3; x83; x37; x84; xfc; x05; x47; xd8; xcb;
  x83; x37; x84; xfc; xdc; x4b; x23; x2e; xf4; xfc; x83; x27;
  x84; xfd; x9b; x87; x07; x02; x23; x2c; xf4; xfc; x83; x27;
  xc4; xfb; x81; x27; x8d; xcb; x83; x27; xc4; xfb; x9b; x87;
  xd7; xbc; x81; x27; x03; x27; x84; xfd; xb9; x9f; x1b; x87;
  x07; x00; x83; x37; x84; xf8; x98; xc3; x93; x07; x50; x03;
  x03; x27; x84; xfd; x99; x9f; x1b; x87; x07; x00; x83; x37;
  x04; xf8; x98; xc3; xb9; xa0; x83; x27; xc4; xfb; x9b; x87;
  xe7; xbc; x81; x27; x03; x27; x84; xfd; xb9; x9f; x1b; x87;
  x07; x00; x83; x37; x84; xf8; x98; xc3; x83; x27; xc4; xfd;
  x9b; x97; x57; x00; x9b; x84; x07; x00; x83; x27; xc4; xfd;
  x8a; x07; xf1; x17; x03; x37; x04; xfc; xba; x97; x9c; x43;
  x3e; x85; xef; xe0; xff; xf1; xaa; x87; xbb; x87; xf4; x40;
  x1b; x87; x07; x00; x83; x37; x04; xf8; x98; xc3; x83; x37;
  x84; xfc; x3e; x85; xe6; x70; x46; x74; xa6; x74; x09; x61;
  x82; x80; x39; x71; x06; xfc; x22; xf8; x80; x00; x23; x34;
  xa4; xfc; x23; x30; xb4; xfc; x93; x07; x44; xfd; xbe; x85;
  x03; x35; x84; xfc; xef; xf0; x5f; xbf; xd3; x07; xa5; x22;
  x27; x30; xf4; xfe; x93; x07; x04; xfd; xbe; x85; x03; x35;
  x04; xfc; xef; xf0; xff; xbd; xd3; x07; xa5; x22; x27; x3c;
  xf4; xfc; x03; x27; x44; xfd; x83; x27; x04; xfd; xbb; x07;
  xf7; x40; x1b; x87; x07; x00; x83; x37; x84; xfc; xd4; x4b;
  x83; x37; x04; xfc; xdc; x4b; xbb; x87; xf6; x40; x81; x27;
  x9b; x97; x57; x00; x81; x27; xb9; x9f; x23; x26; xf4; xfe;
  x83; x27; xc4; xfe; x81; x27; x63; x5e; xf0; x00; x03; x27;
  x44; xfe; x83; x27; xc4; xfe; x9b; x97; x47; x01; x81; x27;
  xb9; x9f; x81; x27; x23; x22; xf4; xfe; x15; xa0; x83; x27].

Definition INIT_ELF_19 : list byte := [
  xc4; xfe; xbb; x07; xf0; x40; x23; x26; xf4; xfe; x03; x27;
  xc4; xfd; x83; x27; xc4; xfe; x9b; x97; x47; x01; x81; x27;
  xb9; x9f; x81; x27; x23; x2e; xf4; xfc; x07; x37; x04; xfe;
  x87; x37; x84; xfd; xd3; x77; xf7; x1a; x53; x85; xf7; x22;
  xe2; x70; x42; x74; x21; x61; x82; x80; x79; x71; x22; xf4;
  x00; x18; xaa; x87; x23; x2e; xf4; xfc; x97; x37; x00; x00;
  x93; x87; xc7; xe1; x9c; x23; x27; x34; xf4; xfe; x83; x27;
  xc4; xfd; x1b; x87; x07; x00; xdd; x47; x63; xcc; xe7; x02;
  x17; x37; x00; x00; x13; x07; x87; xcd; x83; x27; xc4; xfd;
  x8e; x07; xba; x97; x9c; x23; x05; xa8; x07; x37; x84; xfe;
  x97; x37; x00; x00; x93; x87; x07; xdf; x9c; x23; xd3; x77;
  xf7; x12; x27; x34; xf4; xfe; x83; x27; xc4; xfd; xfd; x37;
  x23; x2e; xf4; xfc; x83; x27; xc4; xfd; x81; x27; xe3; x4d;
  xf0; xfc; x87; x37; x84; xfe; x53; x85; xf7; x22; x22; x74;
  x45; x61; x82; x80; x5d; x71; xa2; xe4; x80; x08; x23; x34;
  xa4; xfc; xae; x87; x23; x3c; xc4; xfa; x23; x22; xf4; xfc;
  x83; x27; x44; xfc; xfd; x37; x81; x27; x9b; xd7; x57; x40;
  x81; x27; x85; x07; x8a; x07; x03; x37; x84; xfc; xba; x97;
  x23; x30; xf4; xfe; x83; x37; x84; xfb; xe1; x07; x23; x34;
  xf4; xfe; x83; x37; x84; xfb; xdc; x4b; x8a; x07; x03; x37;
  x84; xfe; xba; x97; x23; x3c; xf4; xfc; x39; xa8; x03; x37;
  x84; xfe; x93; x07; x47; x00; x23; x34; xf4; xfe; x83; x37;
  x84; xfc; x93; x86; x47; x00; x23; x34; xd4; xfc; x18; x43;
  x98; xc3; x03; x37; x84; xfe; x83; x37; x84; xfd; xe3; x6e;
  xf7; xfc; x09; xa8; x83; x37; x84; xfc; x13; x87; x47; x00;
  x23; x34; xe4; xfc; x23; xa0; x07; x00; x03; x37; x84; xfc;
  x83; x37; x04; xfe; xe3; x64; xf7; xfe; x01; x00; x01; x00;
  x26; x64; x61; x61; x82; x80; x5d; x71; xa2; xe4; x80; x08;
  x23; x3c; xa4; xfa; xae; x87; x23; x2a; xf4; xfa; x83; x37;
  x84; xfb; xe1; x07; x23; x30; xf4; xfe; x83; x37; x84; xfb;
  xdc; x4b; x23; x2e; xf4; xfc; x83; x27; x44; xfb; x9b; xd7;
  x57; x40; x23; x26; xf4; xfe; x83; x27; xc4; xfe; x3e; x87;
  x83; x27; xc4; xfd; x01; x27; x81; x27; x63; xd7; xe7; x00;
  x83; x27; xc4; xfd; x23; x26; xf4; xfe; x9d; xa8; x83; x27;
  xc4; xfe; x3e; x87; x83; x27; xc4; xfd; x01; x27; x81; x27;
  x63; x53; xf7; x06; x83; x27; x44; xfb; xfd; x8b; x23; x2a;
  xf4; xfa; x83; x27; x44; xfb; x81; x27; xa9; xcb; x83; x27;
  xc4; xfe; x8a; x07; x03; x37; x04; xfe; xba; x97; x9c; x43;
  x23; x2c; xf4; xfc; x83; x27; x84; xfd; x23; x2a; xf4; xfc;
  x83; x27; x44; xfb; x03; x27; x44; xfd; xbb; x57; xf7; x00;
  x23; x2a; xf4; xfc; x83; x27; x44; xfb; x03; x27; x44; xfd;
  xbb; x17; xf7; x00; x23; x2a; xf4; xfc; x83; x27; x44; xfd;
  x3e; x87; x83; x27; x84; xfd; x01; x27; x81; x27; x63; x04;
  xf7; x00; x85; x47; x81; xa0; x83; x37; x04; xfe; x23; x34;
  xf4; xfc; x83; x27; xc4; xfe; x8a; x07; x03; x37; x04; xfe;
  xba; x97; x23; x30; xf4; xfe; x21; xa8; x83; x37; x04; xfe;
  xf1; x17; x23; x30; xf4; xfe; x83; x37; x04; xfe; x9c; x43;
  x99; xc3; x85; x47; x01; xa8; x03; x37; x04; xfe; x83; x37;
  x84; xfc; xe3; xe1; xe7; xfe; x81; x47; x3e; x85; x26; x64;
  x61; x61; x82; x80; x11; x71; x86; xfd; xa2; xf9; x00; x02;
  x23; x3c; xa4; xf0; x23; x38; xb4; xf0; x23; x34; xc4; xf0;
  x83; x37; x04; xf1; x91; xeb; x83; x35; x84; xf0; x03; x35;
  x84; xf1; xef; x90; xcf; xa5; xaa; x87; x6f; x00; x10; x20;
  x03; x35; x84; xf1; xef; x90; xdf; xc0; x83; x37; x04; xf1;
  xc1; x17; x23; x34; xf4; xf8; x83; x37; x84; xf8; x23; x34;
  xf4; xfe; x83; x37; x84; xf8; x9c; x67; xf1; x9b; x23; x30;
  xf4; xf8; x83; x37; x04; xf8; x23; x30; xf4; xfe; x83; x37;
  x84; xf0; x13; x87; x77; x01; x93; x07; xe0; x02; x63; xf7;
  xe7; x00; x83; x37; x84; xf0; xdd; x07; xc1; x9b; x19; xa0;
  x93; x07; x00; x02; x23; x3c; xf4; xf6; x03; x37; x84; xf7;
  xb7; x07; x00; x80; x93; xc7; xf7; xff; x63; xe8; xe7; x00;
  x03; x37; x84; xf7; x83; x37; x84; xf0; x63; x79; xf7; x00;
  x83; x37; x84; xf1; x31; x47; x98; xc3; x81; x47; x6f; x00;
  x70; x18; x03; x37; x04; xf8; x83; x37; x84; xf7; xe3; x5f;
  xf7; x0a; x03; x37; x84; xf8; x83; x37; x04; xf8; xba; x97;
  x23; x3c; xf4; xfc; x97; x47; x00; x00; x93; x87; x87; x8e;
  x9c; x6b; x03; x37; x84; xfd; x63; x0c; xf7; x00; x83; x37;
  x84; xfd; x9c; x67; xf9; x9b; x03; x37; x84; xfd; xba; x97;
  x9c; x67; x85; x8b; xe5; xe7; x83; x37; x84; xfd; x9c; x67;
  xf1; x9b; x23; x38; xf4; xfc; x97; x47; x00; x00; x93; x87;
  x67; x8b; x9c; x6b; x03; x37; x84; xfd; x63; x10; xf7; x08;
  x03; x37; x04; xfd; x83; x37; x04; xfe; xba; x97; x3e; x87;
  x83; x37; x84; xf7; x93; x87; x07; x02; x63; x4f; xf7; x0a;
  x03; x37; x04; xfe; x83; x37; x04; xfd; xba; x97; x23; x30;
  xf4; xfe; x97; x47; x00; x00; x93; x87; xe7; x87; x83; x36;
  x84; xf8; x03; x37; x84; xf7; x36; x97; x98; xeb; x03; x37;
  x04; xfe; x83; x37; x84; xf7; x1d; x8f; x97; x47; x00; x00;
  x93; x87; x07; x86; x9c; x6b; x13; x67; x17; x00; x98; xe7;
  x83; x37; x84; xf8; x9c; x67; x13; xf7; x17; x00; x83; x37;
  x84; xf7; x5d; x8f; x83; x37; x84; xf8; x98; xe7; x03; x35;
  x84; xf1; xef; x90; xdf; xad; x83; x37; x84; xf8; xc1; x07;
  x6f; x00; xd0; x0a; x03; x37; x04; xfd; x83; x37; x04; xfe;
  xba; x97; x3e; x87; x83; x37; x84; xf7; x63; x43; xf7; x04;
  x83; x37; x84; xfd; x9c; x6f; x23; x38; xf4; xf6; x83; x37;
  x84; xfd; x9c; x6b; x23; x34; xf4; xf6; x83; x37; x84; xf6;
  x03; x37; x04; xf7; x98; xef; x83; x37; x04; xf7; x03; x37;
  x84; xf6; x98; xeb; x03; x37; x04; xfe; x83; x37; x04; xfd;
  xba; x97; x23; x30; xf4; xfe; x55; xa7; x23; x3c; x04; xfc;
  x23; x38; x04; xfc; x11; xa0; x01; x00; x83; x37; x84; xf8;
  x9c; x67; x85; x8b; x63; x96; x07; x5c; x83; x37; x84; xf8;
  x9c; x63; xb3; x07; xf0; x40; x03; x37; x84; xf8; xba; x97;
  x23; x30; xf4; xf6; x83; x37; x04; xf6; x9c; x67; xf1; x9b;
  x23; x3c; xf4; xf4; x83; x37; x84; xfd; x63; x8b; x07; x3e;
  x97; x37; x00; x00; x93; x87; xc7; x79; x9c; x6b; x03; x37;
  x84; xfd; x63; x15; xf7; x20; x03; x37; x04; xfd; x83; x37;
  x84; xf5; x3e; x97; x83; x37; x04; xfe; xba; x97; x3e; x87;
  x83; x37; x84; xf7; x93; x87; x07; x02; x63; x43; xf7; x3c;
  x83; x37; x04; xf6; x9c; x6f; x23; x38; xf4; xf6; x83; x37;
  x04; xf6; x9c; x6b; x23; x34; xf4; xf6; x83; x37; x84; xf6;
  x03; x37; x04; xf7; x98; xef; x83; x37; x04; xf7; x03; x37;
  x84; xf6; x98; xeb; x83; x37; x04; xf6; x23; x34; xf4; xfe;
  x03; x37; x84; xf5; x83; x37; x04; xfd; xba; x97; x03; x37;
  x04; xfe; xba; x97; x23; x30; xf4; xfe; x83; x37; x84; xfe;
  xc1; x07; x23; x38; xf4; xf4; x83; x37; x04; xf8; xe1; x17;
  x23; x30; xf4; xf4; x03; x37; x04; xf4; x93; x07; x80; x04;
  x63; xe3; xe7; x12; x83; x37; x04; xf1; x23; x34; xf4; xfc;
  x83; x37; x04; xf5; x23; x30; xf4; xfc; x03; x37; x04; xf4;
  x93; x07; x70; x02; x63; xf2; xe7; x0c; x03; x37; x84; xfc;
  x93; x07; x87; x00; x23; x34; xf4; xfc; x83; x37; x04; xfc;
  x93; x86; x87; x00; x23; x30; xd4; xfc; x18; x63; x98; xe3;
  x03; x37; x84; xfc; x93; x07; x87; x00; x23; x34; xf4; xfc;
  x83; x37; x04; xfc; x93; x86; x87; x00; x23; x30; xd4; xfc;
  x18; x63; x98; xe3; x03; x37; x04; xf4; x93; x07; x70; x03;
  x63; xf0; xe7; x08; x03; x37; x84; xfc; x93; x07; x87; x00;
  x23; x34; xf4; xfc; x83; x37; x04; xfc; x93; x86; x87; x00;
  x23; x30; xd4; xfc; x18; x63; x98; xe3; x03; x37; x84; xfc;
  x93; x07; x87; x00; x23; x34; xf4; xfc; x83; x37; x04; xfc;
  x93; x86; x87; x00; x23; x30; xd4; xfc; x18; x63; x98; xe3;
  x03; x37; x04; xf4; x93; x07; x70; x04; x63; xfe; xe7; x02;
  x03; x37; x84; xfc; x93; x07; x87; x00; x23; x34; xf4; xfc;
  x83; x37; x04; xfc; x93; x86; x87; x00; x23; x30; xd4; xfc;
  x18; x63; x98; xe3; x03; x37; x84; xfc; x93; x07; x87; x00;
  x23; x34; xf4; xfc; x83; x37; x04; xfc; x93; x86; x87; x00;
  x23; x30; xd4; xfc; x18; x63; x98; xe3; x03; x37; x84; xfc;
  x93; x07; x87; x00; x23; x34; xf4; xfc; x83; x37; x04; xfc;
  x93; x86; x87; x00; x23; x30; xd4; xfc; x18; x63; x98; xe3;
  x03; x37; x84; xfc; x93; x07; x87; x00; x23; x34; xf4; xfc;
  x83; x37; x04; xfc; x93; x86; x87; x00; x23; x30; xd4; xfc;
  x18; x63; x98; xe3; x83; x37; x84; xfc; x98; x63; x83; x37;
  x04; xfc; x98; xe3; x09; xa8; x03; x36; x04; xf4; x83; x35;
  x04; xf1; x03; x35; x04; xf5; xef; xc0; x4f; xbf; x97; x37;
  x00; x00; x93; x87; x67; x5d; x83; x36; x84; xfe; x03; x37;
  x84; xf7; x36; x97; x98; xeb; x03; x37; x04; xfe; x83; x37;
  x84; xf7; x1d; x8f; x97; x37; x00; x00; x93; x87; x87; x5b;
  x9c; x6b; x13; x67; x17; x00; x98; xe7; x83; x37; x84; xfe;
  x9c; x67; x13; xf7; x17; x00; x83; x37; x84; xf7; x5d; x8f;
  x83; x37; x84; xfe; x98; xe7; x03; x35; x84; xf1; xef; x90;
  x5f; x83; x83; x37; x04; xf5; x19; xa5; x03; x37; x04; xfd;
  x83; x37; x84; xf5; x3e; x97; x83; x37; x04; xfe; xba; x97;
  x3e; x87; x83; x37; x84; xf7; x63; x42; xf7; x1c; x83; x37;
  x84; xfd; x9c; x6f; x23; x38; xf4; xf6; x83; x37; x84; xfd;
  x9c; x6b; x23; x34; xf4; xf6; x83; x37; x84; xf6; x03; x37;
  x04; xf7; x98; xef; x83; x37; x04; xf7; x03; x37; x84; xf6;
  x98; xeb; x83; x37; x04; xf6; x9c; x6f; x23; x38; xf4; xf6;
  x83; x37; x04; xf6; x9c; x6b; x23; x34; xf4; xf6; x83; x37;
  x84; xf6; x03; x37; x04; xf7; x98; xef; x83; x37; x04; xf7;
  x03; x37; x84; xf6; x98; xeb; x83; x37; x04; xf6; x23; x34;
  xf4; xfe; x03; x37; x04; xfd; x83; x37; x84; xf5; xba; x97;
  x03; x37; x04; xfe; xba; x97; x23; x30; xf4; xfe; x83; x37;
  x84; xfe; xc1; x07; x23; x38; xf4; xf4; x83; x37; x04; xf8].

Definition INIT_ELF_20 : list byte := [
  xe1; x17; x23; x34; xf4; xf4; x03; x37; x84; xf4; x93; x07;
  x80; x04; x63; xe3; xe7; x12; x83; x37; x04; xf1; x23; x3c;
  xf4; xfa; x83; x37; x04; xf5; x23; x38; xf4; xfa; x03; x37;
  x84; xf4; x93; x07; x70; x02; x63; xf2; xe7; x0c; x03; x37;
  x84; xfb; x93; x07; x87; x00; x23; x3c; xf4; xfa; x83; x37;
  x04; xfb; x93; x86; x87; x00; x23; x38; xd4; xfa; x18; x63;
  x98; xe3; x03; x37; x84; xfb; x93; x07; x87; x00; x23; x3c;
  xf4; xfa; x83; x37; x04; xfb; x93; x86; x87; x00; x23; x38;
  xd4; xfa; x18; x63; x98; xe3; x03; x37; x84; xf4; x93; x07;
  x70; x03; x63; xf0; xe7; x08; x03; x37; x84; xfb; x93; x07;
  x87; x00; x23; x3c; xf4; xfa; x83; x37; x04; xfb; x93; x86;
  x87; x00; x23; x38; xd4; xfa; x18; x63; x98; xe3; x03; x37;
  x84; xfb; x93; x07; x87; x00; x23; x3c; xf4; xfa; x83; x37;
  x04; xfb; x93; x86; x87; x00; x23; x38; xd4; xfa; x18; x63;
  x98; xe3; x03; x37; x84; xf4; x93; x07; x70; x04; x63; xfe;
  xe7; x02; x03; x37; x84; xfb; x93; x07; x87; x00; x23; x3c;
  xf4; xfa; x83; x37; x04; xfb; x93; x86; x87; x00; x23; x38;
  xd4; xfa; x18; x63; x98; xe3; x03; x37; x84; xfb; x93; x07;
  x87; x00; x23; x3c; xf4; xfa; x83; x37; x04; xfb; x93; x86;
  x87; x00; x23; x38; xd4; xfa; x18; x63; x98; xe3; x03; x37;
  x84; xfb; x93; x07; x87; x00; x23; x3c; xf4; xfa; x83; x37;
  x04; xfb; x93; x86; x87; x00; x23; x38; xd4; xfa; x18; x63;
  x98; xe3; x03; x37; x84; xfb; x93; x07; x87; x00; x23; x3c;
  xf4; xfa; x83; x37; x04; xfb; x93; x86; x87; x00; x23; x38;
  xd4; xfa; x18; x63; x98; xe3; x83; x37; x84; xfb; x98; x63;
  x83; x37; x04; xfb; x98; xe3; x51; xa6; x03; x36; x84; xf4;
  x83; x35; x04; xf1; x03; x35; x04; xf5; xef; xc0; xaf; x9c;
  x8d; xae; x83; x37; x04; xf6; x63; x85; x07; x1a; x03; x37;
  x84; xf5; x83; x37; x04; xfe; xba; x97; x3e; x87; x83; x37;
  x84; xf7; x63; x4b; xf7; x18; x83; x37; x04; xf6; x9c; x6f;
  x23; x38; xf4; xf6; x83; x37; x04; xf6; x9c; x6b; x23; x34;
  xf4; xf6; x83; x37; x84; xf6; x03; x37; x04; xf7; x98; xef;
  x83; x37; x04; xf7; x03; x37; x84; xf6; x98; xeb; x83; x37;
  x04; xf6; x23; x34; xf4; xfe; x03; x37; x04; xfe; x83; x37;
  x84; xf5; xba; x97; x23; x30; xf4; xfe; x83; x37; x84; xfe;
  xc1; x07; x23; x38; xf4; xf4; x83; x37; x04; xf8; xe1; x17;
  x23; x3c; xf4; xf2; x03; x37; x84; xf3; x93; x07; x80; x04;
  x63; xe3; xe7; x12; x83; x37; x04; xf1; x23; x34; xf4; xfa;
  x83; x37; x04; xf5; x23; x30; xf4; xfa; x03; x37; x84; xf3;
  x93; x07; x70; x02; x63; xf2; xe7; x0c; x03; x37; x84; xfa;
  x93; x07; x87; x00; x23; x34; xf4; xfa; x83; x37; x04; xfa;
  x93; x86; x87; x00; x23; x30; xd4; xfa; x18; x63; x98; xe3;
  x03; x37; x84; xfa; x93; x07; x87; x00; x23; x34; xf4; xfa;
  x83; x37; x04; xfa; x93; x86; x87; x00; x23; x30; xd4; xfa;
  x18; x63; x98; xe3; x03; x37; x84; xf3; x93; x07; x70; x03;
  x63; xf0; xe7; x08; x03; x37; x84; xfa; x93; x07; x87; x00;
  x23; x34; xf4; xfa; x83; x37; x04; xfa; x93; x86; x87; x00;
  x23; x30; xd4; xfa; x18; x63; x98; xe3; x03; x37; x84; xfa;
  x93; x07; x87; x00; x23; x34; xf4; xfa; x83; x37; x04; xfa;
  x93; x86; x87; x00; x23; x30; xd4; xfa; x18; x63; x98; xe3;
  x03; x37; x84; xf3; x93; x07; x70; x04; x63; xfe; xe7; x02;
  x03; x37; x84; xfa; x93; x07; x87; x00; x23; x34; xf4; xfa;
  x83; x37; x04; xfa; x93; x86; x87; x00; x23; x30; xd4; xfa;
  x18; x63; x98; xe3; x03; x37; x84; xfa; x93; x07; x87; x00;
  x23; x34; xf4; xfa; x83; x37; x04; xfa; x93; x86; x87; x00;
  x23; x30; xd4; xfa; x18; x63; x98; xe3; x03; x37; x84; xfa;
  x93; x07; x87; x00; x23; x34; xf4; xfa; x83; x37; x04; xfa;
  x93; x86; x87; x00; x23; x30; xd4; xfa; x18; x63; x98; xe3;
  x03; x37; x84; xfa; x93; x07; x87; x00; x23; x34; xf4; xfa;
  x83; x37; x04; xfa; x93; x86; x87; x00; x23; x30; xd4; xfa;
  x18; x63; x98; xe3; x83; x37; x84; xfa; x98; x63; x83; x37;
  x04; xfa; x98; xe3; xd9; xaa; x03; x36; x84; xf3; x83; x35;
  x04; xf1; x03; x35; x04; xf5; xef; xc0; xcf; x81; xd1; xa2;
  x83; x35; x84; xf0; x03; x35; x84; xf1; xef; x80; xbf; xac;
  x23; x38; xa4; xf4; x83; x37; x04; xf5; x99; xe7; x03; x35;
  x84; xf1; xef; x90; x8f; xc8; x81; x47; xb1; xac; x83; x37;
  x04; xf5; xc1; x17; x23; x34; xf4; xfe; x83; x37; x84; xf8;
  x9c; x67; xf9; x9b; x03; x37; x84; xf8; xba; x97; x03; x37;
  x84; xfe; x63; x10; xf7; x02; x83; x37; x84; xfe; x9c; x67;
  xf1; x9b; x03; x37; x04; xfe; xba; x97; x23; x30; xf4; xfe;
  x83; x37; x84; xf8; x23; x34; xf4; xfe; x9d; xa2; x83; x37;
  x04; xf8; xe1; x17; x23; x38; xf4; xf2; x03; x37; x04; xf3;
  x93; x07; x80; x04; x63; xe3; xe7; x12; x83; x37; x04; xf1;
  x23; x3c; xf4; xf8; x83; x37; x04; xf5; x23; x38; xf4; xf8;
  x03; x37; x04; xf3; x93; x07; x70; x02; x63; xf2; xe7; x0c;
  x03; x37; x84; xf9; x93; x07; x87; x00; x23; x3c; xf4; xf8;
  x83; x37; x04; xf9; x93; x86; x87; x00; x23; x38; xd4; xf8;
  x18; x63; x98; xe3; x03; x37; x84; xf9; x93; x07; x87; x00;
  x23; x3c; xf4; xf8; x83; x37; x04; xf9; x93; x86; x87; x00;
  x23; x38; xd4; xf8; x18; x63; x98; xe3; x03; x37; x04; xf3;
  x93; x07; x70; x03; x63; xf0; xe7; x08; x03; x37; x84; xf9;
  x93; x07; x87; x00; x23; x3c; xf4; xf8; x83; x37; x04; xf9;
  x93; x86; x87; x00; x23; x38; xd4; xf8; x18; x63; x98; xe3;
  x03; x37; x84; xf9; x93; x07; x87; x00; x23; x3c; xf4; xf8;
  x83; x37; x04; xf9; x93; x86; x87; x00; x23; x38; xd4; xf8;
  x18; x63; x98; xe3; x03; x37; x04; xf3; x93; x07; x70; x04;
  x63; xfe; xe7; x02; x03; x37; x84; xf9; x93; x07; x87; x00;
  x23; x3c; xf4; xf8; x83; x37; x04; xf9; x93; x86; x87; x00;
  x23; x38; xd4; xf8; x18; x63; x98; xe3; x03; x37; x84; xf9;
  x93; x07; x87; x00; x23; x3c; xf4; xf8; x83; x37; x04; xf9;
  x93; x86; x87; x00; x23; x38; xd4; xf8; x18; x63; x98; xe3;
  x03; x37; x84; xf9; x93; x07; x87; x00; x23; x3c; xf4; xf8;
  x83; x37; x04; xf9; x93; x86; x87; x00; x23; x38; xd4; xf8;
  x18; x63; x98; xe3; x03; x37; x84; xf9; x93; x07; x87; x00;
  x23; x3c; xf4; xf8; x83; x37; x04; xf9; x93; x86; x87; x00;
  x23; x38; xd4; xf8; x18; x63; x98; xe3; x83; x37; x84; xf9;
  x98; x63; x83; x37; x04; xf9; x98; xe3; x09; xa8; x03; x36;
  x04; xf3; x83; x35; x04; xf1; x03; x35; x04; xf5; xef; xb0;
  x5f; xe7; x83; x35; x04; xf1; x03; x35; x84; xf1; xef; x70;
  x1f; xfb; x03; x35; x84; xf1; xef; x90; xcf; xae; x83; x37;
  x04; xf5; x7d; xa8; x01; x00; x03; x37; x04; xfe; x83; x37;
  x84; xf7; xb3; x07; xf7; x40; x23; x34; xf4; xf2; x03; x37;
  x84; xf2; xfd; x47; x63; xf2; xe7; x06; x03; x37; x84; xfe;
  x83; x37; x84; xf7; xba; x97; x23; x30; xf4; xf2; x83; x37;
  x84; xfe; x9c; x67; x13; xf7; x17; x00; x83; x37; x84; xf7;
  x5d; x8f; x83; x37; x84; xfe; x98; xe7; x83; x37; x84; xf2;
  x13; xe7; x17; x00; x83; x37; x04; xf2; x98; xe7; x03; x37;
  x04; xf2; x83; x37; x84; xf2; xba; x97; x98; x67; x83; x36;
  x04; xf2; x83; x37; x84; xf2; xb6; x97; x13; x67; x17; x00;
  x98; xe7; x83; x37; x04; xf2; xc1; x07; xbe; x85; x03; x35;
  x84; xf1; xef; x70; x9f; xf2; x15; xa8; x83; x37; x84; xfe;
  x9c; x67; x13; xf7; x17; x00; x83; x37; x04; xfe; x5d; x8f;
  x83; x37; x84; xfe; x98; xe7; x03; x37; x84; xfe; x83; x37;
  x04; xfe; xba; x97; x98; x67; x83; x36; x84; xfe; x83; x37;
  x04; xfe; xb6; x97; x13; x67; x17; x00; x98; xe7; x03; x35;
  x84; xf1; xef; x90; x0f; xa3; x83; x37; x84; xfe; xc1; x07;
  x3e; x85; xee; x70; x4e; x74; x11; x61; x82; x80; x5d; x71;
  x86; xe4; xa2; xe0; x26; xfc; x4a; xf8; x80; x08; x23; x3c;
  xa4; xfa; xae; x84; x83; x97; x04; x01; xc2; x17; xc1; x93;
  x81; x27; x89; x8b; x81; x27; x89; xcb; x93; x87; x74; x07;
  x9c; xe0; x9c; x60; x9c; xec; x85; x47; x9c; xd0; xed; xa0;
  x13; x07; xc4; xfc; x93; x07; x04; xfd; xba; x86; x3e; x86;
  xa6; x85; x03; x35; x84; xfb; xef; x00; x20; x0e; xaa; x87;
  x23; x2e; xf4; xfc; x83; x37; x04; xfd; xbe; x85; x03; x35;
  x84; xfb; xef; x80; x4f; xff; x2a; x89; x63; x12; x09; x04;
  x83; x97; x04; x01; xc2; x17; xc1; x93; x81; x27; x93; xf7;
  x07; x20; x81; x27; xc5; xe7; x83; x97; x04; x01; xf1; x9b;
  x9b; x97; x07; x01; x9b; xd7; x07; x41; x93; xe7; x27; x00;
  x9b; x97; x07; x01; x9b; xd7; x07; x41; x23; x98; xf4; x00;
  x93; x87; x74; x07; x9c; xe0; x9c; x60; x9c; xec; x85; x47;
  x9c; xd0; xad; xa8; x83; x97; x04; x01; x93; xe7; x07; x08;
  x9b; x97; x07; x01; x9b; xd7; x07; x41; x23; x98; xf4; x00;
  x23; xb0; x24; x01; x9c; x60; x9c; xec; x83; x37; x04; xfd;
  x81; x27; x9c; xd0; x83; x27; xc4; xfc; x8d; xcb; x83; x97;
  x24; x01; xbe; x85; x03; x35; x84; xfb; xef; x00; x80; x26;
  xaa; x87; x85; xc3; x83; x97; x04; x01; xf1; x9b; x9b; x97;
  x07; x01; x9b; xd7; x07; x41; x93; xe7; x17; x00; x9b; x97;
  x07; x01; x9b; xd7; x07; x41; x23; x98; xf4; x00; x03; x97;
  x04; x01; x83; x27; xc4; xfd; x9b; x97; x07; x01; x9b; xd7;
  x07; x41; xd9; x8f; x9b; x97; x07; x01; x9b; xd7; x07; x41;
  x23; x98; xf4; x00; xa6; x60; x06; x64; xe2; x74; x42; x79;
  x61; x61; x82; x80; x35; x71; x06; xed; x22; xe9; x00; x11;
  x23; x3c; xa4; xf6; x23; x38; xb4; xf6; x23; x34; xc4; xf6;
  x23; x30; xd4; xf6; x85; x67; x93; x87; x07; x80; x23; x26;
  xf4; xfe; x83; x37; x04; xf7; x83; x97; x27; x01; x63; xc2;
  x07; x02; x83; x37; x04; xf7; x83; x97; x27; x01; x3e; x87;
  x93; x07; x04; xf8; x3e; x86; xba; x85; x03; x35; x84; xf7;
  xef; x00; x20; x17; xaa; x87; x63; xde; x07; x02; x83; x37;
  x04; xf6; x23; xa0; x07; x00; x83; x37; x04; xf7; x83; x97;
  x07; x01; xc2; x17; xc1; x93; x81; x27; x93; xf7; x07; x08].

Definition INIT_ELF_21 : list byte := [
  x81; x27; x99; xc7; x83; x37; x84; xf6; x13; x07; x00; x04;
  x98; xe3; x31; xa0; x83; x37; x84; xf6; x13; x07; x00; x40;
  x98; xe3; x81; x47; x1d; xa8; x83; x27; x44; xf8; x3e; x87;
  xbd; x67; xf9; x8f; x81; x27; x3e; x87; x89; x67; xb3; x07;
  xf7; x40; x93; xb7; x17; x00; x93; xf7; xf7; x0f; x1b; x87;
  x07; x00; x83; x37; x04; xf6; x98; xc3; x83; x37; x84; xf6;
  x13; x07; x00; x40; x98; xe3; x83; x27; xc4; xfe; x3e; x85;
  xea; x60; x4a; x64; x0d; x61; x82; x80; x41; x11; x22; xe4;
  x00; x08; x97; x37; x00; x00; x93; x87; x67; x59; x3e; x85;
  x22; x64; x41; x01; x82; x80; x41; x11; x06; xe4; x22; xe0;
  x00; x08; xef; xf0; x3f; xfe; xaa; x87; x3e; x85; xa2; x60;
  x02; x64; x41; x01; x82; x80; x79; x71; x06; xf4; x22; xf0;
  x00; x18; x23; x34; xa4; xfe; xae; x87; x23; x3c; xc4; xfc;
  x23; x22; xf4; xfe; x83; x37; x84; xfd; xa9; xc3; x97; x25;
  x00; x00; x93; x85; xa5; xfc; x03; x35; x84; xfd; xef; x00;
  x80; x15; xaa; x87; x9d; xc7; x97; x25; x00; x00; x93; x85;
  xe5; xfb; x03; x35; x84; xfd; xef; x00; x40; x14; xaa; x87;
  x89; xcf; x97; x25; x00; x00; x93; x85; xa5; xf9; x03; x35;
  x84; xfd; xef; x00; x00; x13; xaa; x87; x99; xc3; x81; x47;
  x29; xa0; x97; x27; x00; x00; x93; x87; x27; xf9; x3e; x85;
  xa2; x70; x02; x74; x45; x61; x82; x80; x41; x11; x06; xe4;
  x22; xe0; x00; x08; xef; xf0; x3f; xf7; xaa; x87; x83; xc7;
  x07; x16; x81; x27; x3e; x85; xa2; x60; x02; x64; x41; x01;
  x82; x80; x01; x11; x06; xec; x22; xe8; x00; x10; xaa; x87;
  x23; x30; xb4; xfe; x23; x26; xf4; xfe; x97; x37; x00; x00;
  x93; x87; x07; x68; x9c; x63; x03; x27; xc4; xfe; x03; x36;
  x04; xfe; xba; x85; x3e; x85; xef; xf0; xdf; xf4; xaa; x87;
  x3e; x85; xe2; x60; x42; x64; x05; x61; x82; x80; x39; x71;
  x06; xfc; x22; xf8; x80; x00; x23; x3c; xa4; xfc; xae; x87;
  x23; x34; xc4; xfc; x23; x2a; xf4; xfc; x93; x87; x01; x83;
  x23; xa0; x07; x00; x83; x27; x44; xfd; x83; x35; x84; xfc;
  x3e; x85; xef; x70; xcf; xf7; xaa; x87; x23; x26; xf4; xfe;
  x83; x27; xc4; xfe; x1b; x87; x07; x00; xfd; x57; x63; x1c;
  xf7; x00; x93; x87; x01; x83; x9c; x43; x99; xc7; x93; x87;
  x01; x83; x98; x43; x83; x37; x84; xfd; x98; xc3; x83; x27;
  xc4; xfe; x3e; x85; xe2; x70; x42; x74; x21; x61; x82; x80;
  x79; x71; x06; xf4; x22; xf0; x00; x18; x23; x3c; xa4; xfc;
  xae; x87; x23; x2a; xf4; xfc; x93; x87; x01; x83; x23; xa0;
  x07; x00; x83; x27; x44; xfd; x3e; x85; xef; x70; x4f; xf7;
  xaa; x87; x23; x26; xf4; xfe; x83; x27; xc4; xfe; x1b; x87;
  x07; x00; xfd; x57; x63; x1c; xf7; x00; x93; x87; x01; x83;
  x9c; x43; x99; xc7; x93; x87; x01; x83; x98; x43; x83; x37;
  x84; xfd; x98; xc3; x83; x27; xc4; xfe; x3e; x85; xa2; x70;
  x02; x74; x45; x61; x82; x80; x33; x67; xb5; x00; xfd; x53;
  x1d; x8b; x4d; xeb; x97; x37; x00; x00; x83; xb7; xc7; x58;
  x10; x61; x94; x61; xb3; x72; xf6; x00; x33; x63; xf6; x00;
  xbe; x92; xb3; xe2; x62; x00; x63; x99; x72; x0a; x63; x1e;
  xd6; x02; x10; x65; x94; x65; xb3; x72; xf6; x00; x33; x63;
  xf6; x00; xbe; x92; xb3; xe2; x62; x00; x63; x9a; x72; x08;
  x63; x11; xd6; x02; x10; x69; x94; x69; xb3; x72; xf6; x00;
  x33; x63; xf6; x00; xbe; x92; xb3; xe2; x62; x00; x63; x93;
  x72; x08; x61; x05; xe1; x05; xe3; x09; xd6; xfa; x13; x17;
  x06; x03; x93; x97; x06; x03; x63; x18; xf7; x02; x13; x17;
  x06; x02; x93; x97; x06; x02; x63; x12; xf7; x02; x13; x17;
  x06; x01; x93; x97; x06; x01; x63; x1c; xf7; x00; x13; x57;
  x06; x03; x93; xd7; x06; x03; x33; x05; xf7; x40; x93; x75;
  xf5; x0f; x91; xe9; x82; x80; x41; x93; xc1; x93; x33; x05;
  xf7; x40; x93; x75; xf5; x0f; x91; xe1; x82; x80; x13; x77;
  xf7; x0f; x93; xf7; xf7; x0f; x33; x05; xf7; x40; x82; x80;
  x03; x46; x05; x00; x83; xc6; x05; x00; x05; x05; x85; x05;
  x63; x13; xd6; x00; x65; xfa; x33; x05; xd6; x40; x82; x80;
  x21; x05; xa1; x05; xe3; x12; xd6; xfe; x01; x45; x82; x80;
  x41; x05; xc1; x05; xe3; x1c; xd6; xfc; x01; x45; x82; x80;
  x79; x71; x06; xf4; x22; xf0; x00; x18; x23; x34; xa4; xfe;
  xae; x87; x23; x3c; xc4; xfc; x23; x38; xd4; xfc; x23; x22;
  xf4; xfe; x97; x37; x00; x00; x93; x87; xa7; x49; x9c; x63;
  x88; x6f; x83; x37; x84; xfd; x91; xc7; x97; x27; x00; x00;
  x93; x87; x07; xd6; x29; xa0; x97; x27; x00; x00; x93; x87;
  x67; xd6; x03; x37; x84; xfd; x01; xc7; x03; x37; x84; xfd;
  x29; xa0; x17; x27; x00; x00; x13; x07; x27; xd5; x83; x26;
  x44; xfe; x3a; x88; x36; x87; x83; x36; x84; xfe; x03; x36;
  x04; xfd; x97; x25; x00; x00; x93; x85; x25; xd4; xef; x00;
  x60; x3a; xef; x10; x60; x28; x79; x71; x06; xf4; x22; xf0;
  x00; x18; x23; x34; xa4; xfe; xae; x87; x23; x3c; xc4; xfc;
  x23; x22; xf4; xfe; x83; x27; x44; xfe; x83; x36; x84; xfd;
  x01; x46; xbe; x85; x03; x35; x84; xfe; xef; xf0; x9f; xf6;
  x1d; x71; x86; xec; xa2; xe8; x80; x10; x23; x3c; xa4; xfa;
  x23; x38; xb4; xfa; x23; x34; xc4; xfa; x01; x46; x03; x37;
  x04; xfb; x83; x37; x84; xfa; xb3; x36; xf7; x02; xb3; x07;
  xf7; x02; x91; xc2; x05; x46; x23; x30; xf4; xfc; xb2; x87;
  x85; x8b; x93; xf7; xf7; x0f; x81; xcb; xef; xb0; x3f; x82;
  x2a; x87; xb1; x47; x1c; xc3; x81; x47; x09; xaa; x83; x37;
  x04; xfc; xbe; x85; x03; x35; x84; xfb; xef; x80; xef; xad;
  x23; x30; xa4; xfe; x83; x37; x04; xfe; x99; xe3; x81; x47;
  xdd; xa8; x83; x37; x04; xfe; xc1; x17; x23; x3c; xf4; xfc;
  x83; x37; x84; xfd; x9c; x67; xf1; x9b; x23; x38; xf4; xfc;
  x83; x37; x04; xfd; xe1; x17; x23; x34; xf4; xfc; x03; x37;
  x84; xfc; x93; x07; x80; x04; x63; xed; xe7; x0a; x83; x37;
  x04; xfe; x23; x34; xf4; xfe; x03; x37; x84; xfc; x93; x07;
  x70; x02; x63; xfe; xe7; x06; x83; x37; x84; xfe; x13; x87;
  x87; x00; x23; x34; xe4; xfe; x23; xb0; x07; x00; x83; x37;
  x84; xfe; x13; x87; x87; x00; x23; x34; xe4; xfe; x23; xb0;
  x07; x00; x03; x37; x84; xfc; x93; x07; x70; x03; x63; xf8;
  xe7; x04; x83; x37; x84; xfe; x13; x87; x87; x00; x23; x34;
  xe4; xfe; x23; xb0; x07; x00; x83; x37; x84; xfe; x13; x87;
  x87; x00; x23; x34; xe4; xfe; x23; xb0; x07; x00; x03; x37;
  x84; xfc; x93; x07; x70; x04; x63; xf2; xe7; x02; x83; x37;
  x84; xfe; x13; x87; x87; x00; x23; x34; xe4; xfe; x23; xb0;
  x07; x00; x83; x37; x84; xfe; x13; x87; x87; x00; x23; x34;
  xe4; xfe; x23; xb0; x07; x00; x83; x37; x84; xfe; x13; x87;
  x87; x00; x23; x34; xe4; xfe; x23; xb0; x07; x00; x83; x37;
  x84; xfe; x13; x87; x87; x00; x23; x34; xe4; xfe; x23; xb0;
  x07; x00; x83; x37; x84; xfe; x23; xb0; x07; x00; x01; xa8;
  x03; x36; x84; xfc; x81; x45; x03; x35; x04; xfe; xef; x70;
  x8f; xe9; x83; x37; x04; xfe; x3e; x85; xe6; x60; x46; x64;
  x25; x61; x82; x80; x41; x11; x22; xe4; x00; x08; x97; x37;
  x00; x00; x93; x87; x27; x10; x3e; x85; x22; x64; x41; x01;
  x82; x80; x41; x11; x06; xe4; x22; xe0; x00; x08; xef; xf0;
  x3f; xfe; xaa; x87; x3e; x85; xa2; x60; x02; x64; x41; x01;
  x82; x80; x39; x71; x06; xfc; x22; xf8; x80; x00; x23; x34;
  xa4; xfe; x23; x30; xb4; xfe; x23; x3c; xc4; xfc; x23; x38;
  xd4; xfc; x23; x34; xe4; xfc; xef; xf0; xdf; xfc; xaa; x87;
  xfc; x77; x03; x37; x84; xfc; x83; x36; x04; xfd; x03; x36;
  x84; xfd; x83; x35; x04; xfe; x03; x35; x84; xfe; x82; x97;
  xaa; x87; x3e; x85; xe2; x70; x42; x74; x21; x61; x82; x80;
  x5d; x71; xa2; xe4; x80; x08; x23; x3c; xa4; xfc; x23; x38;
  xb4; xfc; x23; x34; xc4; xfc; x23; x30; xd4; xfc; x23; x3c;
  xe4; xfa; x83; x37; x84; xfc; x23; x34; xf4; xfe; x83; x37;
  x04; xfd; x89; xe7; x93; x07; x44; xfe; x23; x38; xf4; xfc;
  x83; x37; x84; xfc; x99; xe3; x81; x47; x3d; xa0; x83; x37;
  x04; xfc; x99; xe3; xf9; x57; x15; xa0; x83; x37; x84; xfe;
  x83; xc7; x07; x00; x1b; x87; x07; x00; x83; x37; x04; xfd;
  x98; xc3; x83; x37; x84; xfe; x83; xc7; x07; x00; x99; xe3;
  x81; x47; x11; xa0; x85; x47; x3e; x85; x26; x64; x61; x61;
  x82; x80; x41; x11; x22; xe4; x00; x08; x97; x37; x00; x00;
  x93; x87; x07; x02; x3e; x85; x22; x64; x41; x01; x82; x80;
  x41; x11; x06; xe4; x22; xe0; x00; x08; xef; xf0; x3f; xfe;
  xaa; x87; x3e; x85; xa2; x60; x02; x64; x41; x01; x82; x80;
  x79; x71; x06; xf4; x22; xf0; x00; x18; x23; x34; xa4; xfe;
  x23; x30; xb4; xfe; xb2; x87; x23; x38; xd4; xfc; x23; x2e;
  xf4; xfc; xef; xf0; xff; xfc; xaa; x87; xfc; x73; x03; x27;
  xc4; xfd; x83; x36; x04; xfd; x3a; x86; x83; x35; x04; xfe;
  x03; x35; x84; xfe; x82; x97; xaa; x87; x3e; x85; xa2; x70;
  x02; x74; x45; x61; x82; x80; x39; x71; x22; xfc; x80; x00;
  x23; x3c; xa4; xfc; x23; x38; xb4; xfc; xb2; x87; x23; x30;
  xd4; xfc; x23; x26; xf4; xfc; x83; x27; xc4; xfc; x23; x26;
  xf4; xfe; x83; x37; x04; xfd; x99; xe3; x81; x47; x0d; xa8;
  x83; x27; xc4; xfe; x1b; x87; x07; x00; x93; x07; xf0; x0f;
  x63; xf9; xe7; x00; x83; x37; x84; xfd; x13; x07; xa0; x08;
  x98; xc3; xfd; x57; x11; xa8; x83; x27; xc4; xfe; x13; xf7;
  xf7; x0f; x83; x37; x04; xfd; x23; x80; xe7; x00; x85; x47;
  x3e; x85; x62; x74; x21; x61; x82; x80; x59; x71; x06; xfc;
  x22; xf8; x80; x00; x23; x3c; xa4; xfc; x23; x38; xb4; xfc;
  x23; x34; xc4; xfc; x14; xe4; x18; xe8; x1c; xec; x23; x30;
  x04; x03; x23; x34; x14; x03; x93; x07; x04; x03; x23; x30;
  xf4; xfc; x83; x37; x04; xfc; x93; x87; x87; xfd; x23; x30;
  xf4; xfe; x83; x37; x04; xfe; xbe; x86; x03; x36; x84; xfc;
  x83; x35; x04; xfd; x03; x35; x84; xfd; xef; x00; x20; x1b;
  xaa; x87; x23; x26; xf4; xfe; x83; x27; xc4; xfe; x3e; x85;
  xe2; x70; x42; x74; x65; x61; x82; x80; x59; x71; x06; xfc].

Definition INIT_ELF_22 : list byte := [
  x22; xf8; x80; x00; x23; x3c; xa4; xfc; x23; x38; xb4; xfc;
  x10; xe0; x14; xe4; x18; xe8; x1c; xec; x23; x30; x04; x03;
  x23; x34; x14; x03; x93; x07; x04; x03; x23; x34; xf4; xfc;
  x83; x37; x84; xfc; x93; x87; x07; xfd; x23; x30; xf4; xfe;
  x97; x37; x00; x00; x93; x87; x07; x07; x9c; x63; x03; x37;
  x04; xfe; xba; x86; x03; x36; x04; xfd; x83; x35; x84; xfd;
  x3e; x85; xef; x00; xc0; x14; xaa; x87; x23; x26; xf4; xfe;
  x83; x27; xc4; xfe; x3e; x85; xe2; x70; x42; x74; x65; x61;
  x82; x80; x13; x01; x01; xb0; x23; x3c; x11; x4e; x23; x38;
  x81; x4e; x23; x34; x91; x4e; x13; x04; x01; x50; x23; x3c;
  xa4; xb0; xae; x84; x23; x38; xc4; xb0; x23; x34; xd4; xb0;
  x83; x97; x04; x01; xf5; x9b; x9b; x97; x07; x01; x9b; xd7;
  x07; x41; x23; x1c; xf4; xf2; x83; xa7; xc4; x0a; x23; x2a;
  xf4; xfc; x83; x97; x24; x01; x23; x1d; xf4; xf2; x9c; x78;
  x23; x3c; xf4; xf4; xbc; x60; x23; x34; xf4; xf6; x93; x07;
  x84; xb2; x23; x34; xf4; xf2; x83; x37; x84; xf2; x23; x30;
  xf4; xf4; x93; x07; x00; x40; x23; x2a; xf4; xf2; x83; x27;
  x44; xf3; x23; x24; xf4; xf4; x23; x28; x04; xf4; x93; x07;
  x84; xf2; x83; x36; x84; xb0; x03; x36; x04; xb1; xbe; x85;
  x03; x35; x84; xb1; xef; x00; xe0; x0a; xaa; x87; x23; x2e;
  xf4; xfc; x83; x27; xc4; xfd; x81; x27; x63; xce; x07; x00;
  x93; x07; x84; xf2; xbe; x85; x03; x35; x84; xb1; xef; xa0;
  x9f; xa8; xaa; x87; x81; xc7; xfd; x57; x23; x2e; xf4; xfc;
  x83; x17; x84; xf3; xc2; x17; xc1; x93; x81; x27; x93; xf7;
  x07; x04; x81; x27; x99; xcb; x83; x97; x04; x01; x93; xe7;
  x07; x04; x9b; x97; x07; x01; x9b; xd7; x07; x41; x23; x98;
  xf4; x00; x83; x27; xc4; xfd; x3e; x85; x83; x30; x81; x4f;
  x03; x34; x01; x4f; x83; x34; x81; x4e; x13; x01; x01; x50;
  x82; x80; x39; x71; x06; xfc; x22; xf8; x80; x00; x23; x3c;
  xa4; xfc; x23; x38; xb4; xfc; x23; x34; xc4; xfc; x97; x37;
  x00; x00; x93; x87; xa7; xf3; x9c; x63; x83; x36; x84; xfc;
  x03; x36; x04; xfd; x83; x35; x84; xfd; x3e; x85; xef; x00;
  x80; x01; xaa; x87; x23; x26; xf4; xfe; x83; x27; xc4; xfe;
  x3e; x85; xe2; x70; x42; x74; x21; x61; x82; x80; x09; x71;
  x86; xfe; xa2; xfa; xa6; xf6; xca; xf2; xce; xee; xd2; xea;
  xd6; xe6; xda; xe2; x00; x03; x23; x3c; xa4; xe8; x23; x38;
  xb4; xe8; x23; x34; xc4; xe8; x23; x30; xd4; xe8; x23; x38;
  x04; xf8; x23; x34; x04; xf8; x83; x37; x84; xe9; x23; x30;
  xf4; xf8; x83; x37; x04; xf8; x89; xcb; x83; x37; x04; xf8;
  xbc; x67; x89; xe7; x03; x35; x04; xf8; xef; x60; x3f; x8c;
  x83; x37; x04; xe9; x83; x97; x07; x01; xc2; x17; xc1; x93;
  x1b; x87; x07; x00; x89; x67; xf9; x8f; x81; x27; x85; xef;
  x83; x37; x04; xe9; x03; x97; x07; x01; x89; x67; xd9; x8f;
  x1b; x97; x07; x01; x1b; x57; x07; x41; x83; x37; x04; xe9;
  x23; x98; xe7; x00; x83; x37; x04; xe9; x03; xa7; xc7; x0a;
  xf9; x77; xfd; x17; xf9; x8f; x1b; x87; x07; x00; x83; x37;
  x04; xe9; x23; xa6; xe7; x0a; x83; x37; x04; xe9; x83; xa7;
  xc7; x0a; x9b; xd7; xd7; x40; x81; x27; x85; x8b; x93; xf7;
  xf7; x0f; x81; xc7; xfd; x57; x6f; x00; x50; x48; x83; x37;
  x04; xe9; x83; x97; x07; x01; xc2; x17; xc1; x93; x81; x27;
  xa1; x8b; x81; x27; x89; xc7; x83; x37; x04; xe9; x9c; x6f;
  x81; xef; x83; x35; x04; xe9; x03; x35; x84; xe9; xef; xa0;
  xbf; xe6; xaa; x87; x81; xc7; xfd; x57; x6f; x00; x30; x45;
  x83; x37; x04; xe9; x83; x97; x07; x01; xc2; x17; xc1; x93;
  x81; x27; xe9; x8b; x81; x27; x3e; x87; xa9; x47; x63; x16;
  xf7; x02; x83; x37; x04; xe9; x83; x97; x27; x01; x63; xc0;
  x07; x02; x83; x37; x04; xe8; xbe; x86; x03; x36; x84; xe8;
  x83; x35; x04; xe9; x03; x35; x84; xe9; xef; xf0; xff; xda;
  xaa; x87; x6f; x00; x10; x41; x83; x3a; x84; xe8; x93; x04;
  x04; xed; x23; x38; x94; xf4; x23; x30; x04; xf6; x23; x2c;
  x04; xf4; x23; x2e; x04; xfa; xd6; x89; x11; xa0; x85; x0a;
  x83; xc7; x0a; x00; x81; xcb; x83; xc7; x0a; x00; x3e; x87;
  x93; x07; x50; x02; xe3; x17; xf7; xfe; xb3; x87; x3a; x41;
  x1b; x89; x07; x00; x63; x0d; x09; x04; x23; xb0; x34; x01;
  xca; x87; x9c; xe4; x83; x37; x04; xf6; x4a; x87; xba; x97;
  x23; x30; xf4; xf6; xc1; x04; x83; x27; x84; xf5; x85; x27;
  x81; x27; x23; x2c; xf4; xf4; x83; x27; x84; xf5; x3e; x87;
  x9d; x47; x63; xd0; xe7; x02; x93; x07; x04; xf5; x3e; x86;
  x83; x35; x04; xe9; x03; x35; x84; xe9; xef; xa0; x2f; xc8;
  xaa; x87; xe3; x9e; x07; x34; x93; x04; x04; xed; x83; x27;
  xc4; xfb; xbb; x87; x27; x01; x23; x2e; xf4; xfa; x83; xc7;
  x0a; x00; xe3; x8f; x07; x30; x23; x3c; x54; xf7; x85; x0a;
  x01; x49; x23; x20; x04; xfa; x23; x2c; x04; xfa; xfd; x57;
  x23; x2a; xf4; xfa; xa3; x07; x04; xf6; xd6; x87; x93; x8a;
  x17; x00; x83; xc7; x07; x00; x1b; x8b; x07; x00; x9b; x06;
  x0b; xfe; x1b; x87; x06; x00; x93; x07; x80; x05; x63; xef;
  xe7; x5e; x93; x97; x06; x02; x81; x93; x13; x97; x27; x00;
  x97; x17; x00; x00; x93; x87; x07; x78; xba; x97; x9c; x43;
  x1b; x87; x07; x00; x97; x17; x00; x00; x93; x87; x07; x77;
  xba; x97; x82; x87; x83; x47; xf4; xf6; xc5; xff; x93; x07;
  x00; x02; xa3; x07; xf4; xf6; x7d; xb7; x93; x67; x19; x00;
  x1b; x89; x07; x00; x55; xb7; x83; x37; x04; xe8; x13; x87;
  x87; x00; x23; x30; xe4; xe8; x9c; x43; x23; x2c; xf4; xfa;
  x83; x27; x84; xfb; x81; x27; x63; xc3; x07; x00; x59; xb7;
  x83; x27; x84; xfb; xbb; x07; xf0; x40; x23; x2c; xf4; xfa;
  x93; x67; x49; x00; x1b; x89; x07; x00; x85; xbf; x93; x07;
  xb0; x02; xa3; x07; xf4; xf6; x9d; xb7; xd6; x87; x93; x8a;
  x17; x00; x83; xc7; x07; x00; x1b; x8b; x07; x00; x5a; x87;
  x93; x07; xa0; x02; x63; x14; xf7; x02; x83; x37; x04; xe8;
  x13; x87; x87; x00; x23; x30; xe4; xe8; x9c; x43; x23; x2a;
  xf4; xfa; x83; x27; x44; xfb; x81; x27; xe3; xda; x07; xf2;
  xfd; x57; x23; x2a; xf4; xfa; x2d; xb7; x01; x4a; x3d; xa0;
  x52; x87; xba; x87; x9b; x97; x27; x00; xb9; x9f; x9b; x97;
  x17; x00; x1b; x87; x07; x00; x9b; x07; x0b; xfd; x81; x27;
  xb9; x9f; x1b; x8a; x07; x00; xd6; x87; x93; x8a; x17; x00;
  x83; xc7; x07; x00; x1b; x8b; x07; x00; x9b; x07; x0b; xfd;
  x81; x27; x81; x27; x3e; x87; xa5; x47; xe3; xf4; xe7; xfc;
  xd2; x87; x1b; x87; x07; x00; x63; x53; x07; x00; xfd; x57;
  x23; x2a; xf4; xfa; xdd; xb5; x93; x67; x09; x08; x1b; x89;
  x07; x00; xf9; xb5; x01; x4a; x52; x87; xba; x87; x9b; x97;
  x27; x00; xb9; x9f; x9b; x97; x17; x00; x1b; x87; x07; x00;
  x9b; x07; x0b; xfd; x81; x27; xb9; x9f; x1b; x8a; x07; x00;
  xd6; x87; x93; x8a; x17; x00; x83; xc7; x07; x00; x1b; x8b;
  x07; x00; x9b; x07; x0b; xfd; x81; x27; x81; x27; x3e; x87;
  xa5; x47; xe3; xf4; xe7; xfc; x23; x2c; x44; xfb; x61; xbd;
  x93; x67; x09; x04; x1b; x89; x07; x00; x41; xb5; x93; x67;
  x09; x01; x1b; x89; x07; x00; x9d; xbd; x93; x67; x09; x01;
  x1b; x89; x07; x00; xb5; xb5; x93; x09; x84; xea; x83; x37;
  x04; xe8; x13; x87; x87; x00; x23; x30; xe4; xe8; x9c; x43;
  x93; xf7; xf7; x0f; x23; x80; xf9; x00; x85; x47; x23; x2c;
  xf4; xf8; xa3; x07; x04; xf6; xad; xa9; x93; x67; x09; x01;
  x1b; x89; x07; x00; x93; x77; x09; x01; x81; x27; x89; xcb;
  x83; x37; x04; xe8; x13; x87; x87; x00; x23; x30; xe4; xe8;
  x9c; x63; x05; xa8; x93; x77; x09; x04; x81; x27; x89; xcf;
  x83; x37; x04; xe8; x13; x87; x87; x00; x23; x30; xe4; xe8;
  x9c; x43; x9b; x97; x07; x01; x9b; xd7; x07; x41; x01; xa8;
  x83; x37; x04; xe8; x13; x87; x87; x00; x23; x30; xe4; xe8;
  x9c; x43; x23; x34; xf4; xfa; x83; x37; x84; xfa; x63; xdc;
  x07; x00; x83; x37; x84; xfa; xb3; x07; xf0; x40; x23; x34;
  xf4; xfa; x93; x07; xd0; x02; xa3; x07; xf4; xf6; x85; x47;
  x23; x22; xf4; xfa; xb5; xa4; x93; x77; x09; x01; x81; x27;
  x89; xcf; x83; x37; x04; xe8; x13; x87; x87; x00; x23; x30;
  xe4; xe8; x9c; x63; x03; x27; xc4; xfb; x98; xe3; x6f; x00;
  xf0; x0a; x93; x77; x09; x04; x81; x27; x95; xc3; x83; x37;
  x04; xe8; x13; x87; x87; x00; x23; x30; xe4; xe8; x9c; x63;
  x03; x27; xc4; xfb; x1b; x17; x07; x01; x1b; x57; x07; x41;
  x23; x90; xe7; x00; x6f; x00; x50; x08; x83; x37; x04; xe8;
  x13; x87; x87; x00; x23; x30; xe4; xe8; x9c; x63; x03; x27;
  xc4; xfb; x98; xc3; x6f; x00; xd0; x06; x93; x67; x09; x01;
  x1b; x89; x07; x00; x93; x77; x09; x01; x81; x27; x89; xcb;
  x83; x37; x04; xe8; x13; x87; x87; x00; x23; x30; xe4; xe8;
  x9c; x63; x05; xa8; x93; x77; x09; x04; x81; x27; x99; xcb;
  x83; x37; x04; xe8; x13; x87; x87; x00; x23; x30; xe4; xe8;
  x9c; x43; xc2; x17; xc1; x93; x11; xa8; x83; x37; x04; xe8;
  x13; x87; x87; x00; x23; x30; xe4; xe8; x9c; x43; x82; x17;
  x81; x93; x23; x34; xf4; xfa; x23; x22; x04; xfa; x7d; xa2;
  x83; x37; x04; xe8; x13; x87; x87; x00; x23; x30; xe4; xe8;
  x9c; x63; x23; x34; xf4; xfa; x89; x47; x23; x22; xf4; xfa;
  x97; x17; x00; x00; x93; x87; x07; x45; x23; x38; xf4; xf8;
  x93; x67; x29; x00; x1b; x89; x07; x00; x93; x07; x00; x03;
  x23; x00; xf4; xea; x93; x07; x80; x07; xa3; x00; xf4; xea;
  x85; xaa; x83; x37; x04; xe8; x13; x87; x87; x00; x23; x30;
  xe4; xe8; x83; xb9; x07; x00; xa3; x07; x04; xf6; x63; x92;
  x09; x02; x97; x19; x00; x00; x93; x89; xa9; x42; x83; x27;
  x44; xfb; x9b; x86; x07; x00; x19; x47; x63; x73; xd7; x00;
  x99; x47; x81; x27; x23; x2c; xf4; xf8; xd1; xac; x83; x27;
  x44; xfb; x81; x27; x63; xca; x07; x02; x83; x27; x44; xfb;
  x3e; x86; x81; x45; x4e; x85; xef; xa0; x7f; xb6; x23; x38;
  xa4; xf6; x83; x37; x04; xf7; x81; xcb; x83; x37; x04; xf7;
  xb3; x87; x37; x41; x23; x2c; xf4; xf8; x55; xa4; x83; x27].

Definition INIT_ELF_23 : list byte := [
  x44; xfb; x23; x2c; xf4; xf8; x69; xac; x4e; x85; xef; xb0;
  xaf; xaf; xaa; x87; x23; x2c; xf4; xf8; x71; xa4; x93; x67;
  x09; x01; x1b; x89; x07; x00; x93; x77; x09; x01; x81; x27;
  x89; xcb; x83; x37; x04; xe8; x13; x87; x87; x00; x23; x30;
  xe4; xe8; x9c; x63; x05; xa8; x93; x77; x09; x04; x81; x27;
  x99; xcb; x83; x37; x04; xe8; x13; x87; x87; x00; x23; x30;
  xe4; xe8; x9c; x43; xc2; x17; xc1; x93; x11; xa8; x83; x37;
  x04; xe8; x13; x87; x87; x00; x23; x30; xe4; xe8; x9c; x43;
  x82; x17; x81; x93; x23; x34; xf4; xfa; x85; x47; x23; x22;
  xf4; xfa; x59; xa8; x97; x17; x00; x00; x93; x87; x07; x37;
  x23; x38; xf4; xf8; x39; xa0; x97; x17; x00; x00; x93; x87;
  x27; x34; x23; x38; xf4; xf8; x93; x77; x09; x01; x81; x27;
  x89; xcb; x83; x37; x04; xe8; x13; x87; x87; x00; x23; x30;
  xe4; xe8; x9c; x63; x05; xa8; x93; x77; x09; x04; x81; x27;
  x99; xcb; x83; x37; x04; xe8; x13; x87; x87; x00; x23; x30;
  xe4; xe8; x9c; x43; xc2; x17; xc1; x93; x11; xa8; x83; x37;
  x04; xe8; x13; x87; x87; x00; x23; x30; xe4; xe8; x9c; x43;
  x82; x17; x81; x93; x23; x34; xf4; xfa; x89; x47; x23; x22;
  xf4; xfa; x93; x77; x19; x00; x81; x27; x8d; xc3; x83; x37;
  x84; xfa; x91; xcf; x93; x07; x00; x03; x23; x00; xf4; xea;
  x93; x77; xfb; x0f; xa3; x00; xf4; xea; x93; x67; x29; x00;
  x1b; x89; x07; x00; x11; xa0; x01; x00; xa3; x07; x04; xf6;
  x83; x27; x44; xfb; x23; x20; xf4; xfa; x83; x27; x04; xfa;
  x81; x27; x63; xc6; x07; x00; x93; x77; xf9; xf7; x1b; x89;
  x07; x00; x93; x09; x84; xea; x93; x89; x89; x02; x83; x37;
  x84; xfa; x91; xe7; x83; x27; x44; xfb; x81; x27; x63; x81;
  x07; x12; x83; x27; x44; xfa; x1b; x87; x07; x00; x89; x47;
  x63; x08; xf7; x0c; x83; x27; x44; xfa; x1b; x87; x07; x00;
  x89; x47; x63; xe5; xe7; x0e; x83; x27; x44; xfa; x81; x27;
  x91; xcb; x83; x27; x44; xfa; x1b; x87; x07; x00; x85; x47;
  x63; x0b; xf7; x04; xc1; xa8; x01; x00; x83; x37; x84; xfa;
  x93; xf7; xf7; x0f; x9d; x8b; x93; xf7; xf7; x0f; xfd; x19;
  x9b; x87; x07; x03; x93; xf7; xf7; x0f; x23; x80; xf9; x00;
  x83; x37; x84; xfa; x8d; x83; x23; x34; xf4; xfa; x83; x37;
  x84; xfa; xf1; xfb; x93; x77; x19; x00; x81; x27; xcd; xcb;
  x83; xc7; x09; x00; x3e; x87; x93; x07; x00; x03; x63; x03;
  xf7; x0a; xfd; x19; x93; x07; x00; x03; x23; x80; xf9; x00;
  x61; xa8; x03; x37; x84; xfa; xa5; x47; x63; xee; xe7; x00;
  x83; x37; x84; xfa; x93; xf7; xf7; x0f; xfd; x19; x9b; x87;
  x07; x03; x93; xf7; xf7; x0f; x23; x80; xf9; x00; xa5; xa8;
  x03; x37; x84; xfa; xa9; x47; xb3; x77; xf7; x02; x93; xf7;
  xf7; x0f; xfd; x19; x9b; x87; x07; x03; x93; xf7; xf7; x0f;
  x23; x80; xf9; x00; x03; x37; x84; xfa; xa9; x47; xb3; x57;
  xf7; x02; x23; x34; xf4; xfa; x83; x37; x84; xfa; xe9; xfb;
  x99; xa0; x01; x00; x83; x37; x84; xfa; xbd; x8b; x03; x37;
  x04; xf9; xba; x97; xfd; x19; x83; xc7; x07; x00; x23; x80;
  xf9; x00; x83; x37; x84; xfa; x91; x83; x23; x34; xf4; xfa;
  x83; x37; x84; xfa; xe9; xff; x31; xa8; x97; x19; x00; x00;
  x93; x89; xc9; x1b; x4e; x85; xef; xb0; xef; x8b; xaa; x87;
  x23; x2c; xf4; xf8; x01; x00; xb9; xa0; x01; x00; x31; xa8;
  x83; x27; x44; xfa; x81; x27; x91; xeb; x93; x77; x19; x00;
  x81; x27; x91; xc7; xfd; x19; x93; x07; x00; x03; x23; x80;
  xf9; x00; x93; x07; x84; xea; x93; x87; x87; x02; xb3; x87;
  x37; x41; x23; x2c; xf4; xf8; x39; xa8; x63; x06; x0b; x4e;
  x93; x09; x84; xea; x93; x77; xfb; x0f; x23; x80; xf9; x00;
  x85; x47; x23; x2c; xf4; xf8; xa3; x07; x04; xf6; x01; x00;
  x83; x27; x04; xfa; x3e; x86; x83; x27; x84; xf9; x9b; x86;
  x07; x00; x1b; x07; x06; x00; x63; xd3; xe6; x00; xb2; x87;
  x23; x2e; xf4; xf8; x83; x47; xf4; xf6; x91; xc7; x83; x27;
  xc4; xf9; x85; x27; x23; x2e; xf4; xf8; x93; x77; x29; x00;
  x81; x27; x91; xc7; x83; x27; xc4; xf9; x89; x27; x23; x2e;
  xf4; xf8; x93; x77; x49; x08; x81; x27; xe9; xe7; x83; x27;
  x84; xfb; x3e; x87; x83; x27; xc4; xf9; xbb; x07; xf7; x40;
  x1b; x8a; x07; x00; xd2; x87; x63; x5a; xf0; x0a; xa1; xa8;
  x97; x17; x00; x00; x93; x87; x87; x27; x9c; xe0; xc1; x47;
  x9c; xe4; x83; x37; x04; xf6; xc1; x07; x23; x30; xf4; xf6;
  xc1; x04; x83; x27; x84; xf5; x85; x27; x81; x27; x23; x2c;
  xf4; xf4; x83; x27; x84; xf5; x3e; x87; x9d; x47; x63; xd0;
  xe7; x02; x93; x07; x04; xf5; x3e; x86; x83; x35; x04; xe9;
  x03; x35; x84; xe9; xef; x90; x3f; xd7; xaa; x87; x63; x96;
  x07; x44; x93; x04; x04; xed; x9b; x07; x0a; xff; x1b; x8a;
  x07; x00; x52; x87; xc1; x47; xe3; xc3; xe7; xfa; x97; x17;
  x00; x00; x93; x87; xa7; x21; x9c; xe0; xd2; x87; x9c; xe4;
  x83; x37; x04; xf6; x52; x87; xba; x97; x23; x30; xf4; xf6;
  xc1; x04; x83; x27; x84; xf5; x85; x27; x81; x27; x23; x2c;
  xf4; xf4; x83; x27; x84; xf5; x3e; x87; x9d; x47; x63; xd0;
  xe7; x02; x93; x07; x04; xf5; x3e; x86; x83; x35; x04; xe9;
  x03; x35; x84; xe9; xef; x90; x3f; xd1; xaa; x87; x63; x96;
  x07; x3e; x93; x04; x04; xed; x83; x47; xf4; xf6; xb1; xc7;
  x93; x07; xf4; xf6; x9c; xe0; x85; x47; x9c; xe4; x83; x37;
  x04; xf6; x85; x07; x23; x30; xf4; xf6; xc1; x04; x83; x27;
  x84; xf5; x85; x27; x81; x27; x23; x2c; xf4; xf4; x83; x27;
  x84; xf5; x3e; x87; x9d; x47; x63; xd0; xe7; x02; x93; x07;
  x04; xf5; x3e; x86; x83; x35; x04; xe9; x03; x35; x84; xe9;
  xef; x90; x3f; xcc; xaa; x87; x63; x9e; x07; x38; x93; x04;
  x04; xed; x93; x77; x29; x00; x81; x27; xb1; xc7; x93; x07;
  x04; xea; x9c; xe0; x89; x47; x9c; xe4; x83; x37; x04; xf6;
  x89; x07; x23; x30; xf4; xf6; xc1; x04; x83; x27; x84; xf5;
  x85; x27; x81; x27; x23; x2c; xf4; xf4; x83; x27; x84; xf5;
  x3e; x87; x9d; x47; x63; xd0; xe7; x02; x93; x07; x04; xf5;
  x3e; x86; x83; x35; x04; xe9; x03; x35; x84; xe9; xef; x90;
  x1f; xc7; xaa; x87; x63; x95; x07; x34; x93; x04; x04; xed;
  x93; x77; x49; x08; x81; x27; x3e; x87; x93; x07; x00; x08;
  x63; x16; xf7; x0c; x83; x27; x84; xfb; x3e; x87; x83; x27;
  xc4; xf9; xbb; x07; xf7; x40; x1b; x8a; x07; x00; xd2; x87;
  x63; x5a; xf0; x0a; xa1; xa8; x97; x17; x00; x00; x93; x87;
  xe7; x10; x9c; xe0; xc1; x47; x9c; xe4; x83; x37; x04; xf6;
  xc1; x07; x23; x30; xf4; xf6; xc1; x04; x83; x27; x84; xf5;
  x85; x27; x81; x27; x23; x2c; xf4; xf4; x83; x27; x84; xf5;
  x3e; x87; x9d; x47; x63; xd0; xe7; x02; x93; x07; x04; xf5;
  x3e; x86; x83; x35; x04; xe9; x03; x35; x84; xe9; xef; x90;
  x9f; xbf; xaa; x87; x63; x99; x07; x2c; x93; x04; x04; xed;
  x9b; x07; x0a; xff; x1b; x8a; x07; x00; x52; x87; xc1; x47;
  xe3; xc3; xe7; xfa; x97; x17; x00; x00; x93; x87; x07; x0b;
  x9c; xe0; xd2; x87; x9c; xe4; x83; x37; x04; xf6; x52; x87;
  xba; x97; x23; x30; xf4; xf6; xc1; x04; x83; x27; x84; xf5;
  x85; x27; x81; x27; x23; x2c; xf4; xf4; x83; x27; x84; xf5;
  x3e; x87; x9d; x47; x63; xd0; xe7; x02; x93; x07; x04; xf5;
  x3e; x86; x83; x35; x04; xe9; x03; x35; x84; xe9; xef; x90;
  x9f; xb9; xaa; x87; x63; x99; x07; x26; x93; x04; x04; xed;
  x83; x27; x04; xfa; x3e; x87; x83; x27; x84; xf9; xbb; x07;
  xf7; x40; x1b; x8a; x07; x00; xd2; x87; x63; x5a; xf0; x0a;
  xa1; xa8; x97; x17; x00; x00; x93; x87; x67; x04; x9c; xe0;
  xc1; x47; x9c; xe4; x83; x37; x04; xf6; xc1; x07; x23; x30;
  xf4; xf6; xc1; x04; x83; x27; x84; xf5; x85; x27; x81; x27;
  x23; x2c; xf4; xf4; x83; x27; x84; xf5; x3e; x87; x9d; x47;
  x63; xd0; xe7; x02; x93; x07; x04; xf5; x3e; x86; x83; x35;
  x04; xe9; x03; x35; x84; xe9; xef; x90; x1f; xb3; xaa; x87;
  x63; x95; x07; x20; x93; x04; x04; xed; x9b; x07; x0a; xff;
  x1b; x8a; x07; x00; x52; x87; xc1; x47; xe3; xc3; xe7; xfa;
  x97; x17; x00; x00; x93; x87; x87; xfe; x9c; xe0; xd2; x87;
  x9c; xe4; x83; x37; x04; xf6; x52; x87; xba; x97; x23; x30;
  xf4; xf6; xc1; x04; x83; x27; x84; xf5; x85; x27; x81; x27;
  x23; x2c; xf4; xf4; x83; x27; x84; xf5; x3e; x87; x9d; x47;
  x63; xd0; xe7; x02; x93; x07; x04; xf5; x3e; x86; x83; x35;
  x04; xe9; x03; x35; x84; xe9; xef; x90; x1f; xad; xaa; x87;
  x63; x95; x07; x1a; x93; x04; x04; xed; x23; xb0; x34; x01;
  x83; x27; x84; xf9; x9c; xe4; x03; x37; x04; xf6; x83; x27;
  x84; xf9; xba; x97; x23; x30; xf4; xf6; xc1; x04; x83; x27;
  x84; xf5; x85; x27; x81; x27; x23; x2c; xf4; xf4; x83; x27;
  x84; xf5; x3e; x87; x9d; x47; x63; xd0; xe7; x02; x93; x07;
  x04; xf5; x3e; x86; x83; x35; x04; xe9; x03; x35; x84; xe9;
  xef; x90; x3f; xa8; xaa; x87; x63; x9e; x07; x14; x93; x04;
  x04; xed; x93; x77; x49; x00; x81; x27; xe1; xc3; x83; x27;
  x84; xfb; x3e; x87; x83; x27; xc4; xf9; xbb; x07; xf7; x40;
  x1b; x8a; x07; x00; xd2; x87; x63; x55; xf0; x0a; x99; xa8;
  x97; x17; x00; x00; x93; x87; x87; xf1; x9c; xe0; xc1; x47;
  x9c; xe4; x83; x37; x04; xf6; xc1; x07; x23; x30; xf4; xf6;
  xc1; x04; x83; x27; x84; xf5; x85; x27; x81; x27; x23; x2c;
  xf4; xf4; x83; x27; x84; xf5; x3e; x87; x9d; x47; x63; xdf;
  xe7; x00; x93; x07; x04; xf5; x3e; x86; x83; x35; x04; xe9;
  x03; x35; x84; xe9; xef; x90; x3f; xa1; xaa; x87; xf5; xe7;
  x93; x04; x04; xed; x9b; x07; x0a; xff; x1b; x8a; x07; x00;
  x52; x87; xc1; x47; xe3; xc4; xe7; xfa; x97; x17; x00; x00;
  x93; x87; xc7; xeb; x9c; xe0; xd2; x87; x9c; xe4; x83; x37;
  x04; xf6; x52; x87; xba; x97; x23; x30; xf4; xf6; x83; x27;
  x84; xf5; x85; x27; x81; x27; x23; x2c; xf4; xf4; x83; x27;
  x84; xf5; x3e; x87; x9d; x47; x63; xdd; xe7; x00; x93; x07;
  x04; xf5; x3e; x86; x83; x35; x04; xe9; x03; x35; x84; xe9;
  xef; x90; x7f; x9b; xaa; x87; xc1; xeb; x83; x27; x84; xfb].

Definition INIT_ELF_24 : list byte := [
  x3e; x86; x83; x27; xc4; xf9; xbe; x86; x1b; x87; x06; x00;
  x9b; x07; x06; x00; x63; x53; xf7; x00; xb2; x86; x9b; x87;
  x06; x00; x03; x27; xc4; xfb; xb9; x9f; x23; x2e; xf4; xfa;
  x83; x37; x04; xf6; x81; xcf; x93; x07; x04; xf5; x3e; x86;
  x83; x35; x04; xe9; x03; x35; x84; xe9; xef; x90; x3f; x97;
  xaa; x87; xb1; xe7; x23; x2c; x04; xf4; x93; x04; x04; xed;
  x83; x37; x84; xf8; x63; x8d; x07; xc6; x83; x35; x84; xf8;
  x03; x35; x84; xe9; xef; x60; xaf; xfd; x23; x34; x04; xf8;
  x6f; xf0; x6f; xc6; x01; x00; x11; xa0; x01; x00; x83; x37;
  x04; xf6; x81; xcf; x93; x07; x04; xf5; x3e; x86; x83; x35;
  x04; xe9; x03; x35; x84; xe9; xef; x90; xdf; x92; xaa; x87;
  x99; xe3; x23; x2c; x04; xf4; x83; x37; x84; xf8; x99; xc7;
  x83; x35; x84; xf8; x03; x35; x84; xe9; xef; x60; xaf; xf9;
  x83; x37; x04; xe9; x83; x97; x07; x01; xc2; x17; xc1; x93;
  x81; x27; x93; xf7; x07; x04; x81; x27; x81; xe7; x83; x27;
  xc4; xfb; x11; xa0; xfd; x57; x3e; x85; xf6; x70; x56; x74;
  xb6; x74; x16; x79; xf6; x69; x56; x6a; xb6; x6a; x16; x6b;
  x19; x61; x82; x80; x41; x11; x06; xe4; x22; xe0; x00; x08;
  x19; x45; xef; x00; x20; x29; x05; x45; xef; x60; x4f; xac;
  x79; x71; x06; xf4; x22; xf0; x00; x18; x23; x3c; xa4; xfc;
  x83; x37; x84; xfd; x83; xb7; x07; x17; xa1; xef; x93; x05;
  x00; x10; x03; x35; x84; xfd; xef; x70; x4f; x8a; x2a; x87;
  x83; x37; x84; xfd; x23; xb8; xe7; x16; x83; x37; x84; xfd;
  x83; xb7; x07; x17; x99; xe3; xfd; x57; x1d; xa8; x23; x26;
  x04; xfe; x05; xa0; x83; x37; x84; xfd; x03; xb7; x07; x17;
  x83; x27; xc4; xfe; x8e; x07; xba; x97; x23; xb0; x07; x00;
  x83; x27; xc4; xfe; x85; x27; x23; x26; xf4; xfe; x83; x27;
  xc4; xfe; x1b; x87; x07; x00; xfd; x47; xe3; xdc; xe7; xfc;
  x81; x47; x3e; x85; xa2; x70; x02; x74; x45; x61; x82; x80;
  x39; x71; x06; xfc; x22; xf8; x80; x00; x23; x3c; xa4; xfc;
  xae; x87; x23; x34; xc4; xfc; x23; x2a; xf4; xfc; x83; x27;
  x44; xfd; x81; x27; x63; xc9; x07; x00; x83; x27; x44; xfd;
  x1b; x87; x07; x00; xfd; x47; x63; xd8; xe7; x00; x83; x37;
  x84; xfd; x59; x47; x98; xc3; xfd; x57; xb1; xa0; x83; x37;
  x84; xfd; x83; xb7; x07; x17; x89; xeb; x03; x35; x84; xfd;
  xef; xf0; x1f; xf4; xaa; x87; x99; xc3; xfd; x57; x0d; xa8;
  x83; x37; x84; xfd; x03; xb7; x07; x17; x83; x27; x44; xfd;
  x8e; x07; xba; x97; x9c; x63; x23; x34; xf4; xfe; x83; x37;
  x84; xfd; x03; xb7; x07; x17; x83; x27; x44; xfd; x8e; x07;
  xba; x97; x03; x37; x84; xfc; x98; xe3; x83; x37; x84; xfe;
  x3e; x85; xe2; x70; x42; x74; x21; x61; x82; x80; x79; x71;
  x06; xf4; x22; xf0; x00; x18; x23; x3c; xa4; xfc; xae; x87;
  x23; x2a; xf4; xfc; x83; x27; x44; xfd; x81; x27; x63; xc9;
  x07; x00; x83; x27; x44; xfd; x1b; x87; x07; x00; xfd; x47;
  x63; xd8; xe7; x00; x83; x37; x84; xfd; x59; x47; x98; xc3;
  xfd; x57; x51; xa8; x83; x37; x84; xfd; x83; xb7; x07; x17;
  x81; xe7; x23; x34; x04; xfe; x21; xa8; x83; x37; x84; xfd;
  x03; xb7; x07; x17; x83; x27; x44; xfd; x8e; x07; xba; x97;
  x9c; x63; x23; x34; xf4; xfe; x83; x37; x84; xfe; x8d; xe3;
  x03; x35; x84; xfd; xef; x00; x00; x24; xaa; x87; x3e; x87;
  x83; x27; x44; xfd; x3e; x86; xba; x85; x03; x35; x84; xfd;
  xef; x00; x40; x1c; xaa; x87; xa1; xa0; x03; x37; x84; xfe;
  x85; x47; x63; x14; xf7; x00; x81; x47; x2d; xa8; x03; x37;
  x84; xfe; xfd; x57; x63; x18; xf7; x00; x83; x37; x84; xfd;
  x59; x47; x98; xc3; x85; x47; x15; xa0; x83; x37; x84; xfd;
  x03; xb7; x07; x17; x83; x27; x44; xfd; x8e; x07; xba; x97;
  x23; xb0; x07; x00; x03; x27; x44; xfd; x83; x37; x84; xfe;
  x3a; x85; x82; x97; x81; x47; x3e; x85; xa2; x70; x02; x74;
  x45; x61; x82; x80; x79; x71; x06; xf4; x22; xf0; x00; x18;
  x23; x3c; xa4; xfc; xae; x87; x23; x2a; xf4; xfc; x83; x27;
  x44; xfd; x81; x27; x63; xc9; x07; x00; x83; x27; x44; xfd;
  x1b; x87; x07; x00; xfd; x47; x63; xd4; xe7; x00; xfd; x57;
  xad; xa8; x83; x37; x84; xfd; x83; xb7; x07; x17; x89; xeb;
  x03; x35; x84; xfd; xef; xf0; xdf; xde; xaa; x87; x99; xc3;
  xfd; x57; x85; xa0; x83; x37; x84; xfd; x03; xb7; x07; x17;
  x83; x27; x44; xfd; x8e; x07; xba; x97; x9c; x63; x23; x34;
  xf4; xfe; x83; x37; x84; xfe; x99; xe3; x85; x47; x81; xa0;
  x03; x37; x84; xfe; xfd; x57; x63; x14; xf7; x00; x89; x47;
  x0d; xa8; x03; x37; x84; xfe; x85; x47; x63; x14; xf7; x00;
  x8d; x47; x15; xa0; x83; x37; x84; xfd; x03; xb7; x07; x17;
  x83; x27; x44; xfd; x8e; x07; xba; x97; x23; xb0; x07; x00;
  x03; x27; x44; xfd; x83; x37; x84; xfe; x3a; x85; x82; x97;
  x81; x47; x3e; x85; xa2; x70; x02; x74; x45; x61; x82; x80;
  x01; x11; x06; xec; x22; xe8; x00; x10; xaa; x87; x23; x26;
  xf4; xfe; x97; x27; x00; x00; x93; x87; x67; xf1; x9c; x63;
  x03; x27; xc4; xfe; xba; x85; x3e; x85; xef; xf0; xff; xe5;
  xaa; x87; x3e; x85; xe2; x60; x42; x64; x05; x61; x82; x80;
  x01; x11; x06; xec; x22; xe8; x00; x10; xaa; x87; x23; x30;
  xb4; xfe; x23; x26; xf4; xfe; x97; x27; x00; x00; x93; x87;
  x27; xee; x9c; x63; x03; x27; xc4; xfe; x03; x36; x04; xfe;
  xba; x85; x3e; x85; xef; xf0; x9f; xd9; xaa; x87; x3e; x85;
  xe2; x60; x42; x64; x05; x61; x82; x80; x41; x11; x06; xe4;
  x22; xe0; x00; x08; x97; x27; x00; x00; x93; x87; x47; xeb;
  x9c; x63; x3e; x85; xef; xf0; xdf; xcf; xaa; x87; x3e; x85;
  xa2; x60; x02; x64; x41; x01; x82; x80; x01; x11; x06; xec;
  x22; xe8; x00; x10; xaa; x87; x23; x26; xf4; xfe; x97; x27;
  x00; x00; x93; x87; xa7; xe8; x9c; x63; x03; x27; xc4; xfe;
  xba; x85; x3e; x85; xef; xf0; x5f; xea; xaa; x87; x3e; x85;
  xe2; x60; x42; x64; x05; x61; x82; x80; x79; x71; x06; xf4;
  x22; xf0; x00; x18; x23; x3c; xa4; xfc; xae; x87; x32; x87;
  x23; x2a; xf4; xfc; xba; x87; x23; x28; xf4; xfc; x93; x87;
  x01; x83; x23; xa0; x07; x00; x03; x27; x04; xfd; x83; x27;
  x44; xfd; xba; x85; x3e; x85; xef; x50; xdf; xfe; xaa; x87;
  x23; x26; xf4; xfe; x83; x27; xc4; xfe; x1b; x87; x07; x00;
  xfd; x57; x63; x1c; xf7; x00; x93; x87; x01; x83; x9c; x43;
  x99; xc7; x93; x87; x01; x83; x98; x43; x83; x37; x84; xfd;
  x98; xc3; x83; x27; xc4; xfe; x3e; x85; xa2; x70; x02; x74;
  x45; x61; x82; x80; x79; x71; x06; xf4; x22; xf0; x00; x18;
  x23; x3c; xa4; xfc; xef; x50; x1f; xf6; xaa; x87; x23; x26;
  xf4; xfe; x83; x27; xc4; xfe; x3e; x85; xa2; x70; x02; x74;
  x45; x61; x82; x80; x73; x26; x20; x00; x21; x68; x13; xd7;
  x05; x03; x7d; x18; xb3; x78; x07; x01; x93; xd6; xf5; x03;
  xc2; x05; xb5; x81; x13; x57; xd5; x03; x93; x87; x18; x00;
  x4d; x8f; x93; x95; x17; x03; xc9; x91; x01; x26; x13; x13;
  x35; x00; x63; x87; x05; x16; xf1; x77; x93; x87; x07; x40;
  xbe; x98; x93; x07; xe0; x7f; x63; xd4; x17; x03; x11; xce;
  x8d; x47; x63; x18; xf6; x00; x91; xca; xfd; x57; x93; x08;
  xe0; x7f; x95; x45; xbd; xaa; x89; x47; xe3; x1a; xf6; xfe;
  xe5; xda; x81; x47; x93; x08; xf0; x7f; xfd; xb7; x63; x4f;
  x10; x11; x93; x05; xc0; xfc; x85; x47; x63; xce; xb8; x02;
  xce; x17; x13; x08; xd0; x03; x5d; x8f; x33; x08; x18; x41;
  x93; x07; xf0; x03; x1b; x85; x08; x00; x63; xcb; x07; x0d;
  x93; x07; xd0; x03; x9b; x05; x35; x00; x89; x9f; xb3; x57;
  xf3; x00; x33; x13; xb3; x00; x33; x33; x60; x00; xb3; xe7;
  x67; x00; x33; x17; xb7; x00; xd9; x8f; x13; x97; x17; x00;
  x13; x75; x77; x00; x81; x45; x19; xcd; x89; x45; x63; x03;
  xb6; x12; x8d; x45; x63; x0b; xb6; x10; x85; x45; x19; xe6;
  x13; x75; xf7; x00; x11; x48; x63; x03; x05; x01; x11; x07;
  x61; x93; x13; x47; x17; x00; x05; x8b; x81; x48; x13; xf5;
  x77; x00; x63; x09; x05; x12; x09; x45; x93; xe5; x15; x00;
  x63; x01; xa6; x10; x0d; x45; x63; x0b; xa6; x0e; x19; xe6;
  x13; xf8; xf7; x00; x11; x45; x63; x0b; xa8; x10; x91; x07;
  x11; xc7; x13; xf8; x15; x00; x06; x08; xb3; x65; xb8; x00;
  x13; x97; x87; x00; x63; x5b; x07; x00; x85; x08; x13; x07;
  xf0; x7f; x63; x8a; xe8; x0c; x7d; x56; x5e; x16; x7d; x16;
  xf1; x8f; x13; x07; xf0; x7f; x8d; x83; x63; x96; xe8; x00;
  x81; xc7; x85; x47; xce; x17; x81; x46; x13; x06; xf0; x7f;
  x13; x97; x48; x03; x52; x16; xb2; x07; x71; x8f; xb1; x83;
  xd9; x8f; xfe; x16; xd5; x8f; x99; xc1; x73; xa0; x15; x00;
  x53; x85; x07; xf2; x82; x80; xf5; x57; x89; x9f; x93; x08;
  x00; x04; xb3; x57; xf7; x00; x81; x45; x63; x06; x18; x01;
  x1b; x05; x35; x04; xb3; x15; xa7; x00; xb3; xe5; x65; x00;
  xb3; x35; xb0; x00; xcd; x8f; x2d; xb7; x93; x17; x75; x00;
  xb3; x37; xf0; x00; x13; x53; xc3; x03; xb3; xe7; x67; x00;
  x12; x07; xd9; x8f; x81; x45; x25; xa8; xb3; x67; x67; x00;
  x63; x96; x08; x00; x81; x45; xd1; xd3; x85; x47; x09; xb7;
  xbd; xc7; x81; x45; x63; x97; x08; x01; x93; x55; x27; x03;
  x93; xc5; x15; x00; x92; x05; x93; x57; xc3; x03; x12; x07;
  x5d; x8f; x85; x47; x61; x9b; xda; x17; xd9; x8f; x93; x08;
  xf0; x7f; x01; x47; x29; xb7; x85; x45; xe3; x9e; x06; xee;
  x21; x07; xdd; xbd; x85; x45; xe3; x89; x06; xee; xdd; xbf;
  x91; xfe; xa1; x07; x21; xbf; x99; xda; xed; xbf; x81; x47;
  x09; xce; x0d; x47; x63; x17; xe6; x00; x89; xca; xfd; x57;
  x93; x08; xe0; x7f; x29; xa0; x09; x47; xe3; x1b; xe6; xfe;
  xed; xda; x93; xe5; x55; x00; x21; xbf; xe3; x19; x07; xee;
  x09; xbf; x93; x08; xf0; x7f; xad; xbf; x00; x00; x00; x00;
  x42; x6f; x6f; x74; x69; x6e; x67; x20; x75; x70; x20; x43;
  x61; x72; x67; x4f; x53; x20; x76; x25; x64; x2e; x25; x64;
  x2e; x25; x64; x2e; x2e; x2e; x0a; x00; x49; x4e; x46; x00;
  x00; x00; x00; x00; x69; x6e; x66; x00; x00; x00; x00; x00].

Definition INIT_ELF_25 : list byte := [
  x4e; x41; x4e; x00; x00; x00; x00; x00; x6e; x61; x6e; x00;
  x00; x00; x00; x00; x30; x31; x32; x33; x34; x35; x36; x37;
  x38; x39; x61; x62; x63; x64; x65; x66; x00; x00; x00; x00;
  x00; x00; x00; x00; x28; x6e; x75; x6c; x6c; x29; x00; x00;
  x30; x31; x32; x33; x34; x35; x36; x37; x38; x39; x41; x42;
  x43; x44; x45; x46; x00; x00; x00; x00; x00; x00; x00; x00;
  x62; x75; x67; x20; x69; x6e; x20; x76; x66; x70; x72; x69;
  x6e; x74; x66; x3a; x20; x62; x61; x64; x20; x62; x61; x73;
  x65; x00; x00; x00; x00; x00; x00; x00; x30; x00; x00; x00;
  x9a; x77; xff; xff; x90; x80; xff; xff; x90; x80; xff; xff;
  xaa; x77; xff; xff; x90; x80; xff; xff; x90; x80; xff; xff;
  x90; x80; xff; xff; x90; x80; xff; xff; x90; x80; xff; xff;
  x90; x80; xff; xff; xb4; x77; xff; xff; xe8; x77; xff; xff;
  x90; x80; xff; xff; xde; x77; xff; xff; xf2; x77; xff; xff;
  x90; x80; xff; xff; x80; x78; xff; xff; x8a; x78; xff; xff;
  x8a; x78; xff; xff; x8a; x78; xff; xff; x8a; x78; xff; xff;
  x8a; x78; xff; xff; x8a; x78; xff; xff; x8a; x78; xff; xff;
  x8a; x78; xff; xff; x8a; x78; xff; xff; x90; x80; xff; xff;
  x90; x80; xff; xff; x90; x80; xff; xff; x90; x80; xff; xff;
  x90; x80; xff; xff; x90; x80; xff; xff; x90; x80; xff; xff;
  x90; x80; xff; xff; x90; x80; xff; xff; x90; x80; xff; xff;
  x1c; x79; xff; xff; x92; x79; xff; xff; x90; x80; xff; xff;
  x92; x79; xff; xff; x90; x80; xff; xff; x90; x80; xff; xff;
  x90; x80; xff; xff; x90; x80; xff; xff; xce; x78; xff; xff;
  x90; x80; xff; xff; x90; x80; xff; xff; x08; x7d; xff; xff;
  x90; x80; xff; xff; x90; x80; xff; xff; x90; x80; xff; xff;
  x90; x80; xff; xff; x90; x80; xff; xff; x22; x7e; xff; xff;
  x90; x80; xff; xff; x90; x80; xff; xff; x7c; x7e; xff; xff;
  x90; x80; xff; xff; x90; x80; xff; xff; x90; x80; xff; xff;
  x90; x80; xff; xff; x90; x80; xff; xff; x90; x80; xff; xff;
  x90; x80; xff; xff; x90; x80; xff; xff; x90; x80; xff; xff;
  x90; x80; xff; xff; xf6; x78; xff; xff; x24; x79; xff; xff;
  x92; x79; xff; xff; x92; x79; xff; xff; x92; x79; xff; xff;
  xd8; x78; xff; xff; x24; x79; xff; xff; x90; x80; xff; xff;
  x90; x80; xff; xff; xe2; x78; xff; xff; x90; x80; xff; xff;
  xa6; x7c; xff; xff; x10; x7d; xff; xff; x60; x7d; xff; xff;
  xec; x78; xff; xff; x90; x80; xff; xff; xa2; x7d; xff; xff;
  x90; x80; xff; xff; x2a; x7e; xff; xff; x90; x80; xff; xff;
  x90; x80; xff; xff; x8a; x7e; xff; xff; x20; x20; x20; x20;
  x20; x20; x20; x20; x20; x20; x20; x20; x20; x20; x20; x20;
  x30; x30; x30; x30; x30; x30; x30; x30; x30; x30; x30; x30;
  x30; x30; x30; x30; xff; xff; xff; xff; xff; xff; xef; x7f;
  xff; xfe; xfe; xfe; xfe; xfe; xfe; xfe; x80; x80; x80; x80;
  x80; x80; x80; x80; x49; x6e; x66; x69; x6e; x69; x74; x79;
  x00; x00; x00; x00; x00; x00; x00; x00; x4e; x61; x4e; x00;
  x00; x00; x00; x00; x30; x00; x00; x00; x00; x00; x00; x00;
  x42; x61; x6c; x6c; x6f; x63; x20; x73; x75; x63; x63; x65;
  x65; x64; x65; x64; x00; x00; x00; x00; x00; x00; x00; x00;
  x2e; x2e; x2f; x2e; x2e; x2f; x2e; x2e; x2f; x6e; x65; x77;
  x6c; x69; x62; x2f; x6c; x69; x62; x63; x2f; x73; x74; x64;
  x6c; x69; x62; x2f; x64; x74; x6f; x61; x2e; x63; x00; x00;
  xb6; xac; xff; xff; xb6; xac; xff; xff; xc2; xac; xff; xff;
  xf0; xac; xff; xff; xc6; xac; xff; xff; xf4; xac; xff; xff;
  x00; x00; x00; x00; x00; x00; x00; x00; x00; x00; xf8; x3f;
  x61; x43; x6f; x63; xa7; x87; xd2; x3f; xb3; xc8; x60; x8b;
  x28; x8a; xc6; x3f; xfb; x79; x9f; x50; x13; x44; xd3; x3f;
  x00; x00; x00; x00; x00; x00; xf0; x3f; x00; x00; x00; x00;
  x00; x00; x24; x40; x00; x00; x00; x00; x00; x00; x1c; x40;
  x00; x00; x00; x00; x00; x00; x14; x40; x00; x00; x00; x00;
  x00; x00; xe0; x3f; x42; x61; x6c; x6c; x6f; x63; x20; x73;
  x75; x63; x63; x65; x65; x64; x65; x64; x00; x00; x00; x00;
  x00; x00; x00; x00; x2e; x2e; x2f; x2e; x2e; x2f; x2e; x2e;
  x2f; x6e; x65; x77; x6c; x69; x62; x2f; x6c; x69; x62; x63;
  x2f; x73; x74; x64; x6c; x69; x62; x2f; x6d; x70; x72; x65;
  x63; x2e; x63; x00; x00; x00; x00; x00; x00; x00; x00; x00;
  x00; x00; xf0; x3f; x00; x00; x00; x00; x00; x00; x24; x40;
  x00; x00; x00; x00; x00; x00; x59; x40; x00; x00; x00; x00;
  x00; x40; x8f; x40; x00; x00; x00; x00; x00; x88; xc3; x40;
  x00; x00; x00; x00; x00; x6a; xf8; x40; x00; x00; x00; x00;
  x80; x84; x2e; x41; x00; x00; x00; x00; xd0; x12; x63; x41;
  x00; x00; x00; x00; x84; xd7; x97; x41; x00; x00; x00; x00;
  x65; xcd; xcd; x41; x00; x00; x00; x20; x5f; xa0; x02; x42;
  x00; x00; x00; xe8; x76; x48; x37; x42; x00; x00; x00; xa2;
  x94; x1a; x6d; x42; x00; x00; x40; xe5; x9c; x30; xa2; x42;
  x00; x00; x90; x1e; xc4; xbc; xd6; x42; x00; x00; x34; x26;
  xf5; x6b; x0c; x43; x00; x80; xe0; x37; x79; xc3; x41; x43;
  x00; xa0; xd8; x85; x57; x34; x76; x43; x00; xc8; x4e; x67;
  x6d; xc1; xab; x43; x00; x3d; x91; x60; xe4; x58; xe1; x43;
  x40; x8c; xb5; x78; x1d; xaf; x15; x44; x50; xef; xe2; xd6;
  xe4; x1a; x4b; x44; x92; xd5; x4d; x06; xcf; xf0; x80; x44;
  xf6; x4a; xe1; xc7; x02; x2d; xb5; x44; xb4; x9d; xd9; x79;
  x43; x78; xea; x44; x00; x80; xe0; x37; x79; xc3; x41; x43;
  x17; x6e; x05; xb5; xb5; xb8; x93; x46; xf5; xf9; x3f; xe9;
  x03; x4f; x38; x4d; x32; x1d; x30; xf9; x48; x77; x82; x5a;
  x3c; xbf; x73; x7f; xdd; x4f; x15; x75; xbc; x89; xd8; x97;
  xb2; xd2; x9c; x3c; x33; xa7; xa8; xd5; x23; xf6; x49; x39;
  x3d; xa7; xf4; x44; xfd; x0f; xa5; x32; x9d; x97; x8c; xcf;
  x08; xba; x5b; x25; x43; x6f; xac; x64; x28; x06; xc8; x0a;
  x05; x00; x00; x00; x19; x00; x00; x00; x7d; x00; x00; x00;
  x00; x00; x00; x00; x00; x00; x00; x00; x00; x00; xf0; x3f;
  x00; x00; x00; x00; x00; x00; x24; x40; x2e; x00; x00; x00;
  x00; x00; x00; x00; x00; x00; x00; x00; x00; x00; x00; x00;
  x50; x4f; x53; x49; x58; x00; x00; x00; x43; x00; x00; x00;
  x00; x00; x00; x00; x2c; x20; x66; x75; x6e; x63; x74; x69;
  x6f; x6e; x3a; x20; x00; x00; x00; x00; x00; x00; x00; x00;
  x00; x00; x00; x00; x61; x73; x73; x65; x72; x74; x69; x6f;
  x6e; x20; x22; x25; x73; x22; x20; x66; x61; x69; x6c; x65;
  x64; x3a; x20; x66; x69; x6c; x65; x20; x22; x25; x73; x22;
  x2c; x20; x6c; x69; x6e; x65; x20; x25; x64; x25; x73; x25;
  x73; x0a; x00; x00; x00; x20; x20; x20; x20; x20; x20; x20;
  x20; x20; x28; x28; x28; x28; x28; x20; x20; x20; x20; x20;
  x20; x20; x20; x20; x20; x20; x20; x20; x20; x20; x20; x20;
  x20; x88; x10; x10; x10; x10; x10; x10; x10; x10; x10; x10;
  x10; x10; x10; x10; x10; x04; x04; x04; x04; x04; x04; x04;
  x04; x04; x04; x10; x10; x10; x10; x10; x10; x10; x41; x41;
  x41; x41; x41; x41; x01; x01; x01; x01; x01; x01; x01; x01;
  x01; x01; x01; x01; x01; x01; x01; x01; x01; x01; x01; x01;
  x10; x10; x10; x10; x10; x10; x42; x42; x42; x42; x42; x42;
  x02; x02; x02; x02; x02; x02; x02; x02; x02; x02; x02; x02;
  x02; x02; x02; x02; x02; x02; x02; x02; x10; x10; x10; x10;
  x20; x00; x00; x00; x00; x00; x00; x00; x00; x00; x00; x00;
  x00; x00; x00; x00; x00; x00; x00; x00; x00; x00; x00; x00;
  x00; x00; x00; x00; x00; x00; x00; x00; x00; x00; x00; x00;
  x00; x00; x00; x00; x00; x00; x00; x00; x00; x00; x00; x00;
  x00; x00; x00; x00; x00; x00; x00; x00; x00; x00; x00; x00;
  x00; x00; x00; x00; x00; x00; x00; x00; x00; x00; x00; x00;
  x00; x00; x00; x00; x00; x00; x00; x00; x00; x00; x00; x00;
  x00; x00; x00; x00; x00; x00; x00; x00; x00; x00; x00; x00;
  x00; x00; x00; x00; x00; x00; x00; x00; x00; x00; x00; x00;
  x00; x00; x00; x00; x00; x00; x00; x00; x00; x00; x00; x00;
  x00; x00; x00; x00; x00; x00; x00; x00; x00; x00; x00; x00;
  x00; x00; x00; x00; x30; x31; x32; x33; x34; x35; x36; x37;
  x38; x39; x61; x62; x63; x64; x65; x66; x00; x00; x00; x00;
  x00; x00; x00; x00; x28; x6e; x75; x6c; x6c; x29; x00; x00;
  x30; x31; x32; x33; x34; x35; x36; x37; x38; x39; x41; x42;
  x43; x44; x45; x46; x00; x00; x00; x00; x00; x00; x00; x00;
  x62; x75; x67; x20; x69; x6e; x20; x76; x66; x70; x72; x69;
  x6e; x74; x66; x3a; x20; x62; x61; x64; x20; x62; x61; x73;
  x65; x00; x00; x00; x9c; xe8; xff; xff; x70; xee; xff; xff;
  x70; xee; xff; xff; xac; xe8; xff; xff; x70; xee; xff; xff;
  x70; xee; xff; xff; x70; xee; xff; xff; x70; xee; xff; xff;
  x70; xee; xff; xff; x70; xee; xff; xff; xb6; xe8; xff; xff;
  xea; xe8; xff; xff; x70; xee; xff; xff; xe0; xe8; xff; xff;
  xf4; xe8; xff; xff; x70; xee; xff; xff; x82; xe9; xff; xff;
  x8c; xe9; xff; xff; x8c; xe9; xff; xff; x8c; xe9; xff; xff;
  x8c; xe9; xff; xff; x8c; xe9; xff; xff; x8c; xe9; xff; xff;
  x8c; xe9; xff; xff; x8c; xe9; xff; xff; x8c; xe9; xff; xff;
  x70; xee; xff; xff; x70; xee; xff; xff; x70; xee; xff; xff;
  x70; xee; xff; xff; x70; xee; xff; xff; x70; xee; xff; xff;
  x70; xee; xff; xff; x70; xee; xff; xff; x70; xee; xff; xff;
  x70; xee; xff; xff; x14; xea; xff; xff; x70; xee; xff; xff;
  x70; xee; xff; xff; x70; xee; xff; xff; x70; xee; xff; xff;
  x70; xee; xff; xff; x70; xee; xff; xff; x70; xee; xff; xff;
  x70; xee; xff; xff; x70; xee; xff; xff; x70; xee; xff; xff;
  xec; xea; xff; xff; x70; xee; xff; xff; x70; xee; xff; xff;
  x70; xee; xff; xff; x70; xee; xff; xff; x70; xee; xff; xff;
  x02; xec; xff; xff; x70; xee; xff; xff; x70; xee; xff; xff;
  x5c; xec; xff; xff; x70; xee; xff; xff; x70; xee; xff; xff;
  x70; xee; xff; xff; x70; xee; xff; xff; x70; xee; xff; xff;
  x70; xee; xff; xff; x70; xee; xff; xff; x70; xee; xff; xff].

Definition INIT_ELF_26 : list byte := [
  x70; xee; xff; xff; x70; xee; xff; xff; xee; xe9; xff; xff;
  x1c; xea; xff; xff; x70; xee; xff; xff; x70; xee; xff; xff;
  x70; xee; xff; xff; xd0; xe9; xff; xff; x1c; xea; xff; xff;
  x70; xee; xff; xff; x70; xee; xff; xff; xda; xe9; xff; xff;
  x70; xee; xff; xff; x8a; xea; xff; xff; xf4; xea; xff; xff;
  x44; xeb; xff; xff; xe4; xe9; xff; xff; x70; xee; xff; xff;
  x82; xeb; xff; xff; x70; xee; xff; xff; x0a; xec; xff; xff;
  x70; xee; xff; xff; x70; xee; xff; xff; x6a; xec; xff; xff;
  x20; x20; x20; x20; x20; x20; x20; x20; x20; x20; x20; x20;
  x20; x20; x20; x20; x30; x30; x30; x30; x30; x30; x30; x30;
  x30; x30; x30; x30; x30; x30; x30; x30; x00; x00; x00; x00;
  x00; x00; x00; x00; x00; x00; x00; x00; x00; x00; x00; x00;
  x00; x00; x00; x00; x00; x00; x00; x00; x00; x00; x00; x00;
  x00; x00; x00; x00; x00; x00; x00; x00; x00; x00; x00; x00;
  x00; x00; x00; x00; x00; x00; x00; x00; x00; x00; x00; x00;
  x00; x00; x00; x00; x00; x00; x00; x00; x00; x00; x00; x00;
  x00; x00; x00; x00; x00; x00; x00; x00; x00; x00; x00; x00;
  x00; x00; x00; x00; x00; x00; x00; x00; x00; x00; x00; x00;
  x00; x00; x00; x00; x00; x00; x00; x00; x00; x00; x00; x00;
  x00; x00; x00; x00; x00; x00; x00; x00; x00; x00; x00; x00;
  x00; x00; x00; x00; x00; x00; x00; x00; x00; x00; x00; x00;
  x00; x00; x00; x00; x00; x00; x00; x00; x00; x00; x00; x00;
  x00; x00; x00; x00; x00; x00; x00; x00; x00; x00; x00; x00;
  x00; x00; x00; x00; x00; x00; x00; x00; x00; x00; x00; x00;
  x00; x00; x00; x00; x00; x00; x00; x00; x00; x00; x00; x00;
  x00; x00; x00; x00; x00; x00; x00; x00; x00; x00; x00; x00;
  x00; x00; x00; x00; x00; x00; x00; x00; x00; x00; x00; x00;
  x00; x00; x00; x00; x00; x00; x00; x00; x00; x00; x00; x00;
  x00; x00; x00; x00; x00; x00; x00; x00; x00; x00; x00; x00;
  x00; x00; x00; x00; x00; x00; x00; x00; x00; x00; x00; x00;
  x00; x00; x00; x00; x00; x00; x00; x00; x00; x00; x00; x00;
  x00; x00; x00; x00; x00; x00; x00; x00; x00; x00; x00; x00;
  x00; x00; x00; x00; x00; x00; x00; x00; x00; x00; x00; x00;
  x00; x00; x00; x00; x00; x00; x00; x00; x00; x00; x00; x00;
  x00; x00; x00; x00; x00; x00; x00; x00; x00; x00; x00; x00;
  x00; x00; x00; x00; x00; x00; x00; x00; x00; x00; x00; x00;
  x00; x00; x00; x00; x00; x00; x00; x00; x00; x00; x00; x00;
  x00; x00; x00; x00; x00; x00; x00; x00; x00; x00; x00; x00;
  x00; x00; x00; x00; x00; x00; x00; x00; x00; x00; x00; x00;
  x00; x00; x00; x00; x00; x00; x00; x00; x00; x00; x00; x00;
  x00; x00; x00; x00; x00; x00; x00; x00; x00; x00; x00; x00;
  x00; x00; x00; x00; x00; x00; x00; x00; x00; x00; x00; x00;
  x00; x00; x00; x00; x00; x00; x00; x00; x00; x00; x00; x00;
  x00; x00; x00; x00; x00; x00; x00; x00; x00; x00; x00; x00;
  x00; x00; x00; x00; x00; x00; x00; x00; x00; x00; x00; x00;
  x00; x00; x00; x00; x00; x00; x00; x00; x00; x00; x00; x00;
  x00; x00; x00; x00; x00; x00; x00; x00; x00; x00; x00; x00;
  x00; x00; x00; x00; x00; x00; x00; x00; x00; x00; x00; x00;
  x00; x00; x00; x00; x00; x00; x00; x00; x00; x00; x00; x00;
  x00; x00; x00; x00; x00; x00; x00; x00; x00; x00; x00; x00;
  x00; x00; x00; x00; x00; x00; x00; x00; x00; x00; x00; x00;
  x00; x00; x00; x00; x00; x00; x00; x00; x00; x00; x00; x00;
  x00; x00; x00; x00; x00; x00; x00; x00; x00; x00; x00; x00;
  x00; x00; x00; x00; x00; x00; x00; x00; x00; x00; x00; x00;
  x00; x00; x00; x00; x00; x00; x00; x00; x00; x00; x00; x00;
  x00; x00; x00; x00; x00; x00; x00; x00; x00; x00; x00; x00;
  x00; x00; x00; x00; x00; x00; x00; x00; x00; x00; x00; x00;
  x00; x00; x00; x00; x00; x00; x00; x00; x00; x00; x00; x00;
  x00; x00; x00; x00; x00; x00; x00; x00; x00; x00; x00; x00;
  x00; x00; x00; x00; x00; x00; x00; x00; x00; x00; x00; x00;
  x00; x00; x00; x00; x00; x00; x00; x00; x00; x00; x00; x00;
  x00; x00; x00; x00; x00; x00; x00; x00; x00; x00; x00; x00;
  x00; x00; x00; x00; x00; x00; x00; x00; x00; x00; x00; x00;
  x00; x00; x00; x00; x00; x00; x00; x00; x00; x00; x00; x00;
  x00; x00; x00; x00; x00; x00; x00; x00; x00; x00; x00; x00;
  x00; x00; x00; x00; x00; x00; x00; x00; x00; x00; x00; x00;
  x00; x00; x00; x00; x00; x00; x00; x00; x00; x00; x00; x00;
  x00; x00; x00; x00; x00; x00; x00; x00; x00; x00; x00; x00;
  x00; x00; x00; x00; x00; x00; x00; x00; x00; x00; x00; x00;
  x00; x00; x00; x00; x00; x00; x00; x00; x00; x00; x00; x00;
  x00; x00; x00; x00; x00; x00; x00; x00; x00; x00; x00; x00;
  x00; x00; x00; x00; x00; x00; x00; x00; x00; x00; x00; x00;
  x00; x00; x00; x00; x00; x00; x00; x00; x00; x00; x00; x00;
  x00; x00; x00; x00; x00; x00; x00; x00; x00; x00; x00; x00;
  x00; x00; x00; x00; x00; x00; x00; x00; x00; x00; x00; x00;
  x00; x00; x00; x00; x00; x00; x00; x00; x00; x00; x00; x00;
  x00; x00; x00; x00; x00; x00; x00; x00; x00; x00; x00; x00;
  x00; x00; x00; x00; x00; x00; x00; x00; x00; x00; x00; x00;
  x00; x00; x00; x00; x00; x00; x00; x00; x00; x00; x00; x00;
  x00; x00; x00; x00; x00; x00; x00; x00; x00; x00; x00; x00;
  x00; x00; x00; x00; x00; x00; x00; x00; x00; x00; x00; x00;
  x00; x00; x00; x00; x00; x00; x00; x00; x00; x00; x00; x00;
  x00; x00; x00; x00; x00; x00; x00; x00; x00; x00; x00; x00;
  x00; x00; x00; x00; x00; x00; x00; x00; x00; x00; x00; x00;
  x00; x00; x00; x00; x00; x00; x00; x00; x00; x00; x00; x00;
  x00; x00; x00; x00; x00; x00; x00; x00; x00; x00; x00; x00;
  x00; x00; x00; x00; x00; x00; x00; x00; x00; x00; x00; x00;
  x00; x00; x00; x00; x00; x00; x00; x00; x00; x00; x00; x00;
  x00; x00; x00; x00; x00; x00; x00; x00; x00; x00; x00; x00;
  x00; x00; x00; x00; x00; x00; x00; x00; x00; x00; x00; x00;
  x00; x00; x00; x00; x00; x00; x00; x00; x00; x00; x00; x00;
  x00; x00; x00; x00; x00; x00; x00; x00; x00; x00; x00; x00;
  x00; x00; x00; x00; x00; x00; x00; x00; x00; x00; x00; x00;
  x00; x00; x00; x00; x00; x00; x00; x00; x00; x00; x00; x00;
  x00; x00; x00; x00; x00; x00; x00; x00; x00; x00; x00; x00;
  x00; x00; x00; x00; x00; x00; x00; x00; x00; x00; x00; x00;
  x00; x00; x00; x00; x00; x00; x00; x00; x00; x00; x00; x00;
  x00; x00; x00; x00; x00; x00; x00; x00; x00; x00; x00; x00;
  x00; x00; x00; x00; x00; x00; x00; x00; x00; x00; x00; x00;
  x00; x00; x00; x00; x00; x00; x00; x00; x00; x00; x00; x00;
  x00; x00; x00; x00; x00; x00; x00; x00; x00; x00; x00; x00;
  x00; x00; x00; x00; x00; x00; x00; x00; x00; x00; x00; x00;
  x00; x00; x00; x00; x00; x00; x00; x00; x00; x00; x00; x00;
  x00; x00; x00; x00; x00; x00; x00; x00; x00; x00; x00; x00;
  x00; x00; x00; x00; x00; x00; x00; x00; x00; x00; x00; x00;
  x00; x00; x00; x00; x00; x00; x00; x00; x00; x00; x00; x00;
  x00; x00; x00; x00; x00; x00; x00; x00; x00; x00; x00; x00;
  x00; x00; x00; x00; x00; x00; x00; x00; x00; x00; x00; x00;
  x00; x00; x00; x00; x00; x00; x00; x00; x00; x00; x00; x00;
  x00; x00; x00; x00; x00; x00; x00; x00; x00; x00; x00; x00;
  x00; x00; x00; x00; x00; x00; x00; x00; x00; x00; x00; x00;
  x00; x00; x00; x00; x00; x00; x00; x00; x00; x00; x00; x00;
  x00; x00; x00; x00; x00; x00; x00; x00; x00; x00; x00; x00;
  x00; x00; x00; x00; x00; x00; x00; x00; x00; x00; x00; x00;
  x00; x00; x00; x00; x00; x00; x00; x00; x00; x00; x00; x00;
  x00; x00; x00; x00; x00; x00; x00; x00; x00; x00; x00; x00;
  x00; x00; x00; x00; x00; x00; x00; x00; x00; x00; x00; x00;
  x00; x00; x00; x00; x00; x00; x00; x00; x00; x00; x00; x00;
  x00; x00; x00; x00; x00; x00; x00; x00; x00; x00; x00; x00;
  x00; x00; x00; x00; x00; x00; x00; x00; x00; x00; x00; x00;
  x00; x00; x00; x00; x00; x00; x00; x00; x00; x00; x00; x00;
  x00; x00; x00; x00; x00; x00; x00; x00; x00; x00; x00; x00;
  x00; x00; x00; x00; x00; x00; x00; x00; x00; x00; x00; x00;
  x00; x00; x00; x00; x00; x00; x00; x00; x00; x00; x00; x00;
  x00; x00; x00; x00; x00; x00; x00; x00; x00; x00; x00; x00;
  x00; x00; x00; x00; x00; x00; x00; x00; x00; x00; x00; x00;
  x00; x00; x00; x00; x00; x00; x00; x00; x00; x00; x00; x00;
  x00; x00; x00; x00; x00; x00; x00; x00; x00; x00; x00; x00;
  x00; x00; x00; x00; x00; x00; x00; x00; x00; x00; x00; x00;
  x00; x00; x00; x00; x00; x00; x00; x00; x00; x00; x00; x00;
  x00; x00; x00; x00; x00; x00; x00; x00; x00; x00; x00; x00;
  x00; x00; x00; x00; x00; x00; x00; x00; x00; x00; x00; x00;
  x00; x00; x00; x00; x00; x00; x00; x00; x00; x00; x00; x00;
  x00; x00; x00; x00; x00; x00; x00; x00; x00; x00; x00; x00;
  x00; x00; x00; x00; x00; x00; x00; x00; x00; x00; x00; x00;
  x00; x00; x00; x00; x00; x00; x00; x00; x00; x00; x00; x00;
  x00; x00; x00; x00; x00; x00; x00; x00; x00; x00; x00; x00;
  x00; x00; x00; x00; x00; x00; x00; x00; x00; x00; x00; x00;
  x00; x00; x00; x00; x00; x00; x00; x00; x00; x00; x00; x00;
  x00; x00; x00; x00; x00; x00; x00; x00; x00; x00; x00; x00;
  x00; x00; x00; x00; x00; x00; x00; x00; x00; x00; x00; x00;
  x00; x00; x00; x00; x00; x00; x00; x00; x00; x00; x00; x00;
  x00; x00; x00; x00; x00; x00; x00; x00; x00; x00; x00; x00;
  x00; x00; x00; x00; x00; x00; x00; x00; x00; x00; x00; x00;
  x00; x00; x00; x00; x00; x00; x00; x00; x00; x00; x00; x00;
  x00; x00; x00; x00; x00; x00; x00; x00; x00; x00; x00; x00;
  x00; x00; x00; x00; x00; x00; x00; x00; x00; x00; x00; x00;
  x00; x00; x00; x00; x00; x00; x00; x00; x00; x00; x00; x00;
  x00; x00; x00; x00; x00; x00; x00; x00; x00; x00; x00; x00;
  x00; x00; x00; x00; x00; x00; x00; x00; x00; x00; x00; x00].

Definition INIT_ELF_27 : list byte := [
  x00; x00; x00; x00; x00; x00; x00; x00; x00; x00; x00; x00;
  x00; x00; x00; x00; x00; x00; x00; x00; x00; x00; x00; x00;
  x00; x00; x00; x00; x00; x00; x00; x00; x00; x00; x00; x00;
  x00; x00; x00; x00; x00; x00; x00; x00; x00; x00; x00; x00;
  x00; x00; x00; x00; x00; x00; x00; x00; x00; x00; x00; x00;
  x00; x00; x00; x00; x00; x00; x00; x00; x00; x00; x00; x00;
  x00; x00; x00; x00; x00; x00; x00; x00; x00; x00; x00; x00;
  x00; x00; x00; x00; x00; x00; x00; x00; x00; x00; x00; x00;
  x00; x00; x00; x00; x00; x00; x00; x00; x00; x00; x00; x00;
  x00; x00; x00; x00; x00; x00; x00; x00; x00; x00; x00; x00;
  x00; x00; x00; x00; x00; x00; x00; x00; x00; x00; x00; x00;
  x00; x00; x00; x00; x00; x00; x00; x00; x00; x00; x00; x00;
  x00; x00; x00; x00; x00; x00; x00; x00; x00; x00; x00; x00;
  x00; x00; x00; x00; x00; x00; x00; x00; x00; x00; x00; x00;
  x00; x00; x00; x00; x00; x00; x00; x00; x00; x00; x00; x00;
  x00; x00; x00; x00; x00; x00; x00; x00; x00; x00; x00; x00;
  x00; x00; x00; x00; x00; x00; x00; x00; x00; x00; x00; x00;
  x00; x00; x00; x00; x00; x00; x00; x00; x00; x00; x00; x00;
  x00; x00; x00; x00; x00; x00; x00; x00; x00; x00; x00; x00;
  x00; x00; x00; x00; x00; x00; x00; x00; x00; x00; x00; x00;
  x00; x00; x00; x00; x00; x00; x00; x00; x00; x00; x00; x00;
  x00; x00; x00; x00; x00; x00; x00; x00; x00; x00; x00; x00;
  x00; x00; x00; x00; x00; x00; x00; x00; x00; x00; x00; x00;
  x00; x00; x00; x00; x00; x00; x00; x00; x00; x00; x00; x00;
  x00; x00; x00; x00; x00; x00; x00; x00; x00; x00; x00; x00;
  x00; x00; x00; x00; x00; x00; x00; x00; x00; x00; x00; x00;
  x00; x00; x00; x00; x00; x00; x00; x00; x00; x00; x00; x00;
  x00; x00; x00; x00; x00; x00; x00; x00; x00; x00; x00; x00;
  x00; x00; x00; x00; x00; x00; x00; x00; x00; x00; x00; x00;
  x00; x00; x00; x00; x00; x00; x00; x00; x00; x00; x00; x00;
  x00; x00; x00; x00; x00; x00; x00; x00; x00; x00; x00; x00;
  x00; x00; x00; x00; x00; x00; x00; x00; x00; x00; x00; x00;
  x00; x00; x00; x00; x00; x00; x00; x00; x00; x00; x00; x00;
  x00; x00; x00; x00; x00; x00; x00; x00; x00; x00; x00; x00;
  x00; x00; x00; x00; x00; x00; x00; x00; x00; x00; x00; x00;
  x00; x00; x00; x00; x00; x00; x00; x00; x00; x00; x00; x00;
  x00; x00; x00; x00; x00; x00; x00; x00; x00; x00; x00; x00;
  x00; x00; x00; x00; x00; x00; x00; x00; x00; x00; x00; x00;
  x00; x00; x00; x00; x00; x00; x00; x00; x00; x00; x00; x00;
  x00; x00; x00; x00; x00; x00; x00; x00; x00; x00; x00; x00;
  x00; x00; x00; x00; x00; x00; x00; x00; x00; x00; x00; x00;
  x00; x00; x00; x00; x00; x00; x00; x00; x00; x00; x00; x00;
  x00; x00; x00; x00; x00; x00; x00; x00; x00; x00; x00; x00;
  x00; x00; x00; x00; x00; x00; x00; x00; x00; x00; x00; x00;
  x00; x00; x00; x00; x00; x00; x00; x00; x00; x00; x00; x00;
  x00; x00; x00; x00; x00; x00; x00; x00; x00; x00; x00; x00;
  x00; x00; x00; x00; x00; x00; x00; x00; x03; x00; x00; x00;
  x00; x00; x00; x00; xa8; xcb; x01; x00; x00; x00; x00; x00;
  x00; x00; x00; x00; x00; x00; x00; x00; xa8; xcb; x01; x00;
  x00; x00; x00; x00; x58; xcc; x01; x00; x00; x00; x00; x00;
  x08; xcd; x01; x00; x00; x00; x00; x00; x00; x00; x00; x00;
  x00; x00; x00; x00; x00; x00; x00; x00; x00; x00; x00; x00;
  x00; x00; x00; x00; x00; x00; x00; x00; x00; x00; x00; x00;
  x00; x00; x00; x00; x00; x00; x00; x00; x00; x00; x00; x00;
  x00; x00; x00; x00; x00; x00; x00; x00; x00; x00; x00; x00;
  x00; x00; x00; x00; x00; x00; x00; x00; x00; x00; x00; x00;
  x00; x00; x00; x00; x00; x00; x00; x00; x00; x00; x00; x00;
  x00; x00; x00; x00; x00; x00; x00; x00; x00; x00; x00; x00;
  x00; x00; x00; x00; x00; x00; x00; x00; x00; x00; x00; x00;
  x00; x00; x00; x00; x00; x00; x00; x00; x00; x00; x00; x00;
  x00; x00; x00; x00; x00; x00; x00; x00; x00; x00; x00; x00;
  x00; x00; x00; x00; x00; x00; x00; x00; x00; x00; x00; x00;
  x00; x00; x00; x00; x00; x00; x00; x00; x00; x00; x00; x00;
  x00; x00; x00; x00; x00; x00; x00; x00; x00; x00; x00; x00;
  x00; x00; x00; x00; x00; x00; x00; x00; x00; x00; x00; x00;
  x00; x00; x00; x00; x01; x00; x00; x00; x00; x00; x00; x00;
  x0e; x33; xcd; xab; x34; x12; x6d; xe6; xec; xde; x05; x00;
  x0b; x00; x00; x00; x00; x00; x00; x00; x00; x00; x00; x00;
  x00; x00; x00; x00; x00; x00; x00; x00; x00; x00; x00; x00;
  x00; x00; x00; x00; x00; x00; x00; x00; x00; x00; x00; x00;
  x00; x00; x00; x00; x00; x00; x00; x00; x00; x00; x00; x00;
  x00; x00; x00; x00; x00; x00; x00; x00; x00; x00; x00; x00;
  x00; x00; x00; x00; x00; x00; x00; x00; x00; x00; x00; x00;
  x00; x00; x00; x00; x00; x00; x00; x00; x00; x00; x00; x00;
  x00; x00; x00; x00; x00; x00; x00; x00; x00; x00; x00; x00;
  x00; x00; x00; x00; x00; x00; x00; x00; x00; x00; x00; x00;
  x00; x00; x00; x00; x00; x00; x00; x00; x00; x00; x00; x00;
  x00; x00; x00; x00; x00; x00; x00; x00; x00; x00; x00; x00;
  x00; x00; x00; x00; x00; x00; x00; x00; x00; x00; x00; x00;
  x00; x00; x00; x00; x00; x00; x00; x00; x00; x00; x00; x00;
  x00; x00; x00; x00; x00; x00; x00; x00; x90; xc1; x01; x00;
  x00; x00; x00; x00; x90; xc1; x01; x00; x00; x00; x00; x00;
  xa0; xc1; x01; x00; x00; x00; x00; x00; xa0; xc1; x01; x00;
  x00; x00; x00; x00; xb0; xc1; x01; x00; x00; x00; x00; x00;
  xb0; xc1; x01; x00; x00; x00; x00; x00; xc0; xc1; x01; x00;
  x00; x00; x00; x00; xc0; xc1; x01; x00; x00; x00; x00; x00;
  xd0; xc1; x01; x00; x00; x00; x00; x00; xd0; xc1; x01; x00;
  x00; x00; x00; x00; xe0; xc1; x01; x00; x00; x00; x00; x00;
  xe0; xc1; x01; x00; x00; x00; x00; x00; xf0; xc1; x01; x00;
  x00; x00; x00; x00; xf0; xc1; x01; x00; x00; x00; x00; x00;
  x00; xc2; x01; x00; x00; x00; x00; x00; x00; xc2; x01; x00;
  x00; x00; x00; x00; x10; xc2; x01; x00; x00; x00; x00; x00;
  x10; xc2; x01; x00; x00; x00; x00; x00; x20; xc2; x01; x00;
  x00; x00; x00; x00; x20; xc2; x01; x00; x00; x00; x00; x00;
  x30; xc2; x01; x00; x00; x00; x00; x00; x30; xc2; x01; x00;
  x00; x00; x00; x00; x40; xc2; x01; x00; x00; x00; x00; x00;
  x40; xc2; x01; x00; x00; x00; x00; x00; x50; xc2; x01; x00;
  x00; x00; x00; x00; x50; xc2; x01; x00; x00; x00; x00; x00;
  x60; xc2; x01; x00; x00; x00; x00; x00; x60; xc2; x01; x00;
  x00; x00; x00; x00; x70; xc2; x01; x00; x00; x00; x00; x00;
  x70; xc2; x01; x00; x00; x00; x00; x00; x80; xc2; x01; x00;
  x00; x00; x00; x00; x80; xc2; x01; x00; x00; x00; x00; x00;
  x90; xc2; x01; x00; x00; x00; x00; x00; x90; xc2; x01; x00;
  x00; x00; x00; x00; xa0; xc2; x01; x00; x00; x00; x00; x00;
  xa0; xc2; x01; x00; x00; x00; x00; x00; xb0; xc2; x01; x00;
  x00; x00; x00; x00; xb0; xc2; x01; x00; x00; x00; x00; x00;
  xc0; xc2; x01; x00; x00; x00; x00; x00; xc0; xc2; x01; x00;
  x00; x00; x00; x00; xd0; xc2; x01; x00; x00; x00; x00; x00;
  xd0; xc2; x01; x00; x00; x00; x00; x00; xe0; xc2; x01; x00;
  x00; x00; x00; x00; xe0; xc2; x01; x00; x00; x00; x00; x00;
  xf0; xc2; x01; x00; x00; x00; x00; x00; xf0; xc2; x01; x00;
  x00; x00; x00; x00; x00; xc3; x01; x00; x00; x00; x00; x00;
  x00; xc3; x01; x00; x00; x00; x00; x00; x10; xc3; x01; x00;
  x00; x00; x00; x00; x10; xc3; x01; x00; x00; x00; x00; x00;
  x20; xc3; x01; x00; x00; x00; x00; x00; x20; xc3; x01; x00;
  x00; x00; x00; x00; x30; xc3; x01; x00; x00; x00; x00; x00;
  x30; xc3; x01; x00; x00; x00; x00; x00; x40; xc3; x01; x00;
  x00; x00; x00; x00; x40; xc3; x01; x00; x00; x00; x00; x00;
  x50; xc3; x01; x00; x00; x00; x00; x00; x50; xc3; x01; x00;
  x00; x00; x00; x00; x60; xc3; x01; x00; x00; x00; x00; x00;
  x60; xc3; x01; x00; x00; x00; x00; x00; x70; xc3; x01; x00;
  x00; x00; x00; x00; x70; xc3; x01; x00; x00; x00; x00; x00;
  x80; xc3; x01; x00; x00; x00; x00; x00; x80; xc3; x01; x00;
  x00; x00; x00; x00; x90; xc3; x01; x00; x00; x00; x00; x00;
  x90; xc3; x01; x00; x00; x00; x00; x00; xa0; xc3; x01; x00;
  x00; x00; x00; x00; xa0; xc3; x01; x00; x00; x00; x00; x00;
  xb0; xc3; x01; x00; x00; x00; x00; x00; xb0; xc3; x01; x00;
  x00; x00; x00; x00; xc0; xc3; x01; x00; x00; x00; x00; x00;
  xc0; xc3; x01; x00; x00; x00; x00; x00; xd0; xc3; x01; x00;
  x00; x00; x00; x00; xd0; xc3; x01; x00; x00; x00; x00; x00;
  xe0; xc3; x01; x00; x00; x00; x00; x00; xe0; xc3; x01; x00;
  x00; x00; x00; x00; xf0; xc3; x01; x00; x00; x00; x00; x00;
  xf0; xc3; x01; x00; x00; x00; x00; x00; x00; xc4; x01; x00;
  x00; x00; x00; x00; x00; xc4; x01; x00; x00; x00; x00; x00;
  x10; xc4; x01; x00; x00; x00; x00; x00; x10; xc4; x01; x00;
  x00; x00; x00; x00; x20; xc4; x01; x00; x00; x00; x00; x00;
  x20; xc4; x01; x00; x00; x00; x00; x00; x30; xc4; x01; x00;
  x00; x00; x00; x00; x30; xc4; x01; x00; x00; x00; x00; x00;
  x40; xc4; x01; x00; x00; x00; x00; x00; x40; xc4; x01; x00;
  x00; x00; x00; x00; x50; xc4; x01; x00; x00; x00; x00; x00;
  x50; xc4; x01; x00; x00; x00; x00; x00; x60; xc4; x01; x00;
  x00; x00; x00; x00; x60; xc4; x01; x00; x00; x00; x00; x00;
  x70; xc4; x01; x00; x00; x00; x00; x00; x70; xc4; x01; x00;
  x00; x00; x00; x00; x80; xc4; x01; x00; x00; x00; x00; x00;
  x80; xc4; x01; x00; x00; x00; x00; x00; x90; xc4; x01; x00;
  x00; x00; x00; x00; x90; xc4; x01; x00; x00; x00; x00; x00;
  xa0; xc4; x01; x00; x00; x00; x00; x00; xa0; xc4; x01; x00;
  x00; x00; x00; x00; xb0; xc4; x01; x00; x00; x00; x00; x00;
  xb0; xc4; x01; x00; x00; x00; x00; x00; xc0; xc4; x01; x00;
  x00; x00; x00; x00; xc0; xc4; x01; x00; x00; x00; x00; x00].

Definition INIT_ELF_28 : list byte := [
  xd0; xc4; x01; x00; x00; x00; x00; x00; xd0; xc4; x01; x00;
  x00; x00; x00; x00; xe0; xc4; x01; x00; x00; x00; x00; x00;
  xe0; xc4; x01; x00; x00; x00; x00; x00; xf0; xc4; x01; x00;
  x00; x00; x00; x00; xf0; xc4; x01; x00; x00; x00; x00; x00;
  x00; xc5; x01; x00; x00; x00; x00; x00; x00; xc5; x01; x00;
  x00; x00; x00; x00; x10; xc5; x01; x00; x00; x00; x00; x00;
  x10; xc5; x01; x00; x00; x00; x00; x00; x20; xc5; x01; x00;
  x00; x00; x00; x00; x20; xc5; x01; x00; x00; x00; x00; x00;
  x30; xc5; x01; x00; x00; x00; x00; x00; x30; xc5; x01; x00;
  x00; x00; x00; x00; x40; xc5; x01; x00; x00; x00; x00; x00;
  x40; xc5; x01; x00; x00; x00; x00; x00; x50; xc5; x01; x00;
  x00; x00; x00; x00; x50; xc5; x01; x00; x00; x00; x00; x00;
  x60; xc5; x01; x00; x00; x00; x00; x00; x60; xc5; x01; x00;
  x00; x00; x00; x00; x70; xc5; x01; x00; x00; x00; x00; x00;
  x70; xc5; x01; x00; x00; x00; x00; x00; x80; xc5; x01; x00;
  x00; x00; x00; x00; x80; xc5; x01; x00; x00; x00; x00; x00;
  x90; xc5; x01; x00; x00; x00; x00; x00; x90; xc5; x01; x00;
  x00; x00; x00; x00; xa0; xc5; x01; x00; x00; x00; x00; x00;
  xa0; xc5; x01; x00; x00; x00; x00; x00; xb0; xc5; x01; x00;
  x00; x00; x00; x00; xb0; xc5; x01; x00; x00; x00; x00; x00;
  xc0; xc5; x01; x00; x00; x00; x00; x00; xc0; xc5; x01; x00;
  x00; x00; x00; x00; xd0; xc5; x01; x00; x00; x00; x00; x00;
  xd0; xc5; x01; x00; x00; x00; x00; x00; xe0; xc5; x01; x00;
  x00; x00; x00; x00; xe0; xc5; x01; x00; x00; x00; x00; x00;
  xf0; xc5; x01; x00; x00; x00; x00; x00; xf0; xc5; x01; x00;
  x00; x00; x00; x00; x00; xc6; x01; x00; x00; x00; x00; x00;
  x00; xc6; x01; x00; x00; x00; x00; x00; x10; xc6; x01; x00;
  x00; x00; x00; x00; x10; xc6; x01; x00; x00; x00; x00; x00;
  x20; xc6; x01; x00; x00; x00; x00; x00; x20; xc6; x01; x00;
  x00; x00; x00; x00; x30; xc6; x01; x00; x00; x00; x00; x00;
  x30; xc6; x01; x00; x00; x00; x00; x00; x40; xc6; x01; x00;
  x00; x00; x00; x00; x40; xc6; x01; x00; x00; x00; x00; x00;
  x50; xc6; x01; x00; x00; x00; x00; x00; x50; xc6; x01; x00;
  x00; x00; x00; x00; x60; xc6; x01; x00; x00; x00; x00; x00;
  x60; xc6; x01; x00; x00; x00; x00; x00; x70; xc6; x01; x00;
  x00; x00; x00; x00; x70; xc6; x01; x00; x00; x00; x00; x00;
  x80; xc6; x01; x00; x00; x00; x00; x00; x80; xc6; x01; x00;
  x00; x00; x00; x00; x90; xc6; x01; x00; x00; x00; x00; x00;
  x90; xc6; x01; x00; x00; x00; x00; x00; xa0; xc6; x01; x00;
  x00; x00; x00; x00; xa0; xc6; x01; x00; x00; x00; x00; x00;
  xb0; xc6; x01; x00; x00; x00; x00; x00; xb0; xc6; x01; x00;
  x00; x00; x00; x00; xc0; xc6; x01; x00; x00; x00; x00; x00;
  xc0; xc6; x01; x00; x00; x00; x00; x00; xd0; xc6; x01; x00;
  x00; x00; x00; x00; xd0; xc6; x01; x00; x00; x00; x00; x00;
  xe0; xc6; x01; x00; x00; x00; x00; x00; xe0; xc6; x01; x00;
  x00; x00; x00; x00; xf0; xc6; x01; x00; x00; x00; x00; x00;
  xf0; xc6; x01; x00; x00; x00; x00; x00; x00; xc7; x01; x00;
  x00; x00; x00; x00; x00; xc7; x01; x00; x00; x00; x00; x00;
  x10; xc7; x01; x00; x00; x00; x00; x00; x10; xc7; x01; x00;
  x00; x00; x00; x00; x20; xc7; x01; x00; x00; x00; x00; x00;
  x20; xc7; x01; x00; x00; x00; x00; x00; x30; xc7; x01; x00;
  x00; x00; x00; x00; x30; xc7; x01; x00; x00; x00; x00; x00;
  x40; xc7; x01; x00; x00; x00; x00; x00; x40; xc7; x01; x00;
  x00; x00; x00; x00; x50; xc7; x01; x00; x00; x00; x00; x00;
  x50; xc7; x01; x00; x00; x00; x00; x00; x60; xc7; x01; x00;
  x00; x00; x00; x00; x60; xc7; x01; x00; x00; x00; x00; x00;
  x70; xc7; x01; x00; x00; x00; x00; x00; x70; xc7; x01; x00;
  x00; x00; x00; x00; x80; xc7; x01; x00; x00; x00; x00; x00;
  x80; xc7; x01; x00; x00; x00; x00; x00; x90; xc7; x01; x00;
  x00; x00; x00; x00; x90; xc7; x01; x00; x00; x00; x00; x00;
  xa0; xc7; x01; x00; x00; x00; x00; x00; xa0; xc7; x01; x00;
  x00; x00; x00; x00; xb0; xc7; x01; x00; x00; x00; x00; x00;
  xb0; xc7; x01; x00; x00; x00; x00; x00; xc0; xc7; x01; x00;
  x00; x00; x00; x00; xc0; xc7; x01; x00; x00; x00; x00; x00;
  xd0; xc7; x01; x00; x00; x00; x00; x00; xd0; xc7; x01; x00;
  x00; x00; x00; x00; xe0; xc7; x01; x00; x00; x00; x00; x00;
  xe0; xc7; x01; x00; x00; x00; x00; x00; xf0; xc7; x01; x00;
  x00; x00; x00; x00; xf0; xc7; x01; x00; x00; x00; x00; x00;
  x00; xc8; x01; x00; x00; x00; x00; x00; x00; xc8; x01; x00;
  x00; x00; x00; x00; x10; xc8; x01; x00; x00; x00; x00; x00;
  x10; xc8; x01; x00; x00; x00; x00; x00; x20; xc8; x01; x00;
  x00; x00; x00; x00; x20; xc8; x01; x00; x00; x00; x00; x00;
  x30; xc8; x01; x00; x00; x00; x00; x00; x30; xc8; x01; x00;
  x00; x00; x00; x00; x40; xc8; x01; x00; x00; x00; x00; x00;
  x40; xc8; x01; x00; x00; x00; x00; x00; x50; xc8; x01; x00;
  x00; x00; x00; x00; x50; xc8; x01; x00; x00; x00; x00; x00;
  x60; xc8; x01; x00; x00; x00; x00; x00; x60; xc8; x01; x00;
  x00; x00; x00; x00; x70; xc8; x01; x00; x00; x00; x00; x00;
  x70; xc8; x01; x00; x00; x00; x00; x00; x80; xc8; x01; x00;
  x00; x00; x00; x00; x80; xc8; x01; x00; x00; x00; x00; x00;
  x90; xc8; x01; x00; x00; x00; x00; x00; x90; xc8; x01; x00;
  x00; x00; x00; x00; xa0; xc8; x01; x00; x00; x00; x00; x00;
  xa0; xc8; x01; x00; x00; x00; x00; x00; xb0; xc8; x01; x00;
  x00; x00; x00; x00; xb0; xc8; x01; x00; x00; x00; x00; x00;
  xc0; xc8; x01; x00; x00; x00; x00; x00; xc0; xc8; x01; x00;
  x00; x00; x00; x00; xd0; xc8; x01; x00; x00; x00; x00; x00;
  xd0; xc8; x01; x00; x00; x00; x00; x00; xe0; xc8; x01; x00;
  x00; x00; x00; x00; xe0; xc8; x01; x00; x00; x00; x00; x00;
  xf0; xc8; x01; x00; x00; x00; x00; x00; xf0; xc8; x01; x00;
  x00; x00; x00; x00; x00; xc9; x01; x00; x00; x00; x00; x00;
  x00; xc9; x01; x00; x00; x00; x00; x00; x10; xc9; x01; x00;
  x00; x00; x00; x00; x10; xc9; x01; x00; x00; x00; x00; x00;
  x20; xc9; x01; x00; x00; x00; x00; x00; x20; xc9; x01; x00;
  x00; x00; x00; x00; x30; xc9; x01; x00; x00; x00; x00; x00;
  x30; xc9; x01; x00; x00; x00; x00; x00; x40; xc9; x01; x00;
  x00; x00; x00; x00; x40; xc9; x01; x00; x00; x00; x00; x00;
  x50; xc9; x01; x00; x00; x00; x00; x00; x50; xc9; x01; x00;
  x00; x00; x00; x00; x60; xc9; x01; x00; x00; x00; x00; x00;
  x60; xc9; x01; x00; x00; x00; x00; x00; x70; xc9; x01; x00;
  x00; x00; x00; x00; x70; xc9; x01; x00; x00; x00; x00; x00;
  x80; xc9; x01; x00; x00; x00; x00; x00; x80; xc9; x01; x00;
  x00; x00; x00; x00; x43; x00; x00; x00; x00; x00; x00; x00;
  x00; x00; x00; x00; x00; x00; x00; x00; x00; x00; x00; x00;
  x00; x00; x00; x00; x00; x00; x00; x00; x00; x00; x00; x00;
  x43; x00; x00; x00; x00; x00; x00; x00; x00; x00; x00; x00;
  x00; x00; x00; x00; x00; x00; x00; x00; x00; x00; x00; x00;
  x00; x00; x00; x00; x00; x00; x00; x00; x43; x00; x00; x00;
  x00; x00; x00; x00; x00; x00; x00; x00; x00; x00; x00; x00;
  x00; x00; x00; x00; x00; x00; x00; x00; x00; x00; x00; x00;
  x00; x00; x00; x00; x43; x00; x00; x00; x00; x00; x00; x00;
  x00; x00; x00; x00; x00; x00; x00; x00; x00; x00; x00; x00;
  x00; x00; x00; x00; x00; x00; x00; x00; x00; x00; x00; x00;
  x43; x00; x00; x00; x00; x00; x00; x00; x00; x00; x00; x00;
  x00; x00; x00; x00; x00; x00; x00; x00; x00; x00; x00; x00;
  x00; x00; x00; x00; x00; x00; x00; x00; x43; x00; x00; x00;
  x00; x00; x00; x00; x00; x00; x00; x00; x00; x00; x00; x00;
  x00; x00; x00; x00; x00; x00; x00; x00; x00; x00; x00; x00;
  x00; x00; x00; x00; x43; x00; x00; x00; x00; x00; x00; x00;
  x00; x00; x00; x00; x00; x00; x00; x00; x00; x00; x00; x00;
  x00; x00; x00; x00; x00; x00; x00; x00; x00; x00; x00; x00;
  xea; x99; x01; x00; x00; x00; x00; x00; x0c; x99; x01; x00;
  x00; x00; x00; x00; x00; x00; x00; x00; x00; x00; x00; x00;
  x70; xb4; x01; x00; x00; x00; x00; x00; x08; xb4; x01; x00;
  x00; x00; x00; x00; x10; xb4; x01; x00; x00; x00; x00; x00;
  x10; xb4; x01; x00; x00; x00; x00; x00; x10; xb4; x01; x00;
  x00; x00; x00; x00; x10; xb4; x01; x00; x00; x00; x00; x00;
  x10; xb4; x01; x00; x00; x00; x00; x00; x10; xb4; x01; x00;
  x00; x00; x00; x00; x10; xb4; x01; x00; x00; x00; x00; x00;
  x10; xb4; x01; x00; x00; x00; x00; x00; x10; xb4; x01; x00;
  x00; x00; x00; x00; xff; xff; xff; xff; xff; xff; xff; xff;
  xff; xff; xff; xff; xff; xff; x00; x00; x01; x00; x41; x53;
  x43; x49; x49; x00; x00; x00; x00; x00; x00; x00; x00; x00;
  x00; x00; x00; x00; x00; x00; x00; x00; x00; x00; x00; x00;
  x00; x00; x00; x00; x00; x00; x41; x53; x43; x49; x49; x00;
  x00; x00; x00; x00; x00; x00; x00; x00; x00; x00; x00; x00;
  x00; x00; x00; x00; x00; x00; x00; x00; x00; x00; x00; x00;
  x00; x00; x00; x00; x00; x00; x00; x00; x7f; x7f; x7f; x7f;
  x7f; x7f; x7f; x7f; x18; xc0; x01; x00; x00; x00; x00; x00;
  xc0; xcd; x01; x00; x00; x00; x00; x00; x00; x00; x02; x00;
  x00; x00; x00; x00; xff; xff; xff; xff; xff; xff; xff; xff;
  x47; x43; x43; x3a; x20; x28; x29; x20; x31; x33; x2e; x32;
  x2e; x30; x00; x41; x4a; x00; x00; x00; x72; x69; x73; x63;
  x76; x00; x01; x40; x00; x00; x00; x04; x10; x05; x72; x76;
  x36; x34; x69; x32; x70; x31; x5f; x6d; x32; x70; x30; x5f;
  x61; x32; x70; x31; x5f; x66; x32; x70; x32; x5f; x64; x32;
  x70; x32; x5f; x63; x32; x70; x30; x5f; x7a; x69; x63; x73;
  x72; x32; x70; x30; x5f; x7a; x6d; x6d; x75; x6c; x31; x70;
  x30; x00; x08; x01; x0a; x0b; x2c; x00; x00; x00; x02; x00;
  x00; x00; x00; x00; x08; x00; x00; x00; x00; x00; x74; xad;
  x01; x00; x00; x00; x00; x00; x20; x02; x00; x00; x00; x00].

Definition INIT_ELF_29 : list byte := [
  x00; x00; x00; x00; x00; x00; x00; x00; x00; x00; x00; x00;
  x00; x00; x00; x00; x00; x00; xcc; x02; x00; x00; x05; x00;
  x01; x08; x00; x00; x00; x00; x0f; x30; x01; x00; x00; x1d;
  x00; x00; x00; x00; x2b; x00; x00; x00; x74; xad; x01; x00;
  x00; x00; x00; x00; x20; x02; x00; x00; x00; x00; x00; x00;
  x00; x00; x00; x00; x01; x10; x04; x00; x02; x00; x00; x01;
  x10; x05; x87; x00; x00; x00; x01; x10; x07; x00; x00; x00;
  x00; x01; x08; x05; x0e; x01; x00; x00; x01; x01; x06; x5c;
  x00; x00; x00; x10; x04; x05; x69; x6e; x74; x00; x01; x01;
  x08; x5a; x00; x00; x00; x01; x04; x07; xe3; x00; x00; x00;
  x01; x08; x07; xde; x00; x00; x00; x08; x37; x00; x00; x00;
  x02; x44; x78; x00; x00; x00; x01; x08; x04; x05; x02; x00;
  x00; x05; x08; x02; xc6; xb1; x00; x00; x00; x04; xd4; x00;
  x00; x00; x02; xcd; x10; xb1; x00; x00; x00; x34; x00; x09;
  x65; x78; x70; x00; x02; xce; x5f; x00; x00; x00; x0b; x34;
  x04; xfb; x01; x00; x00; x02; xcf; x0e; x5f; x00; x00; x00;
  x01; x3f; x00; x01; x08; x07; xd9; x00; x00; x00; x0a; x17;
  x01; x00; x00; x08; x02; xc3; xdb; x00; x00; x00; x0b; x66;
  x6c; x74; x00; x02; xc5; x6d; x00; x00; x00; x06; x0c; x02;
  x00; x00; x02; xd1; x7f; x00; x00; x00; x00; x08; x53; x00;
  x00; x00; x03; x45; x2e; x00; x00; x00; x05; x10; x03; xcc;
  x03; x01; x00; x00; x0c; x61; x00; xce; x10; xb1; x00; x00;
  x00; x00; x0c; x62; x00; xce; x13; xb1; x00; x00; x00; x08;
  x00; x05; x10; x03; xd0; x43; x01; x00; x00; x04; x2b; x00;
  x00; x00; x03; xd8; x10; xb1; x00; x00; x00; x40; x00; x04;
  x31; x00; x00; x00; x03; xd9; x10; xb1; x00; x00; x00; x30;
  x40; x09; x65; x78; x70; x00; x03; xda; x5f; x00; x00; x00;
  x0f; x70; x04; xfb; x01; x00; x00; x03; xdb; x0e; x5f; x00;
  x00; x00; x01; x7f; x00; x0a; xef; x01; x00; x00; x10; x03;
  xc9; x71; x01; x00; x00; x0b; x66; x6c; x74; x00; x03; xcb;
  xdb; x00; x00; x00; x06; x25; x00; x00; x00; x03; xcf; xe6;
  x00; x00; x00; x06; x0c; x02; x00; x00; x03; xdd; x03; x01;
  x00; x00; x00; x11; x23; x01; x00; x00; x01; x22; x01; x6d;
  x00; x00; x00; x74; xad; x01; x00; x00; x00; x00; x00; x20;
  x02; x00; x00; x00; x00; x00; x00; x01; x9c; xc8; x02; x00;
  x00; x12; x61; x00; x01; x22; x16; xdb; x00; x00; x00; x0c;
  x00; x00; x00; x02; x90; x00; x00; x00; x24; x51; x00; x00;
  x00; x48; x00; x00; x00; x02; x11; x02; x00; x00; x24; x51;
  x00; x00; x00; x97; x00; x00; x00; x0d; x41; x5f; x63; x00;
  x25; xc8; x02; x00; x00; x03; x41; x5f; x73; x00; x25; x03;
  xc8; x02; x00; x00; xa5; x00; x00; x00; x03; x41; x5f; x65;
  x00; x25; x03; xc8; x02; x00; x00; xb3; x00; x00; x00; x02;
  x7d; x00; x00; x00; x25; xb1; x00; x00; x00; xf9; x00; x00;
  x00; x02; x82; x00; x00; x00; x25; xb1; x00; x00; x00; x4f;
  x01; x00; x00; x0d; x52; x5f; x63; x00; x26; xc8; x02; x00;
  x00; x03; x52; x5f; x73; x00; x26; x03; xc8; x02; x00; x00;
  x89; x01; x00; x00; x03; x52; x5f; x65; x00; x26; x03; xc8;
  x02; x00; x00; x97; x01; x00; x00; x03; x52; x5f; x66; x00;
  x26; x03; xb1; x00; x00; x00; xf7; x01; x00; x00; x03; x72;
  x00; x27; x0a; x6d; x00; x00; x00; x77; x02; x00; x00; x0e;
  x0c; x00; x00; x00; x59; x02; x00; x00; x07; xbf; x00; x00;
  x00; x2a; x43; x01; x00; x00; x00; x0e; x13; x00; x00; x00;
  xab; x02; x00; x00; x02; xf0; x00; x00; x00; x30; x51; x00;
  x00; x00; x7f; x02; x00; x00; x13; x28; x00; x00; x00; x07;
  xaa; x00; x00; x00; x30; xc8; x02; x00; x00; x02; x68; x00;
  x00; x00; x30; xc8; x02; x00; x00; xa5; x02; x00; x00; x02;
  x95; x00; x00; x00; x30; xc8; x02; x00; x00; xb4; x02; x00;
  x00; x02; x3e; x00; x00; x00; x30; xb1; x00; x00; x00; xc5;
  x02; x00; x00; x00; x00; x14; xb0; xae; x01; x00; x00; x00;
  x00; x00; x16; x00; x00; x00; x00; x00; x00; x00; x07; x12;
  x00; x00; x00; x30; xb8; x00; x00; x00; x00; x00; x01; x08;
  x05; x09; x01; x00; x00; x00; x01; x24; x00; x0b; x0b; x3e;
  x0b; x03; x0e; x00; x00; x02; x34; x00; x03; x0e; x3a; x21;
  x01; x3b; x0b; x39; x21; x03; x49; x13; x02; x17; x00; x00;
  x03; x34; x00; x03; x08; x3a; x21; x01; x3b; x0b; x39; x0b;
  x49; x13; x02; x17; x00; x00; x04; x0d; x00; x03; x0e; x3a;
  x0b; x3b; x0b; x39; x0b; x49; x13; x0d; x0b; x6b; x0b; x00;
  x00; x05; x13; x01; x0b; x0b; x3a; x0b; x3b; x0b; x39; x21;
  x03; x01; x13; x00; x00; x06; x0d; x00; x03; x0e; x3a; x0b;
  x3b; x0b; x39; x21; x05; x49; x13; x00; x00; x07; x34; x00;
  x03; x0e; x3a; x21; x01; x3b; x0b; x39; x21; x03; x49; x13;
  x00; x00; x08; x16; x00; x03; x0e; x3a; x0b; x3b; x0b; x39;
  x21; x0f; x49; x13; x00; x00; x09; x0d; x00; x03; x08; x3a;
  x0b; x3b; x0b; x39; x21; x0e; x49; x13; x0d; x0b; x6b; x0b;
  x00; x00; x0a; x17; x01; x03; x0e; x0b; x0b; x3a; x0b; x3b;
  x0b; x39; x21; x07; x01; x13; x00; x00; x0b; x0d; x00; x03;
  x08; x3a; x0b; x3b; x0b; x39; x21; x0a; x49; x13; x00; x00;
  x0c; x0d; x00; x03; x08; x3a; x21; x03; x3b; x0b; x39; x0b;
  x49; x13; x38; x0b; x00; x00; x0d; x34; x00; x03; x08; x3a;
  x21; x01; x3b; x0b; x39; x21; x03; x49; x13; x00; x00; x0e;
  x0b; x01; x55; x17; x01; x13; x00; x00; x0f; x11; x01; x25;
  x0e; x13; x0b; x03; x1f; x1b; x1f; x11; x01; x12; x07; x10;
  x17; x00; x00; x10; x24; x00; x0b; x0b; x3e; x0b; x03; x08;
  x00; x00; x11; x2e; x01; x3f; x19; x03; x0e; x3a; x0b; x3b;
  x0b; x39; x0b; x27; x19; x49; x13; x11; x01; x12; x07; x40;
  x18; x7a; x19; x01; x13; x00; x00; x12; x05; x00; x03; x08;
  x3a; x0b; x3b; x0b; x39; x0b; x49; x13; x02; x17; x00; x00;
  x13; x0b; x01; x55; x17; x00; x00; x14; x0b; x01; x11; x01;
  x12; x07; x00; x00; x00; xa1; x07; x00; x00; x05; x00; x08;
  x00; x38; x00; x00; x00; x01; x01; x01; xfb; x0e; x0d; x00;
  x01; x01; x01; x01; x00; x00; x00; x01; x00; x00; x01; x01;
  x01; x1f; x02; x2b; x00; x00; x00; x77; x00; x00; x00; x02;
  x01; x1f; x02; x0f; x04; x1e; x00; x00; x00; x01; x1e; x00;
  x00; x00; x01; x95; x00; x00; x00; x01; x9e; x00; x00; x00;
  x01; x05; x01; x00; x09; x02; x74; xad; x01; x00; x00; x00;
  x00; x00; x03; x22; x01; x05; x03; x03; x01; x09; x00; x00;
  x01; x03; x00; x09; x00; x00; x01; x05; x0d; x03; x00; x09;
  x00; x00; x01; x05; x03; x03; x01; x09; x00; x00; x01; x03;
  x00; x09; x00; x00; x01; x03; x00; x09; x00; x00; x01; x03;
  x00; x09; x00; x00; x01; x03; x01; x09; x00; x00; x01; x03;
  x00; x09; x00; x00; x01; x03; x00; x09; x00; x00; x01; x03;
  x00; x09; x00; x00; x01; x03; x01; x09; x00; x00; x01; x03;
  x02; x09; x00; x00; x01; x03; x00; x09; x00; x00; x01; x06;
  x03; x01; x09; x04; x00; x01; x00; x02; x04; x02; x03; x00;
  x09; x12; x00; x01; x03; x04; x09; x06; x00; x01; x00; x02;
  x04; x02; x03; x7c; x09; x04; x00; x01; x03; x04; x09; x02;
  x00; x01; x03; x7b; x09; x06; x00; x01; x06; x03; x00; x09;
  x02; x00; x01; x03; x01; x09; x00; x00; x01; x03; x00; x09;
  x00; x00; x01; x03; x00; x09; x00; x00; x01; x03; x00; x09;
  x00; x00; x01; x03; x00; x09; x00; x00; x01; x03; x00; x09;
  x00; x00; x01; x03; x00; x09; x00; x00; x01; x03; x00; x09;
  x00; x00; x01; x03; x00; x09; x00; x00; x01; x03; x00; x09;
  x00; x00; x01; x03; x00; x09; x00; x00; x01; x00; x02; x04;
  x02; x03; x00; x09; x00; x00; x01; x00; x02; x04; x02; x03;
  x00; x09; x00; x00; x01; x00; x02; x04; x04; x03; x00; x09;
  x04; x00; x01; x00; x02; x04; x04; x03; x00; x09; x00; x00;
  x01; x03; x04; x09; x00; x00; x01; x03; x00; x09; x00; x00;
  x01; x03; x00; x09; x00; x00; x01; x03; x00; x09; x00; x00;
  x01; x03; x00; x09; x00; x00; x01; x00; x02; x04; x01; x03;
  x00; x09; x04; x00; x01; x00; x02; x04; x01; x03; x00; x09;
  x08; x00; x01; x00; x02; x04; x03; x03; x00; x09; x08; x00;
  x01; x00; x02; x04; x03; x03; x00; x09; x00; x00; x01; x00;
  x02; x04; x06; x06; x03; x00; x09; x02; x00; x01; x00; x02;
  x04; x07; x03; x00; x09; x06; x00; x01; x00; x02; x04; x0e;
  x03; x00; x09; x02; x00; x01; x00; x02; x04; x10; x03; x00;
  x09; x06; x00; x01; x00; x02; x04; x0a; x03; x00; x09; x04;
  x00; x01; x00; x02; x04; x0b; x03; x00; x09; x06; x00; x01;
  x00; x02; x04; x0d; x03; x00; x09; x02; x00; x01; x00; x02;
  x04; x04; x06; x03; x00; x09; x08; x00; x01; x00; x02; x04;
  x11; x03; x00; x09; x04; x00; x01; x00; x02; x04; x13; x06;
  x03; x00; x09; x04; x00; x01; x00; x02; x04; x11; x03; x00;
  x09; x02; x00; x01; x00; x02; x04; x14; x06; x03; x00; x09;
  x04; x00; x01; x00; x02; x04; x14; x03; x00; x09; x08; x00;
  x01; x00; x02; x04; x16; x06; x03; x00; x09; x08; x00; x01;
  x00; x02; x04; x14; x03; x00; x09; x04; x00; x01; x00; x02;
  x04; x16; x06; x03; x00; x09; x04; x00; x01; x00; x02; x04;
  x1b; x06; x03; x00; x09; x0e; x00; x01; x00; x02; x04; x16;
  x03; x00; x09; x0c; x00; x01; x00; x02; x04; x1d; x03; x00;
  x09; x04; x00; x01; x00; x02; x04; x1d; x06; x03; x00; x09;
  x02; x00; x01; x00; x02; x04; x06; x03; x02; x09; x00; x00;
  x01; x00; x02; x04; x07; x03; x00; x09; x00; x00; x01; x00;
  x02; x04; x07; x03; x00; x09; x00; x00; x01; x00; x02; x04;
  x07; x03; x00; x09; x00; x00; x01; x00; x02; x04; x07; x03;
  x00; x09; x00; x00; x01; x00; x02; x04; x07; x03; x00; x09;
  x00; x00; x01; x00; x02; x04; x07; x03; x00; x09; x00; x00;
  x01; x00; x02; x04; x07; x03; x00; x09; x00; x00; x01; x00;
  x02; x04; x07; x03; x00; x09; x00; x00; x01; x00; x02; x04;
  x07; x03; x00; x09; x00; x00; x01; x00; x02; x04; x09; x03;
  x00; x09; x00; x00; x01; x00; x02; x04; x0c; x03; x00; x09;
  x04; x00; x01; x00; x02; x04; x0c; x03; x00; x09; x00; x00].

Definition INIT_ELF_30 : list byte := [
  x01; x00; x02; x04; x0c; x03; x00; x09; x00; x00; x01; x00;
  x02; x04; x0d; x03; x00; x09; x08; x00; x01; x00; x02; x04;
  x0d; x03; x00; x09; x00; x00; x01; x00; x02; x04; x10; x03;
  x00; x09; x10; x00; x01; x00; x02; x04; x10; x03; x00; x09;
  x00; x00; x01; x00; x02; x04; x14; x03; x00; x09; x0a; x00;
  x01; x00; x02; x04; x17; x03; x00; x09; x02; x00; x01; x00;
  x02; x04; x17; x03; x00; x09; x00; x00; x01; x00; x02; x04;
  x24; x03; x00; x09; x0a; x00; x01; x00; x02; x04; x24; x03;
  x00; x09; x00; x00; x01; x00; x02; x04; x25; x03; x00; x09;
  x08; x00; x01; x00; x02; x04; x25; x03; x00; x09; x06; x00;
  x01; x00; x02; x04; x28; x03; x00; x09; x0c; x00; x01; x00;
  x02; x04; x28; x03; x00; x09; x00; x00; x01; x00; x02; x04;
  x2c; x03; x00; x09; x0a; x00; x01; x00; x02; x04; x2f; x03;
  x00; x09; x02; x00; x01; x00; x02; x04; x2f; x03; x00; x09;
  x00; x00; x01; x00; x02; x04; x3a; x03; x00; x09; x02; x00;
  x01; x00; x02; x04; x3e; x03; x00; x09; x0a; x00; x01; x00;
  x02; x04; x3f; x03; x00; x09; x08; x00; x01; x00; x02; x04;
  x3f; x03; x00; x09; x00; x00; x01; x00; x02; x04; x3f; x03;
  x00; x09; x02; x00; x01; x00; x02; x04; x4f; x03; x00; x09;
  x10; x00; x01; x00; x02; x04; x4f; x03; x00; x09; x00; x00;
  x01; x00; x02; x04; x4f; x03; x00; x09; x06; x00; x01; x00;
  x02; x04; x50; x06; x03; x00; x09; x04; x00; x01; x00; x02;
  x04; x54; x03; x00; x09; x02; x00; x01; x00; x02; x04; x5a;
  x06; x03; x00; x09; x06; x00; x01; x00; x02; x04; x5a; x03;
  x00; x09; x00; x00; x01; x00; x02; x04; x5a; x03; x00; x09;
  x00; x00; x01; x00; x02; x04; x5a; x03; x00; x09; x00; x00;
  x01; x00; x02; x04; x5a; x03; x00; x09; x00; x00; x01; x00;
  x02; x04; x5a; x03; x00; x09; x00; x00; x01; x00; x02; x04;
  x5a; x03; x00; x09; x00; x00; x01; x00; x02; x04; x5a; x03;
  x00; x09; x16; x00; x01; x00; x02; x04; x5a; x03; x00; x09;
  x00; x00; x01; x00; x02; x04; x5a; x03; x00; x09; x00; x00;
  x01; x03; x01; x09; x00; x00; x01; x03; x00; x09; x00; x00;
  x01; x00; x02; x04; x01; x06; x03; x00; x09; x00; x00; x01;
  x00; x02; x04; x01; x06; x03; x00; x09; x02; x00; x01; x00;
  x02; x04; x03; x03; x00; x09; x04; x00; x01; x03; x02; x09;
  x00; x00; x01; x05; x01; x06; x03; x01; x09; x00; x00; x01;
  x05; x03; x00; x02; x04; x17; x06; x03; x7a; x09; x06; x00;
  x01; x00; x02; x04; x20; x06; x03; x00; x09; x0c; x00; x01;
  x00; x02; x04; x17; x03; x00; x09; x02; x00; x01; x00; x02;
  x04; x1f; x03; x00; x09; x04; x00; x01; x00; x02; x04; x22;
  x03; x00; x09; x08; x00; x01; x00; x02; x04; x22; x06; x03;
  x00; x09; x0a; x00; x01; x00; x02; x04; x12; x03; x00; x09;
  x02; x00; x01; x00; x02; x04; x12; x03; x00; x09; x00; x00;
  x01; x00; x02; x04; x12; x03; x00; x09; x14; x00; x01; x06;
  x03; x76; x09; x00; x00; x01; x00; x02; x04; x02; x06; x03;
  x0a; x09; x04; x00; x01; x00; x02; x04; x2a; x06; x03; x00;
  x09; x00; x00; x01; x00; x02; x04; x02; x03; x00; x09; x04;
  x00; x01; x00; x02; x04; x26; x06; x03; x00; x09; x04; x00;
  x01; x00; x02; x04; x26; x03; x00; x09; x00; x00; x01; x00;
  x02; x04; x2a; x03; x00; x09; x00; x00; x01; x00; x02; x04;
  x2a; x03; x00; x09; x00; x00; x01; x00; x02; x04; x2a; x03;
  x00; x09; x00; x00; x01; x00; x02; x04; x41; x03; x00; x09;
  x00; x00; x01; x00; x02; x04; x41; x03; x00; x09; x00; x00;
  x01; x03; x02; x09; x00; x00; x01; x03; x00; x09; x00; x00;
  x01; x03; x00; x09; x00; x00; x01; x06; x03; x74; x09; x00;
  x00; x01; x00; x02; x04; x01; x03; x0c; x09; x02; x00; x01;
  x00; x02; x04; x2b; x03; x7e; x09; x02; x00; x01; x00; x02;
  x04; x27; x06; x03; x00; x09; x04; x00; x01; x00; x02; x04;
  x27; x03; x00; x09; x00; x00; x01; x00; x02; x04; x30; x03;
  x00; x09; x02; x00; x01; x00; x02; x04; x30; x03; x00; x09;
  x00; x00; x01; x06; x03; x76; x09; x00; x00; x01; x00; x02;
  x04; x30; x03; x0a; x09; x02; x00; x01; x00; x02; x04; x34;
  x03; x00; x09; x04; x00; x01; x00; x02; x04; x38; x06; x03;
  x00; x09; x0a; x00; x01; x00; x02; x04; x38; x03; x00; x09;
  x00; x00; x01; x00; x02; x04; x38; x03; x00; x09; x00; x00;
  x01; x00; x02; x04; x38; x03; x00; x09; x04; x00; x01; x00;
  x02; x04; x38; x03; x00; x09; x00; x00; x01; x00; x02; x04;
  x38; x03; x00; x09; x00; x00; x01; x00; x02; x04; x3a; x06;
  x03; x00; x09; x04; x00; x01; x00; x02; x04; x38; x03; x00;
  x09; x02; x00; x01; x00; x02; x04; x38; x06; x03; x00; x09;
  x02; x00; x01; x00; x02; x04; x38; x03; x00; x09; x00; x00;
  x01; x00; x02; x04; x3a; x03; x00; x09; x00; x00; x01; x00;
  x02; x04; x27; x06; x03; x00; x09; x04; x00; x01; x00; x02;
  x04; x41; x06; x03; x00; x09; x04; x00; x01; x00; x02; x04;
  x41; x03; x00; x09; x00; x00; x01; x03; x02; x09; x00; x00;
  x01; x03; x00; x09; x00; x00; x01; x03; x00; x09; x00; x00;
  x01; x00; x02; x04; x06; x06; x03; x00; x09; x00; x00; x01;
  x00; x02; x04; x13; x06; x03; x00; x09; x04; x00; x01; x00;
  x02; x04; x13; x03; x00; x09; x00; x00; x01; x00; x02; x04;
  x0d; x06; x03; x00; x09; x00; x00; x01; x00; x02; x04; x13;
  x03; x00; x09; x02; x00; x01; x00; x02; x04; x1f; x06; x03;
  x00; x09; x04; x00; x01; x00; x02; x04; x12; x03; x00; x09;
  x04; x00; x01; x00; x02; x04; x12; x03; x00; x09; x00; x00;
  x01; x00; x02; x04; x0d; x06; x03; x00; x09; x00; x00; x01;
  x00; x02; x04; x12; x03; x00; x09; x02; x00; x01; x00; x02;
  x04; x2b; x06; x03; x00; x09; x06; x00; x01; x00; x02; x04;
  x2b; x03; x00; x09; x00; x00; x01; x00; x02; x04; x37; x03;
  x00; x09; x02; x00; x01; x00; x02; x04; x2a; x03; x00; x09;
  x04; x00; x01; x00; x02; x04; x2a; x03; x00; x09; x00; x00;
  x01; x00; x02; x04; x41; x03; x00; x09; x04; x00; x01; x00;
  x02; x04; x41; x03; x00; x09; x00; x00; x01; x00; x02; x04;
  x4b; x06; x03; x00; x09; x00; x00; x01; x00; x02; x04; x41;
  x03; x00; x09; x02; x00; x01; x00; x02; x04; x44; x03; x00;
  x09; x02; x00; x01; x00; x02; x04; x45; x03; x00; x09; x06;
  x00; x01; x00; x02; x04; x4c; x03; x00; x09; x02; x00; x01;
  x00; x02; x04; x48; x03; x00; x09; x08; x00; x01; x00; x02;
  x04; x49; x03; x00; x09; x06; x00; x01; x00; x02; x04; x4e;
  x06; x03; x00; x09; x02; x00; x01; x00; x02; x04; x4e; x03;
  x00; x09; x00; x00; x01; x00; x02; x04; x2f; x03; x00; x09;
  x06; x00; x01; x00; x02; x04; x2f; x03; x00; x09; x00; x00;
  x01; x00; x02; x04; x27; x06; x03; x7e; x09; x06; x00; x01;
  x09; x06; x00; x00; x01; x01; x00; x00; x00; x00; x00; x00;
  x0c; x00; x00; x00; xff; xff; xff; xff; x03; x00; x01; x7c;
  x01; x0d; x02; x00; x14; x00; x00; x00; x00; x00; x00; x00;
  x74; xad; x01; x00; x00; x00; x00; x00; x20; x02; x00; x00;
  x00; x00; x00; x00; x5f; x5f; x69; x6e; x74; x31; x32; x38;
  x20; x75; x6e; x73; x69; x67; x6e; x65; x64; x00; x5f; x46;
  x50; x5f; x50; x41; x43; x4b; x5f; x52; x41; x57; x5f; x31;
  x5f; x66; x6c; x6f; x00; x6c; x6f; x6e; x67; x73; x00; x66;
  x72; x61; x63; x30; x00; x66; x72; x61; x63; x31; x00; x44;
  x46; x74; x79; x70; x65; x00; x5f; x46; x50; x5f; x50; x41;
  x43; x4b; x5f; x53; x45; x4d; x49; x52; x41; x57; x5f; x54;
  x5f; x66; x00; x54; x46; x74; x79; x70; x65; x00; x75; x6e;
  x73; x69; x67; x6e; x65; x64; x20; x63; x68; x61; x72; x00;
  x5f; x46; x50; x5f; x50; x41; x43; x4b; x5f; x53; x45; x4d;
  x49; x52; x41; x57; x5f; x54; x5f; x73; x00; x41; x5f; x66;
  x30; x00; x41; x5f; x66; x31; x00; x5f; x5f; x69; x6e; x74;
  x31; x32; x38; x00; x5f; x66; x65; x78; x00; x5f; x46; x50;
  x5f; x50; x41; x43; x4b; x5f; x53; x45; x4d; x49; x52; x41;
  x57; x5f; x54; x5f; x65; x00; x5f; x46; x50; x5f; x50; x41;
  x43; x4b; x5f; x53; x45; x4d; x49; x52; x41; x57; x5f; x54;
  x5f; x63; x00; x5f; x46; x50; x5f; x55; x4e; x50; x41; x43;
  x4b; x5f; x52; x41; x57; x5f; x32; x5f; x66; x6c; x6f; x00;
  x66; x72; x61; x63; x00; x6c; x6f; x6e; x67; x20; x6c; x6f;
  x6e; x67; x20; x75; x6e; x73; x69; x67; x6e; x65; x64; x20;
  x69; x6e; x74; x00; x5f; x46; x50; x5f; x50; x41; x43; x4b;
  x5f; x53; x45; x4d; x49; x52; x41; x57; x5f; x69; x73; x5f;
  x74; x69; x6e; x79; x00; x6c; x6f; x6e; x67; x20; x6c; x6f;
  x6e; x67; x20; x69; x6e; x74; x00; x5f; x46; x50; x5f; x55;
  x4e; x49; x4f; x4e; x5f; x44; x00; x5f; x5f; x74; x72; x75;
  x6e; x63; x74; x66; x64; x66; x32; x00; x47; x4e; x55; x20;
  x43; x31; x37; x20; x31; x33; x2e; x32; x2e; x30; x20; x2d;
  x6d; x63; x6d; x6f; x64; x65; x6c; x3d; x6d; x65; x64; x6c;
  x6f; x77; x20; x2d; x6d; x63; x6d; x6f; x64; x65; x6c; x3d;
  x6d; x65; x64; x6c; x6f; x77; x20; x2d; x6d; x74; x75; x6e;
  x65; x3d; x72; x6f; x63; x6b; x65; x74; x20; x2d; x6d; x61;
  x62; x69; x3d; x6c; x70; x36; x34; x64; x20; x2d; x6d; x69;
  x73; x61; x2d; x73; x70; x65; x63; x3d; x32; x30; x31; x39;
  x31; x32; x31; x33; x20; x2d; x6d; x61; x72; x63; x68; x3d;
  x72; x76; x36; x34; x69; x6d; x61; x66; x64; x63; x5f; x7a;
  x69; x63; x73; x72; x20; x2d; x67; x20; x2d; x4f; x73; x20;
  x2d; x4f; x32; x20; x2d; x4f; x73; x20; x2d; x66; x62; x75;
  x69; x6c; x64; x69; x6e; x67; x2d; x6c; x69; x62; x67; x63;
  x63; x20; x2d; x66; x6e; x6f; x2d; x73; x74; x61; x63; x6b;
  x2d; x70; x72; x6f; x74; x65; x63; x74; x6f; x72; x20; x2d;
  x66; x76; x69; x73; x69; x62; x69; x6c; x69; x74; x79; x3d;
  x68; x69; x64; x64; x65; x6e; x00; x5f; x46; x50; x5f; x55;
  x4e; x49; x4f; x4e; x5f; x51; x00; x73; x69; x67; x6e; x00;
  x6c; x6f; x6e; x67; x20; x64; x6f; x75; x62; x6c; x65; x00;
  x62; x69; x74; x73; x00; x5f; x66; x72; x6d; x00; x2e; x2e].

Definition INIT_ELF_31 : list byte := [
  x2f; x2e; x2e; x2f; x2e; x2e; x2f; x2e; x2f; x67; x63; x63;
  x2f; x6c; x69; x62; x67; x63; x63; x2f; x73; x6f; x66; x74;
  x2d; x66; x70; x2f; x74; x72; x75; x6e; x63; x74; x66; x64;
  x66; x32; x2e; x63; x00; x2f; x74; x6d; x70; x2f; x72; x69;
  x73; x63; x76; x2d; x67; x6e; x75; x2d; x74; x6f; x6f; x6c;
  x63; x68; x61; x69; x6e; x2f; x62; x75; x69; x6c; x64; x2d;
  x67; x63; x63; x2d; x6e; x65; x77; x6c; x69; x62; x2d; x73;
  x74; x61; x67; x65; x32; x2f; x72; x69; x73; x63; x76; x36;
  x34; x2d; x75; x6e; x6b; x6e; x6f; x77; x6e; x2d; x65; x6c;
  x66; x2f; x6c; x69; x62; x67; x63; x63; x00; x2e; x2e; x2f;
  x2e; x2e; x2f; x2e; x2e; x2f; x2e; x2f; x67; x63; x63; x2f;
  x6c; x69; x62; x67; x63; x63; x2f; x73; x6f; x66; x74; x2d;
  x66; x70; x00; x64; x6f; x75; x62; x6c; x65; x2e; x68; x00;
  x71; x75; x61; x64; x2e; x68; x00; xd7; x02; x00; x00; x05;
  x00; x08; x00; x00; x00; x00; x00; x04; x00; x88; x01; x06;
  x5a; x93; x08; x5b; x93; x08; x04; x88; x01; x84; x03; x06;
  xa3; x03; xa5; x0a; x2e; x9f; x04; x84; x03; xd6; x03; x06;
  x5a; x93; x08; x5b; x93; x08; x04; xd6; x03; x9a; x04; x06;
  xa3; x03; xa5; x0a; x2e; x9f; x04; x9a; x04; xa0; x04; x06;
  x5a; x93; x08; x5b; x93; x08; x00; x04; x00; xb8; x01; x02;
  x30; x9f; x04; xb8; x01; xd4; x01; x02; x31; x9f; x04; xd4;
  x01; xde; x02; x01; x5b; x04; xde; x02; xbe; x03; x02; x30;
  x9f; x04; xbe; x03; xd6; x03; x01; x5b; x04; xd6; x03; xe8;
  x03; x02; x31; x9f; x04; xe8; x03; x8e; x04; x01; x5b; x04;
  x8e; x04; x92; x04; x05; x7b; x00; x31; x21; x9f; x04; x92;
  x04; x9a; x04; x01; x5b; x04; x9a; x04; xa0; x04; x02; x30;
  x9f; x00; x04; x2a; xa4; x02; x01; x5c; x04; xde; x02; xa0;
  x04; x01; x5c; x00; x04; x2a; xbc; x02; x01; x5d; x04; xde;
  x02; xa0; x04; x01; x5d; x00; x04; x2a; x3a; x01; x61; x04;
  x3a; x52; x05; x81; x80; xf8; x00; x9f; x04; x56; x64; x05;
  x81; x80; xf8; x00; x9f; x04; x66; xac; x01; x05; x81; x80;
  xf8; x00; x9f; x04; xde; x02; xe6; x02; x05; x81; x80; xf8;
  x00; x9f; x04; x84; x03; x98; x03; x05; x81; x80; xf8; x00;
  x9f; x04; x9c; x03; xd2; x03; x01; x61; x04; x9a; x04; x9e;
  x04; x01; x61; x00; x04; x2a; x2e; x01; x5a; x04; x2e; x9e;
  x01; x01; x56; x04; xde; x02; x82; x03; x01; x56; x04; x82;
  x03; x84; x03; x01; x5f; x04; x84; x03; x90; x03; x01; x56;
  x04; x90; x03; x98; x03; x05; x7a; x00; x33; x24; x9f; x04;
  x9c; x03; xa4; x03; x01; x56; x04; xac; x03; xc2; x03; x01;
  x56; x04; xc2; x03; xc4; x03; x08; x7e; x00; x34; x24; x7f;
  x00; x21; x9f; x04; xc6; x03; xca; x03; x01; x5e; x04; x9a;
  x04; xa0; x04; x01; x56; x00; x04; x2a; xaa; x01; x01; x5e;
  x04; xde; x02; x82; x03; x01; x5e; x04; x82; x03; x84; x03;
  x02; x30; x9f; x04; x84; x03; x96; x03; x01; x5e; x04; x9c;
  x03; xa4; x03; x01; x5e; x04; xac; x03; xc2; x03; x01; x5e;
  x04; xc2; x03; xd2; x03; x02; x30; x9f; x04; x9a; x04; xa0;
  x04; x01; x5e; x00; x04; x2e; xd0; x02; x01; x5d; x04; xde;
  x02; xa0; x04; x01; x5d; x00; x04; x3a; x52; x01; x61; x04;
  x56; x64; x01; x61; x04; x66; xac; x01; x01; x61; x04; xac;
  x01; xde; x01; x02; x30; x9f; x04; x9a; x02; xe6; x02; x01;
  x61; x04; x84; x03; x98; x03; x01; x61; x04; xa4; x03; xac;
  x03; x02; x30; x9f; x04; xac; x03; xd2; x03; x04; x0a; xff;
  x07; x9f; x04; xd2; x03; xd6; x03; x01; x61; x04; xd6; x03;
  xe8; x03; x02; x30; x9f; x04; xf2; x03; x84; x04; x01; x61;
  x04; x86; x04; x94; x04; x01; x61; x04; x9a; x04; xa0; x04;
  x04; x0a; xff; x07; x9f; x00; x04; xac; x01; x98; x02; x01;
  x5f; x04; x98; x02; xaa; x02; x0e; x7f; x00; x11; xff; xff;
  xff; xff; xff; xff; xff; xbf; x7f; x1a; x9f; x04; xaa; x02;
  xb8; x02; x01; x5f; x04; xbc; x02; xc8; x02; x01; x5f; x04;
  xa4; x03; xaa; x03; x08; x7f; x00; x30; x2e; x08; xff; x1a;
  x9f; x04; xaa; x03; xac; x03; x0b; x7e; x00; x76; x00; x21;
  x30; x2e; x08; xff; x1a; x9f; x04; xc2; x03; xc4; x03; x08;
  x7e; x00; x34; x24; x7f; x00; x21; x9f; x04; xc6; x03; xce;
  x03; x01; x5e; x04; xce; x03; xf2; x03; x01; x5f; x04; xf2;
  x03; xf4; x03; x0e; x7f; x00; x11; xff; xff; xff; xff; xff;
  xff; xff; xbf; x7f; x1a; x9f; x04; x8e; x04; x9a; x04; x01;
  x5f; x00; x04; xd2; x02; xde; x02; x01; x5f; x00; x04; xac;
  x01; xde; x01; x02; x31; x9f; x04; xde; x01; x94; x02; x01;
  x5e; x04; xd6; x03; xe8; x03; x02; x31; x9f; x04; xe8; x03;
  xf2; x03; x01; x5e; x04; x94; x04; x9a; x04; x01; x5e; x00;
  x04; xac; x01; xde; x01; x01; x5d; x04; xd6; x03; xe8; x03;
  x01; x5d; x00; x04; xac; x01; xde; x01; x02; x30; x9f; x04;
  xd6; x03; xe8; x03; x02; x30; x9f; x00; x04; xac; x01; xb0;
  x01; x01; x5f; x04; xb0; x01; xd6; x01; x01; x5e; x04; xd6;
  x03; xe8; x03; x01; x5e; x00; x2f; x00; x00; x00; x05; x00;
  x08; x00; x00; x00; x00; x00; x04; x04; x16; x04; x2a; x2a;
  x00; x04; xac; x01; xbc; x02; x04; xa4; x03; xa4; x03; x04;
  xa6; x03; xa8; x03; x04; xd2; x03; x9a; x04; x00; x04; xac;
  x01; xde; x01; x04; xd6; x03; xe8; x03; x00; x00; x00; x00;
  x00; x00; x00; x00; x00; x00; x00; x00; x00; x00; x00; x00;
  x00; x00; x00; x00; x00; x00; x00; x00; x00; x00; x00; x00;
  x00; x00; x00; x00; x00; x00; x00; x00; x03; x00; x01; x00;
  xe8; x00; x01; x00; x00; x00; x00; x00; x00; x00; x00; x00;
  x00; x00; x00; x00; x00; x00; x00; x00; x03; x00; x02; x00;
  x98; xaf; x01; x00; x00; x00; x00; x00; x00; x00; x00; x00;
  x00; x00; x00; x00; x00; x00; x00; x00; x03; x00; x03; x00;
  x00; xc0; x01; x00; x00; x00; x00; x00; x00; x00; x00; x00;
  x00; x00; x00; x00; x00; x00; x00; x00; x03; x00; x04; x00;
  x48; xcb; x01; x00; x00; x00; x00; x00; x00; x00; x00; x00;
  x00; x00; x00; x00; x00; x00; x00; x00; x03; x00; x05; x00;
  x70; xcb; x01; x00; x00; x00; x00; x00; x00; x00; x00; x00;
  x00; x00; x00; x00; x00; x00; x00; x00; x03; x00; x06; x00;
  xa8; xcb; x01; x00; x00; x00; x00; x00; x00; x00; x00; x00;
  x00; x00; x00; x00; x00; x00; x00; x00; x03; x00; x07; x00;
  x00; x00; x00; x00; x00; x00; x00; x00; x00; x00; x00; x00;
  x00; x00; x00; x00; x00; x00; x00; x00; x03; x00; x08; x00;
  x00; x00; x00; x00; x00; x00; x00; x00; x00; x00; x00; x00;
  x00; x00; x00; x00; x00; x00; x00; x00; x03; x00; x09; x00;
  x00; x00; x00; x00; x00; x00; x00; x00; x00; x00; x00; x00;
  x00; x00; x00; x00; x00; x00; x00; x00; x03; x00; x0a; x00;
  x00; x00; x00; x00; x00; x00; x00; x00; x00; x00; x00; x00;
  x00; x00; x00; x00; x00; x00; x00; x00; x03; x00; x0b; x00;
  x00; x00; x00; x00; x00; x00; x00; x00; x00; x00; x00; x00;
  x00; x00; x00; x00; x00; x00; x00; x00; x03; x00; x0c; x00;
  x00; x00; x00; x00; x00; x00; x00; x00; x00; x00; x00; x00;
  x00; x00; x00; x00; x00; x00; x00; x00; x03; x00; x0d; x00;
  x00; x00; x00; x00; x00; x00; x00; x00; x00; x00; x00; x00;
  x00; x00; x00; x00; x00; x00; x00; x00; x03; x00; x0e; x00;
  x00; x00; x00; x00; x00; x00; x00; x00; x00; x00; x00; x00;
  x00; x00; x00; x00; x00; x00; x00; x00; x03; x00; x0f; x00;
  x00; x00; x00; x00; x00; x00; x00; x00; x00; x00; x00; x00;
  x00; x00; x00; x00; x00; x00; x00; x00; x03; x00; x10; x00;
  x00; x00; x00; x00; x00; x00; x00; x00; x00; x00; x00; x00;
  x00; x00; x00; x00; x00; x00; x00; x00; x03; x00; x11; x00;
  x00; x00; x00; x00; x00; x00; x00; x00; x00; x00; x00; x00;
  x00; x00; x00; x00; x01; x00; x00; x00; x04; x00; xf1; xff;
  x00; x00; x00; x00; x00; x00; x00; x00; x00; x00; x00; x00;
  x00; x00; x00; x00; x08; x00; x00; x00; x00; x00; x01; x00;
  xe8; x00; x01; x00; x00; x00; x00; x00; x00; x00; x00; x00;
  x00; x00; x00; x00; x3e; x00; x00; x00; x04; x00; xf1; xff;
  x00; x00; x00; x00; x00; x00; x00; x00; x00; x00; x00; x00;
  x00; x00; x00; x00; x08; x00; x00; x00; x00; x00; x01; x00;
  x0c; x01; x01; x00; x00; x00; x00; x00; x00; x00; x00; x00;
  x00; x00; x00; x00; x72; x01; x00; x00; x04; x00; xf1; xff;
  x00; x00; x00; x00; x00; x00; x00; x00; x00; x00; x00; x00;
  x00; x00; x00; x00; x08; x00; x00; x00; x00; x00; x01; x00;
  x30; x01; x01; x00; x00; x00; x00; x00; x00; x00; x00; x00;
  x00; x00; x00; x00; x45; x00; x00; x00; x04; x00; xf1; xff;
  x00; x00; x00; x00; x00; x00; x00; x00; x00; x00; x00; x00;
  x00; x00; x00; x00; x4e; x00; x00; x00; x02; x00; x01; x00;
  x64; x01; x01; x00; x00; x00; x00; x00; xd8; x00; x00; x00;
  x00; x00; x00; x00; x08; x00; x00; x00; x00; x00; x01; x00;
  x64; x01; x01; x00; x00; x00; x00; x00; x00; x00; x00; x00;
  x00; x00; x00; x00; x52; x00; x00; x00; x02; x00; x01; x00;
  x3c; x02; x01; x00; x00; x00; x00; x00; x22; x00; x00; x00;
  x00; x00; x00; x00; x5d; x00; x00; x00; x02; x00; x01; x00;
  x5e; x02; x01; x00; x00; x00; x00; x00; x22; x00; x00; x00;
  x00; x00; x00; x00; x69; x00; x00; x00; x02; x00; x01; x00;
  x80; x02; x01; x00; x00; x00; x00; x00; x22; x00; x00; x00;
  x00; x00; x00; x00; x75; x00; x00; x00; x02; x00; x01; x00;
  xa2; x02; x01; x00; x00; x00; x00; x00; x8c; x00; x00; x00;
  x00; x00; x00; x00; x48; x04; x00; x00; x02; x00; x01; x00;
  x2e; x03; x01; x00; x00; x00; x00; x00; x2e; x00; x00; x00;
  x00; x00; x00; x00; x80; x00; x00; x00; x02; x00; x01; x00;
  x5c; x03; x01; x00; x00; x00; x00; x00; x48; x00; x00; x00;
  x00; x00; x00; x00; x92; x00; x00; x00; x02; x00; x01; x00;
  xd6; x04; x01; x00; x00; x00; x00; x00; x78; x00; x00; x00;
  x00; x00; x00; x00; xa0; x00; x00; x00; x01; x00; x06; x00;
  xb8; xcd; x01; x00; x00; x00; x00; x00; x04; x00; x00; x00;
  x00; x00; x00; x00; xb6; x00; x00; x00; x02; x00; x01; x00].

Definition INIT_ELF_32 : list byte := [
  xa6; x05; x01; x00; x00; x00; x00; x00; x18; x00; x00; x00;
  x00; x00; x00; x00; xc0; x00; x00; x00; x02; x00; x01; x00;
  xbe; x05; x01; x00; x00; x00; x00; x00; x18; x00; x00; x00;
  x00; x00; x00; x00; xcc; x00; x00; x00; x04; x00; xf1; xff;
  x00; x00; x00; x00; x00; x00; x00; x00; x00; x00; x00; x00;
  x00; x00; x00; x00; x08; x00; x00; x00; x00; x00; x01; x00;
  x2e; x06; x01; x00; x00; x00; x00; x00; x00; x00; x00; x00;
  x00; x00; x00; x00; xd9; x01; x00; x00; x04; x00; xf1; xff;
  x00; x00; x00; x00; x00; x00; x00; x00; x00; x00; x00; x00;
  x00; x00; x00; x00; x08; x00; x00; x00; x00; x00; x01; x00;
  xe0; x06; x01; x00; x00; x00; x00; x00; x00; x00; x00; x00;
  x00; x00; x00; x00; xd4; x00; x00; x00; x04; x00; xf1; xff;
  x00; x00; x00; x00; x00; x00; x00; x00; x00; x00; x00; x00;
  x00; x00; x00; x00; x08; x00; x00; x00; x00; x00; x01; x00;
  xb0; x07; x01; x00; x00; x00; x00; x00; x00; x00; x00; x00;
  x00; x00; x00; x00; xdc; x00; x00; x00; x04; x00; xf1; xff;
  x00; x00; x00; x00; x00; x00; x00; x00; x00; x00; x00; x00;
  x00; x00; x00; x00; x08; x00; x00; x00; x00; x00; x01; x00;
  x84; x09; x01; x00; x00; x00; x00; x00; x00; x00; x00; x00;
  x00; x00; x00; x00; xe5; x00; x00; x00; x04; x00; xf1; xff;
  x00; x00; x00; x00; x00; x00; x00; x00; x00; x00; x00; x00;
  x00; x00; x00; x00; x08; x00; x00; x00; x00; x00; x01; x00;
  xde; x09; x01; x00; x00; x00; x00; x00; x00; x00; x00; x00;
  x00; x00; x00; x00; xed; x00; x00; x00; x04; x00; xf1; xff;
  x00; x00; x00; x00; x00; x00; x00; x00; x00; x00; x00; x00;
  x00; x00; x00; x00; xf6; x00; x00; x00; x04; x00; xf1; xff;
  x00; x00; x00; x00; x00; x00; x00; x00; x00; x00; x00; x00;
  x00; x00; x00; x00; x08; x00; x00; x00; x00; x00; x01; x00;
  xf2; x0a; x01; x00; x00; x00; x00; x00; x00; x00; x00; x00;
  x00; x00; x00; x00; xff; x00; x00; x00; x04; x00; xf1; xff;
  x00; x00; x00; x00; x00; x00; x00; x00; x00; x00; x00; x00;
  x00; x00; x00; x00; x08; x00; x00; x00; x00; x00; x01; x00;
  x5c; x0b; x01; x00; x00; x00; x00; x00; x00; x00; x00; x00;
  x00; x00; x00; x00; x07; x01; x00; x00; x04; x00; xf1; xff;
  x00; x00; x00; x00; x00; x00; x00; x00; x00; x00; x00; x00;
  x00; x00; x00; x00; x08; x00; x00; x00; x00; x00; x01; x00;
  xc0; x0b; x01; x00; x00; x00; x00; x00; x00; x00; x00; x00;
  x00; x00; x00; x00; x10; x01; x00; x00; x04; x00; xf1; xff;
  x00; x00; x00; x00; x00; x00; x00; x00; x00; x00; x00; x00;
  x00; x00; x00; x00; x08; x00; x00; x00; x00; x00; x01; x00;
  x24; x0c; x01; x00; x00; x00; x00; x00; x00; x00; x00; x00;
  x00; x00; x00; x00; x1b; x01; x00; x00; x01; x00; x04; x00;
  x58; xcb; x01; x00; x00; x00; x00; x00; x08; x00; x00; x00;
  x00; x00; x00; x00; x21; x01; x00; x00; x01; x00; x06; x00;
  xc0; xcd; x01; x00; x00; x00; x00; x00; x00; x00; x40; x00;
  x00; x00; x00; x00; x28; x01; x00; x00; x04; x00; xf1; xff;
  x00; x00; x00; x00; x00; x00; x00; x00; x00; x00; x00; x00;
  x00; x00; x00; x00; x08; x00; x00; x00; x00; x00; x01; x00;
  x1e; x0f; x01; x00; x00; x00; x00; x00; x00; x00; x00; x00;
  x00; x00; x00; x00; x38; x01; x00; x00; x00; x00; x01; x00;
  x50; x0f; x01; x00; x00; x00; x00; x00; x00; x00; x00; x00;
  x00; x00; x00; x00; x08; x00; x00; x00; x00; x00; x01; x00;
  x90; x0f; x01; x00; x00; x00; x00; x00; x00; x00; x00; x00;
  x00; x00; x00; x00; x69; x01; x00; x00; x04; x00; xf1; xff;
  x00; x00; x00; x00; x00; x00; x00; x00; x00; x00; x00; x00;
  x00; x00; x00; x00; x79; x01; x00; x00; x01; x00; x06; x00;
  xc0; xcd; x41; x00; x00; x00; x00; x00; x04; x00; x00; x00;
  x00; x00; x00; x00; x08; x00; x00; x00; x00; x00; x01; x00;
  xc8; x0f; x01; x00; x00; x00; x00; x00; x00; x00; x00; x00;
  x00; x00; x00; x00; x92; x01; x00; x00; x04; x00; xf1; xff;
  x00; x00; x00; x00; x00; x00; x00; x00; x00; x00; x00; x00;
  x00; x00; x00; x00; x08; x00; x00; x00; x00; x00; x01; x00;
  xf2; x10; x01; x00; x00; x00; x00; x00; x00; x00; x00; x00;
  x00; x00; x00; x00; x9a; x01; x00; x00; x04; x00; xf1; xff;
  x00; x00; x00; x00; x00; x00; x00; x00; x00; x00; x00; x00;
  x00; x00; x00; x00; xa4; x01; x00; x00; x02; x00; x01; x00;
  x10; x17; x01; x00; x00; x00; x00; x00; x56; x03; x00; x00;
  x00; x00; x00; x00; x08; x00; x00; x00; x00; x00; x01; x00;
  x10; x17; x01; x00; x00; x00; x00; x00; x00; x00; x00; x00;
  x00; x00; x00; x00; xb6; x01; x00; x00; x04; x00; xf1; xff;
  x00; x00; x00; x00; x00; x00; x00; x00; x00; x00; x00; x00;
  x00; x00; x00; x00; xbe; x01; x00; x00; x01; x00; x06; x00;
  xf0; xcd; x41; x00; x00; x00; x00; x00; x04; x00; x00; x00;
  x00; x00; x00; x00; x08; x00; x00; x00; x00; x00; x01; x00;
  x24; x24; x01; x00; x00; x00; x00; x00; x00; x00; x00; x00;
  x00; x00; x00; x00; xd7; x01; x00; x00; x04; x00; xf1; xff;
  x00; x00; x00; x00; x00; x00; x00; x00; x00; x00; x00; x00;
  x00; x00; x00; x00; xe2; x01; x00; x00; x02; x00; x01; x00;
  x48; x24; x01; x00; x00; x00; x00; x00; xf0; x00; x00; x00;
  x00; x00; x00; x00; x08; x00; x00; x00; x00; x00; x01; x00;
  x48; x24; x01; x00; x00; x00; x00; x00; x00; x00; x00; x00;
  x00; x00; x00; x00; xed; x01; x00; x00; x02; x00; x01; x00;
  x60; x3f; x01; x00; x00; x00; x00; x00; xdc; x01; x00; x00;
  x00; x00; x00; x00; xf1; x01; x00; x00; x02; x00; x01; x00;
  x3c; x41; x01; x00; x00; x00; x00; x00; x2e; x01; x00; x00;
  x00; x00; x00; x00; xfa; x01; x00; x00; x01; x00; x02; x00;
  x98; xb1; x01; x00; x00; x00; x00; x00; x10; x00; x00; x00;
  x00; x00; x00; x00; x03; x02; x00; x00; x01; x00; x02; x00;
  xa8; xb1; x01; x00; x00; x00; x00; x00; x10; x00; x00; x00;
  x00; x00; x00; x00; x0c; x02; x00; x00; x04; x00; xf1; xff;
  x00; x00; x00; x00; x00; x00; x00; x00; x00; x00; x00; x00;
  x00; x00; x00; x00; x08; x00; x00; x00; x00; x00; x01; x00;
  x6a; x42; x01; x00; x00; x00; x00; x00; x00; x00; x00; x00;
  x00; x00; x00; x00; x17; x02; x00; x00; x04; x00; xf1; xff;
  x00; x00; x00; x00; x00; x00; x00; x00; x00; x00; x00; x00;
  x00; x00; x00; x00; x08; x00; x00; x00; x00; x00; x01; x00;
  xb6; x42; x01; x00; x00; x00; x00; x00; x00; x00; x00; x00;
  x00; x00; x00; x00; x20; x02; x00; x00; x04; x00; xf1; xff;
  x00; x00; x00; x00; x00; x00; x00; x00; x00; x00; x00; x00;
  x00; x00; x00; x00; x08; x00; x00; x00; x00; x00; x01; x00;
  xb4; x43; x01; x00; x00; x00; x00; x00; x00; x00; x00; x00;
  x00; x00; x00; x00; x29; x02; x00; x00; x04; x00; xf1; xff;
  x00; x00; x00; x00; x00; x00; x00; x00; x00; x00; x00; x00;
  x00; x00; x00; x00; x08; x00; x00; x00; x00; x00; x01; x00;
  xe0; x46; x01; x00; x00; x00; x00; x00; x00; x00; x00; x00;
  x00; x00; x00; x00; x33; x02; x00; x00; x04; x00; xf1; xff;
  x00; x00; x00; x00; x00; x00; x00; x00; x00; x00; x00; x00;
  x00; x00; x00; x00; x08; x00; x00; x00; x00; x00; x01; x00;
  x88; x4b; x01; x00; x00; x00; x00; x00; x00; x00; x00; x00;
  x00; x00; x00; x00; x3c; x02; x00; x00; x04; x00; xf1; xff;
  x00; x00; x00; x00; x00; x00; x00; x00; x00; x00; x00; x00;
  x00; x00; x00; x00; x08; x00; x00; x00; x00; x00; x01; x00;
  x00; x4d; x01; x00; x00; x00; x00; x00; x00; x00; x00; x00;
  x00; x00; x00; x00; x45; x02; x00; x00; x04; x00; xf1; xff;
  x00; x00; x00; x00; x00; x00; x00; x00; x00; x00; x00; x00;
  x00; x00; x00; x00; x52; x02; x00; x00; x02; x00; x01; x00;
  x7e; x4e; x01; x00; x00; x00; x00; x00; x16; x00; x00; x00;
  x00; x00; x00; x00; x08; x00; x00; x00; x00; x00; x01; x00;
  x7e; x4e; x01; x00; x00; x00; x00; x00; x00; x00; x00; x00;
  x00; x00; x00; x00; x66; x02; x00; x00; x02; x00; x01; x00;
  x94; x4e; x01; x00; x00; x00; x00; x00; x18; x00; x00; x00;
  x00; x00; x00; x00; x7b; x02; x00; x00; x02; x00; x01; x00;
  xac; x4e; x01; x00; x00; x00; x00; x00; x18; x00; x00; x00;
  x00; x00; x00; x00; x8a; x02; x00; x00; x04; x00; xf1; xff;
  x00; x00; x00; x00; x00; x00; x00; x00; x00; x00; x00; x00;
  x00; x00; x00; x00; x08; x00; x00; x00; x00; x00; x01; x00;
  x42; x4f; x01; x00; x00; x00; x00; x00; x00; x00; x00; x00;
  x00; x00; x00; x00; x92; x02; x00; x00; x04; x00; xf1; xff;
  x00; x00; x00; x00; x00; x00; x00; x00; x00; x00; x00; x00;
  x00; x00; x00; x00; x08; x00; x00; x00; x00; x00; x01; x00;
  x92; x4f; x01; x00; x00; x00; x00; x00; x00; x00; x00; x00;
  x00; x00; x00; x00; x9a; x02; x00; x00; x04; x00; xf1; xff;
  x00; x00; x00; x00; x00; x00; x00; x00; x00; x00; x00; x00;
  x00; x00; x00; x00; x08; x00; x00; x00; x00; x00; x01; x00;
  xaa; x4f; x01; x00; x00; x00; x00; x00; x00; x00; x00; x00;
  x00; x00; x00; x00; xa9; x02; x00; x00; x04; x00; xf1; xff;
  x00; x00; x00; x00; x00; x00; x00; x00; x00; x00; x00; x00;
  x00; x00; x00; x00; x08; x00; x00; x00; x00; x00; x01; x00;
  x68; x51; x01; x00; x00; x00; x00; x00; x00; x00; x00; x00;
  x00; x00; x00; x00; xb2; x02; x00; x00; x04; x00; xf1; xff;
  x00; x00; x00; x00; x00; x00; x00; x00; x00; x00; x00; x00;
  x00; x00; x00; x00; xbb; x02; x00; x00; x02; x00; x01; x00;
  x6e; x54; x01; x00; x00; x00; x00; x00; x4e; x00; x00; x00;
  x00; x00; x00; x00; x08; x00; x00; x00; x00; x00; x01; x00;
  x6e; x54; x01; x00; x00; x00; x00; x00; x00; x00; x00; x00;
  x00; x00; x00; x00; xce; x02; x00; x00; x04; x00; xf1; xff;
  x00; x00; x00; x00; x00; x00; x00; x00; x00; x00; x00; x00;
  x00; x00; x00; x00; xd5; x02; x00; x00; x02; x00; x01; x00;
  xec; x56; x01; x00; x00; x00; x00; x00; xa4; x03; x00; x00;
  x00; x00; x00; x00; x08; x00; x00; x00; x00; x00; x01; x00].

Definition INIT_ELF_33 : list byte := [
  xec; x56; x01; x00; x00; x00; x00; x00; x00; x00; x00; x00;
  x00; x00; x00; x00; xdc; x02; x00; x00; x04; x00; xf1; xff;
  x00; x00; x00; x00; x00; x00; x00; x00; x00; x00; x00; x00;
  x00; x00; x00; x00; x08; x00; x00; x00; x00; x00; x01; x00;
  xac; x6f; x01; x00; x00; x00; x00; x00; x00; x00; x00; x00;
  x00; x00; x00; x00; xe4; x02; x00; x00; x01; x00; x02; x00;
  xe8; xb3; x01; x00; x00; x00; x00; x00; x0c; x00; x00; x00;
  x00; x00; x00; x00; xea; x02; x00; x00; x04; x00; xf1; xff;
  x00; x00; x00; x00; x00; x00; x00; x00; x00; x00; x00; x00;
  x00; x00; x00; x00; x08; x00; x00; x00; x00; x00; x01; x00;
  xe8; x87; x01; x00; x00; x00; x00; x00; x00; x00; x00; x00;
  x00; x00; x00; x00; xf5; x02; x00; x00; x04; x00; xf1; xff;
  x00; x00; x00; x00; x00; x00; x00; x00; x00; x00; x00; x00;
  x00; x00; x00; x00; x08; x00; x00; x00; x00; x00; x01; x00;
  x1a; x92; x01; x00; x00; x00; x00; x00; x00; x00; x00; x00;
  x00; x00; x00; x00; xff; x02; x00; x00; x04; x00; xf1; xff;
  x00; x00; x00; x00; x00; x00; x00; x00; x00; x00; x00; x00;
  x00; x00; x00; x00; x52; x02; x00; x00; x02; x00; x01; x00;
  x04; x94; x01; x00; x00; x00; x00; x00; x16; x00; x00; x00;
  x00; x00; x00; x00; x08; x00; x00; x00; x00; x00; x01; x00;
  x04; x94; x01; x00; x00; x00; x00; x00; x00; x00; x00; x00;
  x00; x00; x00; x00; x66; x02; x00; x00; x02; x00; x01; x00;
  x1a; x94; x01; x00; x00; x00; x00; x00; x18; x00; x00; x00;
  x00; x00; x00; x00; x08; x03; x00; x00; x04; x00; xf1; xff;
  x00; x00; x00; x00; x00; x00; x00; x00; x00; x00; x00; x00;
  x00; x00; x00; x00; x08; x00; x00; x00; x00; x00; x01; x00;
  xf6; x94; x01; x00; x00; x00; x00; x00; x00; x00; x00; x00;
  x00; x00; x00; x00; x11; x03; x00; x00; x04; x00; xf1; xff;
  x00; x00; x00; x00; x00; x00; x00; x00; x00; x00; x00; x00;
  x00; x00; x00; x00; x08; x00; x00; x00; x00; x00; x01; x00;
  x58; x95; x01; x00; x00; x00; x00; x00; x00; x00; x00; x00;
  x00; x00; x00; x00; x1b; x03; x00; x00; x04; x00; xf1; xff;
  x00; x00; x00; x00; x00; x00; x00; x00; x00; x00; x00; x00;
  x00; x00; x00; x00; x08; x00; x00; x00; x00; x00; x01; x00;
  xb2; x95; x01; x00; x00; x00; x00; x00; x00; x00; x00; x00;
  x00; x00; x00; x00; x2b; x03; x00; x00; x00; x00; x04; x00;
  x48; xcb; x01; x00; x00; x00; x00; x00; x00; x00; x00; x00;
  x00; x00; x00; x00; x30; x03; x00; x00; x04; x00; xf1; xff;
  x00; x00; x00; x00; x00; x00; x00; x00; x00; x00; x00; x00;
  x00; x00; x00; x00; x08; x00; x00; x00; x00; x00; x01; x00;
  x9c; x96; x01; x00; x00; x00; x00; x00; x00; x00; x00; x00;
  x00; x00; x00; x00; x39; x03; x00; x00; x04; x00; xf1; xff;
  x00; x00; x00; x00; x00; x00; x00; x00; x00; x00; x00; x00;
  x00; x00; x00; x00; x08; x00; x00; x00; x00; x00; x01; x00;
  x38; x97; x01; x00; x00; x00; x00; x00; x00; x00; x00; x00;
  x00; x00; x00; x00; x43; x03; x00; x00; x04; x00; xf1; xff;
  x00; x00; x00; x00; x00; x00; x00; x00; x00; x00; x00; x00;
  x00; x00; x00; x00; x52; x02; x00; x00; x02; x00; x01; x00;
  x98; x98; x01; x00; x00; x00; x00; x00; x16; x00; x00; x00;
  x00; x00; x00; x00; x08; x00; x00; x00; x00; x00; x01; x00;
  x98; x98; x01; x00; x00; x00; x00; x00; x00; x00; x00; x00;
  x00; x00; x00; x00; x66; x02; x00; x00; x02; x00; x01; x00;
  xae; x98; x01; x00; x00; x00; x00; x00; x18; x00; x00; x00;
  x00; x00; x00; x00; x4e; x03; x00; x00; x04; x00; xf1; xff;
  x00; x00; x00; x00; x00; x00; x00; x00; x00; x00; x00; x00;
  x00; x00; x00; x00; x52; x02; x00; x00; x02; x00; x01; x00;
  x7a; x99; x01; x00; x00; x00; x00; x00; x16; x00; x00; x00;
  x00; x00; x00; x00; x08; x00; x00; x00; x00; x00; x01; x00;
  x7a; x99; x01; x00; x00; x00; x00; x00; x00; x00; x00; x00;
  x00; x00; x00; x00; x66; x02; x00; x00; x02; x00; x01; x00;
  x90; x99; x01; x00; x00; x00; x00; x00; x18; x00; x00; x00;
  x00; x00; x00; x00; x59; x03; x00; x00; x04; x00; xf1; xff;
  x00; x00; x00; x00; x00; x00; x00; x00; x00; x00; x00; x00;
  x00; x00; x00; x00; x63; x03; x00; x00; x04; x00; xf1; xff;
  x00; x00; x00; x00; x00; x00; x00; x00; x00; x00; x00; x00;
  x00; x00; x00; x00; x08; x00; x00; x00; x00; x00; x01; x00;
  x4c; x9a; x01; x00; x00; x00; x00; x00; x00; x00; x00; x00;
  x00; x00; x00; x00; x62; x03; x00; x00; x04; x00; xf1; xff;
  x00; x00; x00; x00; x00; x00; x00; x00; x00; x00; x00; x00;
  x00; x00; x00; x00; xe2; x01; x00; x00; x02; x00; x01; x00;
  x12; x9b; x01; x00; x00; x00; x00; x00; xf0; x00; x00; x00;
  x00; x00; x00; x00; x08; x00; x00; x00; x00; x00; x01; x00;
  x12; x9b; x01; x00; x00; x00; x00; x00; x00; x00; x00; x00;
  x00; x00; x00; x00; xfa; x01; x00; x00; x01; x00; x02; x00;
  x30; xb7; x01; x00; x00; x00; x00; x00; x10; x00; x00; x00;
  x00; x00; x00; x00; x03; x02; x00; x00; x01; x00; x02; x00;
  x40; xb7; x01; x00; x00; x00; x00; x00; x10; x00; x00; x00;
  x00; x00; x00; x00; x6e; x03; x00; x00; x04; x00; xf1; xff;
  x00; x00; x00; x00; x00; x00; x00; x00; x00; x00; x00; x00;
  x00; x00; x00; x00; x08; x00; x00; x00; x00; x00; x01; x00;
  x90; xa9; x01; x00; x00; x00; x00; x00; x00; x00; x00; x00;
  x00; x00; x00; x00; x76; x03; x00; x00; x04; x00; xf1; xff;
  x00; x00; x00; x00; x00; x00; x00; x00; x00; x00; x00; x00;
  x00; x00; x00; x00; x08; x00; x00; x00; x00; x00; x01; x00;
  xa4; xa9; x01; x00; x00; x00; x00; x00; x00; x00; x00; x00;
  x00; x00; x00; x00; x7f; x03; x00; x00; x04; x00; xf1; xff;
  x00; x00; x00; x00; x00; x00; x00; x00; x00; x00; x00; x00;
  x00; x00; x00; x00; x08; x00; x00; x00; x00; x00; x01; x00;
  xe8; xac; x01; x00; x00; x00; x00; x00; x00; x00; x00; x00;
  x00; x00; x00; x00; x89; x03; x00; x00; x04; x00; xf1; xff;
  x00; x00; x00; x00; x00; x00; x00; x00; x00; x00; x00; x00;
  x00; x00; x00; x00; x08; x00; x00; x00; x00; x00; x01; x00;
  x74; xad; x01; x00; x00; x00; x00; x00; x00; x00; x00; x00;
  x00; x00; x00; x00; x96; x03; x00; x00; x12; x00; x01; x00;
  xd0; x85; x01; x00; x00; x00; x00; x00; x74; x00; x00; x00;
  x00; x00; x00; x00; xa3; x03; x00; x00; x12; x00; x01; x00;
  xe2; x86; x01; x00; x00; x00; x00; x00; x06; x01; x00; x00;
  x00; x00; x00; x00; xac; x03; x00; x00; x12; x00; x01; x00;
  x58; x95; x01; x00; x00; x00; x00; x00; x5a; x00; x00; x00;
  x00; x00; x00; x00; xb6; x03; x00; x00; x11; x00; x02; x00;
  xc0; xb3; x01; x00; x00; x00; x00; x00; x28; x00; x00; x00;
  x00; x00; x00; x00; xc7; x03; x00; x00; x12; x00; x01; x00;
  xbc; x0c; x01; x00; x00; x00; x00; x00; x18; x00; x00; x00;
  x00; x00; x00; x00; xcf; x03; x00; x00; x12; x00; x01; x00;
  xf2; x0a; x01; x00; x00; x00; x00; x00; x6a; x00; x00; x00;
  x00; x00; x00; x00; xd8; x03; x00; x00; x12; x00; x01; x00;
  xe8; xac; x01; x00; x00; x00; x00; x00; x68; x00; x00; x00;
  x00; x00; x00; x00; xe6; x01; x00; x00; x12; x00; x01; x00;
  x42; x07; x01; x00; x00; x00; x00; x00; x6e; x00; x00; x00;
  x00; x00; x00; x00; xe0; x03; x00; x00; x10; x00; xf1; xff;
  x48; xd3; x01; x00; x00; x00; x00; x00; x00; x00; x00; x00;
  x00; x00; x00; x00; xd8; x08; x00; x00; x12; x00; x01; x00;
  x1c; xaa; x01; x00; x00; x00; x00; x00; x8e; x00; x00; x00;
  x00; x00; x00; x00; xf2; x03; x00; x00; x12; x00; x01; x00;
  xca; x08; x01; x00; x00; x00; x00; x00; x84; x00; x00; x00;
  x00; x00; x00; x00; xfa; x03; x00; x00; x12; x00; x01; x00;
  x4e; x05; x01; x00; x00; x00; x00; x00; x3c; x00; x00; x00;
  x00; x00; x00; x00; x02; x04; x00; x00; x12; x00; x01; x00;
  x32; x94; x01; x00; x00; x00; x00; x00; x6e; x00; x00; x00;
  x00; x00; x00; x00; x0f; x04; x00; x00; x12; x00; x01; x00;
  x36; x24; x01; x00; x00; x00; x00; x00; x12; x00; x00; x00;
  x00; x00; x00; x00; x1f; x04; x00; x00; x12; x00; x01; x00;
  xaa; x4f; x01; x00; x00; x00; x00; x00; xbe; x01; x00; x00;
  x00; x00; x00; x00; x27; x04; x00; x00; x12; x00; x01; x00;
  xac; x6f; x01; x00; x00; x00; x00; x00; xda; x00; x00; x00;
  x00; x00; x00; x00; x2f; x04; x00; x00; x12; x00; x01; x00;
  x92; x4f; x01; x00; x00; x00; x00; x00; x18; x00; x00; x00;
  x00; x00; x00; x00; x37; x04; x00; x00; x12; x00; x01; x00;
  xc4; x4e; x01; x00; x00; x00; x00; x00; x3a; x00; x00; x00;
  x00; x00; x00; x00; x46; x04; x00; x00; x11; x00; x05; x00;
  x70; xcb; x01; x00; x00; x00; x00; x00; x08; x00; x00; x00;
  x00; x00; x00; x00; x5b; x04; x00; x00; x12; x00; x01; x00;
  xf6; x94; x01; x00; x00; x00; x00; x00; x62; x00; x00; x00;
  x00; x00; x00; x00; x31; x04; x00; x00; x11; x00; x05; x00;
  x78; xcb; x01; x00; x00; x00; x00; x00; x04; x00; x00; x00;
  x00; x00; x00; x00; x64; x04; x00; x00; x12; x00; x01; x00;
  x20; x08; x01; x00; x00; x00; x00; x00; x22; x00; x00; x00;
  x00; x00; x00; x00; x6f; x04; x00; x00; x10; x00; x04; x00;
  x48; xcb; x01; x00; x00; x00; x00; x00; x00; x00; x00; x00;
  x00; x00; x00; x00; x7f; x04; x00; x00; x12; x00; x01; x00;
  x68; x51; x01; x00; x00; x00; x00; x00; x06; x03; x00; x00;
  x00; x00; x00; x00; x86; x04; x00; x00; x12; x00; x01; x00;
  x0a; x85; x01; x00; x00; x00; x00; x00; xc6; x00; x00; x00;
  x00; x00; x00; x00; x8e; x04; x00; x00; x12; x00; x01; x00;
  xe0; x06; x01; x00; x00; x00; x00; x00; x62; x00; x00; x00;
  x00; x00; x00; x00; x98; x04; x00; x00; x12; x00; x01; x00;
  xaa; xaa; x01; x00; x00; x00; x00; x00; xd2; x00; x00; x00;
  x00; x00; x00; x00; xa1; x04; x00; x00; x12; x00; x01; x00;
  x9a; x0c; x01; x00; x00; x00; x00; x00; x22; x00; x00; x00;
  x00; x00; x00; x00; xa8; x04; x00; x00; x12; x00; x01; x00].

Definition INIT_ELF_34 : list byte := [
  x9c; x96; x01; x00; x00; x00; x00; x00; x72; x00; x00; x00;
  x00; x00; x00; x00; xb6; x04; x00; x00; x11; x00; x02; x00;
  xd0; xb2; x01; x00; x00; x00; x00; x00; xc8; x00; x00; x00;
  x00; x00; x00; x00; xc3; x04; x00; x00; x11; x00; x05; x00;
  x88; xcb; x01; x00; x00; x00; x00; x00; x08; x00; x00; x00;
  x00; x00; x00; x00; xd4; x04; x00; x00; x12; x00; x01; x00;
  x50; xad; x01; x00; x00; x00; x00; x00; x24; x00; x00; x00;
  x00; x00; x00; x00; xde; x04; x00; x00; x12; x00; x01; x00;
  xfe; x4e; x01; x00; x00; x00; x00; x00; x24; x00; x00; x00;
  x00; x00; x00; x00; xec; x04; x00; x00; x12; x00; x01; x00;
  x80; x75; x01; x00; x00; x00; x00; x00; x68; x00; x00; x00;
  x00; x00; x00; x00; xf2; x04; x00; x00; x12; x00; x01; x00;
  xe0; x46; x01; x00; x00; x00; x00; x00; xa8; x04; x00; x00;
  x00; x00; x00; x00; xff; x04; x00; x00; x12; x00; x01; x00;
  x7c; xab; x01; x00; x00; x00; x00; x00; xb0; x00; x00; x00;
  x00; x00; x00; x00; x0c; x05; x00; x00; x12; x00; x01; x00;
  x42; x4f; x01; x00; x00; x00; x00; x00; x50; x00; x00; x00;
  x00; x00; x00; x00; x14; x05; x00; x00; x12; x00; x01; x00;
  x5c; x0b; x01; x00; x00; x00; x00; x00; x64; x00; x00; x00;
  x00; x00; x00; x00; x1c; x05; x00; x00; x12; x00; x01; x00;
  xb6; x42; x01; x00; x00; x00; x00; x00; xd6; x00; x00; x00;
  x00; x00; x00; x00; x26; x05; x00; x00; x12; x00; x01; x00;
  x96; x46; x01; x00; x00; x00; x00; x00; x4a; x00; x00; x00;
  x00; x00; x00; x00; x2d; x05; x00; x00; x11; x00; x05; x00;
  x90; xcb; x01; x00; x00; x00; x00; x00; x08; x00; x00; x00;
  x00; x00; x00; x00; x45; x05; x00; x00; x12; x00; x01; x00;
  x18; x81; x01; x00; x00; x00; x00; x00; xd6; x01; x00; x00;
  x00; x00; x00; x00; x4b; x05; x00; x00; x12; x00; x01; x00;
  xec; x0c; x01; x00; x00; x00; x00; x00; x16; x00; x00; x00;
  x00; x00; x00; x00; x53; x05; x00; x00; x12; x00; x01; x00;
  xe8; x87; x01; x00; x00; x00; x00; x00; x32; x0a; x00; x00;
  x00; x00; x00; x00; x5e; x05; x00; x00; x11; x00; x02; x00;
  x98; xb3; x01; x00; x00; x00; x00; x00; x28; x00; x00; x00;
  x00; x00; x00; x00; x6e; x05; x00; x00; x12; x00; x01; x00;
  x7a; x72; x01; x00; x00; x00; x00; x00; x8a; x01; x00; x00;
  x00; x00; x00; x00; x74; x05; x00; x00; x12; x00; x01; x00;
  x90; xa9; x01; x00; x00; x00; x00; x00; x14; x00; x00; x00;
  x00; x00; x00; x00; x7a; x05; x00; x00; x12; x00; x01; x00;
  x84; x0d; x01; x00; x00; x00; x00; x00; x30; x00; x00; x00;
  x00; x00; x00; x00; x80; x05; x00; x00; x12; x00; x01; x00;
  x10; x0e; x01; x00; x00; x00; x00; x00; x32; x00; x00; x00;
  x00; x00; x00; x00; x86; x05; x00; x00; x12; x00; x01; x00;
  xc8; x7c; x01; x00; x00; x00; x00; x00; xcc; x00; x00; x00;
  x00; x00; x00; x00; x8d; x05; x00; x00; x12; x00; x01; x00;
  xd6; x05; x01; x00; x00; x00; x00; x00; x2c; x00; x00; x00;
  x00; x00; x00; x00; x9b; x05; x00; x00; x12; x00; x01; x00;
  x42; x0e; x01; x00; x00; x00; x00; x00; x14; x00; x00; x00;
  x00; x00; x00; x00; xa2; x05; x00; x00; x12; x00; x01; x00;
  xde; x09; x01; x00; x00; x00; x00; x00; x14; x01; x00; x00;
  x00; x00; x00; x00; xb1; x05; x00; x00; x12; x00; x01; x00;
  x04; x74; x01; x00; x00; x00; x00; x00; x92; x00; x00; x00;
  x00; x00; x00; x00; xbb; x05; x00; x00; x11; x00; x06; x00;
  xa8; xcb; x01; x00; x00; x00; x00; x00; x10; x02; x00; x00;
  x00; x00; x00; x00; xc0; x05; x00; x00; x12; x00; x01; x00;
  xa0; x79; x01; x00; x00; x00; x00; x00; x3c; x01; x00; x00;
  x00; x00; x00; x00; xcb; x05; x00; x00; x12; x00; x01; x00;
  x8a; x05; x01; x00; x00; x00; x00; x00; x0e; x00; x00; x00;
  x00; x00; x00; x00; xde; x05; x00; x00; x12; x00; x01; x00;
  x00; x4d; x01; x00; x00; x00; x00; x00; x7e; x01; x00; x00;
  x00; x00; x00; x00; xe5; x05; x00; x00; x12; x00; x01; x00;
  xf2; x10; x01; x00; x00; x00; x00; x00; x96; x04; x00; x00;
  x00; x00; x00; x00; xed; x05; x00; x00; x12; x00; x01; x00;
  xa0; x94; x01; x00; x00; x00; x00; x00; x1e; x00; x00; x00;
  x00; x00; x00; x00; x01; x06; x00; x00; x12; x00; x01; x00;
  xc8; x0f; x01; x00; x00; x00; x00; x00; x2a; x01; x00; x00;
  x00; x00; x00; x00; x12; x06; x00; x00; x11; x00; x04; x00;
  x68; xcb; x01; x00; x00; x00; x00; x00; x08; x00; x00; x00;
  x00; x00; x00; x00; xdd; x06; x00; x00; x12; x00; x01; x00;
  x0c; x01; x01; x00; x00; x00; x00; x00; x24; x00; x00; x00;
  x00; x00; x00; x00; x25; x06; x00; x00; x12; x00; x01; x00;
  x78; x0e; x01; x00; x00; x00; x00; x00; x4a; x00; x00; x00;
  x00; x00; x00; x00; x2b; x06; x00; x00; x12; x00; x01; x00;
  x54; x0d; x01; x00; x00; x00; x00; x00; x30; x00; x00; x00;
  x00; x00; x00; x00; x32; x06; x00; x00; x12; x00; x01; x00;
  xdc; x7a; x01; x00; x00; x00; x00; x00; xec; x01; x00; x00;
  x00; x00; x00; x00; x50; x07; x00; x00; x12; x00; x01; x00;
  x5c; xac; x01; x00; x00; x00; x00; x00; x38; x00; x00; x00;
  x00; x00; x00; x00; x3b; x06; x00; x00; x12; x00; x01; x00;
  xe8; x75; x01; x00; x00; x00; x00; x00; xb8; x03; x00; x00;
  x00; x00; x00; x00; x46; x06; x00; x00; x11; x00; x06; x00;
  xc8; xcd; x41; x00; x00; x00; x00; x00; x28; x00; x00; x00;
  x00; x00; x00; x00; x60; x06; x00; x00; x12; x00; x01; x00;
  xee; x82; x01; x00; x00; x00; x00; x00; x1c; x02; x00; x00;
  x00; x00; x00; x00; x66; x06; x00; x00; x12; x00; x01; x00;
  x84; x09; x01; x00; x00; x00; x00; x00; x5a; x00; x00; x00;
  x00; x00; x00; x00; x6f; x06; x00; x00; x12; x00; x01; x00;
  x88; x4b; x01; x00; x00; x00; x00; x00; x78; x01; x00; x00;
  x00; x00; x00; x00; x7b; x06; x00; x00; x12; x00; x01; x00;
  xa4; x03; x01; x00; x00; x00; x00; x00; x32; x01; x00; x00;
  x00; x00; x00; x00; x81; x06; x00; x00; x12; x00; x01; x00;
  x44; x86; x01; x00; x00; x00; x00; x00; x9e; x00; x00; x00;
  x00; x00; x00; x00; x8c; x06; x00; x00; x10; x00; x06; x00;
  xf8; xcd; x41; x00; x00; x00; x00; x00; x00; x00; x00; x00;
  x00; x00; x00; x00; x98; x06; x00; x00; x11; x00; x03; x00;
  x90; xc1; x01; x00; x00; x00; x00; x00; x10; x08; x00; x00;
  x00; x00; x00; x00; xa5; x06; x00; x00; x11; x00; x05; x00;
  x80; xcb; x01; x00; x00; x00; x00; x00; x08; x00; x00; x00;
  x00; x00; x00; x00; xae; x06; x00; x00; x12; x00; x01; x00;
  xb0; x07; x01; x00; x00; x00; x00; x00; x70; x00; x00; x00;
  x00; x00; x00; x00; xb6; x06; x00; x00; x12; x00; x01; x00;
  x24; x24; x01; x00; x00; x00; x00; x00; x12; x00; x00; x00;
  x00; x00; x00; x00; xc4; x06; x00; x00; x12; x00; x01; x00;
  x3e; x46; x01; x00; x00; x00; x00; x00; x58; x00; x00; x00;
  x00; x00; x00; x00; xce; x06; x00; x00; x12; x00; x01; x00;
  x38; x97; x01; x00; x00; x00; x00; x00; x60; x01; x00; x00;
  x00; x00; x00; x00; xd8; x06; x00; x00; x10; x00; x05; x00;
  x70; xcb; x01; x00; x00; x00; x00; x00; x00; x00; x00; x00;
  x00; x00; x00; x00; xe4; x06; x00; x00; x12; x00; x01; x00;
  x1e; x0f; x01; x00; x00; x00; x00; x00; xaa; x00; x00; x00;
  x00; x00; x00; x00; xeb; x06; x00; x00; x12; x00; x01; x00;
  xe8; x00; x01; x00; x00; x00; x00; x00; x24; x00; x00; x00;
  x00; x00; x00; x00; xf0; x06; x00; x00; x12; x00; x01; x00;
  x2e; x0d; x01; x00; x00; x00; x00; x00; x26; x00; x00; x00;
  x00; x00; x00; x00; xf6; x06; x00; x00; x11; x00; x05; x00;
  x98; xcb; x01; x00; x00; x00; x00; x00; x08; x00; x00; x00;
  x00; x00; x00; x00; x0d; x07; x00; x00; x12; x00; x01; x00;
  x4e; x09; x01; x00; x00; x00; x00; x00; x36; x00; x00; x00;
  x00; x00; x00; x00; x16; x07; x00; x00; x12; x00; x01; x00;
  x8c; x43; x01; x00; x00; x00; x00; x00; x28; x00; x00; x00;
  x00; x00; x00; x00; x1d; x07; x00; x00; x12; x00; x01; x00;
  x90; x5a; x01; x00; x00; x00; x00; x00; x1c; x15; x00; x00;
  x00; x00; x00; x00; x25; x07; x00; x00; x12; x00; x01; x00;
  x66; x1a; x01; x00; x00; x00; x00; x00; xbe; x09; x00; x00;
  x00; x00; x00; x00; x2f; x07; x00; x00; x12; x00; x01; x00;
  xea; x99; x01; x00; x00; x00; x00; x00; x62; x00; x00; x00;
  x00; x00; x00; x00; x3e; x07; x00; x00; x12; x00; x01; x00;
  x4c; x9a; x01; x00; x00; x00; x00; x00; x60; x00; x00; x00;
  x00; x00; x00; x00; x4a; x07; x00; x00; x12; x00; x01; x00;
  x94; xac; x01; x00; x00; x00; x00; x00; x24; x00; x00; x00;
  x00; x00; x00; x00; x57; x07; x00; x00; x12; x00; x01; x00;
  xc6; x98; x01; x00; x00; x00; x00; x00; x46; x00; x00; x00;
  x00; x00; x00; x00; x61; x07; x00; x00; x12; x00; x01; x00;
  x88; x15; x01; x00; x00; x00; x00; x00; x88; x01; x00; x00;
  x00; x00; x00; x00; x70; x07; x00; x00; x12; x00; x01; x00;
  xb2; x95; x01; x00; x00; x00; x00; x00; xea; x00; x00; x00;
  x00; x00; x00; x00; x77; x07; x00; x00; x12; x00; x01; x00;
  x02; x9c; x01; x00; x00; x00; x00; x00; x44; x00; x00; x00;
  x00; x00; x00; x00; x81; x07; x00; x00; x12; x00; x01; x00;
  x3a; x0c; x01; x00; x00; x00; x00; x00; x2a; x00; x00; x00;
  x00; x00; x00; x00; x89; x07; x00; x00; x11; x00; x05; x00;
  xa0; xcb; x01; x00; x00; x00; x00; x00; x08; x00; x00; x00;
  x00; x00; x00; x00; x95; x07; x00; x00; x12; x00; x01; x00;
  xc0; x0b; x01; x00; x00; x00; x00; x00; x64; x00; x00; x00;
  x00; x00; x00; x00; x9e; x07; x00; x00; x12; x00; x01; x00;
  xbe; x94; x01; x00; x00; x00; x00; x00; x38; x00; x00; x00;
  x00; x00; x00; x00; xa8; x07; x00; x00; x11; x00; x04; x00;
  x50; xcb; x01; x00; x00; x00; x00; x00; x08; x00; x00; x00;
  x00; x00; x00; x00; xb4; x07; x00; x00; x12; x00; x01; x00;
  xb4; x43; x01; x00; x00; x00; x00; x00; x8a; x02; x00; x00;
  x00; x00; x00; x00; xbf; x07; x00; x00; x12; x00; x01; x00].

Definition INIT_ELF_35 : list byte := [
  x2e; x06; x01; x00; x00; x00; x00; x00; xb2; x00; x00; x00;
  x00; x00; x00; x00; xcc; x07; x00; x00; x12; x00; x01; x00;
  x0c; x99; x01; x00; x00; x00; x00; x00; x6e; x00; x00; x00;
  x00; x00; x00; x00; xdb; x07; x00; x00; x12; x00; x01; x00;
  x70; x80; x01; x00; x00; x00; x00; x00; xa8; x00; x00; x00;
  x00; x00; x00; x00; xe1; x07; x00; x00; x12; x00; x01; x00;
  x02; x06; x01; x00; x00; x00; x00; x00; x2c; x00; x00; x00;
  x00; x00; x00; x00; xf1; x07; x00; x00; x12; x00; x01; x00;
  x56; x0e; x01; x00; x00; x00; x00; x00; x22; x00; x00; x00;
  x00; x00; x00; x00; xf9; x07; x00; x00; x12; x00; x01; x00;
  x7c; x0c; x01; x00; x00; x00; x00; x00; x1e; x00; x00; x00;
  x00; x00; x00; x00; xff; x07; x00; x00; x12; x00; x01; x00;
  x22; x4f; x01; x00; x00; x00; x00; x00; x20; x00; x00; x00;
  x00; x00; x00; x00; x0a; x08; x00; x00; x12; x00; x01; x00;
  x40; x93; x01; x00; x00; x00; x00; x00; xc4; x00; x00; x00;
  x00; x00; x00; x00; x17; x08; x00; x00; x10; x00; x03; x00;
  x00; xc0; x01; x00; x00; x00; x00; x00; x00; x00; x00; x00;
  x00; x00; x00; x00; x26; x08; x00; x00; x11; x00; x03; x00;
  x00; xc0; x01; x00; x00; x00; x00; x00; x18; x00; x00; x00;
  x00; x00; x00; x00; x2e; x08; x00; x00; x12; x00; x01; x00;
  xc2; x0e; x01; x00; x00; x00; x00; x00; x5c; x00; x00; x00;
  x00; x00; x00; x00; x35; x08; x00; x00; x10; x00; x04; x00;
  x70; xcb; x01; x00; x00; x00; x00; x00; x00; x00; x00; x00;
  x00; x00; x00; x00; x3c; x08; x00; x00; x10; x00; x06; x00;
  xf8; xcd; x41; x00; x00; x00; x00; x00; x00; x00; x00; x00;
  x00; x00; x00; x00; x41; x08; x00; x00; x12; x00; x01; x00;
  x42; x08; x01; x00; x00; x00; x00; x00; x88; x00; x00; x00;
  x00; x00; x00; x00; x4a; x08; x00; x00; x11; x00; x04; x00;
  x60; xcb; x01; x00; x00; x00; x00; x00; x08; x00; x00; x00;
  x00; x00; x00; x00; xba; x08; x00; x00; x12; x00; x01; x00;
  x30; x01; x01; x00; x00; x00; x00; x00; x34; x00; x00; x00;
  x00; x00; x00; x00; x78; x07; x00; x00; x12; x00; x01; x00;
  xac; x9a; x01; x00; x00; x00; x00; x00; x66; x00; x00; x00;
  x00; x00; x00; x00; x62; x08; x00; x00; x12; x00; x01; x00;
  x46; x9c; x01; x00; x00; x00; x00; x00; x4a; x0d; x00; x00;
  x00; x00; x00; x00; x6f; x08; x00; x00; x12; x00; x01; x00;
  x94; x7d; x01; x00; x00; x00; x00; x00; xdc; x02; x00; x00;
  x00; x00; x00; x00; x77; x08; x00; x00; x12; x00; x01; x00;
  x02; x0d; x01; x00; x00; x00; x00; x00; x2c; x00; x00; x00;
  x00; x00; x00; x00; x7d; x08; x00; x00; x11; x00; x03; x00;
  x18; xc0; x01; x00; x00; x00; x00; x00; x78; x01; x00; x00;
  x00; x00; x00; x00; x8a; x08; x00; x00; x12; x00; x01; x00;
  x98; x05; x01; x00; x00; x00; x00; x00; x0e; x00; x00; x00;
  x00; x00; x00; x00; x9d; x08; x00; x00; x12; x00; x01; x00;
  xd4; x0c; x01; x00; x00; x00; x00; x00; x18; x00; x00; x00;
  x00; x00; x00; x00; xab; x08; x00; x00; x11; x00; x02; x00;
  x70; xb4; x01; x00; x00; x00; x00; x00; x01; x01; x00; x00;
  x00; x00; x00; x00; xb3; x08; x00; x00; x12; x00; x01; x00;
  xb4; x0d; x01; x00; x00; x00; x00; x00; x5c; x00; x00; x00;
  x00; x00; x00; x00; xb9; x08; x00; x00; x12; x00; x01; x00;
  x64; x0c; x01; x00; x00; x00; x00; x00; x18; x00; x00; x00;
  x00; x00; x00; x00; xbf; x08; x00; x00; x12; x00; x01; x00;
  x1a; x92; x01; x00; x00; x00; x00; x00; x26; x01; x00; x00;
  x00; x00; x00; x00; xcc; x08; x00; x00; x12; x00; x01; x00;
  xbc; x54; x01; x00; x00; x00; x00; x00; x30; x02; x00; x00;
  x00; x00; x00; x00; xd3; x08; x00; x00; x12; x00; x01; x00;
  xa4; xa9; x01; x00; x00; x00; x00; x00; x78; x00; x00; x00;
  x00; x00; x00; x00; xe2; x08; x00; x00; x12; x00; x01; x00;
  x0e; x97; x01; x00; x00; x00; x00; x00; x2a; x00; x00; x00;
  x00; x00; x00; x00; xeb; x08; x00; x00; x12; x00; x01; x00;
  x6a; x42; x01; x00; x00; x00; x00; x00; x4c; x00; x00; x00;
  x00; x00; x00; x00; xf6; x08; x00; x00; x12; x00; x01; x00;
  xa8; x99; x01; x00; x00; x00; x00; x00; x42; x00; x00; x00;
  x00; x00; x00; x00; x00; x09; x00; x00; x12; x00; x01; x00;
  x7c; x25; x01; x00; x00; x00; x00; x00; xe4; x19; x00; x00;
  x00; x00; x00; x00; x0c; x09; x00; x00; x12; x00; x01; x00;
  x96; x74; x01; x00; x00; x00; x00; x00; xea; x00; x00; x00;
  x00; x00; x00; x00; x16; x09; x00; x00; x12; x00; x01; x00;
  xb8; xac; x01; x00; x00; x00; x00; x00; x30; x00; x00; x00;
  x00; x00; x00; x00; x21; x09; x00; x00; x11; x00; x03; x00;
  xa0; xc9; x01; x00; x00; x00; x00; x00; xa8; x01; x00; x00;
  x00; x00; x00; x00; x31; x09; x00; x00; x12; x00; x01; x00;
  x38; x25; x01; x00; x00; x00; x00; x00; x44; x00; x00; x00;
  x00; x00; x00; x00; x3a; x09; x00; x00; x12; x02; x01; x00;
  x74; xad; x01; x00; x00; x00; x00; x00; x20; x02; x00; x00;
  x00; x00; x00; x00; x47; x09; x00; x00; x12; x00; x01; x00;
  x2c; xac; x01; x00; x00; x00; x00; x00; x30; x00; x00; x00;
  x00; x00; x00; x00; x4d; x09; x00; x00; x12; x00; x01; x00;
  x24; x0c; x01; x00; x00; x00; x00; x00; x16; x00; x00; x00;
  x00; x00; x00; x00; x54; x09; x00; x00; x12; x00; x01; x00;
  xd0; x70; x01; x00; x00; x00; x00; x00; xaa; x01; x00; x00;
  x00; x00; x00; x00; x5e; x09; x00; x00; x12; x00; x01; x00;
  x86; x70; x01; x00; x00; x00; x00; x00; x4a; x00; x00; x00;
  x00; x00; x00; x00; x00; x69; x6e; x69; x74; x2e; x63; x00;
  x24; x78; x72; x76; x36; x34; x69; x32; x70; x31; x5f; x6d;
  x32; x70; x30; x5f; x61; x32; x70; x31; x5f; x66; x32; x70;
  x32; x5f; x64; x32; x70; x32; x5f; x63; x32; x70; x30; x5f;
  x7a; x69; x63; x73; x72; x32; x70; x30; x5f; x7a; x6d; x6d;
  x75; x6c; x31; x70; x30; x00; x63; x72; x74; x30; x2e; x63;
  x00; x66; x69; x6e; x64; x66; x70; x2e; x63; x00; x73; x74;
  x64; x00; x73; x74; x64; x69; x6e; x5f; x69; x6e; x69; x74;
  x00; x73; x74; x64; x6f; x75; x74; x5f; x69; x6e; x69; x74;
  x00; x73; x74; x64; x65; x72; x72; x5f; x69; x6e; x69; x74;
  x00; x73; x66; x6d; x6f; x72; x65; x67; x6c; x75; x65; x00;
  x67; x6c; x6f; x62; x61; x6c; x5f; x73; x74; x64; x69; x6f;
  x5f; x69; x6e; x69; x74; x00; x63; x6c; x65; x61; x6e; x75;
  x70; x5f; x73; x74; x64; x69; x6f; x00; x5f; x5f; x73; x66;
  x70; x5f; x72; x65; x63; x75; x72; x73; x69; x76; x65; x5f;
  x6d; x75; x74; x65; x78; x00; x5f; x5f; x66; x70; x5f; x6c;
  x6f; x63; x6b; x00; x5f; x5f; x66; x70; x5f; x75; x6e; x6c;
  x6f; x63; x6b; x00; x66; x77; x61; x6c; x6b; x2e; x63; x00;
  x73; x74; x64; x69; x6f; x2e; x63; x00; x63; x6c; x6f; x73;
  x65; x72; x2e; x63; x00; x72; x65; x65; x6e; x74; x2e; x63;
  x00; x69; x6d; x70; x75; x72; x65; x2e; x63; x00; x6c; x73;
  x65; x65; x6b; x72; x2e; x63; x00; x72; x65; x61; x64; x72;
  x2e; x63; x00; x77; x72; x69; x74; x65; x72; x2e; x63; x00;
  x73; x79; x73; x63; x61; x6c; x6c; x73; x2e; x63; x00; x65;
  x6e; x64; x2e; x31; x00; x68; x65; x61; x70; x2e; x30; x00;
  x6c; x69; x62; x63; x5f; x61; x2d; x6d; x65; x6d; x73; x65;
  x74; x2e; x6f; x00; x24; x78; x72; x76; x36; x34; x69; x32;
  x70; x31; x5f; x6d; x32; x70; x30; x5f; x61; x32; x70; x31;
  x5f; x66; x32; x70; x32; x5f; x64; x32; x70; x32; x5f; x7a;
  x69; x63; x73; x72; x32; x70; x30; x5f; x7a; x6d; x6d; x75;
  x6c; x31; x70; x30; x00; x5f; x5f; x63; x61; x6c; x6c; x5f;
  x61; x74; x65; x78; x69; x74; x2e; x63; x00; x5f; x5f; x61;
  x74; x65; x78; x69; x74; x5f; x72; x65; x63; x75; x72; x73;
  x69; x76; x65; x5f; x6d; x75; x74; x65; x78; x00; x66; x72;
  x65; x65; x72; x2e; x63; x00; x6d; x61; x6c; x6c; x6f; x63;
  x72; x2e; x63; x00; x6d; x61; x6c; x6c; x6f; x63; x5f; x65;
  x78; x74; x65; x6e; x64; x5f; x74; x6f; x70; x00; x6d; x6c;
  x6f; x63; x6b; x2e; x63; x00; x5f; x5f; x6d; x61; x6c; x6c;
  x6f; x63; x5f; x72; x65; x63; x75; x72; x73; x69; x76; x65;
  x5f; x6d; x75; x74; x65; x78; x00; x76; x66; x70; x72; x69;
  x6e; x74; x66; x2e; x63; x00; x5f; x5f; x73; x62; x70; x72;
  x69; x6e; x74; x66; x00; x63; x76; x74; x00; x65; x78; x70;
  x6f; x6e; x65; x6e; x74; x00; x62; x6c; x61; x6e; x6b; x73;
  x2e; x31; x00; x7a; x65; x72; x6f; x65; x73; x2e; x30; x00;
  x73; x70; x72; x69; x6e; x74; x5f; x72; x2e; x63; x00; x66;
  x63; x6c; x6f; x73; x65; x2e; x63; x00; x66; x66; x6c; x75;
  x73; x68; x2e; x63; x00; x66; x76; x77; x72; x69; x74; x65;
  x2e; x63; x00; x77; x73; x65; x74; x75; x70; x2e; x63; x00;
  x6d; x65; x6d; x63; x68; x72; x2e; x63; x00; x6c; x6f; x63;
  x61; x6c; x65; x63; x6f; x6e; x76; x2e; x63; x00; x5f; x5f;
  x67; x65; x74; x5f; x67; x6c; x6f; x62; x61; x6c; x5f; x6c;
  x6f; x63; x61; x6c; x65; x00; x5f; x5f; x67; x65; x74; x5f;
  x63; x75; x72; x72; x65; x6e; x74; x5f; x6c; x6f; x63; x61;
  x6c; x65; x00; x5f; x5f; x67; x65; x74; x5f; x43; x5f; x6c;
  x6f; x63; x61; x6c; x65; x00; x73; x62; x72; x6b; x72; x2e;
  x63; x00; x65; x72; x72; x6e; x6f; x2e; x63; x00; x6d; x65;
  x6d; x6d; x6f; x76; x65; x2d; x73; x74; x75; x62; x2e; x63;
  x00; x6d; x65; x6d; x63; x70; x79; x2e; x63; x00; x73; x74;
  x72; x6c; x65; x6e; x2e; x63; x00; x5f; x5f; x6c; x69; x62;
  x63; x5f; x64; x65; x74; x65; x63; x74; x5f; x6e; x75; x6c;
  x6c; x00; x64; x74; x6f; x61; x2e; x63; x00; x71; x75; x6f;
  x72; x65; x6d; x00; x6d; x70; x72; x65; x63; x2e; x63; x00;
  x70; x30; x35; x2e; x30; x00; x72; x65; x61; x6c; x6c; x6f;
  x63; x72; x2e; x63; x00; x6d; x61; x6b; x65; x62; x75; x66;
  x2e; x63; x00; x6c; x6f; x63; x61; x6c; x65; x2e; x63; x00;
  x66; x73; x74; x61; x74; x72; x2e; x63; x00; x69; x73; x61;
  x74; x74; x79; x72; x2e; x63; x00; x6c; x69; x62; x63; x5f].

Definition INIT_ELF_36 : list byte := [
  x61; x2d; x73; x74; x72; x63; x6d; x70; x2e; x6f; x00; x6d;
  x61; x73; x6b; x00; x61; x73; x73; x65; x72; x74; x2e; x63;
  x00; x63; x61; x6c; x6c; x6f; x63; x72; x2e; x63; x00; x6d;
  x62; x74; x6f; x77; x63; x5f; x72; x2e; x63; x00; x77; x63;
  x74; x6f; x6d; x62; x5f; x72; x2e; x63; x00; x63; x74; x79;
  x70; x65; x5f; x2e; x63; x00; x76; x66; x69; x70; x72; x69;
  x6e; x74; x66; x2e; x63; x00; x61; x62; x6f; x72; x74; x2e;
  x63; x00; x73; x69; x67; x6e; x61; x6c; x2e; x63; x00; x73;
  x69; x67; x6e; x61; x6c; x72; x2e; x63; x00; x74; x72; x75;
  x6e; x63; x74; x66; x64; x66; x32; x2e; x63; x00; x5f; x6d;
  x70; x72; x65; x63; x5f; x6c; x6f; x67; x31; x30; x00; x5f;
  x5f; x61; x6e; x79; x5f; x6f; x6e; x00; x5f; x69; x73; x61;
  x74; x74; x79; x5f; x72; x00; x5f; x5f; x6d; x70; x72; x65;
  x63; x5f; x74; x69; x6e; x79; x74; x65; x6e; x73; x00; x5f;
  x67; x65; x74; x70; x69; x64; x00; x5f; x6c; x73; x65; x65;
  x6b; x5f; x72; x00; x5f; x6b; x69; x6c; x6c; x5f; x72; x00;
  x5f; x5f; x67; x6c; x6f; x62; x61; x6c; x5f; x70; x6f; x69;
  x6e; x74; x65; x72; x24; x00; x5f; x5f; x73; x73; x65; x65;
  x6b; x00; x5f; x5f; x73; x69; x6e; x69; x74; x00; x5f; x73;
  x65; x74; x6c; x6f; x63; x61; x6c; x65; x5f; x72; x00; x5f;
  x5f; x6d; x61; x6c; x6c; x6f; x63; x5f; x75; x6e; x6c; x6f;
  x63; x6b; x00; x6d; x65; x6d; x6d; x6f; x76; x65; x00; x5f;
  x42; x61; x6c; x6c; x6f; x63; x00; x5f; x5f; x65; x72; x72;
  x6e; x6f; x00; x5f; x5f; x6c; x6f; x63; x61; x6c; x65; x63;
  x6f; x6e; x76; x5f; x6c; x00; x5f; x5f; x73; x74; x64; x69;
  x6f; x5f; x65; x78; x69; x74; x5f; x68; x61; x6e; x64; x6c;
  x65; x72; x00; x5f; x66; x73; x74; x61; x74; x5f; x72; x00;
  x5f; x5f; x73; x65; x6f; x66; x72; x65; x61; x64; x00; x5f;
  x5f; x53; x44; x41; x54; x41; x5f; x42; x45; x47; x49; x4e;
  x5f; x5f; x00; x6d; x65; x6d; x63; x70; x79; x00; x5f; x5f;
  x72; x61; x74; x69; x6f; x00; x5f; x70; x72; x69; x6e; x74;
  x66; x5f; x72; x00; x5f; x72; x61; x69; x73; x65; x5f; x72;
  x00; x5f; x66; x73; x74; x61; x74; x00; x5f; x5f; x61; x73;
  x73; x65; x72; x74; x5f; x66; x75; x6e; x63; x00; x5f; x5f;
  x6d; x70; x72; x65; x63; x5f; x74; x65; x6e; x73; x00; x5f;
  x5f; x6d; x61; x6c; x6c; x6f; x63; x5f; x74; x6f; x70; x5f;
  x70; x61; x64; x00; x5f; x67; x65; x74; x70; x69; x64; x5f;
  x72; x00; x5f; x6c; x6f; x63; x61; x6c; x65; x63; x6f; x6e;
  x76; x5f; x72; x00; x5f; x5f; x69; x32; x62; x00; x5f; x5f;
  x73; x66; x76; x77; x72; x69; x74; x65; x5f; x72; x00; x5f;
  x5f; x73; x69; x67; x74; x72; x61; x6d; x70; x5f; x72; x00;
  x5f; x73; x62; x72; x6b; x5f; x72; x00; x5f; x72; x65; x61;
  x64; x5f; x72; x00; x5f; x66; x63; x6c; x6f; x73; x65; x5f;
  x72; x00; x66; x66; x6c; x75; x73; x68; x00; x5f; x5f; x6d;
  x61; x6c; x6c; x6f; x63; x5f; x6d; x61; x78; x5f; x73; x62;
  x72; x6b; x65; x64; x5f; x6d; x65; x6d; x00; x5f; x5f; x62;
  x32; x64; x00; x5f; x69; x73; x61; x74; x74; x79; x00; x5f;
  x72; x65; x61; x6c; x6c; x6f; x63; x5f; x72; x00; x5f; x5f;
  x6d; x70; x72; x65; x63; x5f; x62; x69; x67; x74; x65; x6e;
  x73; x00; x5f; x5f; x73; x32; x62; x00; x61; x62; x6f; x72;
  x74; x00; x5f; x6f; x70; x65; x6e; x00; x5f; x73; x62; x72;
  x6b; x00; x5f; x5f; x6d; x63; x6d; x70; x00; x5f; x5f; x66;
  x70; x5f; x6c; x6f; x63; x6b; x5f; x61; x6c; x6c; x00; x5f;
  x74; x69; x6d; x65; x73; x00; x5f; x72; x65; x63; x6c; x61;
  x69; x6d; x5f; x72; x65; x65; x6e; x74; x00; x5f; x5f; x68;
  x69; x30; x62; x69; x74; x73; x00; x5f; x5f; x73; x66; x00;
  x5f; x5f; x70; x6f; x77; x35; x6d; x75; x6c; x74; x00; x5f;
  x5f; x73; x66; x70; x5f; x6c; x6f; x63; x6b; x5f; x61; x63;
  x71; x75; x69; x72; x65; x00; x6d; x65; x6d; x63; x68; x72;
  x00; x5f; x66; x72; x65; x65; x5f; x72; x00; x5f; x5f; x6c;
  x6f; x63; x61; x6c; x65; x5f; x6d; x62; x5f; x63; x75; x72;
  x5f; x6d; x61; x78; x00; x5f; x5f; x63; x61; x6c; x6c; x5f;
  x65; x78; x69; x74; x70; x72; x6f; x63; x73; x00; x5f; x5f;
  x6d; x61; x6c; x6c; x6f; x63; x5f; x73; x62; x72; x6b; x5f;
  x62; x61; x73; x65; x00; x5f; x77; x61; x69; x74; x00; x5f;
  x6c; x73; x65; x65; x6b; x00; x5f; x5f; x6c; x73; x68; x69;
  x66; x74; x00; x5f; x5f; x6d; x75; x6c; x74; x69; x70; x6c;
  x79; x00; x5f; x5f; x6d; x61; x6c; x6c; x6f; x63; x5f; x63;
  x75; x72; x72; x65; x6e; x74; x5f; x6d; x61; x6c; x6c; x69;
  x6e; x66; x6f; x00; x5f; x5f; x64; x32; x62; x00; x5f; x63;
  x6c; x6f; x73; x65; x5f; x72; x00; x5f; x5f; x73; x77; x73;
  x65; x74; x75; x70; x5f; x72; x00; x5f; x5f; x73; x66; x70;
  x00; x5f; x5f; x63; x6f; x70; x79; x62; x69; x74; x73; x00;
  x5f; x5f; x42; x53; x53; x5f; x45; x4e; x44; x5f; x5f; x00;
  x5f; x5f; x6d; x61; x6c; x6c; x6f; x63; x5f; x61; x76; x5f;
  x00; x5f; x5f; x61; x74; x65; x78; x69; x74; x00; x5f; x5f;
  x73; x72; x65; x61; x64; x00; x5f; x5f; x6d; x61; x6c; x6c;
  x6f; x63; x5f; x6c; x6f; x63; x6b; x00; x5f; x66; x66; x6c;
  x75; x73; x68; x5f; x72; x00; x5f; x63; x61; x6c; x6c; x6f;
  x63; x5f; x72; x00; x5f; x5f; x62; x73; x73; x5f; x73; x74;
  x61; x72; x74; x00; x6d; x65; x6d; x73; x65; x74; x00; x6d;
  x61; x69; x6e; x00; x5f; x6c; x69; x6e; x6b; x00; x5f; x5f;
  x6d; x61; x6c; x6c; x6f; x63; x5f; x6d; x61; x78; x5f; x74;
  x6f; x74; x61; x6c; x5f; x6d; x65; x6d; x00; x5f; x5f; x73;
  x63; x6c; x6f; x73; x65; x00; x66; x63; x6c; x6f; x73; x65;
  x00; x5f; x64; x74; x6f; x61; x5f; x72; x00; x5f; x6d; x61;
  x6c; x6c; x6f; x63; x5f; x72; x00; x5f; x5f; x61; x73; x63;
  x69; x69; x5f; x77; x63; x74; x6f; x6d; x62; x00; x5f; x66;
  x69; x70; x72; x69; x6e; x74; x66; x5f; x72; x00; x5f; x69;
  x6e; x69; x74; x5f; x73; x69; x67; x6e; x61; x6c; x00; x5f;
  x6d; x62; x74; x6f; x77; x63; x5f; x72; x00; x5f; x6d; x61;
  x6c; x6c; x6f; x63; x5f; x74; x72; x69; x6d; x5f; x72; x00;
  x73; x74; x72; x63; x6d; x70; x00; x76; x66; x69; x70; x72;
  x69; x6e; x74; x66; x00; x5f; x65; x78; x65; x63; x76; x65;
  x00; x5f; x50; x61; x74; x68; x4c; x6f; x63; x61; x6c; x65;
  x00; x5f; x77; x72; x69; x74; x65; x5f; x72; x00; x73; x65;
  x74; x6c; x6f; x63; x61; x6c; x65; x00; x5f; x69; x6d; x70;
  x75; x72; x65; x5f; x70; x74; x72; x00; x5f; x5f; x73; x66;
  x6c; x75; x73; x68; x5f; x72; x00; x5f; x66; x77; x61; x6c;
  x6b; x5f; x73; x67; x6c; x75; x65; x00; x5f; x5f; x61; x73;
  x63; x69; x69; x5f; x6d; x62; x74; x6f; x77; x63; x00; x5f;
  x5f; x75; x6c; x70; x00; x5f; x5f; x66; x70; x5f; x75; x6e;
  x6c; x6f; x63; x6b; x5f; x61; x6c; x6c; x00; x5f; x75; x6e;
  x6c; x69; x6e; x6b; x00; x5f; x66; x6f; x72; x6b; x00; x6c;
  x6f; x63; x61; x6c; x65; x63; x6f; x6e; x76; x00; x5f; x5f;
  x73; x77; x68; x61; x74; x62; x75; x66; x5f; x72; x00; x5f;
  x5f; x44; x41; x54; x41; x5f; x42; x45; x47; x49; x4e; x5f;
  x5f; x00; x5f; x5f; x73; x67; x6c; x75; x65; x00; x5f; x77;
  x72; x69; x74; x65; x00; x5f; x65; x64; x61; x74; x61; x00;
  x5f; x65; x6e; x64; x00; x5f; x5f; x73; x77; x72; x69; x74;
  x65; x00; x5f; x5f; x6d; x61; x6c; x6c; x6f; x63; x5f; x74;
  x72; x69; x6d; x5f; x74; x68; x72; x65; x73; x68; x6f; x6c;
  x64; x00; x5f; x76; x66; x69; x70; x72; x69; x6e; x74; x66;
  x5f; x72; x00; x5f; x5f; x6d; x64; x69; x66; x66; x00; x5f;
  x6b; x69; x6c; x6c; x00; x5f; x69; x6d; x70; x75; x72; x65;
  x5f; x64; x61; x74; x61; x00; x5f; x5f; x73; x66; x70; x5f;
  x6c; x6f; x63; x6b; x5f; x72; x65; x6c; x65; x61; x73; x65;
  x00; x5f; x67; x65; x74; x74; x69; x6d; x65; x6f; x66; x64;
  x61; x79; x00; x5f; x63; x74; x79; x70; x65; x5f; x00; x5f;
  x72; x65; x61; x64; x00; x5f; x65; x78; x69; x74; x00; x5f;
  x5f; x73; x6d; x61; x6b; x65; x62; x75; x66; x5f; x72; x00;
  x73; x74; x72; x6c; x65; x6e; x00; x5f; x69; x6e; x69; x74;
  x5f; x73; x69; x67; x6e; x61; x6c; x5f; x72; x00; x5f; x5f;
  x61; x73; x73; x65; x72; x74; x00; x5f; x5f; x73; x70; x72;
  x69; x6e; x74; x5f; x72; x00; x5f; x77; x63; x74; x6f; x6d;
  x62; x5f; x72; x00; x5f; x76; x66; x70; x72; x69; x6e; x74;
  x66; x5f; x72; x00; x5f; x5f; x6c; x6f; x30; x62; x69; x74;
  x73; x00; x5f; x5f; x73; x69; x67; x74; x72; x61; x6d; x70;
  x00; x5f; x5f; x67; x6c; x6f; x62; x61; x6c; x5f; x6c; x6f;
  x63; x61; x6c; x65; x00; x76; x66; x70; x72; x69; x6e; x74;
  x66; x00; x5f; x5f; x74; x72; x75; x6e; x63; x74; x66; x64;
  x66; x32; x00; x72; x61; x69; x73; x65; x00; x5f; x63; x6c;
  x6f; x73; x65; x00; x5f; x5f; x6d; x75; x6c; x74; x61; x64;
  x64; x00; x5f; x42; x66; x72; x65; x65; x00; x00; x2e; x73;
  x79; x6d; x74; x61; x62; x00; x2e; x73; x74; x72; x74; x61;
  x62; x00; x2e; x73; x68; x73; x74; x72; x74; x61; x62; x00;
  x2e; x74; x65; x78; x74; x00; x2e; x72; x6f; x64; x61; x74;
  x61; x00; x2e; x64; x61; x74; x61; x00; x2e; x73; x64; x61;
  x74; x61; x00; x2e; x73; x62; x73; x73; x00; x2e; x62; x73;
  x73; x00; x2e; x63; x6f; x6d; x6d; x65; x6e; x74; x00; x2e;
  x72; x69; x73; x63; x76; x2e; x61; x74; x74; x72; x69; x62;
  x75; x74; x65; x73; x00; x2e; x64; x65; x62; x75; x67; x5f;
  x61; x72; x61; x6e; x67; x65; x73; x00; x2e; x64; x65; x62;
  x75; x67; x5f; x69; x6e; x66; x6f; x00; x2e; x64; x65; x62;
  x75; x67; x5f; x61; x62; x62; x72; x65; x76; x00; x2e; x64;
  x65; x62; x75; x67; x5f; x6c; x69; x6e; x65; x00; x2e; x64;
  x65; x62; x75; x67; x5f; x66; x72; x61; x6d; x65; x00; x2e;
  x64; x65; x62; x75; x67; x5f; x73; x74; x72; x00; x2e; x64;
  x65; x62; x75; x67; x5f; x6c; x69; x6e; x65; x5f; x73; x74;
  x72; x00; x2e; x64; x65; x62; x75; x67; x5f; x6c; x6f; x63].

Definition INIT_ELF_37 : list byte := [
  x6c; x69; x73; x74; x73; x00; x2e; x64; x65; x62; x75; x67;
  x5f; x72; x6e; x67; x6c; x69; x73; x74; x73; x00; x00; x00;
  x00; x00; x00; x00; x00; x00; x00; x00; x00; x00; x00; x00;
  x00; x00; x00; x00; x00; x00; x00; x00; x00; x00; x00; x00;
  x00; x00; x00; x00; x00; x00; x00; x00; x00; x00; x00; x00;
  x00; x00; x00; x00; x00; x00; x00; x00; x00; x00; x00; x00;
  x00; x00; x00; x00; x00; x00; x00; x00; x00; x00; x00; x00;
  x00; x00; x00; x00; x1b; x00; x00; x00; x01; x00; x00; x00;
  x06; x00; x00; x00; x00; x00; x00; x00; xe8; x00; x01; x00;
  x00; x00; x00; x00; xe8; x00; x00; x00; x00; x00; x00; x00;
  xac; xae; x00; x00; x00; x00; x00; x00; x00; x00; x00; x00;
  x00; x00; x00; x00; x02; x00; x00; x00; x00; x00; x00; x00;
  x00; x00; x00; x00; x00; x00; x00; x00; x21; x00; x00; x00;
  x01; x00; x00; x00; x02; x00; x00; x00; x00; x00; x00; x00;
  x98; xaf; x01; x00; x00; x00; x00; x00; x98; xaf; x00; x00;
  x00; x00; x00; x00; xb8; x07; x00; x00; x00; x00; x00; x00;
  x00; x00; x00; x00; x00; x00; x00; x00; x08; x00; x00; x00;
  x00; x00; x00; x00; x00; x00; x00; x00; x00; x00; x00; x00;
  x29; x00; x00; x00; x01; x00; x00; x00; x03; x00; x00; x00;
  x00; x00; x00; x00; x00; xc0; x01; x00; x00; x00; x00; x00;
  x00; xc0; x00; x00; x00; x00; x00; x00; x48; x0b; x00; x00;
  x00; x00; x00; x00; x00; x00; x00; x00; x00; x00; x00; x00;
  x08; x00; x00; x00; x00; x00; x00; x00; x00; x00; x00; x00;
  x00; x00; x00; x00; x2f; x00; x00; x00; x01; x00; x00; x00;
  x03; x00; x00; x00; x00; x00; x00; x00; x48; xcb; x01; x00;
  x00; x00; x00; x00; x48; xcb; x00; x00; x00; x00; x00; x00;
  x28; x00; x00; x00; x00; x00; x00; x00; x00; x00; x00; x00;
  x00; x00; x00; x00; x08; x00; x00; x00; x00; x00; x00; x00;
  x00; x00; x00; x00; x00; x00; x00; x00; x36; x00; x00; x00;
  x08; x00; x00; x00; x03; x00; x00; x00; x00; x00; x00; x00;
  x70; xcb; x01; x00; x00; x00; x00; x00; x70; xcb; x00; x00;
  x00; x00; x00; x00; x38; x00; x00; x00; x00; x00; x00; x00;
  x00; x00; x00; x00; x00; x00; x00; x00; x08; x00; x00; x00;
  x00; x00; x00; x00; x00; x00; x00; x00; x00; x00; x00; x00;
  x3c; x00; x00; x00; x08; x00; x00; x00; x03; x00; x00; x00;
  x00; x00; x00; x00; xa8; xcb; x01; x00; x00; x00; x00; x00;
  x70; xcb; x00; x00; x00; x00; x00; x00; x50; x02; x40; x00;
  x00; x00; x00; x00; x00; x00; x00; x00; x00; x00; x00; x00;
  x08; x00; x00; x00; x00; x00; x00; x00; x00; x00; x00; x00;
  x00; x00; x00; x00; x41; x00; x00; x00; x01; x00; x00; x00;
  x30; x00; x00; x00; x00; x00; x00; x00; x00; x00; x00; x00;
  x00; x00; x00; x00; x70; xcb; x00; x00; x00; x00; x00; x00;
  x0f; x00; x00; x00; x00; x00; x00; x00; x00; x00; x00; x00;
  x00; x00; x00; x00; x01; x00; x00; x00; x00; x00; x00; x00;
  x01; x00; x00; x00; x00; x00; x00; x00; x4a; x00; x00; x00;
  x03; x00; x00; x70; x00; x00; x00; x00; x00; x00; x00; x00;
  x00; x00; x00; x00; x00; x00; x00; x00; x7f; xcb; x00; x00;
  x00; x00; x00; x00; x4b; x00; x00; x00; x00; x00; x00; x00;
  x00; x00; x00; x00; x00; x00; x00; x00; x01; x00; x00; x00;
  x00; x00; x00; x00; x00; x00; x00; x00; x00; x00; x00; x00;
  x5c; x00; x00; x00; x01; x00; x00; x00; x00; x00; x00; x00;
  x00; x00; x00; x00; x00; x00; x00; x00; x00; x00; x00; x00;
  xca; xcb; x00; x00; x00; x00; x00; x00; x30; x00; x00; x00;
  x00; x00; x00; x00; x00; x00; x00; x00; x00; x00; x00; x00;
  x01; x00; x00; x00; x00; x00; x00; x00; x00; x00; x00; x00;
  x00; x00; x00; x00; x6b; x00; x00; x00; x01; x00; x00; x00;
  x00; x00; x00; x00; x00; x00; x00; x00; x00; x00; x00; x00;
  x00; x00; x00; x00; xfa; xcb; x00; x00; x00; x00; x00; x00;
  xd0; x02; x00; x00; x00; x00; x00; x00; x00; x00; x00; x00;
  x00; x00; x00; x00; x01; x00; x00; x00; x00; x00; x00; x00;
  x00; x00; x00; x00; x00; x00; x00; x00; x77; x00; x00; x00;
  x01; x00; x00; x00; x00; x00; x00; x00; x00; x00; x00; x00;
  x00; x00; x00; x00; x00; x00; x00; x00; xca; xce; x00; x00;
  x00; x00; x00; x00; x43; x01; x00; x00; x00; x00; x00; x00;
  x00; x00; x00; x00; x00; x00; x00; x00; x01; x00; x00; x00;
  x00; x00; x00; x00; x00; x00; x00; x00; x00; x00; x00; x00;
  x85; x00; x00; x00; x01; x00; x00; x00; x00; x00; x00; x00;
  x00; x00; x00; x00; x00; x00; x00; x00; x00; x00; x00; x00;
  x0d; xd0; x00; x00; x00; x00; x00; x00; xa5; x07; x00; x00;
  x00; x00; x00; x00; x00; x00; x00; x00; x00; x00; x00; x00;
  x01; x00; x00; x00; x00; x00; x00; x00; x00; x00; x00; x00;
  x00; x00; x00; x00; x91; x00; x00; x00; x01; x00; x00; x00;
  x00; x00; x00; x00; x00; x00; x00; x00; x00; x00; x00; x00;
  x00; x00; x00; x00; xb8; xd7; x00; x00; x00; x00; x00; x00;
  x28; x00; x00; x00; x00; x00; x00; x00; x00; x00; x00; x00;
  x00; x00; x00; x00; x08; x00; x00; x00; x00; x00; x00; x00;
  x00; x00; x00; x00; x00; x00; x00; x00; x9e; x00; x00; x00;
  x01; x00; x00; x00; x30; x00; x00; x00; x00; x00; x00; x00;
  x00; x00; x00; x00; x00; x00; x00; x00; xe0; xd7; x00; x00;
  x00; x00; x00; x00; x16; x02; x00; x00; x00; x00; x00; x00;
  x00; x00; x00; x00; x00; x00; x00; x00; x01; x00; x00; x00;
  x00; x00; x00; x00; x01; x00; x00; x00; x00; x00; x00; x00;
  xa9; x00; x00; x00; x01; x00; x00; x00; x30; x00; x00; x00;
  x00; x00; x00; x00; x00; x00; x00; x00; x00; x00; x00; x00;
  xf6; xd9; x00; x00; x00; x00; x00; x00; xa5; x00; x00; x00;
  x00; x00; x00; x00; x00; x00; x00; x00; x00; x00; x00; x00;
  x01; x00; x00; x00; x00; x00; x00; x00; x01; x00; x00; x00;
  x00; x00; x00; x00; xb9; x00; x00; x00; x01; x00; x00; x00;
  x00; x00; x00; x00; x00; x00; x00; x00; x00; x00; x00; x00;
  x00; x00; x00; x00; x9b; xda; x00; x00; x00; x00; x00; x00;
  xdb; x02; x00; x00; x00; x00; x00; x00; x00; x00; x00; x00;
  x00; x00; x00; x00; x01; x00; x00; x00; x00; x00; x00; x00;
  x00; x00; x00; x00; x00; x00; x00; x00; xc9; x00; x00; x00;
  x01; x00; x00; x00; x00; x00; x00; x00; x00; x00; x00; x00;
  x00; x00; x00; x00; x00; x00; x00; x00; x76; xdd; x00; x00;
  x00; x00; x00; x00; x33; x00; x00; x00; x00; x00; x00; x00;
  x00; x00; x00; x00; x00; x00; x00; x00; x01; x00; x00; x00;
  x00; x00; x00; x00; x00; x00; x00; x00; x00; x00; x00; x00;
  x01; x00; x00; x00; x02; x00; x00; x00; x00; x00; x00; x00;
  x00; x00; x00; x00; x00; x00; x00; x00; x00; x00; x00; x00;
  xb0; xdd; x00; x00; x00; x00; x00; x00; x50; x1c; x00; x00;
  x00; x00; x00; x00; x13; x00; x00; x00; x9d; x00; x00; x00;
  x08; x00; x00; x00; x00; x00; x00; x00; x18; x00; x00; x00;
  x00; x00; x00; x00; x09; x00; x00; x00; x03; x00; x00; x00;
  x00; x00; x00; x00; x00; x00; x00; x00; x00; x00; x00; x00;
  x00; x00; x00; x00; x00; xfa; x00; x00; x00; x00; x00; x00;
  x65; x09; x00; x00; x00; x00; x00; x00; x00; x00; x00; x00;
  x00; x00; x00; x00; x01; x00; x00; x00; x00; x00; x00; x00;
  x00; x00; x00; x00; x00; x00; x00; x00; x11; x00; x00; x00;
  x03; x00; x00; x00; x00; x00; x00; x00; x00; x00; x00; x00;
  x00; x00; x00; x00; x00; x00; x00; x00; x65; x03; x01; x00;
  x00; x00; x00; x00; xd9; x00; x00; x00; x00; x00; x00; x00;
  x00; x00; x00; x00; x00; x00; x00; x00; x01; x00; x00; x00;
  x00; x00; x00; x00; x00; x00; x00; x00; x00; x00; x00; x00].

End Image.

Definition INIT_ELF : list byte :=
  Image.INIT_ELF_00 ++ Image.INIT_ELF_01 ++ Image.INIT_ELF_02 ++ Image.INIT_ELF_03 ++
  Image.INIT_ELF_04 ++ Image.INIT_ELF_05 ++ Image.INIT_ELF_06 ++ Image.INIT_ELF_07 ++
  Image.INIT_ELF_08 ++ Image.INIT_ELF_09 ++ Image.INIT_ELF_10 ++ Image.INIT_ELF_11 ++
  Image.INIT_ELF_12 ++ Image.INIT_ELF_13 ++ Image.INIT_ELF_14 ++ Image.INIT_ELF_15 ++
  Image.INIT_ELF_16 ++ Image.INIT_ELF_17 ++ Image.INIT_ELF_18 ++ Image.INIT_ELF_19 ++
  Image.INIT_ELF_20 ++ Image.INIT_ELF_21 ++ Image.INIT_ELF_22 ++ Image.INIT_ELF_23 ++
  Image.INIT_ELF_24 ++ Image.INIT_ELF_25 ++ Image.INIT_ELF_26 ++ Image.INIT_ELF_27 ++
  Image.INIT_ELF_28 ++ Image.INIT_ELF_29 ++ Image.INIT_ELF_30 ++ Image.INIT_ELF_31 ++
  Image.INIT_ELF_32 ++ Image.INIT_ELF_33 ++ Image.INIT_ELF_34 ++ Image.INIT_ELF_35 ++
  Image.INIT_ELF_36 ++ Image.INIT_ELF_37.

(** Lengths are added up in [Z], part by part. *)
Lemma length_part (l rest : list byte) n k :
  Z.of_nat (length l) = n -> Z.of_nat (length rest) = k ->
  Z.of_nat (length (l ++ rest)) = n + k.
Proof. rewrite length_app. lia. Qed.

Lemma INIT_ELF_length : Z.of_nat (length INIT_ELF) = 67968.
Proof.
  unfold INIT_ELF. etrans; [repeat (eapply length_part; [reflexivity|]); reflexivity|].
  reflexivity.
Qed.
