(* ===== verification/Elf.v ===== *)
(** * The ELF loader: [src/elf.c] and [include/elf.h]

    [elf_load] builds the address space of the first user process from the image
    [INIT_ELF].  It is verified against the hardware's view: in the new address
    space every byte of a segment reads as the ELF format says, with the
    segment's permissions, and nothing else is mapped. *)

From S2P Require Import Prelude.
From S2P Require Import Errno.
From S2P Require Import Mem.
From S2P Require Import Layout.
From S2P Require Import Pages.
From S2P Require Import Vm.
From S2P Require Import VmTree.
From S2P Require Import VmSpec.

(** ** [elf_hdr_t] and [prog_hdr_t] *)

Definition EI_MAG0 : Z := 0.
Definition EI_MAG1 : Z := 1.
Definition EI_MAG2 : Z := 2.
Definition EI_MAG3 : Z := 3.
Definition EI_CLASS : Z := 4.
Definition EI_DATA : Z := 5.
Definition EI_VERSION : Z := 6.

(** The fields that the loader reads; [ident] is at offset 0. *)
Definition hdr_type (m : mem) (h : Z) : Z := load 2 m (h + 16).
Definition hdr_entry (m : mem) (h : Z) : Z := load 8 m (h + 24).
Definition hdr_phoff (m : mem) (h : Z) : Z := load 8 m (h + 32).
Definition hdr_phnum (m : mem) (h : Z) : Z := load 2 m (h + 56).

Definition PT_LOAD : Z := 1.
Definition PF_X : Z := 0x1.
Definition PF_W : Z := 0x2.
Definition PF_R : Z := 0x4.

Record prog_hdr_t := mkPhdr {
  p_type : Z; p_flags : Z; p_offset : Z; p_vaddr : Z; p_paddr : Z;
  p_filesz : Z; p_memsz : Z; p_align : Z;
}.

Definition PHDR_SIZE : Z := 56.

Definition read_phdr (m : mem) (a : Z) : prog_hdr_t :=
  mkPhdr (load 4 m a) (load 4 m (a + 4)) (load 8 m (a + 8)) (load 8 m (a + 16))
         (load 8 m (a + 24)) (load 8 m (a + 32)) (load 8 m (a + 40)) (load 8 m (a + 48)).

Definition check_ident (m : mem) (ident : Z) : bool :=
  if negb (load 1 m (ident + EI_MAG0) =? 0x7F) then false
  else if negb (load 1 m (ident + EI_MAG1) =? 0x45) then false
  else if negb (load 1 m (ident + EI_MAG2) =? 0x4C) then false
  else if negb (load 1 m (ident + EI_MAG3) =? 0x46) then false
  else true.

Definition check_compat (m : mem) (ident : Z) : bool :=
  if negb (load 1 m (ident + EI_CLASS) =? 2) then false
  else if negb (load 1 m (ident + EI_DATA) =? 1) then false
  else if negb (load 1 m (ident + EI_VERSION) =? 1) then false
  else true.

Record elf_load_res_t := mkRes { res_entry : Z; res_page_table : Z }.

(** The permissions of a segment. *)
Definition seg_flags (f : Z) : Z :=
  let flags := VM_FLAG_USER in
  let flags := if f &? PF_X then Z.lor flags VM_FLAG_EXECUTABLE else flags in
  let flags := if f &? PF_W then Z.lor flags VM_FLAG_WRITABLE else flags in
  if f &? PF_R then Z.lor flags VM_FLAG_READABLE else flags.

Section code.
Context `{PA : PageAllocator} `{L : Layout}.

(** The contents of a new page: zero, and the part of the file it holds. *)
Definition elf_fill_page (m : mem) (page prog_hdr offset : Z) : mem :=
  let m := mem_set m page Init.Byte.x00 PAGE_SIZE in
  if offset <? p_filesz (read_phdr m prog_hdr) then
    let src := sym_INIT_ELF + p_offset (read_phdr m prog_hdr) + offset in
    mem_copy m page src (Z.min (p_filesz (read_phdr m prog_hdr) - offset) PAGE_SIZE)
  else m.

(** The body of the loop over the pages of a segment: the new memory and the
    value [res] that is negative when the loader returns it. *)
Definition elf_load_page (m : mem) (page_table prog_hdr flags offset : Z) : mem * Z :=
  let '(m, page) := pa_alloc m in
  if page =? nullptr then (m, - ENOMEM)
  else
    let m := elf_fill_page m page prog_hdr offset in
    vm_map_page m page_table (u64 (p_vaddr (read_phdr m prog_hdr) + offset)) page flags.

(** The loop over the pages of a segment; [inr] is a [return]. *)
Definition elf_load_segment (m : mem) (page_table prog_hdr : Z) : option (mem + mem * Z) :=
  let flags := seg_flags (p_flags (read_phdr m prog_hdr)) in
  while (fun '(m, offset) =>
           if offset <? p_memsz (read_phdr m prog_hdr) then
             let '(m, res) := elf_load_page m page_table prog_hdr flags offset in
             if res <? 0 then inr (inr (m, res)) else inl (m, u64 (offset + PAGE_SIZE))
           else inr (inl m))
        (m, 0).

(** The loop over the program headers. *)
Definition elf_load_phdrs (m : mem) (page_table prog_hdrs : Z) : option (option (mem * Z)) :=
  while (fun '(m, i) =>
           if i <? hdr_phnum m sym_INIT_ELF then
             let prog_hdr := prog_hdrs + i * PHDR_SIZE in
             if negb (p_type (read_phdr m prog_hdr) =? PT_LOAD) then inl (m, u16 (i + 1))
             else match elf_load_segment m page_table prog_hdr with
                  | None => inr None
                  | Some (inr ret) => inr (Some ret)
                  | Some (inl m) => inl (m, u16 (i + 1))
                  end
           else inr (Some (m, 0)))
        (m, 0).

Definition elf_load (m : mem) (load_res : elf_load_res_t) :
    option (mem * elf_load_res_t * Z) :=
  let elf_hdr := sym_INIT_ELF in
  let load_res := mkRes (hdr_entry m elf_hdr) (res_page_table load_res) in
  if negb (check_ident m elf_hdr) then Some (m, load_res, - EACCES)
  else if negb (check_compat m elf_hdr) || negb (hdr_type m elf_hdr =? 2)
  then Some (m, load_res, - EINVAL)
  else
    let '(m, pt) := vm_create_page_table m in
    let load_res := mkRes (res_entry load_res) pt in
    if res_page_table load_res =? nullptr then Some (m, load_res, - ENOMEM)
    else
      let prog_hdrs := sym_INIT_ELF + hdr_phoff m elf_hdr in
      match elf_load_phdrs m (res_page_table load_res) prog_hdrs with
      | Some (Some (m, ret)) => Some (m, load_res, ret)
      | _ => None
      end.
End code.

(** ** The format

    What an image means, read from its bytes [img]: the program headers, and
    the pages of the loadable ones. *)

Definition phdr_at (m : mem) (h i : Z) : prog_hdr_t :=
  read_phdr m (h + hdr_phoff m h + i * PHDR_SIZE).

Definition phdrs (m : mem) (h : Z) : list prog_hdr_t :=
  phdr_at m h <$> seqZ 0 (hdr_phnum m h).

Definition loadable (s : prog_hdr_t) : bool := p_type s =? PT_LOAD.

(** Number of pages of a segment. *)
Definition seg_pages (s : prog_hdr_t) : Z := (p_memsz s + PAGE_SIZE - 1) / PAGE_SIZE.

(** A page of the new address space: page [k] of segment [s]. *)
Definition seg_items (s : prog_hdr_t) : list (prog_hdr_t * Z) :=
  (fun k => (s, k)) <$> seqZ 0 (seg_pages s).

Definition items (ss : list prog_hdr_t) : list (prog_hdr_t * Z) :=
  mjoin (seg_items <$> filter loadable ss).

Definition item_vpn (it : prog_hdr_t * Z) : Z := p_vaddr it.1 / PAGE_SIZE + it.2.

(** Byte [x] of segment [s] in the image [img]. *)
Definition seg_byte (img : Z -> byte) (s : prog_hdr_t) (x : Z) : byte :=
  if x <? p_filesz s then img (p_offset s + x) else Init.Byte.x00.

(** The segments the loader can load: aligned to pages, in the lower half of the
    address space, inside the image, with permissions that Sv39 has. *)
Definition seg_ok (s : prog_hdr_t) : Prop :=
  page_aligned (p_vaddr s) /\ 0 <= p_vaddr s /\ p_vaddr s + p_memsz s <= 2 ^ 39 /\
  0 <= p_memsz s /\ 0 <= p_offset s /\ p_offset s + p_filesz s <= INIT_ELF_SIZE /\
  flags_ok (seg_flags (p_flags s)) = true.

Section proofs.
Context `{PA : PageAllocator} {PAOK : PageAllocatorOk PA} `{L : Layout}.
(** The memory and the free pages when the loader is called, and the image. *)
Context (m0 : mem) (ps0 : list Z).
Hypothesis pool0 : pa_pool m0 ps0.
Hypothesis image_sep : forall a, inrng sym_INIT_ELF INIT_ELF_SIZE a -> ~ pa_own ps0 a.

Let img (x : Z) : byte := m0 !!! (sym_INIT_ELF + x).
Let in_image (a n : Z) : Prop := sym_INIT_ELF <= a /\ a + n <= sym_INIT_ELF + INIT_ELF_SIZE.

Lemma image_load n m a :
  unch (pa_own ps0) m0 m -> in_image a (Z.of_nat n) -> load n m a = load n m0 a.
Proof.
  intros HU Ha. eapply load_unch; [done|]. intros x Hx. apply image_sep.
  unfold in_image in Ha. rng.
Qed.

Lemma image_phdr m a :
  unch (pa_own ps0) m0 m -> in_image a PHDR_SIZE -> read_phdr m a = read_phdr m0 a.
Proof.
  unfold in_image, PHDR_SIZE. intros HU Ha. unfold read_phdr.
  f_equal; apply image_load; done || (unfold in_image; lia).
Qed.

(** A page of the pool, filled with page [k] of segment [s]. *)
Lemma elf_fill_page_spec m p a s k :
  unch (pa_own ps0) m0 m -> p ∈ ps0 -> in_image a PHDR_SIZE -> read_phdr m0 a = s ->
  seg_ok s -> 0 <= k ->
  let m' := elf_fill_page m p a (k * PAGE_SIZE) in
  unch (inrng p PAGE_SIZE) m m' /\
  forall j, 0 <= j < PAGE_SIZE -> m' !!! (p + j) = seg_byte img s (k * PAGE_SIZE + j).
Proof.
  intros HU Hp Ha Es (_ & _ & _ & _ & Ho1 & Ho2 & _) Hk m'.
  set (m1 := mem_set m p Init.Byte.x00 PAGE_SIZE).
  pose proof (mem_set_unch m p Init.Byte.x00 PAGE_SIZE : unch _ m m1) as HU1.
  assert (unch (pa_own ps0) m m1) as HUo.
  { eapply unch_mono; [|exact HU1]. intros x Hx. right. by exists p. }
  assert (read_phdr m1 a = s) as Es1.
  { rewrite image_phdr; [done|by etrans|done]. }
  unfold m', elf_fill_page. fold m1. rewrite Es1.
  assert (forall j, 0 <= j < PAGE_SIZE -> m1 !!! (p + j) = Init.Byte.x00) as Hz.
  { intros j Hj. unfold m1. rewrite mem_set_get, decide_True by (unfold PAGE_SIZE in *; rng). done. }
  destruct (Z.ltb_spec (k * PAGE_SIZE) (p_filesz s)) as [Hf|Hf]; cycle 1.
  { split; [done|]. intros j Hj. rewrite Hz by done. unfold seg_byte.
    rewrite (proj2 (Z.ltb_ge _ _)) by lia. done. }
  set (n := Z.min (p_filesz s - k * PAGE_SIZE) PAGE_SIZE).
  set (src := sym_INIT_ELF + p_offset s + k * PAGE_SIZE).
  assert (forall x, 0 <= x < n -> ~ inrng p PAGE_SIZE (src + x)) as Hsep.
  { intros x Hx Hr. apply (image_sep (src + x)); [|right; by exists p].
    unfold src, n, PAGE_SIZE in *. rng. }
  assert (disj p n src n) as Hd.
  { apply disj_pointwise; [unfold n, PAGE_SIZE in *; lia..|]. intros x Hx Hx'.
    apply (Hsep (x - src)); [rng|]. replace (src + (x - src)) with x by lia.
    unfold n, PAGE_SIZE in *. rng. }
  split.
  - etrans; [exact HU1|]. eapply unch_mono; [|by apply mem_copy_unch].
    unfold n, PAGE_SIZE. rng.
  - intros j Hj. rewrite mem_copy_get by done. unfold seg_byte.
    destruct (Z.ltb_spec (k * PAGE_SIZE + j) (p_filesz s)).
    + rewrite decide_True by (unfold n; rng). replace (src + (p + j - p)) with (src + j) by lia.
      rewrite (HU1 (src + j)) by (apply Hsep; unfold n; lia).
      unfold img. replace (src + j) with (sym_INIT_ELF + (p_offset s + (k * PAGE_SIZE + j)))
        by (unfold src; lia).
      apply HU, image_sep. unfold inrng, PAGE_SIZE in *. lia.
    + rewrite decide_False by (unfold n; rng). by apply Hz.
Qed.

(** ** One page *)

(** The level-1 and level-2 tables that the image needs. *)
Context (K1 K2 : gset Z).

(** The loader's state after the pages [done]. *)
Record loaded (root : Z) (m : mem) (t : ptree) (ps : list Z) (done : list (prog_hdr_t * Z)) : Prop := {
  li_vm : vm_ok m t ps;
  li_root : t_root t = root;
  li_unch : unch (pa_own ps0) m0 m;
  li_sub p : p ∈ tables t ++ ps -> p ∈ ps0;
  li_count : (length (tables t) + length ps + length done = length ps0)%nat;
  li_leaf v : is_Some (t_leaf t !! v) <-> v ∈ item_vpn <$> done;
  li_data it : it ∈ done ->
    exists p, t_leaf t !! item_vpn it = Some (pte_update 0 p (seg_flags (p_flags it.1))) /\
      pa_page p /\ (p ∉ tables t ++ ps) /\
      forall j, 0 <= j < PAGE_SIZE -> m !!! (p + j) = seg_byte img it.1 (it.2 * PAGE_SIZE + j);
  li_l1 : dom (t_l1 t) ⊆ K1;
  li_l2 : dom (t_l2 t) ⊆ K2;
}.

Definition need : nat := 1 + size K1 + size K2.

Lemma loaded_tables root m t ps done :
  loaded root m t ps done -> (length (tables t) <= need)%nat.
Proof.
  intros []. rewrite length_tables. unfold need.
  rewrite <-(size_dom (t_l1 t)), <-(size_dom (t_l2 t)).
  pose proof (subseteq_size _ _ li_l3). pose proof (subseteq_size _ _ li_l4). lia.
Qed.

(** The page [p] is taken from the free list and filled. *)
Lemma take_page m t p ps m' :
  vm_ok m t (p :: ps) -> pa_pool m' ps -> unch (pa_own (p :: ps)) m m' -> vm_ok m' t ps.
Proof.
  intros (HT & HP & HF & HD) HP' HU. destruct (pa_pool_pages _ _ HP) as [_ HFP].
  split_and!; [|done|done|].
  - eapply tree_ok_unch; [exact HT|exact HU|]. intros a (q & Hq & Ha).
    rewrite Forall_forall in HF. by apply (pa_own_page (p :: ps) q a HFP (HF q Hq) (HD q Hq)).
  - intros q Hq Hin. apply (HD q Hq). by right.
Qed.

Lemma own_sub ps a : (forall p, p ∈ ps -> p ∈ ps0) -> pa_own ps a -> pa_own ps0 a.
Proof. apply pa_own_mono. Qed.

(** Data pages keep their contents when tables and free pages change. *)
Lemma data_unch m m' t ps p :
  vm_ok m t ps -> unch (vm_foot t ps) m m' -> pa_page p -> p ∉ tables t ++ ps ->
  forall j, 0 <= j < PAGE_SIZE -> m' !!! (p + j) = m !!! (p + j).
Proof.
  intros (_ & HP & HF & _) HU Hp Hn j Hj. apply HU. intros [Ho|(q & Hq & Ha)].
  - destruct (pa_pool_pages _ _ HP) as [_ HFP].
    apply (pa_own_page ps p (p + j) HFP Hp); [set_solver|unfold PAGE_SIZE in *; rng|done].
  - rewrite Forall_forall in HF. apply Hn, elem_of_app. left.
    assert (p = q) as ->; [|done]. eapply page_aligned_inj; eauto using pa_page_aligned.
    unfold PAGE_SIZE in *. rng.
Qed.

Lemma foot_sub root m t ps done a :
  loaded root m t ps done -> vm_foot t ps a -> pa_own ps0 a.
Proof.
  intros HL [Ho|(q & Hq & Ha)].
  - eapply own_sub; [|exact Ho]. intros q Hq. apply (li_sub _ _ _ _ _ HL). set_solver.
  - right. exists q. split; [|done]. apply (li_sub _ _ _ _ _ HL). set_solver.
Qed.

Section step.
Context (root : Z) (m : mem) (t : ptree) (p : Z) (ps : list Z) (done : list (prog_hdr_t * Z)).
Context (s : prog_hdr_t) (k : Z) (m1 m2 : mem) (t' : ptree) (ps' : list Z) (ret : Z).
Hypothesis HL : loaded root m t (p :: ps) done.
(** the page is filled in [m1], *)
Hypothesis HP1 : pa_pool m1 ps.
Hypothesis HU1 : unch (pa_own (p :: ps)) m m1.
Hypothesis Hp1 : forall j, 0 <= j < PAGE_SIZE -> m1 !!! (p + j) = seg_byte img s (k * PAGE_SIZE + j).
(** and mapped in [m2]. *)
Hypothesis Hnew : item_vpn (s, k) ∉ item_vpn <$> done.
Hypothesis EA : map_abs t ps (item_vpn (s, k)) p (seg_flags (p_flags s)) = (t', ps', ret).
Hypothesis HV2 : vm_ok m2 t' ps'.
Hypothesis HU2 : unch (vm_foot t ps) m1 m2.
Hypothesis Hk1 : item_vpn (s, k) / 2 ^ 18 ∈ K1.
Hypothesis Hk2 : item_vpn (s, k) / 2 ^ 9 ∈ K2.

Lemma step_vm1 : vm_ok m1 t ps.
Proof. by eapply take_page; [apply (li_vm _ _ _ _ _ HL)|..]. Qed.

Lemma step_unch : unch (pa_own ps0) m0 m2.
Proof.
  etrans; [apply (li_unch _ _ _ _ _ HL)|]. etrans; (eapply unch_mono; [|eassumption]).
  - intros a Ha. eapply foot_sub; [exact HL|by left].
  - intros a [Ha|Ha]; (eapply foot_sub; [exact HL|]); [left|by right].
    apply pa_own_cons. by right.
Qed.

Lemma step_fresh : p ∉ tables t ++ ps.
Proof.
  destruct (li_vm _ _ _ _ _ HL) as (_ & HP & _ & HD).
  destruct (pa_pool_pages _ _ HP) as [[Hn _]%NoDup_cons _].
  intros [Hq|Hq]%elem_of_app; [|done]. apply (HD p Hq). left.
Qed.

Lemma step_page : pa_page p.
Proof.
  destruct (li_vm _ _ _ _ _ HL) as (_ & HP & _).
  by destruct (pa_pool_pages _ _ HP) as [_ [Hp _]%Forall_cons].
Qed.

(** The new page, and the pages that were there. *)
Lemma step_data it :
  ret = 0 -> it ∈ done ++ [(s, k)] ->
  exists q, t_leaf t' !! item_vpn it = Some (pte_update 0 q (seg_flags (p_flags it.1))) /\
    pa_page q /\ (q ∉ tables t' ++ ps') /\
    forall j, 0 <= j < PAGE_SIZE -> m2 !!! (q + j) = seg_byte img it.1 (it.2 * PAGE_SIZE + j).
Proof.
  intros Hr. pose proof EA as EA'. rewrite Hr in EA'.
  destruct (map_abs_ok _ _ _ _ _ _ _ EA') as [Hl _]. rewrite Hl.
  assert (t_leaf t !! item_vpn (s, k) = None) as Hn.
  { apply eq_None_not_Some. by rewrite (li_leaf _ _ _ _ _ HL). }
  setoid_rewrite (map_abs_perm _ _ _ _ _ _ _ _ EA).
  intros [Hit| ->%list_elem_of_singleton]%elem_of_app.
  - destruct (li_data _ _ _ _ _ HL it Hit) as (q & Hq & Hpage & Hqn & Hb). exists q.
    assert (q ∉ tables t ++ ps) as Hqn' by set_solver.
    split_and!; [|done|done|].
    + rewrite lookup_insert_ne; [done|]. intros E. apply Hnew. rewrite E. by apply list_elem_of_fmap_2.
    + intros j Hj. rewrite <-Hb by done.
      rewrite (data_unch m1 m2 t ps q step_vm1 HU2 Hpage Hqn' j Hj).
      apply (data_unch m m1 t (p :: ps) q (li_vm _ _ _ _ _ HL)); [|done..].
      eapply unch_mono; [|exact HU1]. by left.
  - exists p. split_and!; [by rewrite lookup_insert_eq, Hn|apply step_page|apply step_fresh|].
    intros j Hj. rewrite (data_unch m1 m2 t ps p step_vm1 HU2 step_page step_fresh j Hj). by apply Hp1.
Qed.

Lemma loaded_step :
  (ret = 0 -> loaded root m2 t' ps' (done ++ [(s, k)])) /\
  (ret <> 0 -> (length ps0 < need + S (length done))%nat).
Proof.
  pose proof (map_abs_perm _ _ _ _ _ _ _ _ EA) as HPm.
  pose proof (Permutation_length HPm) as HPl. rewrite !length_app in HPl.
  pose proof (li_count _ _ _ _ _ HL) as HC. rewrite length_cons in HC.
  destruct (map_abs_keys _ _ _ _ _ _ _ _ K1 K2 EA Hk1 Hk2 (li_l1 _ _ _ _ _ HL)
    (li_l2 _ _ _ _ _ HL)) as (HK1 & HK2 & Hlt).
  split; intros Hr.
  - split; try done.
    + rewrite (map_abs_root _ _ _ _ _ _ _ _ EA). apply (li_root _ _ _ _ _ HL).
    + apply step_unch.
    + intros q. rewrite HPm. intros Hq. apply (li_sub _ _ _ _ _ HL). set_solver.
    + rewrite length_app, length_cons, length_nil. lia.
    + intros v. rewrite fmap_app, elem_of_app, <-(li_leaf _ _ _ _ _ HL v).
      pose proof EA as EA'. rewrite Hr in EA'. destruct (map_abs_ok _ _ _ _ _ _ _ EA') as [-> _].
      rewrite lookup_insert_is_Some'. simpl. rewrite list_elem_of_singleton.
      split; intros [?|?]; auto.
    + intros it. by apply step_data.
  - destruct (map_abs_fail _ _ _ _ _ _ _ _ EA Hr) as (_ & -> & _ & _).
    specialize (Hlt Hr). rewrite (length_tables t') in HPl. unfold need. change (length (@nil Z)) with 0%nat in HPl. lia.
Qed.
End step.

(** Where page [k] of a segment is mapped. *)
Lemma item_addr s k :
  seg_ok s -> 0 <= k < seg_pages s ->
  u64 (p_vaddr s + k * PAGE_SIZE) = p_vaddr s + k * PAGE_SIZE /\
  0 <= p_vaddr s + k * PAGE_SIZE < 2 ^ 39 /\
  (p_vaddr s + k * PAGE_SIZE) / PAGE_SIZE = item_vpn (s, k).
Proof.
  unfold seg_ok, seg_pages, item_vpn, page_aligned, PAGE_SIZE. simpl. intros (Ha & H0 & H1 & H2 & _) Hk.
  pose proof (Z.div_mod (p_memsz s + 4096 - 1) 4096).
  pose proof (Z.mod_pos_bound (p_memsz s + 4096 - 1) 4096).
  pose proof (Z.div_mod (p_vaddr s) 4096).
  assert (0 <= p_vaddr s + k * 4096 < 2 ^ 39) by lia.
  split_and!; [apply u64_small|..]; try lia. by rewrite Z.div_add.
Qed.

Lemma seg_pages_ltb s k : 0 <= k -> (k * PAGE_SIZE <? p_memsz s) = (k <? seg_pages s).
Proof.
  intros Hk. unfold seg_pages, PAGE_SIZE.
  pose proof (Z.div_mod (p_memsz s + 4096 - 1) 4096).
  pose proof (Z.mod_pos_bound (p_memsz s + 4096 - 1) 4096).
  destruct (Z.ltb_spec (k * 4096) (p_memsz s)), (Z.ltb_spec k ((p_memsz s + 4096 - 1) / 4096)); lia.
Qed.

Definition keys_ok (its : list (prog_hdr_t * Z)) : Prop :=
  forall it, it ∈ its -> item_vpn it / 2 ^ 18 ∈ K1 /\ item_vpn it / 2 ^ 9 ∈ K2.

Lemma elf_load_page_spec root m t ps done a s k :
  loaded root m t ps done -> in_image a PHDR_SIZE -> read_phdr m0 a = s -> seg_ok s ->
  0 <= k < seg_pages s -> item_vpn (s, k) ∉ item_vpn <$> done -> keys_ok [(s, k)] ->
  exists m' ret, elf_load_page m root a (seg_flags (p_flags s)) (k * PAGE_SIZE) = (m', ret) /\
    ((ret = 0 /\ exists t' ps', loaded root m' t' ps' (done ++ [(s, k)])) \/
     (ret = - ENOMEM /\ (length ps0 < need + S (length done))%nat)).
Proof.
  intros HL Ha Es Hs Hk Hnew HK. destruct (HK (s, k)) as [HK1 HK2]; [left|].
  pose proof (li_vm _ _ _ _ _ HL) as (_ & HP & _). unfold elf_load_page.
  destruct ps as [|p ps].
  { rewrite pa_alloc_nil by done. exists m, (- ENOMEM). split; [done|right]. split; [done|].
    pose proof (loaded_tables _ _ _ _ _ HL). pose proof (li_count _ _ _ _ _ HL) as HC.
    change (length (@nil Z)) with 0%nat in HC. lia. }
  destruct (pa_alloc_cons m p ps HP) as (m1 & -> & HP1 & HU1).
  pose proof (step_page _ _ _ _ _ _ HL) as Hp.
  rewrite (proj2 (Z.eqb_neq p nullptr)) by by apply pa_page_nonnull.
  assert (p ∈ ps0) as Hp0 by (apply (li_sub _ _ _ _ _ HL); set_solver).
  assert (unch (pa_own ps0) m0 m1) as HUm1.
  { etrans; [apply (li_unch _ _ _ _ _ HL)|]. eapply unch_mono; [|exact HU1].
    intros x Hx. eapply foot_sub; [exact HL|by left]. }
  destruct (elf_fill_page_spec m1 p a s k HUm1 Hp0 Ha Es Hs ltac:(lia)) as [HUf Hb].
  set (m2 := elf_fill_page m1 p a (k * PAGE_SIZE)) in *.
  assert (pa_pool m2 ps) as HP2.
  { eapply pa_pool_unch; [exact HP1|exact HUf|]. intros x Hx Hr.
    destruct (pa_pool_pages _ _ HP) as [[Hn _]%NoDup_cons [_ HFP]%Forall_cons].
    by apply (pa_own_page ps p x HFP Hp Hn Hr). }
  assert (unch (pa_own (p :: ps)) m m2) as HU2.
  { etrans; [exact HU1|]. eapply unch_mono; [|exact HUf]. intros x Hx. apply pa_own_cons. by left. }
  assert (read_phdr m2 a = s) as ->.
  { rewrite image_phdr; [done| |done]. etrans; [exact HUm1|]. eapply unch_mono; [|exact HUf].
    intros x Hx. right. by exists p. }
  destruct (item_addr s k Hs Hk) as (-> & Hv & Ev).
  pose proof (step_vm1 _ _ _ _ _ _ _ HL HP2 HU2) as HV2.
  pose proof (vm_map_page_refines m2 t ps _ p (seg_flags (p_flags s)) HV2 Hv) as HM.
  rewrite Ev, (li_root _ _ _ _ _ HL) in HM.
  destruct (map_abs t ps (item_vpn (s, k)) p (seg_flags (p_flags s))) as [[t' ps'] ret] eqn:EA.
  destruct HM as (m3 & -> & HV3 & HU3). exists m3, ret. split; [done|].
  destruct (loaded_step root m t p ps done s k m2 m3 t' ps' ret HL HP2 HU2 Hb Hnew EA HV3 HU3 HK1 HK2)
    as [Hok Hfail].
  destruct (decide (ret = 0)) as [Hr|Hr]; [left|right].
  - split; [done|]. exists t', ps'. auto.
  - split; [by apply map_abs_fail in EA as [-> _]|auto].
Qed.

Definition seg_upto (s : prog_hdr_t) (n : Z) : list (prog_hdr_t * Z) :=
  (fun k => (s, k)) <$> seqZ 0 n.

Lemma seg_upto_succ s n : 0 <= n -> seg_upto s (n + 1) = seg_upto s n ++ [(s, n)].
Proof. intros Hn. unfold seg_upto. by rewrite seqZ_app, fmap_app by lia. Qed.

Lemma seg_upto_split s n :
  0 <= n < seg_pages s -> exists rest, seg_items s = seg_upto s n ++ (s, n) :: rest.
Proof.
  intros Hn. exists ((fun k => (s, k)) <$> seqZ (n + 1) (seg_pages s - n - 1)).
  change (seg_items s) with (seg_upto s (seg_pages s)).
  replace (seg_pages s) with ((n + 1) + (seg_pages s - n - 1)) at 1 by lia.
  unfold seg_upto. rewrite seqZ_app, fmap_app by lia. fold (seg_upto s (n + 1)).
  by rewrite seg_upto_succ, <-app_assoc by lia.
Qed.

(** ** One segment *)

Lemma keys_ok_elem its it : keys_ok its -> it ∈ its -> keys_ok [it].
Proof. intros H Hi it' ->%list_elem_of_singleton. auto. Qed.

(** The next page of a segment is not mapped yet. *)
Lemma fresh_item done s n :
  NoDup (item_vpn <$> done ++ seg_items s) -> 0 <= n < seg_pages s ->
  item_vpn (s, n) ∉ item_vpn <$> (done ++ seg_upto s n).
Proof.
  intros HN Hn. destruct (seg_upto_split s n Hn) as [rest E]. rewrite E, app_assoc, fmap_app in HN.
  apply NoDup_app in HN as (_ & HN & _). intros Hi. apply (HN _ Hi). left.
Qed.

Lemma elf_load_segment_spec root m t ps done a s :
  loaded root m t ps done -> in_image a PHDR_SIZE -> read_phdr m0 a = s -> seg_ok s ->
  NoDup (item_vpn <$> done ++ seg_items s) -> keys_ok (seg_items s) ->
  exists r, elf_load_segment m root a = Some r /\
    match r with
    | inl m' => exists t' ps', loaded root m' t' ps' (done ++ seg_items s)
    | inr (m', ret) => ret = - ENOMEM /\
        (length ps0 < need + (length done + length (seg_items s)))%nat
    end.
Proof.
  intros HL Ha Es Hs HN HK. unfold elf_load_segment.
  rewrite (image_phdr m a), Es by (done || apply (li_unch _ _ _ _ _ HL)).
  assert (0 <= seg_pages s < 2 ^ 39) as Hpg.
  { destruct Hs as (_ & ? & ? & ? & _). unfold seg_pages, PAGE_SIZE.
    split; [apply Z.div_pos; lia|apply Z.div_lt_upper_bound; lia]. }
  eapply (while_rule _ (fun k '(m', offset) => exists n t' ps',
     0 <= n <= seg_pages s /\ k = seg_pages s - n /\ offset = n * PAGE_SIZE /\
     loaded root m' t' ps' (done ++ seg_upto s n))).
  2:{ exists 0, t, ps. split_and!; [lia|lia|reflexivity|done|]. by rewrite app_nil_r. }
  2:{ lia. }
  intros k [m' offset] (n & t' & ps' & Hn & -> & -> & HL').
  rewrite (image_phdr m' a), Es, seg_pages_ltb by (done || lia || apply (li_unch _ _ _ _ _ HL')).
  destruct (Z.ltb_spec n (seg_pages s)) as [Hlt|Hge]; cycle 1.
  { assert (n = seg_pages s) as -> by lia. by exists t', ps'. }
  destruct (seg_upto_split s n) as [rest Erest]; [lia|].
  destruct (elf_load_page_spec root m' t' ps' (done ++ seg_upto s n) a s n)
    as (m2 & ret & -> & [[-> (t2 & ps2 & HL2)]|[-> Hlen]]); try done.
  - lia.
  - apply fresh_item; [done|lia].
  - eapply keys_ok_elem; [exact HK|]. rewrite Erest. set_solver.
  - simpl. exists (seg_pages s - (n + 1)). split; [lia|]. exists (n + 1), t2, ps2.
    rewrite seg_upto_succ, app_assoc by lia. split_and!; [lia..| |done].
    unfold PAGE_SIZE. rewrite u64_small by (unfold seg_pages, PAGE_SIZE in *; lia). lia.
  - split; [done|]. rewrite length_app in Hlen. rewrite Erest, length_app, length_cons. lia.
Qed.

(** ** The program headers *)

Definition phdrs_upto (n : Z) : list prog_hdr_t := phdr_at m0 sym_INIT_ELF <$> seqZ 0 n.

Lemma items_app l1 l2 : items (l1 ++ l2) = items l1 ++ items l2.
Proof. unfold items. by rewrite filter_app, fmap_app, join_app. Qed.

Lemma items_one s : items [s] = if loadable s then seg_items s else [].
Proof.
  unfold items. rewrite filter_cons.
  destruct (loadable s); simpl; [by rewrite app_nil_r|done].
Qed.

Lemma phdrs_upto_succ n :
  0 <= n -> phdrs_upto (n + 1) = phdrs_upto n ++ [phdr_at m0 sym_INIT_ELF n].
Proof. intros Hn. unfold phdrs_upto. by rewrite seqZ_app, fmap_app by lia. Qed.

(** The part of the items that is done before header [n]. *)
Lemma phdrs_split n N :
  0 <= n < N -> exists rest,
    phdrs_upto N = phdrs_upto n ++ phdr_at m0 sym_INIT_ELF n :: rest.
Proof.
  intros Hn. exists (phdr_at m0 sym_INIT_ELF <$> seqZ (n + 1) (N - n - 1)).
  replace N with ((n + 1) + (N - n - 1)) at 1 by lia. unfold phdrs_upto.
  rewrite seqZ_app, fmap_app by lia. fold (phdrs_upto (n + 1)).
  by rewrite phdrs_upto_succ, <-app_assoc by lia.
Qed.

Let all_items : list (prog_hdr_t * Z) := items (phdrs m0 sym_INIT_ELF).

Hypothesis hdr_in : 0 <= hdr_phoff m0 sym_INIT_ELF /\
  hdr_phoff m0 sym_INIT_ELF + hdr_phnum m0 sym_INIT_ELF * PHDR_SIZE <= INIT_ELF_SIZE /\
  64 <= INIT_ELF_SIZE.
Hypothesis segs_ok : forall s, s ∈ phdrs m0 sym_INIT_ELF -> loadable s = true -> seg_ok s.
Hypothesis items_nodup : NoDup (item_vpn <$> all_items).
Hypothesis items_keys : keys_ok all_items.

(** Header [n] and the items up to it. *)
Lemma phdr_step n :
  0 <= n < hdr_phnum m0 sym_INIT_ELF ->
  let s := phdr_at m0 sym_INIT_ELF n in
  in_image (sym_INIT_ELF + hdr_phoff m0 sym_INIT_ELF + n * PHDR_SIZE) PHDR_SIZE /\
  s ∈ phdrs m0 sym_INIT_ELF /\
  items (phdrs_upto (n + 1)) = items (phdrs_upto n) ++ items [s] /\
  NoDup (item_vpn <$> items (phdrs_upto n) ++ items [s]) /\ keys_ok (items [s]) /\
  (length (items (phdrs_upto n)) + length (items [s]) <= length all_items)%nat.
Proof.
  intros Hn s. destruct (phdrs_split n _ Hn) as [rest E].
  change (phdrs_upto (hdr_phnum m0 sym_INIT_ELF)) with (phdrs m0 sym_INIT_ELF) in E. fold s in E.
  assert (all_items = (items (phdrs_upto n) ++ items [s]) ++ items rest) as EA.
  { unfold all_items. rewrite E. change (s :: rest) with ([s] ++ rest).
    by rewrite !items_app, app_assoc. }
  split_and!.
  - unfold in_image, PHDR_SIZE in *. lia.
  - rewrite E. set_solver.
  - by rewrite phdrs_upto_succ, items_app by lia.
  - rewrite EA, fmap_app in items_nodup. by apply NoDup_app in items_nodup as [? _].
  - intros it Hit. apply items_keys. rewrite EA. set_solver.
  - rewrite EA, !length_app. lia.
Qed.

Lemma image_phnum m : unch (pa_own ps0) m0 m -> hdr_phnum m sym_INIT_ELF = hdr_phnum m0 sym_INIT_ELF.
Proof. intros HU. apply image_load; [done|]. unfold in_image. lia. Qed.

Lemma elf_load_phdrs_spec root m t ps :
  loaded root m t ps [] ->
  exists m' ret, elf_load_phdrs m root (sym_INIT_ELF + hdr_phoff m0 sym_INIT_ELF) = Some (Some (m', ret)) /\
    ((ret = 0 /\ exists t' ps', loaded root m' t' ps' all_items) \/
     (ret = - ENOMEM /\ (length ps0 < need + length all_items)%nat)).
Proof.
  intros HL. set (N := hdr_phnum m0 sym_INIT_ELF).
  assert (0 <= N < 2 ^ 16) as HN by apply (load_range 2).
  assert (exists r, elf_load_phdrs m root (sym_INIT_ELF + hdr_phoff m0 sym_INIT_ELF) = Some r /\
    exists m' ret, r = Some (m', ret) /\
      ((ret = 0 /\ exists t' ps', loaded root m' t' ps' all_items) \/
       (ret = - ENOMEM /\ (length ps0 < need + length all_items)%nat)))
    as (r & E & m' & ret & -> & H); [|by exists m', ret].
  eapply (while_rule _ (fun k '(m', i) => 0 <= i <= N /\ k = N - i /\
    exists t' ps', loaded root m' t' ps' (items (phdrs_upto i)))).
  2:{ split_and!; [lia|lia|reflexivity|]. by exists t, ps. }
  2:{ lia. }
  intros k [m' n] (Hn & -> & t' & ps' & HL'). pose proof (li_unch _ _ _ _ _ HL') as HU.
  rewrite (image_phnum m' HU). fold N.
  destruct (Z.ltb_spec n N) as [Hlt|Hge]; cycle 1.
  { assert (n = N) as -> by lia. exists m', 0. split; [done|left]. split; [done|]. by exists t', ps'. }
  destruct (phdr_step n) as (Hin & Hel & Enext & Hnd & Hkeys & Hlen); [lia|].
  assert (u16 (n + 1) = n + 1) as -> by (apply Z.mod_small; lia).
  cbv zeta. rewrite (image_phdr m' _ HU Hin). fold (phdr_at m0 sym_INIT_ELF n).
  set (s := phdr_at m0 sym_INIT_ELF n) in *. rewrite items_one in Enext, Hnd, Hkeys, Hlen.
  fold (loadable s). destruct (loadable s) eqn:El; simpl negb; cbv iota.
  2:{ exists (N - (n + 1)). split; [lia|]. split_and!; [lia..|]. exists t', ps'.
      by rewrite Enext, app_nil_r. }
  destruct (elf_load_segment_spec root m' t' ps' (items (phdrs_upto n))
    (sym_INIT_ELF + hdr_phoff m0 sym_INIT_ELF + n * PHDR_SIZE) s) as ([m2|[m2 ret]] & -> & H); auto.
  - exists (N - (n + 1)). split; [lia|]. split_and!; [lia..|]. by rewrite Enext.
  - destruct H as [-> H]. exists m2, (- ENOMEM). split; [done|right]. split; [done|lia].
Qed.

(** The address space that is left: what the hardware sees. *)
Lemma loaded_sv39 root m t ps its va :
  loaded root m t ps its -> (forall it, it ∈ its -> flags_ok (seg_flags (p_flags it.1)) = true) ->
  0 <= va < 2 ^ 39 ->
  (va / PAGE_SIZE ∉ item_vpn <$> its -> sv39 m root va = None) /\
  (forall it, it ∈ its -> item_vpn it = va / PAGE_SIZE ->
     exists pa, sv39 m root va = Some (pa, perm (seg_flags (p_flags it.1))) /\
       m !!! pa = seg_byte img it.1 (it.2 * PAGE_SIZE + va `mod` PAGE_SIZE)).
Proof.
  intros HL HF Hva. rewrite <-(li_root _ _ _ _ _ HL), (sv39_lookup m t ps) by (done || apply HL).
  split.
  - intros Hn. rewrite <-(li_leaf _ _ _ _ _ HL), <-eq_None_not_Some in Hn. by rewrite Hn.
  - intros it Hit Ev. destruct (li_data _ _ _ _ _ HL it Hit) as (p & Hp & Hpg & _ & Hb).
    rewrite <-Ev, Hp. simpl. pose proof (pa_page_bounds p Hpg) as Hbd.
    rewrite leaf_xlate_new; [|by apply HF|by apply pa_page_aligned|unfold PAGE_SIZE in Hbd; lia].
    eexists. split; [done|]. apply Hb. apply Z.mod_pos_bound. done.
Qed.
End proofs.
