(* ===== verification/ElfSpec.v ===== *)
(** * The contract of [elf_load], and the image that the kernel ships

    The general contract, for any image whose segments the loader can load, and
    its instance for [INIT_ELF]. *)

From S2P Require Import Prelude.
From S2P Require Import Errno.
From S2P Require Import Mem.
From S2P Require Import DList.
From S2P Require Import Layout.
From S2P Require Import Pages.
From S2P Require Import PageAlloc.
From S2P Require Import Vm.
From S2P Require Import VmTree.
From S2P Require Import VmSpec.
From S2P Require Import InitElf.
From S2P Require Import Elf.

(** An image the loader accepts, in memory at [h]. *)
Record image_ok (m : mem) (h : Z) : Prop := {
  im_ident : check_ident m h = true;
  im_compat : check_compat m h = true;
  im_type : hdr_type m h = 2;
  im_phdrs : 0 <= hdr_phoff m h /\
    hdr_phoff m h + hdr_phnum m h * PHDR_SIZE <= INIT_ELF_SIZE /\ 64 <= INIT_ELF_SIZE;
  im_segs s : s ∈ phdrs m h -> loadable s = true -> seg_ok s;
  im_disj : NoDup (item_vpn <$> items (phdrs m h));
}.

(** The pages that loading takes: one for each page of a segment, the root, and
    the tables for the keys [K1] and [K2]. *)
Definition pages_needed (m : mem) (h : Z) (K1 K2 : gset Z) : nat :=
  1 + size K1 + size K2 + length (items (phdrs m h)).

Section contract.
Context `{PA : PageAllocator} {PAOK : PageAllocatorOk PA} `{L : Layout}.

(** The address space [root] of [m] holds the segments of the image. *)
Definition holds_image (m : mem) (root : Z) (m0 : mem) (h : Z) : Prop :=
  forall va, 0 <= va < 2 ^ 39 ->
    (forall s, s ∈ phdrs m0 h -> loadable s = true -> p_vaddr s <= va < p_vaddr s + p_memsz s ->
       exists pa, sv39 m root va = Some (pa, perm (seg_flags (p_flags s))) /\
         m !!! pa = seg_byte (fun x => m0 !!! (h + x)) s (va - p_vaddr s)) /\
    ((forall s, s ∈ phdrs m0 h -> loadable s = true ->
        ~ p_vaddr s <= va < p_vaddr s + seg_pages s * PAGE_SIZE) ->
     sv39 m root va = None).

Lemma elem_items ss it :
  it ∈ items ss <-> it.1 ∈ ss /\ loadable it.1 = true /\ 0 <= it.2 < seg_pages it.1.
Proof.
  unfold items, seg_items. rewrite list_elem_of_join. setoid_rewrite list_elem_of_fmap.
  setoid_rewrite list_elem_of_filter. setoid_rewrite Is_true_true. split.
  - intros (l & Hit & s & -> & Hl & Hs). apply list_elem_of_fmap in Hit as (k & -> & Hk).
    apply elem_of_seqZ in Hk. simpl. split_and!; auto; lia.
  - destruct it as [s k]. simpl. intros (Hs & Hl & Hk). exists ((fun k => (s, k)) <$> seqZ 0 (seg_pages s)).
    split; [|by exists s]. apply list_elem_of_fmap. exists k. split; [done|]. apply elem_of_seqZ. lia.
Qed.

(** Page and offset of an address of a segment. *)
Lemma seg_addr s va :
  page_aligned (p_vaddr s) -> p_vaddr s <= va ->
  let k := (va - p_vaddr s) / PAGE_SIZE in
  item_vpn (s, k) = va / PAGE_SIZE /\ va - p_vaddr s = k * PAGE_SIZE + va `mod` PAGE_SIZE /\ 0 <= k.
Proof.
  unfold page_aligned, item_vpn, PAGE_SIZE. simpl. intros Ha Hv.
  pose proof (Z.div_mod (p_vaddr s) 4096). pose proof (Z.div_mod va 4096).
  pose proof (Z.div_mod (va - p_vaddr s) 4096). pose proof (Z.mod_pos_bound va 4096).
  pose proof (Z.mod_pos_bound (va - p_vaddr s) 4096). lia.
Qed.

Lemma loaded_holds m0 ps0 K1 K2 root m t ps :
  image_ok m0 sym_INIT_ELF ->
  loaded m0 ps0 K1 K2 root m t ps (items (phdrs m0 sym_INIT_ELF)) ->
  holds_image m root m0 sym_INIT_ELF.
Proof.
  intros HI HL va Hva.
  assert (forall it, it ∈ items (phdrs m0 sym_INIT_ELF) ->
    flags_ok (seg_flags (p_flags it.1)) = true) as HF.
  { intros it (Hs & Hl & _)%elem_items. by apply (im_segs _ _ HI) in Hs as (_ & _ & _ & _ & _ & _ & ?). }
  destruct (loaded_sv39 m0 ps0 K1 K2 root m t ps _ va HL HF Hva) as [Hout Hin]. split.
  - intros s Hs Hl Hr. pose proof (im_segs _ _ HI s Hs Hl) as (Ha & _ & _ & Hm & _).
    destruct (seg_addr s va Ha) as (Ev & Eo & Hk); [lia|].
    destruct (Hin (s, (va - p_vaddr s) / PAGE_SIZE)) as (pa & E & Hb); [|done|].
    + apply elem_items. split_and!; [done..|]. simpl. apply Z.ltb_lt.
      rewrite <-seg_pages_ltb by done. apply Z.ltb_lt.
      pose proof (Z.mod_pos_bound va PAGE_SIZE). unfold PAGE_SIZE in *. lia.
    + exists pa. split; [done|]. rewrite Hb. simpl. by rewrite <-Eo.
  - intros Hno. apply Hout. intros ([s k] & Ev & (Hs & Hl & Hk)%elem_items)%list_elem_of_fmap.
    simpl in *. apply (Hno s Hs Hl). pose proof (im_segs _ _ HI s Hs Hl) as (Ha & _).
    unfold page_aligned, item_vpn, PAGE_SIZE in *. simpl in Ev.
    pose proof (Z.div_mod (p_vaddr s) 4096). pose proof (Z.div_mod va 4096).
    pose proof (Z.mod_pos_bound va 4096). lia.
Qed.

(** The state of the loader after [vm_create_page_table]. *)
Lemma loaded_start m0 p ps K1 K2 m :
  vm_ok m (mkTree p ∅ ∅ ∅) ps -> unch (pa_own (p :: ps)) m0 m ->
  loaded m0 (p :: ps) K1 K2 p m (mkTree p ∅ ∅ ∅) ps [].
Proof.
  intros HV HU. assert (tables (mkTree p ∅ ∅ ∅) = [p]) as ET.
  { unfold tables. simpl. by rewrite map_to_list_empty. }
  split; simpl; rewrite ?ET; try done.
  - intros v. rewrite lookup_empty. split; [by intros []|by intros ?%not_elem_of_nil].
  - by intros it ?%not_elem_of_nil.
Qed.

Lemma elf_load_image m0 ps0 K1 K2 r0 :
  pa_pool m0 ps0 ->
  (forall a, inrng sym_INIT_ELF INIT_ELF_SIZE a -> ~ pa_own ps0 a) ->
  image_ok m0 sym_INIT_ELF -> keys_ok K1 K2 (items (phdrs m0 sym_INIT_ELF)) ->
  exists m res ret, elf_load m0 r0 = Some (m, res, ret) /\
    res_entry res = hdr_entry m0 sym_INIT_ELF /\
    ((ret = 0 /\ (exists t ps, vm_ok m t ps /\ t_root t = res_page_table res) /\
      unch (pa_own ps0) m0 m /\ holds_image m (res_page_table res) m0 sym_INIT_ELF) \/
     (ret = - ENOMEM /\ (length ps0 < pages_needed m0 sym_INIT_ELF K1 K2)%nat)).
Proof.
  intros HP Hsep HI HK. unfold elf_load. cbv zeta.
  rewrite (im_ident _ _ HI), (im_compat _ _ HI), (im_type _ _ HI). simpl.
  destruct ps0 as [|p ps].
  { unfold vm_create_page_table. rewrite pa_alloc_nil by done. simpl. eexists _, _, _.
    split; [done|]. split; [done|right]. split; [done|]. unfold pages_needed. simpl. lia. }
  destruct (vm_create_spec m0 p ps HP) as (m1 & -> & HV1 & HU1). simpl res_page_table.
  destruct (pa_pool_pages _ _ HP) as [_ [Hp _]%Forall_cons].
  rewrite (proj2 (Z.eqb_neq p nullptr)) by by apply pa_page_nonnull.
  pose proof (loaded_start m0 p ps K1 K2 m1 HV1 HU1) as HL.
  assert (hdr_phoff m1 sym_INIT_ELF = hdr_phoff m0 sym_INIT_ELF) as ->.
  { eapply load_unch; [exact HU1|]. intros a Ha. apply Hsep.
    destruct (im_phdrs _ _ HI) as (_ & _ & ?). rng. }
  destruct (elf_load_phdrs_spec m0 (p :: ps) HP Hsep K1 K2 (im_phdrs _ _ HI)
    (im_segs _ _ HI) (im_disj _ _ HI) HK p m1 _ ps HL) as (m2 & ret & -> & H).
  eexists m2, _, ret. split; [done|]. split; [done|]. simpl.
  destruct H as [(-> & t & ps' & HL')|[-> Hlen]]; [left|right].
  - split_and!; [done| | |by eapply loaded_holds].
    + exists t, ps'. split; apply HL'.
    + apply HL'.
  - split; [done|]. unfold pages_needed, need in *. simpl in *. lia.
Qed.

(** C4. The contract of [elf_load]: for an image it accepts, it returns the entry
    point and either an address space in which every byte of every loadable
    segment reads as the image says (file contents, then zeros), with the
    segment's permissions and nothing else mapped; or [-ENOMEM], and then the
    page allocator had fewer free pages than the segments and their tables
    need.  On success only pages of the allocator are written. *)
Theorem elf_load_contract m0 ps0 K1 K2 r0 :
  pa_pool m0 ps0 ->
  (forall a, inrng sym_INIT_ELF INIT_ELF_SIZE a -> ~ pa_own ps0 a) ->
  image_ok m0 sym_INIT_ELF -> keys_ok K1 K2 (items (phdrs m0 sym_INIT_ELF)) ->
  exists m res ret, elf_load m0 r0 = Some (m, res, ret) /\
    res_entry res = hdr_entry m0 sym_INIT_ELF /\
    ((ret = 0 /\ (exists t ps, vm_ok m t ps /\ t_root t = res_page_table res) /\
      unch (pa_own ps0) m0 m /\ holds_image m (res_page_table res) m0 sym_INIT_ELF) \/
     (ret = - ENOMEM /\ (length ps0 < pages_needed m0 sym_INIT_ELF K1 K2)%nat)).
Proof. apply elf_load_image. Qed.

(** The scalars the header checks read, in terms of bytes. *)
Lemma load1_eqb m a b : (load 1 m a =? byte.unsigned b) = bool_decide (m !!! a = b).
Proof.
  rewrite load1_byte. apply eq_bool_prop_intro. rewrite bool_decide_spec, Is_true_true, Z.eqb_eq.
  split; [apply byte.unsigned_inj|congruence].
Qed.

Lemma load2_bytes m a :
  load 2 m a = byte.unsigned (m !!! a) + 256 * byte.unsigned (m !!! (a + 1)).
Proof.
  change (Z.lor (byte.unsigned (m !!! a)) (Z.shiftl (load 1 m (a + 1)) 8) =
          byte.unsigned (m !!! a) + 256 * byte.unsigned (m !!! (a + 1))).
  rewrite load1_byte.
  rewrite <-Z.add_nocarry_lor.
  - rewrite Z.shiftl_mul_pow2 by lia. lia.
  - apply Z.bits_inj'. intros n Hn. rewrite Z.bits_0, Z.land_spec.
    destruct (Z.ltb_spec n 8).
    + rewrite Z.shiftl_spec_low by done. by rewrite andb_false_r.
    + rewrite (Z.bits_above_log2 (byte.unsigned _)); [done|apply byte.unsigned_range|].
      destruct (Z.eq_dec (byte.unsigned (m !!! a)) 0) as [->|Hne]; [simpl; lia|].
      pose proof (byte.unsigned_range (m !!! a)).
      apply Z.log2_lt_pow2; [lia|]. assert (2 ^ 8 <= 2 ^ n) by (apply Z.pow_le_mono_r; lia). lia.
Qed.

(** The magic number, and the class, byte order and version of the images that
    are accepted: 64-bit, little endian, version 1. *)
Definition ELF_MAGIC : list byte := [Init.Byte.x7f; Init.Byte.x45; Init.Byte.x4c; Init.Byte.x46].
Definition ELF_KIND : list byte := [Init.Byte.x02; Init.Byte.x01; Init.Byte.x01].
(** [ET_EXEC], a little-endian half word *)
Definition ELF_EXEC : list byte := [Init.Byte.x02; Init.Byte.x00].

Lemma check_ident_bytes m h : check_ident m h = bool_decide (read_bytes m h 4 = ELF_MAGIC).
Proof.
  unfold check_ident. change 0x7F with (byte.unsigned Init.Byte.x7f).
  change 0x45 with (byte.unsigned Init.Byte.x45). change 0x4C with (byte.unsigned Init.Byte.x4c).
  change 0x46 with (byte.unsigned Init.Byte.x46). rewrite !load1_eqb.
  unfold EI_MAG0, EI_MAG1, EI_MAG2, EI_MAG3, ELF_MAGIC. rewrite Z.add_0_r.
  simpl read_bytes. rewrite <-!Z.add_assoc. change (1 + (1 + 1)) with 3. change (1 + 1) with 2.
  repeat (case_bool_decide; simpl negb; cbv iota); first [done|exfalso; congruence].
Qed.

Lemma check_compat_bytes m h :
  check_compat m h = bool_decide (read_bytes m (h + 4) 3 = ELF_KIND).
Proof.
  unfold check_compat. change 2 with (byte.unsigned Init.Byte.x02).
  change 1 with (byte.unsigned Init.Byte.x01) at 1 2. rewrite !load1_eqb.
  unfold EI_CLASS, EI_DATA, EI_VERSION, ELF_KIND.
  simpl read_bytes. rewrite <-!Z.add_assoc. change (4 + (1 + 1)) with 6. change (4 + 1) with 5.
  repeat (case_bool_decide; simpl negb; cbv iota); first [done|exfalso; congruence].
Qed.

Lemma hdr_type_bytes m h : (hdr_type m h =? 2) = bool_decide (read_bytes m (h + 16) 2 = ELF_EXEC).
Proof.
  unfold hdr_type. rewrite load2_bytes. apply eq_bool_prop_intro.
  rewrite bool_decide_spec, Is_true_true, Z.eqb_eq. unfold ELF_EXEC. simpl read_bytes.
  set (a := m !!! (h + 16)). set (b := m !!! (h + 16 + 1)).
  pose proof (byte.unsigned_range a). pose proof (byte.unsigned_range b). split.
  - intros E. assert (byte.unsigned a = byte.unsigned Init.Byte.x02) as ->%byte.unsigned_inj
      by (change (byte.unsigned Init.Byte.x02) with 2; lia).
    assert (byte.unsigned b = byte.unsigned Init.Byte.x00) as ->%byte.unsigned_inj
      by (change (byte.unsigned Init.Byte.x00) with 0; lia).
    done.
  - by intros [= -> ->].
Qed.

(** C24. The images [elf_load] rejects, before it allocates anything and with memory
    unchanged: when the first four bytes are not [7f 'E' 'L' 'F'] it returns
    [-EACCES]; when they are, but the bytes 4 to 6 are not [2 1 1] (64-bit, little
    endian, version 1) or the half word at 16 is not 2 (executable), it returns
    [-EINVAL].  The entry point is stored in both cases. *)
Theorem elf_load_rejects m r0 :
  let h := sym_INIT_ELF in
  let res := mkRes (load 8 m (h + 24)) (res_page_table r0) in
  (read_bytes m h 4 <> [Init.Byte.x7f; Init.Byte.x45; Init.Byte.x4c; Init.Byte.x46] ->
   elf_load m r0 = Some (m, res, - EACCES)) /\
  (read_bytes m h 4 = [Init.Byte.x7f; Init.Byte.x45; Init.Byte.x4c; Init.Byte.x46] ->
   read_bytes m (h + 4) 3 <> [Init.Byte.x02; Init.Byte.x01; Init.Byte.x01] \/
   read_bytes m (h + 16) 2 <> [Init.Byte.x02; Init.Byte.x00] ->
   elf_load m r0 = Some (m, res, - EINVAL)).
Proof.
  intros h res. unfold elf_load. rewrite check_ident_bytes, check_compat_bytes, hdr_type_bytes.
  unfold ELF_MAGIC, ELF_KIND, ELF_EXEC. fold h. split.
  - intros Hm. by rewrite bool_decide_false.
  - intros Hm Hc. rewrite bool_decide_true by done. simpl negb. cbv iota.
    destruct Hc as [Hc|Hc]; rewrite (bool_decide_false _ Hc); simpl; [done|].
    by rewrite orb_true_r.
Qed.
End contract.

(** ** The image of the first process *)

Section init_elf.
Context `{L : Layout} {LOK : LayoutOk L}.

(** [INIT_ELF] is in memory, where the linker put it. *)
Definition has_INIT_ELF (m : mem) : Prop :=
  forall i, (i < length INIT_ELF)%nat -> m !!! (sym_INIT_ELF + Z.of_nat i) = INIT_ELF !!! i.

(** The [n]-byte scalar at [off] in the image. *)
Definition image_field (n : nat) (off : Z) : Z :=
  le_combine (take n (drop (Z.to_nat off) INIT_ELF)).

Lemma INIT_ELF_read m off n :
  has_INIT_ELF m -> 0 <= off -> off + Z.of_nat n <= INIT_ELF_SIZE ->
  load n m (sym_INIT_ELF + off) = image_field n off.
Proof.
  intros HI H0 Hb. pose proof INIT_ELF_length as HN. unfold INIT_ELF_SIZE in Hb.
  assert (length (take n (drop (Z.to_nat off) INIT_ELF)) = n) as Hlen.
  { rewrite length_take, length_drop. lia. }
  unfold load, image_field. f_equal.
  apply list_eq_same_length with n; rewrite ?length_read_bytes; [done..|].
  intros i x y Hi Hx Hy.
  rewrite <-(list_lookup_total_correct _ _ _ Hx), read_bytes_lookup by done.
  rewrite lookup_take, decide_True, lookup_drop in Hy by done.
  rewrite <-(list_lookup_total_correct _ _ _ Hy), <-HI by lia. f_equal. lia.
Qed.

(** The program headers of the image: attributes, text and data. *)
Definition ph_attr : prog_hdr_t := mkPhdr 0x70000003 4 0xcb7f 0 0 0x4b 0 1.
Definition ph_text : prog_hdr_t := mkPhdr 1 5 0 0x10000 0x10000 0xb750 0xb750 0x1000.
Definition ph_data : prog_hdr_t := mkPhdr 1 6 0xc000 0x1c000 0x1c000 0xb70 0x400df8 0x1000.

Lemma INIT_ELF_phdr m off :
  has_INIT_ELF m -> 0 <= off -> off + PHDR_SIZE <= INIT_ELF_SIZE ->
  read_phdr m (sym_INIT_ELF + off) =
  mkPhdr (image_field 4 off) (image_field 4 (off + 4)) (image_field 8 (off + 8))
    (image_field 8 (off + 16)) (image_field 8 (off + 24)) (image_field 8 (off + 32))
    (image_field 8 (off + 40)) (image_field 8 (off + 48)).
Proof.
  intros HI H0 Hb. unfold read_phdr, PHDR_SIZE in *.
  rewrite <-!Z.add_assoc, !(INIT_ELF_read m) by (done || lia). done.
Qed.

Lemma INIT_ELF_phdrs m :
  has_INIT_ELF m -> phdrs m sym_INIT_ELF = [ph_attr; ph_text; ph_data].
Proof.
  intros HI. unfold phdrs, phdr_at, hdr_phnum, hdr_phoff.
  rewrite !(INIT_ELF_read m) by (done || (unfold INIT_ELF_SIZE; lia)).
  replace (image_field 2 56) with 3 by (vm_compute; reflexivity).
  replace (image_field 8 32) with 64 by (vm_compute; reflexivity).
  change (seqZ 0 3) with [0; 1; 2]. cbn [fmap list_fmap map]. rewrite <-!Z.add_assoc.
  rewrite !(INIT_ELF_phdr m) by (done || (unfold PHDR_SIZE, INIT_ELF_SIZE; lia)).
  vm_compute. reflexivity.
Qed.

(** The pages of the image are the virtual pages from 0x10 on. *)
Lemma INIT_ELF_items m :
  has_INIT_ELF m ->
  item_vpn <$> items (phdrs m sym_INIT_ELF) = seqZ 0x10 1037.
Proof.
  intros HI. rewrite (INIT_ELF_phdrs m HI). unfold items.
  change (filter loadable [ph_attr; ph_text; ph_data]) with [ph_text; ph_data].
  cbn [fmap list_fmap map mjoin list_join]. rewrite app_nil_r, fmap_app.
  assert (forall s, item_vpn <$> seg_items s = seqZ (p_vaddr s / PAGE_SIZE) (seg_pages s)) as E.
  { intros s. unfold seg_items. rewrite <-list_fmap_compose.
    pose proof (fmap_add_seqZ (p_vaddr s / PAGE_SIZE) 0 (seg_pages s)) as E.
    rewrite Z.add_0_r in E. by rewrite <-E. }
  rewrite !E. change (p_vaddr ph_text / PAGE_SIZE) with 0x10.
  change (p_vaddr ph_data / PAGE_SIZE) with (0x10 + 12). change (seg_pages ph_text) with 12.
  change (seg_pages ph_data) with 1025. rewrite <-seqZ_app by lia. done.
Qed.

Lemma INIT_ELF_ok m : has_INIT_ELF m -> image_ok m sym_INIT_ELF.
Proof.
  intros HI. pose proof (fun off n => INIT_ELF_read m off n HI) as HR.
  unfold INIT_ELF_SIZE in HR. split.
  - unfold check_ident. rewrite !HR by (unfold EI_MAG0, EI_MAG1, EI_MAG2, EI_MAG3; lia).
    vm_compute. reflexivity.
  - unfold check_compat. rewrite !HR by (unfold EI_CLASS, EI_DATA, EI_VERSION; lia).
    vm_compute. reflexivity.
  - unfold hdr_type. rewrite HR by lia. vm_compute. reflexivity.
  - unfold hdr_phoff, hdr_phnum. rewrite !HR by lia. by vm_compute.
  - rewrite (INIT_ELF_phdrs m HI). intros s Hs Hl.
    rewrite !elem_of_cons, elem_of_nil in Hs. destruct Hs as [->|[->|[->|[]]]]; done.
  - rewrite INIT_ELF_items by done. apply NoDup_seqZ.
Qed.

Lemma INIT_ELF_sep ps a :
  Forall heap_page ps -> inrng sym_INIT_ELF INIT_ELF_SIZE a -> ~ pa_own ps a.
Proof.
  intros HF Ha [Hs|(p & Hp & Hr)].
  - pose proof (seps_elem (statics L) (sym_INIT_ELF, INIT_ELF_SIZE) (sym_free_list, 16)
      statics_seps ltac:(set_solver) ltac:(set_solver)) as [E|E]; [by injection E|].
    simpl in *. unfold NODE_SIZE in *. rng.
  - rewrite Forall_forall in HF. destruct (HF p Hp) as [_ Hb].
    pose proof (static_bounds (sym_INIT_ELF, INIT_ELF_SIZE) ltac:(set_solver)) as HB.
    simpl in HB. unfold PAGE_SIZE in *. rng.
Qed.

(** One level-1 table and three level-2 tables cover the image. *)
Lemma INIT_ELF_keys m :
  has_INIT_ELF m -> keys_ok {[0]} {[0; 1; 2]} (items (phdrs m sym_INIT_ELF)).
Proof.
  intros HI it Hi. assert (item_vpn it ∈ seqZ 0x10 1037) as Hv.
  { rewrite <-(INIT_ELF_items m HI). by apply list_elem_of_fmap_2. }
  apply elem_of_seqZ in Hv. split.
  - rewrite Z.div_small by lia. set_solver.
  - pose proof (Z.div_mod (item_vpn it) (2 ^ 9)). pose proof (Z.mod_pos_bound (item_vpn it) (2 ^ 9)).
    assert (item_vpn it / 2 ^ 9 = 0 \/ item_vpn it / 2 ^ 9 = 1 \/ item_vpn it / 2 ^ 9 = 2) by lia.
    set_solver.
Qed.

(** C15. The kernel's own image: with [INIT_ELF] in place and 1042 free pages,
    [elf_load] succeeds, the entry point is 0x1010c, the code pages
    [0x10000, 0x1b750) read as the file with user read and execute permission,
    the data [0x1c000, 0x1cb70) reads as the file and is zero up to 0x41cdf8,
    with user read and write permission. *)
Theorem init_elf_loads m0 ps0 r0 :
  has_INIT_ELF m0 -> free_pages m0 ps0 -> (1042 <= length ps0)%nat ->
  exists m res, elf_load m0 r0 = Some (m, res, 0) /\ res_entry res = 0x1010c /\
    let root := res_page_table res in
    (forall i, 0 <= i < 0xb750 -> exists pa,
       sv39 m root (0x10000 + i) = Some (pa, 0x1b) /\ m !!! pa = INIT_ELF !!! Z.to_nat i) /\
    (forall i, 0 <= i < 0x400df8 -> exists pa,
       sv39 m root (0x1c000 + i) = Some (pa, 0x17) /\
       m !!! pa = if i <? 0xb70 then INIT_ELF !!! Z.to_nat (0xc000 + i) else Init.Byte.x00).
Proof.
  intros HI HP Hlen. set (K1 := {[0]} : gset Z). set (K2 := {[0; 1; 2]} : gset Z).
  pose proof (INIT_ELF_items m0 HI) as Hit. pose proof (INIT_ELF_phdrs m0 HI) as Hph.
  pose proof (INIT_ELF_keys m0 HI : keys_ok K1 K2 _) as HK.
  destruct (elf_load_image (PA := karg_pages) m0 ps0 K1 K2 r0 HP) as (m & res & ret & E & He & H); auto.
  { intros a. apply INIT_ELF_sep. by destruct HP. }
  { by apply INIT_ELF_ok. }
  assert (pages_needed m0 sym_INIT_ELF K1 K2 = 1042%nat) as Hneed.
  { unfold pages_needed. rewrite <-(length_fmap item_vpn), Hit, length_seqZ. done. }
  destruct H as [(-> & _ & _ & HH)|[-> Hlt]]; [|lia].
  exists m, res. split; [done|]. split.
  { rewrite He. unfold hdr_entry. rewrite (INIT_ELF_read m0) by (done || (unfold INIT_ELF_SIZE; lia)).
    vm_compute. reflexivity. }
  pose proof INIT_ELF_length as HL. split; intros i Hi.
  - destruct (HH (0x10000 + i)) as [HS _]; [lia|].
    destruct (HS ph_text) as (pa & Epa & Hb); [rewrite Hph; right; left|done|simpl; lia|].
    exists pa. split; [done|]. rewrite Hb. unfold seg_byte. simpl p_filesz. simpl p_vaddr. simpl p_offset.
    replace (0x10000 + i - 0x10000) with i by lia. rewrite (proj2 (Z.ltb_lt _ _)) by lia.
    rewrite <-HI by lia. f_equal. lia.
  - destruct (HH (0x1c000 + i)) as [HS _]; [lia|].
    destruct (HS ph_data) as (pa & Epa & Hb); [rewrite Hph; right; right; left|done|simpl; lia|].
    exists pa. split; [done|]. rewrite Hb. unfold seg_byte. simpl p_filesz. simpl p_vaddr. simpl p_offset.
    replace (0x1c000 + i - 0x1c000) with i by lia. destruct (Z.ltb_spec i 0xb70); [|done].
    rewrite <-HI by lia. f_equal. lia.
Qed.
End init_elf.

(** ** The image in the memory of the [virt] platform *)

Module Demo.
Import Boot.

(** 1042 free pages, and [INIT_ELF] where the linker put it. *)
Definition image_mem : mem := write_bytes (boot_pages 1042) sym_INIT_ELF INIT_ELF.

Lemma image_mem_INIT_ELF : has_INIT_ELF image_mem.
Proof.
  intros i Hi. unfold image_mem. rewrite write_bytes_get, decide_True by (unfold inrng; lia). f_equal. lia.
Qed.

Lemma image_mem_free : free_pages image_mem (first_pages 1042).
Proof.
  pose proof (boot_pages_free 1042 ltac:(lia)) as HP.
  refine (pa_pool_unch (PA := karg_pages) _ _ _ _ HP (write_bytes_unch _ _ _) _).
  intros a Ho Ha. rewrite INIT_ELF_length in Ha.
  refine (INIT_ELF_sep _ a _ Ha Ho). by destruct HP.
Qed.

Lemma first_pages_length : length (first_pages 1042) = 1042%nat.
Proof. unfold first_pages. by rewrite length_fmap, length_seqZ. Qed.

Lemma elf_load_contract_witness :
  exists m res ret, elf_load image_mem (mkRes 0 0) = Some (m, res, ret) /\
    res_entry res = hdr_entry image_mem sym_INIT_ELF.
Proof.
  destruct (elf_load_contract (PA := karg_pages) image_mem (first_pages 1042) {[0]} {[0; 1; 2]} (mkRes 0 0)
    image_mem_free) as (m & res & ret & E & He & _).
  - intros a. apply INIT_ELF_sep. by destruct image_mem_free.
  - exact (INIT_ELF_ok image_mem image_mem_INIT_ELF).
  - exact (INIT_ELF_keys image_mem image_mem_INIT_ELF).
  - exists m, res, ret. split; [exact E|exact He].
Defined.

Lemma init_elf_loads_witness :
  exists m res, elf_load image_mem (mkRes 0 0) = Some (m, res, 0) /\ res_entry res = 0x1010c.
Proof.
  destruct (init_elf_loads image_mem (first_pages 1042) (mkRes 0 0) image_mem_INIT_ELF
    image_mem_free) as (m & res & E & He & _).
  - rewrite first_pages_length. lia.
  - exists m, res. split; [exact E|exact He].
Defined.

(** Blank memory, and memory with the magic number only. *)
Definition magic_mem : mem :=
  write_bytes ∅ sym_INIT_ELF (take 4 INIT_ELF).

Lemma elf_load_rejects_witness :
  elf_load (PA := karg_pages) ∅ (mkRes 0 0) = Some (∅, mkRes 0 0, - EACCES) /\
  elf_load (PA := karg_pages) magic_mem (mkRes 0 0) = Some (magic_mem, mkRes 0 0, - EINVAL).
Proof.
  split.
  - refine (proj1 (elf_load_rejects (PA := karg_pages) ∅ (mkRes 0 0)) _). vm_compute. discriminate.
  - refine (proj2 (elf_load_rejects (PA := karg_pages) magic_mem (mkRes 0 0)) _ (or_introl _)).
    + vm_compute. reflexivity.
    + vm_compute. discriminate.
Defined.
End Demo.
