(* ===== verification/Sbi.v ===== *)
(** * The firmware interface: [src/arch/riscv/sbi.c], [include/arch/riscv/sbi.h],
    and the functions built on it in [timer.c] and [pm.c] of the same directory

    The firmware (the SBI implementation that runs below the kernel) is a
    parameter: [ecall] with its state.  What the kernel relies on is the class
    [FirmwareOk]. *)

From stdpp Require Import strings.
From S2P Require Import Prelude.
From S2P Require Import Errno.
#[local] Open Scope Z_scope.

Class Firmware := {
  fw : Type;
  (** [ecall] with a7 = extension, a6 = function and the arguments in a0..a5;
      the results are the new state and [sbi_res_t] (a0, a1) *)
  fw_ecall : fw -> Z -> Z -> list Z -> fw * (Z * Z);
}.

Definition SBI_SUCCESS : Z := 0.
Definition SBI_ERR_FAILED : Z := -1.
Definition SBI_ERR_NOT_SUPPORTED : Z := -2.
Definition SBI_ERR_INVALID_PARAM : Z := -3.
Definition SBI_ERR_DENIED : Z := -4.
Definition SBI_ERR_INVALID_ADDRESS : Z := -5.
Definition SBI_ERR_ALREADY_AVAILABLE : Z := -6.
Definition SBI_ERR_ALREADY_STARTED : Z := -7.
Definition SBI_ERR_ALREADY_STOPPED : Z := -8.

Definition sbi_map_err (err : Z) : Z :=
  if err =? SBI_SUCCESS then 0
  else if err =? SBI_ERR_FAILED then - EPERM
  else if err =? SBI_ERR_NOT_SUPPORTED then - ENOTSUP
  else if err =? SBI_ERR_INVALID_PARAM then - EINVAL
  else if err =? SBI_ERR_DENIED then - EPERM
  else if err =? SBI_ERR_INVALID_ADDRESS then - EFAULT
  else if (err =? SBI_ERR_ALREADY_AVAILABLE) || (err =? SBI_ERR_ALREADY_STARTED)
          || (err =? SBI_ERR_ALREADY_STOPPED) then - EPERM
  else - ENOTSUP.

Definition SBI_EID_TIME : Z := 0x54494D45.
Definition SBI_EID_SRST : Z := 0x53525354.
Definition SBI_REBOOT_TYPE_SHUTDOWN : Z := 0.
Definition SBI_REBOOT_TYPE_REBOOT : Z := 1.
Definition SBI_REBOOT_REASON_NONE : Z := 0.

Definition TIME_MAX : Z := 2 ^ 64 - 1.
Definition CSR_SIE_STIE : Z := 0x20.

Section code.
Context `{FW : Firmware}.

Definition sbi_ecall (f : fw) (eid fid : Z) (args : list Z) : fw * (Z * Z) :=
  fw_ecall f eid fid args.

Definition sbi_set_timer (f : fw) (time : Z) : fw * Z :=
  let '(f, res) := sbi_ecall f SBI_EID_TIME 0 [time] in (f, sbi_map_err res.1).

Definition sbi_reboot (f : fw) (type reason : Z) : fw * Z :=
  let '(f, res) := sbi_ecall f SBI_EID_SRST 0 [type; reason] in (f, sbi_map_err res.1).

(** [None] is [log_panic], which does not return. *)
Definition timer_set (f : fw) (wait_time : Z) : option fw :=
  let '(f, res) := sbi_set_timer f wait_time in
  if res <? 0 then None else Some f.

(** The [init] of [arch/riscv/timer.c]: the new [sie], firmware and result. *)
Definition timer_arch_init (sie : Z) (f : fw) : Z * fw * Z :=
  let sie := Z.lor sie CSR_SIE_STIE in
  let '(f, res) := sbi_set_timer f TIME_MAX in (sie, f, res).

(** [pm_reboot] and [pm_shutdown] only come back to panic: the firmware state
    and the name of the error they report ([None]: the null pointer). *)
Definition pm_reboot (f : fw) : fw * option string :=
  let '(f, res) := sbi_reboot f SBI_REBOOT_TYPE_REBOOT SBI_REBOOT_REASON_NONE in
  (f, errno_name (- res)).

Definition pm_shutdown (f : fw) : fw * option string :=
  let '(f, res) := sbi_reboot f SBI_REBOOT_TYPE_SHUTDOWN SBI_REBOOT_REASON_NONE in
  (f, errno_name (- res)).
End code.

(** The timer extension of the SBI specification: [sbi_set_timer] does not fail,
    and the state of the firmware then has this deadline. *)
Class FirmwareOk (FW : Firmware) := {
  fw_deadline : fw -> Z;
  fw_set_timer f t :
    exists v, (fw_ecall f SBI_EID_TIME 0 [t]).2 = (0, v) /\
              fw_deadline (fw_ecall f SBI_EID_TIME 0 [t]).1 = t;
}.

(** [sbi_map_err] maps success to 0 and every other value of the firmware to
    a negative error number that [errno_name] can name, so that the callers'
    test [res < 0] is exactly the test for failure. *)
Lemma sbi_map_err_sound err :
  (sbi_map_err err = 0 <-> err = SBI_SUCCESS) /\
  (err <> SBI_SUCCESS -> sbi_map_err err < 0 /\ is_Some (errno_name (- sbi_map_err err))).
Proof.
  unfold sbi_map_err, SBI_SUCCESS. destruct (Z.eqb_spec err 0) as [->|Hne]; [by split|].
  match goal with |- (?r = 0 <-> _) /\ _ =>
    assert (exists e : errno, r = - e /\ e ∈ [EPERM; ENOTSUP; EINVAL; EFAULT]) as (e & -> & He)
  end.
  { repeat (case_test; [eexists; split; [done|set_solver]|]). eexists; split; [done|set_solver]. }
  rewrite !elem_of_cons, elem_of_nil in He.
  destruct He as [->|[->|[->|[->|[]]]]]; (split; [done|intros _; split; [done|by eexists]]).
Qed.

Section facts.
Context `{FW : Firmware} {FWOK : FirmwareOk FW}.

Lemma timer_set_ok f t : exists f', timer_set f t = Some f' /\ fw_deadline f' = t.
Proof.
  unfold timer_set, sbi_set_timer, sbi_ecall. destruct (fw_set_timer f t) as (v & E1 & E2).
  destruct (fw_ecall f SBI_EID_TIME 0 [t]) as [f' r]. simpl in *. subst r.
  by exists f'.
Qed.
End facts.

(** A firmware that only remembers the deadline. *)
Definition plain_fw : Firmware := {|
  fw := Z;
  fw_ecall := fun f eid fid args =>
    if (eid =? SBI_EID_TIME) && (fid =? 0)
    then (match args with [t] => t | _ => f end, (0, 0)) else (f, (SBI_ERR_NOT_SUPPORTED, 0));
|}.

Definition plain_fw_ok : FirmwareOk plain_fw.
Proof. refine {| fw_deadline := (fun f => f) : @fw plain_fw -> Z |}. by intros f t; exists 0. Defined.
