(* ===== verification/Timer.v ===== *)
(** * Timers: [src/timer.c], [include/timer.h] and [include/time.h]

    Timers wait in [wait_queue], ordered by deadline, and the firmware's timer is
    set to the first one.  The operations are shown to implement a stable
    priority queue whose first deadline is always the one the firmware has. *)

From Stdlib Require Import Sorted.
From S2P Require Import Prelude.
From S2P Require Import Mem.
From S2P Require Import DList.
From S2P Require Import Layout.
From S2P Require Import Sbi.

(** [timer_t]: node, time, callback, data. *)
Definition TIMER_SIZE : Z := 40.
Definition timer_time (m : mem) (t : Z) : Z := load 8 m (t + 16).
Definition timer_callback (m : mem) (t : Z) : Z := load 8 m (t + 24).
Definition timer_data (m : mem) (t : Z) : Z := load 8 m (t + 32).
Definition set_timer_time (m : mem) (t v : Z) : mem := store 8 m (t + 16) v.
Definition set_timer_callback (m : mem) (t v : Z) : mem := store 8 m (t + 24) v.
Definition set_timer_data (m : mem) (t v : Z) : mem := store 8 m (t + 32) v.

Definition NS_IN_SEC : Z := 1000000000.
Definition TIMER_FREQ : Z := 10000000.

Definition timer_init (m : mem) (timer : Z) : mem := list_init_head m timer.

Section code.
Context `{L : Layout} `{FW : Firmware}.

(** [if (list_is_front(&wait_queue, &timer->node)) timer_set(timer->time);] *)
Definition timer_set_front (m : mem) (f : fw) (timer : Z) : option (mem * fw) :=
  if list_is_front m sym_wait_queue timer
  then f ← timer_set f (timer_time m timer); Some (m, f)
  else Some (m, f).

(** [now] is what [time()] reads; [None] is a panic in [timer_set] (or a list
    without end). *)
Definition timer_wait (m : mem) (f : fw) (now timer ns callback data : Z) : option (mem * fw) :=
  let m := set_timer_time m timer (u64 (now + ns / (NS_IN_SEC / TIMER_FREQ))) in
  let m := set_timer_callback m timer callback in
  let m := set_timer_data m timer data in
  found ← list_for_each_entry m sym_wait_queue 0
    (fun entry => if timer_time m timer <? timer_time m entry then Some (Some entry) else None)
    (fun _ => None);
  match found with
  | Some entry => timer_set_front (list_insert m entry timer) f timer
  | None => timer_set_front (list_push_back m sym_wait_queue timer) f timer
  end.

(** The end of [timer_cancel] and [timer_isr]: the firmware gets the first
    deadline that is left. *)
Definition timer_set_next (m : mem) (f : fw) : option fw :=
  let wait_time :=
    if list_empty m sym_wait_queue then TIME_MAX
    else timer_time m (list_first_entry m sym_wait_queue 0) in
  timer_set f wait_time.

Definition timer_cancel (m : mem) (f : fw) (timer : Z) : option (mem * fw) :=
  if list_empty m timer then Some (m, f)
  else
    let m := list_remove_init m timer in
    f ← timer_set_next m f; Some (m, f).

(** The result also has the call that ends the handler:
    [timer->callback(timer->data)]. *)
Definition timer_isr (m : mem) (f : fw) : option (mem * fw * (Z * Z)) :=
  let timer := list_first_entry m sym_wait_queue 0 in
  let m := list_remove_init m timer in
  f ← timer_set_next m f;
  Some (m, f, (timer_callback m timer, timer_data m timer)).
End code.

(** ** The queue they implement *)

Record tmr := mkTmr { tm_addr : Z; tm_time : Z; tm_cb : Z; tm_data : Z }.

(** Behind all timers that are not later. *)
Fixpoint insert_tmr (x : tmr) (q : list tmr) : list tmr :=
  match q with
  | [] => [x]
  | y :: q' => if tm_time x <? tm_time y then x :: q else y :: insert_tmr x q'
  end.

Definition first_deadline (q : list tmr) : Z :=
  match q with [] => TIME_MAX | x :: _ => tm_time x end.

Definition tmr_le (x y : tmr) : Prop := tm_time x <= tm_time y.

(** The queue [q] and the timers that do not wait, [idle], in memory. *)
Definition fields_ok (m : mem) (x : tmr) : Prop :=
  timer_time m (tm_addr x) = tm_time x /\ timer_callback m (tm_addr x) = tm_cb x /\
  timer_data m (tm_addr x) = tm_data x.

Definition timer_rngs (ts : list Z) : list (Z * Z) := (fun t => (t, TIMER_SIZE)) <$> ts.

Record timers `{L : Layout} (m : mem) (q : list tmr) (idle : list Z) : Prop := {
  tq_list : dlist m sym_wait_queue (tm_addr <$> q);
  tq_idle t : t ∈ idle -> dlist m t [];
  tq_fields : Forall (fields_ok m) q;
  tq_sorted : StronglySorted tmr_le q;
  tq_seps : seps ((sym_wait_queue, NODE_SIZE) :: timer_rngs ((tm_addr <$> q) ++ idle));
  tq_addrs : Forall (addr_ok TIMER_SIZE) ((tm_addr <$> q) ++ idle) /\ addr_ok NODE_SIZE sym_wait_queue;
}.

(** ** Insertion *)

Lemma insert_tmr_perm x q : insert_tmr x q ≡ₚ x :: q.
Proof.
  induction q as [|y q IH]; simpl; [done|]. case_test; [done|].
  rewrite IH. apply Permutation_swap.
Qed.

Lemma insert_tmr_sorted x q : StronglySorted tmr_le q -> StronglySorted tmr_le (insert_tmr x q).
Proof.
  induction 1 as [|y q HS IH HF]; simpl; [repeat constructor|].
  case_test.
  - constructor; [by constructor|]. constructor; [unfold tmr_le; lia|].
    eapply Forall_impl; [exact HF|]. unfold tmr_le. simpl. lia.
  - constructor; [done|]. rewrite insert_tmr_perm. constructor; [|done]. unfold tmr_le. lia.
Qed.

(** Where [timer_wait] finds the place. *)
Lemma insert_tmr_split x q m :
  timer_time m (tm_addr x) = tm_time x -> Forall (fields_ok m) q ->
  exists l1 l2, q = l1 ++ l2 /\ insert_tmr x q = l1 ++ x :: l2 /\
    first_entry 0 (fun entry => if timer_time m (tm_addr x) <? timer_time m entry
                                then Some (Some entry) else None) None (tm_addr <$> q)
    = tm_addr <$> head l2.
Proof.
  intros -> HF. induction HF as [|y q (Hy & _) HF IH]; simpl; [by exists [], []|].
  rewrite Z.sub_0_r, Hy. destruct (tm_time x <? tm_time y); [by exists [], (y :: q)|].
  destruct IH as (l1 & l2 & -> & E & E2). exists (y :: l1), l2. rewrite E.
  split_and!; [done..|exact E2].
Qed.

(** ** Disjointness *)

Lemma timer_rngs_elem ts t : t ∈ ts -> (t, TIMER_SIZE) ∈ timer_rngs ts.
Proof. intros Ht. apply list_elem_of_fmap. eauto. Qed.

Lemma fields_unch F m m' x :
  fields_ok m x -> unch F m m' -> (forall a, inrng (tm_addr x + 16) 24 a -> ~ F a) -> fields_ok m' x.
Proof.
  intros (H1 & H2 & H3) HU HF. unfold fields_ok, timer_time, timer_callback, timer_data in *.
  rewrite <-H1, <-H2, <-H3. split_and!; (eapply load_unch; [exact HU|]); intros a Ha; apply HF; rng.
Qed.

Section proofs.
Context `{L : Layout}.

(** The nodes of a list of timers touch neither the fields of a timer nor a
    timer outside the list. *)
Lemma nodes_fields ts xs t a :
  seps ((sym_wait_queue, NODE_SIZE) :: timer_rngs ts) -> (forall x, x ∈ xs -> x ∈ ts) -> t ∈ ts ->
  in_nodes (sym_wait_queue :: xs) a ->
  ~ inrng (t + 16) 24 a /\ (t ∉ xs -> ~ inrng t TIMER_SIZE a).
Proof.
  intros [HH HS] Hsub Ht (x & [->|Hx]%elem_of_cons & Ha).
  - rewrite Forall_forall in HH. specialize (HH _ (timer_rngs_elem ts t Ht)).
    unfold TIMER_SIZE, NODE_SIZE in *. split; [|intros _]; rng.
  - destruct (decide (x = t)) as [->|Hne].
    + unfold NODE_SIZE in *. split; [rng|done].
    + destruct (seps_elem _ (x, TIMER_SIZE) (t, TIMER_SIZE) HS) as [E|E];
        eauto using timer_rngs_elem; [congruence|].
      unfold TIMER_SIZE, NODE_SIZE in *. split; [|intros _]; rng.
Qed.

Lemma timers_nodes_ok ts :
  seps ((sym_wait_queue, NODE_SIZE) :: timer_rngs ts) ->
  Forall (addr_ok TIMER_SIZE) ts -> addr_ok NODE_SIZE sym_wait_queue ->
  nodes_ok (sym_wait_queue :: ts).
Proof.
  intros HS HF Hh. split.
  - eapply seps_mono; [|exact HS]. constructor; [unfold subrng; simpl; lia|].
    unfold node_rngs, timer_rngs. clear. induction ts; constructor; auto.
    unfold subrng, NODE_SIZE, TIMER_SIZE. simpl. lia.
  - constructor; [done|]. eapply Forall_impl; [exact HF|].
    unfold addr_ok, NODE_SIZE, TIMER_SIZE. lia.
Qed.

(** Writes to the timers' own region, away from the fields of [q] and the timers
    [idle], keep both. *)
Lemma idle_unch F m m' (idle : list Z) :
  (forall t, t ∈ idle -> dlist m t []) -> unch F m m' ->
  (forall t a, t ∈ idle -> inrng t TIMER_SIZE a -> ~ F a) ->
  forall t, t ∈ idle -> dlist m' t [].
Proof.
  intros HI HU HF t Ht. eapply dlist_unch; [by apply HI|exact HU|].
  intros x a ->%list_elem_of_singleton Ha. apply (HF t); [done|].
  unfold NODE_SIZE, TIMER_SIZE in *. rng.
Qed.

(** The fields that [timer_wait] writes. *)
Lemma set_fields m t time cb data :
  addr_ok TIMER_SIZE t -> 0 <= time < 2 ^ 64 -> 0 <= cb < 2 ^ 64 -> 0 <= data < 2 ^ 64 ->
  let m' := set_timer_data (set_timer_callback (set_timer_time m t time) t cb) t data in
  fields_ok m' (mkTmr t time cb data) /\ unch (inrng (t + 16) 24) m m'.
Proof.
  intros Ha Ht Hc Hd m'. split.
  - unfold fields_ok, m', timer_time, timer_callback, timer_data, set_timer_data,
      set_timer_callback, set_timer_time. simpl.
    rewrite !(load_store_ne 8 8 _ (t + 16) (t + 32)), !(load_store_ne 8 8 _ (t + 16) (t + 24)),
      (load_store_ne 8 8 _ (t + 24) (t + 32)) by (unfold disj; lia).
    rewrite !load8_store8, !u64_small by done. done.
  - unfold m', set_timer_data, set_timer_callback, set_timer_time.
    etrans; [|etrans]; (eapply unch_mono; [|apply (store_unch 8)]); rng.
Qed.

(** A timer is put between [l1] and [l2]. *)
Lemma link_timer m l1 l2 x idle :
  dlist m sym_wait_queue (tm_addr <$> l1 ++ l2) ->
  (forall t, t ∈ idle -> dlist m t []) ->
  Forall (fields_ok m) (x :: l1 ++ l2) ->
  StronglySorted tmr_le (l1 ++ x :: l2) ->
  seps ((sym_wait_queue, NODE_SIZE) :: timer_rngs (tm_addr x :: (tm_addr <$> l1 ++ l2) ++ idle)) ->
  Forall (addr_ok TIMER_SIZE) (tm_addr x :: (tm_addr <$> l1 ++ l2) ++ idle) ->
  addr_ok NODE_SIZE sym_wait_queue ->
  let m' := list_insert m (hd sym_wait_queue (tm_addr <$> l2)) (tm_addr x) in
  timers m' (l1 ++ x :: l2) idle /\
  unch (in_nodes (tm_addr x :: sym_wait_queue :: (tm_addr <$> l1 ++ l2))) m m'.
Proof.
  intros HD HI HF HSort HS HA Hh m'.
  pose proof (timers_nodes_ok _ HS HA Hh) as HN. rewrite fmap_app in HD, HN, HS, HA |- *.
  assert (nodes_ok (tm_addr x :: sym_wait_queue :: (tm_addr <$> l1) ++ (tm_addr <$> l2))) as HN'.
  { eapply nodes_ok_Proper; [apply Permutation_swap|]. change (sym_wait_queue :: ?y :: ?l)
      with ([sym_wait_queue] ++ y :: l) in HN |- *. rewrite app_comm_cons in HN.
    rewrite app_assoc in HN. destruct HN as [HN1 HN2].
    split; [|by apply Forall_app in HN2 as [? _]]. unfold node_rngs in *. rewrite fmap_app in HN1.
    by apply seps_app in HN1 as [? _]. }
  destruct (list_insert_dlist m sym_wait_queue (tm_addr <$> l1) (tm_addr <$> l2) (tm_addr x) HD HN')
    as [HD' HU]. fold m' in HD', HU. split; [|done].
  assert (forall t a, t ∈ tm_addr x :: ((tm_addr <$> l1) ++ (tm_addr <$> l2)) ++ idle ->
    in_nodes (tm_addr x :: sym_wait_queue :: (tm_addr <$> l1) ++ (tm_addr <$> l2)) a ->
    ~ inrng (t + 16) 24 a /\
    (t ∉ tm_addr x :: (tm_addr <$> l1) ++ (tm_addr <$> l2) -> ~ inrng t TIMER_SIZE a)) as HX.
  { intros t a Ht (y & Hy & Ha). eapply nodes_fields; [exact HS| |done|].
    - intros z Hz. apply elem_of_cons in Hz as [->|Hz]; [left|right]. apply elem_of_app. by left.
    - exists y. split; [|done]. set_solver. }
  assert (l1 ++ x :: l2 ≡ₚ x :: l1 ++ l2) as HPm by (symmetry; apply Permutation_middle).
  assert (tm_addr <$> l1 ++ x :: l2 ≡ₚ tm_addr x :: (tm_addr <$> l1) ++ (tm_addr <$> l2)) as HPa.
  { rewrite HPm. simpl. by rewrite fmap_app. }
  split.
  - rewrite fmap_app. exact HD'.
  - eapply idle_unch; [exact HI|exact HU|]. intros t a Ht Ha Hn.
    apply (HX t a) in Hn as [_ Hn]; [|set_solver]. apply Hn; [|done].
    destruct HS as [_ HS]. rewrite app_comm_cons in HS. unfold timer_rngs in HS.
    rewrite fmap_app in HS. apply seps_app in HS as (_ & _ & HS). intros Hin.
    specialize (HS _ _ (timer_rngs_elem _ _ Hin) (timer_rngs_elem _ _ Ht)).
    unfold TIMER_SIZE, disj in HS. simpl in HS. lia.
  - rewrite HPm. rewrite Forall_forall in HF |- *. intros y Hy. eapply fields_unch; [by apply HF|exact HU|].
    intros a Ha Hn. apply (HX (tm_addr y) a) in Hn as [Hn _]; [done|].
    apply elem_of_cons in Hy as [->|Hy]; [left|right]. apply elem_of_app. left.
    rewrite <-fmap_app. by apply list_elem_of_fmap_2.
  - done.
  - unfold timer_rngs. rewrite HPa. exact HS.
  - split; [|done]. by rewrite HPa.
Qed.

Lemma sorted_middle l1 x l2 : StronglySorted tmr_le (l1 ++ x :: l2) -> StronglySorted tmr_le (l1 ++ l2).
Proof.
  induction l1 as [|y l1 IH]; simpl; intros HS; inversion_clear HS as [|? ? HS' HF]; [done|].
  constructor; [by apply IH|]. rewrite <-Permutation_middle in HF. by inversion_clear HF.
Qed.

(** A timer is taken out and made idle. *)
Lemma unlink_timer m l1 x l2 idle :
  timers m (l1 ++ x :: l2) idle ->
  let m' := list_remove_init m (tm_addr x) in
  timers m' (l1 ++ l2) (tm_addr x :: idle) /\ fields_ok m' x /\
  unch (in_nodes (tm_addr x :: sym_wait_queue :: (tm_addr <$> l1 ++ l2))) m m'.
Proof.
  intros [HD HI HF HSort HS [HA Hh]] m'. rewrite fmap_app in HD. rewrite fmap_app. simpl in HD.
  destruct (list_remove_init_dlist m sym_wait_queue _ _ _ HD) as (HD' & HX & HU). fold m' in HD', HX, HU.
  assert ((tm_addr <$> l1 ++ x :: l2) ++ idle ≡ₚ
          tm_addr x :: ((tm_addr <$> l1) ++ (tm_addr <$> l2)) ++ idle) as HP.
  { rewrite fmap_app. simpl. by rewrite <-Permutation_middle. }
  rewrite HP in HA. unfold timer_rngs in HS. rewrite HP in HS.
  assert (forall t a, t ∈ tm_addr x :: ((tm_addr <$> l1) ++ (tm_addr <$> l2)) ++ idle ->
    in_nodes (tm_addr x :: sym_wait_queue :: (tm_addr <$> l1) ++ (tm_addr <$> l2)) a ->
    ~ inrng (t + 16) 24 a /\
    (t ∉ tm_addr x :: (tm_addr <$> l1) ++ (tm_addr <$> l2) -> ~ inrng t TIMER_SIZE a)) as HXn.
  { intros t a Ht (y & Hy & Ha). eapply nodes_fields; [exact HS| |done|].
    - intros z Hz. apply elem_of_cons in Hz as [->|Hz]; [left|right]. apply elem_of_app. by left.
    - exists y. split; [|done]. set_solver. }
  assert (Forall (fields_ok m') (x :: l1 ++ l2)) as HF'.
  { rewrite <-Permutation_middle in HF. rewrite Forall_forall in HF |- *. intros y Hy.
    eapply fields_unch; [by apply HF|exact HU|].
    intros a Ha Hn. apply (HXn (tm_addr y) a) in Hn as [Hn _]; [done|].
    apply elem_of_cons in Hy as [->|Hy]; [left|right]. apply elem_of_app. left.
    rewrite <-fmap_app. by apply list_elem_of_fmap_2. }
  inversion_clear HF' as [|? ? Hx Hq]. split_and!; [split|done|done].
  - by rewrite fmap_app.
  - intros t [->|Ht]%elem_of_cons; [done|]. revert t Ht. eapply idle_unch; [exact HI|exact HU|].
    intros t a Ht Ha Hn.
    apply (HXn t a) in Hn as [_ Hn]; [|set_solver]. apply Hn; [|done].
    destruct HS as [_ HS]. rewrite app_comm_cons, fmap_app in HS.
    apply seps_app in HS as (_ & _ & HS). intros Hin.
    specialize (HS _ _ (timer_rngs_elem _ _ Hin) (timer_rngs_elem _ _ Ht)).
    unfold TIMER_SIZE, disj in HS. simpl in HS. lia.
  - done.
  - by eapply sorted_middle.
  - unfold timer_rngs. rewrite <-Permutation_middle, (fmap_app tm_addr). exact HS.
  - split; [|done]. by rewrite <-Permutation_middle, (fmap_app tm_addr).
Qed.

Context `{FW : Firmware} {FWOK : FirmwareOk FW}.

(** The queue, the idle timers and the firmware: what holds between operations. *)
Definition timers_armed (m : mem) (f : fw) (q : list tmr) (idle : list Z) : Prop :=
  timers m q idle /\ fw_deadline f = first_deadline q.

(** The bytes of the timers and of the head of the queue. *)
Definition timers_foot (ts : list Z) (a : Z) : Prop :=
  inrng sym_wait_queue NODE_SIZE a \/ exists t, t ∈ ts /\ inrng t TIMER_SIZE a.

Lemma nodes_foot ts xs a :
  (forall x, x ∈ xs -> x = sym_wait_queue \/ x ∈ ts) -> in_nodes xs a -> timers_foot ts a.
Proof.
  intros Hs (x & Hx & Ha). destruct (Hs x Hx) as [->|Ht]; [by left|right].
  exists x. split; [done|]. unfold NODE_SIZE, TIMER_SIZE in *. rng.
Qed.

(** The head of a queue tells whether a timer is first. *)
Lemma timers_front m q idle l1 x l2 :
  timers m q idle -> q = l1 ++ x :: l2 ->
  list_is_front m sym_wait_queue (tm_addr x) = bool_decide (l1 = []).
Proof.
  intros [HD _ _ _ _ _] ->. unfold list_is_front. fold (list_front m sym_wait_queue).
  rewrite (list_front_spec _ _ _ HD). destruct l1 as [|y l1]; simpl; [by rewrite Z.eqb_refl|].
  apply Z.eqb_neq. intros E. pose proof (nodes_ok_NoDup _ (dlist_nodes_ok _ _ _ HD)) as HN.
  apply NoDup_cons in HN as [_ HN]. simpl in HN. apply NoDup_cons in HN as [HN _].
  apply HN. rewrite E, fmap_app. set_solver.
Qed.

(** After an insertion the firmware has the first deadline. *)
Lemma timer_set_front_spec m f q idle l1 x l2 :
  timers m q idle -> q = l1 ++ x :: l2 -> fw_deadline f = first_deadline (l1 ++ l2) ->
  exists f', timer_set_front m f (tm_addr x) = Some (m, f') /\ fw_deadline f' = first_deadline q.
Proof.
  intros HT -> Hf. unfold timer_set_front. rewrite (timers_front _ _ _ _ _ _ HT eq_refl).
  destruct l1 as [|y l1]; simpl; [|by exists f].
  pose proof (tq_fields _ _ _ HT) as HF. apply Forall_cons in HF as [(-> & _) _].
  destruct (timer_set_ok f (tm_time x)) as (f' & -> & Hd). simpl. by exists f'.
Qed.

Lemma timer_wait_spec m f q idle idle' now t ns cb data :
  timers_armed m f q idle -> idle ≡ₚ t :: idle' ->
  0 <= cb < 2 ^ 64 -> 0 <= data < 2 ^ 64 ->
  let x := mkTmr t (u64 (now + ns / (NS_IN_SEC / TIMER_FREQ))) cb data in
  exists m' f', timer_wait m f now t ns cb data = Some (m', f') /\
    timers_armed m' f' (insert_tmr x q) idle' /\
    unch (timers_foot (t :: (tm_addr <$> q))) m m'.
Proof.
  intros [[HD HI HF HSort HS [HA Hh]] Hf] HP Hc Hd x.
  unfold timer_rngs in HS. rewrite HP, <-Permutation_middle in HS, HA.
  assert (addr_ok TIMER_SIZE t) as Ht by by inversion HA.
  destruct (set_fields m t (tm_time x) cb data Ht (u64_range _) Hc Hd) as [Hx HU1].
  unfold timer_wait. cbv zeta. fold (tm_time x).
  set (m1 := set_timer_data _ t data) in *.
  assert (forall u a, u ∈ (tm_addr <$> q) ++ idle' -> inrng (t + 16) 24 a -> ~ inrng u TIMER_SIZE a) as HX1.
  { intros u a Hu Ha. destruct HS as [_ [HS _]]. rewrite Forall_forall in HS.
    specialize (HS _ (timer_rngs_elem _ _ Hu)). unfold TIMER_SIZE in *. rng. }
  assert (dlist m1 sym_wait_queue (tm_addr <$> q)) as HD1.
  { eapply dlist_unch; [exact HD|exact HU1|]. intros y a [->|Hy]%elem_of_cons Ha Hr.
    - destruct HS as [HS _]. inversion_clear HS as [|? ? HS' _]. unfold NODE_SIZE, TIMER_SIZE in *. rng.
    - apply (HX1 y a); [set_solver|done|]. unfold NODE_SIZE, TIMER_SIZE in *. rng. }
  assert (Forall (fields_ok m1) q) as HF1.
  { rewrite Forall_forall in HF |- *. intros y Hy. eapply fields_unch; [by apply HF|exact HU1|].
    intros a Ha Hr. apply (HX1 (tm_addr y) a); [|done|unfold TIMER_SIZE in *; rng].
    apply elem_of_app. left. by apply list_elem_of_fmap_2. }
  assert (forall u, u ∈ idle' -> dlist m1 u []) as HI1.
  { eapply (idle_unch _ m); [|exact HU1|].
    - intros u Hu. apply HI. rewrite HP. by right.
    - intros u a Hu Ha Hr. apply (HX1 u a); [set_solver|done|done]. }
  destruct (insert_tmr_split x q m1) as (l1 & l2 & -> & E & Efind); [apply Hx|done|].
  rewrite (list_for_each_entry_spec _ _ _ _ _ _ HD1). cbv beta. change (tm_addr x) with t in Efind.
  rewrite Efind, E. cbn [mbind option_bind].
  destruct (link_timer m1 l1 l2 x idle') as [HT HU2]; try done.
  { by constructor. } { rewrite <-E. by apply insert_tmr_sorted. }
  set (m2 := list_insert m1 _ _) in HT, HU2.
  destruct (timer_set_front_spec m2 f (l1 ++ x :: l2) idle' l1 x l2 HT eq_refl Hf) as (f' & Ef & Hf').
  exists m2, f'. split_and!; [|done|].
  - destruct l2 as [|y l2]; exact Ef.
  - etrans; (eapply unch_mono; [|first [exact HU1|exact HU2]]).
    + intros a Ha. right. exists t. split; [left|]. unfold TIMER_SIZE, inrng in *. lia.
    + intros a. apply nodes_foot. intros y Hy.
      apply elem_of_cons in Hy as [->|[->|Hy]%elem_of_cons]; [right; left|by left|right; by right].
Qed.

Lemma timer_set_next_spec m f q idle :
  timers m q idle -> exists f', timer_set_next m f = Some f' /\ fw_deadline f' = first_deadline q.
Proof.
  intros HT. pose proof (tq_list _ _ _ HT) as HD. unfold timer_set_next, list_first_entry, list_entry.
  rewrite (list_empty_spec _ _ _ HD), (list_front_spec _ _ _ HD). destruct q as [|x q]; simpl.
  - apply timer_set_ok.
  - rewrite Z.sub_0_r. pose proof (tq_fields _ _ _ HT) as HF.
    apply Forall_cons in HF as [(-> & _) _]. apply timer_set_ok.
Qed.

Lemma timer_cancel_idle m f q idle t :
  timers_armed m f q idle -> t ∈ idle -> timer_cancel m f t = Some (m, f).
Proof.
  intros [HT _] Ht. unfold timer_cancel.
  by rewrite (list_empty_spec _ _ _ (tq_idle _ _ _ HT t Ht)).
Qed.

(** A waiting timer's node is not empty. *)
Lemma waiting_not_empty m q idle l1 x l2 :
  timers m q idle -> q = l1 ++ x :: l2 -> list_empty m (tm_addr x) = false.
Proof.
  intros HT ->. pose proof (tq_list _ _ _ HT) as HD. rewrite fmap_app in HD. simpl in HD.
  pose proof (nodes_ok_NoDup _ (dlist_nodes_ok _ _ _ HD)) as HN.
  unfold list_empty, list_front. rewrite (dlist_next _ _ _ _ _ HD). apply Z.eqb_neq. intros E.
  change (sym_wait_queue :: ?l ++ ?r) with ((sym_wait_queue :: l) ++ r) in HN.
  apply NoDup_app in HN as (_ & HN1 & HN2).
  destruct l2 as [|y l2]; simpl in *.
  - apply (HN1 (tm_addr x)); [rewrite E; left|left].
  - apply NoDup_cons in HN2 as [HN2 _]. apply HN2. rewrite E. left.
Qed.

Lemma timer_cancel_spec m f l1 x l2 idle :
  timers_armed m f (l1 ++ x :: l2) idle ->
  exists m' f', timer_cancel m f (tm_addr x) = Some (m', f') /\
    timers_armed m' f' (l1 ++ l2) (tm_addr x :: idle) /\
    unch (timers_foot (tm_addr <$> l1 ++ x :: l2)) m m'.
Proof.
  intros [HT _]. unfold timer_cancel. rewrite (waiting_not_empty _ _ _ _ _ _ HT eq_refl).
  destruct (unlink_timer _ _ _ _ _ HT) as (HT' & _ & HU).
  destruct (timer_set_next_spec _ f _ _ HT') as (f' & -> & Hf'). simpl.
  eexists _, f'. split_and!; [done|by split|]. eapply unch_mono; [|exact HU].
  intros a. apply nodes_foot. intros y Hy.
  rewrite fmap_app in *. simpl. set_solver.
Qed.

Lemma timer_isr_spec m f x q idle :
  timers_armed m f (x :: q) idle ->
  exists m' f', timer_isr m f = Some (m', f', (tm_cb x, tm_data x)) /\
    timers_armed m' f' q (tm_addr x :: idle) /\
    unch (timers_foot (tm_addr <$> x :: q)) m m'.
Proof.
  intros [HT _]. unfold timer_isr, list_first_entry, list_entry.
  rewrite (list_front_spec _ _ _ (tq_list _ _ _ HT)). simpl hd. rewrite Z.sub_0_r.
  destruct (unlink_timer m [] x q idle HT) as (HT' & (_ & -> & ->) & HU).
  destruct (timer_set_next_spec _ f _ _ HT') as (f' & -> & Hf'). simpl.
  eexists _, f'. split_and!; [done|by split|]. eapply unch_mono; [|exact HU].
  intros a. apply nodes_foot. intros y Hy. simpl in *. set_solver.
Qed.

(** A new timer: [timer_init] makes it idle and touches no other. *)
Lemma timer_init_spec m q idle t :
  timers m q idle -> addr_ok TIMER_SIZE t ->
  seps ((sym_wait_queue, NODE_SIZE) :: timer_rngs (t :: (tm_addr <$> q) ++ idle)) ->
  timers (timer_init m t) q (t :: idle) /\ unch (inrng t NODE_SIZE) m (timer_init m t).
Proof.
  intros [HD HI HF HSort HS [HA Hh]] Ht HS'.
  destruct (list_init_head_dlist m t) as [HD' HU].
  { unfold addr_ok, TIMER_SIZE, NODE_SIZE in *. lia. }
  change (list_init_head m t) with (timer_init m t) in HD', HU. split; [|done].
  pose proof HS' as [HS1 [HS2 _]]. rewrite Forall_forall in HS1, HS2.
  assert (forall u a, u ∈ (tm_addr <$> q) ++ idle -> inrng u TIMER_SIZE a -> ~ inrng t NODE_SIZE a) as HX.
  { intros u a Hu Ha Hb. specialize (HS2 _ (timer_rngs_elem _ _ Hu)).
    unfold TIMER_SIZE, NODE_SIZE in *. rng. }
  split.
  - eapply dlist_unch; [exact HD|exact HU|]. intros y a [->|Hy]%elem_of_cons Ha Hb.
    + specialize (HS1 _ (timer_rngs_elem (t :: _) t ltac:(left))).
      unfold TIMER_SIZE, NODE_SIZE in *. rng.
    + apply (HX y a); [set_solver| |done]. unfold TIMER_SIZE, NODE_SIZE in *. rng.
  - intros u [->|Hu]%elem_of_cons; [done|]. revert u Hu. eapply idle_unch; [exact HI|exact HU|].
    intros u a Hu. apply HX. set_solver.
  - rewrite Forall_forall in HF |- *. intros x Hx. eapply fields_unch; [by apply HF|exact HU|].
    intros a Ha. apply (HX (tm_addr x)); [|unfold TIMER_SIZE; rng].
    apply elem_of_app. left. by apply list_elem_of_fmap_2.
  - done.
  - unfold timer_rngs. by rewrite <-Permutation_middle.
  - split; [|done]. rewrite <-Permutation_middle. by constructor.
Qed.

(** An idle timer's memory may be put to another use. *)
Lemma timers_drop m q idle t idle' :
  timers m q idle -> idle ≡ₚ t :: idle' -> timers m q idle'.
Proof.
  intros [HD HI HF HSort HS [HA Hh]] HP. unfold timer_rngs in HS.
  rewrite HP, <-Permutation_middle in HS, HA. split; [done| |done|done| |].
  - intros u Hu. apply HI. rewrite HP. by right.
  - destruct HS as [HS1 [_ HS2]]. split; [|exact HS2]. by inversion HS1.
  - split; [|done]. by inversion HA.
Qed.

(** ** The order of the queue

    [p] lists the waiting timers in the order in which they arrived.  The queue
    [q] holds the same timers by deadline, and those with the same deadline in
    the order of their arrival. *)
Record ordered (q p : list tmr) : Prop := {
  or_perm : q ≡ₚ p;
  or_sorted : StronglySorted tmr_le q;
  or_stable d : filter (fun x => tm_time x = d) q = filter (fun x => tm_time x = d) p;
}.

(** [x] is the timer that the next interrupt should take: the first to arrive
    among those with the earliest deadline. *)
Definition earliest (p k1 : list tmr) (x : tmr) (k2 : list tmr) : Prop :=
  p = k1 ++ x :: k2 /\ (forall y, y ∈ k1 -> tm_time x < tm_time y) /\
  (forall y, y ∈ k2 -> tm_time x <= tm_time y).

Lemma filter_none (P : tmr -> Prop) `{!forall x, Decision (P x)} l :
  (forall x, x ∈ l -> ~ P x) -> filter P l = [].
Proof.
  induction l as [|x l IH]; intros HP; [done|].
  rewrite filter_cons_False by (apply HP; left). apply IH. intros y Hy. apply HP. by right.
Qed.

Lemma filter_insert_tmr d x q :
  StronglySorted tmr_le q ->
  filter (fun x => tm_time x = d) (insert_tmr x q) =
  filter (fun x => tm_time x = d) (q ++ [x]).
Proof.
  induction 1 as [|y q HS IH HF]; [done|]. simpl. case_test.
  - change (y :: q ++ [x]) with ((y :: q) ++ [x]). rewrite filter_app.
    destruct (decide (tm_time x = d)) as [E1|E1].
    + rewrite !(filter_cons_True _ x) by done.
      assert (filter (fun x => tm_time x = d) (y :: q) = []) as ->; [|done].
      apply filter_none. intros z Hz. apply elem_of_cons in Hz as [->|Hz]; [lia|].
      rewrite Forall_forall in HF. specialize (HF z Hz). unfold tmr_le in HF. lia.
    + rewrite !(filter_cons_False _ x) by done. by rewrite app_nil_r.
  - rewrite !filter_cons, IH. done.
Qed.

Lemma ordered_insert x q p : ordered q p -> ordered (insert_tmr x q) (p ++ [x]).
Proof.
  intros [HP HS HF]. split.
  - rewrite insert_tmr_perm, HP. apply Permutation_cons_append.
  - by apply insert_tmr_sorted.
  - intros d. by rewrite filter_insert_tmr, !filter_app, HF.
Qed.

Lemma NoDup_split_eq (A B C D : list tmr) x :
  A ++ x :: B = C ++ x :: D -> NoDup (A ++ x :: B) -> A = C /\ B = D.
Proof.
  revert C. induction A as [|a A IH]; intros [|c C]; simpl; intros E HN.
  - by injection E.
  - injection E as <- ->. apply NoDup_cons in HN as [HN _]. set_solver.
  - injection E as -> <-. apply NoDup_cons in HN as [HN _]. set_solver.
  - injection E as <- E. apply NoDup_cons in HN as [_ HN]. by destruct (IH C E HN) as [-> ->].
Qed.

Lemma ordered_remove l1 x l2 k1 k2 :
  NoDup (l1 ++ x :: l2) -> ordered (l1 ++ x :: l2) (k1 ++ x :: k2) -> ordered (l1 ++ l2) (k1 ++ k2).
Proof.
  intros HN [HP HS HF]. split.
  - by apply Permutation_app_inv in HP.
  - by eapply sorted_middle.
  - intros d. specialize (HF d). rewrite !filter_app, !filter_cons in HF. rewrite !filter_app.
    destruct (decide (tm_time x = d)) as [E|E]; [|done].
    apply NoDup_split_eq in HF as [-> ->]; [done|].
    assert (NoDup (filter (fun x => tm_time x = d) (l1 ++ x :: l2))) as HN' by by apply NoDup_filter.
    by rewrite filter_app, filter_cons_True in HN'.
Qed.

Lemma sorted_first q y : StronglySorted tmr_le q -> y ∈ q -> first_deadline q <= tm_time y.
Proof.
  intros HS Hy. destruct q as [|x q]; [by apply not_elem_of_nil in Hy|]. simpl.
  inversion_clear HS as [|? ? _ HF]. rewrite Forall_forall in HF.
  apply elem_of_cons in Hy as [->|Hy]; [lia|by apply HF].
Qed.

(** The first of the elements a filter keeps. *)
Lemma filter_first (P : tmr -> Prop) `{!forall x, Decision (P x)} p x r :
  filter P p = x :: r -> exists k1 k2, p = k1 ++ x :: k2 /\ Forall (fun y => ~ P y) k1.
Proof.
  induction p as [|y p IH]; [done|]. rewrite filter_cons. case_decide as HP; intros E.
  - injection E as -> _. by exists [], p.
  - destruct (IH E) as (k1 & k2 & -> & HF). exists (y :: k1), k2. split; [done|]. by constructor.
Qed.

Lemma ordered_earliest x q p : ordered (x :: q) p -> exists k1 k2, earliest p k1 x k2.
Proof.
  intros [HP HS HF]. specialize (HF (tm_time x)). rewrite filter_cons_True in HF by done.
  symmetry in HF. apply filter_first in HF as (k1 & k2 & -> & Hk).
  assert (forall y, y ∈ k1 ++ x :: k2 -> tm_time x <= tm_time y) as Hle.
  { intros y Hy. rewrite <-HP in Hy. by apply (sorted_first _ _ HS). }
  exists k1, k2. split_and!; [done| |].
  - intros y Hy. rewrite Forall_forall in Hk. specialize (Hk y Hy). specialize (Hle y ltac:(set_solver)). lia.
  - intros y Hy. apply Hle. set_solver.
Qed.

(** It is the head of the queue. *)
Lemma earliest_head q p k1 x k2 : ordered q p -> earliest p k1 x k2 -> exists q', q = x :: q'.
Proof.
  intros HO (-> & H1 & H2). destruct q as [|z q].
  { destruct HO as [HP _ _]. apply Permutation_nil_l in HP. by destruct k1. }
  destruct (ordered_earliest _ _ _ HO) as (j1 & j2 & E & J1 & J2).
  assert (tm_time x = tm_time z) as Ht.
  { assert (z ∈ k1 ++ x :: k2) as Hz by (rewrite E; set_solver).
    assert (x ∈ j1 ++ z :: j2) as Hx by (rewrite <-E; set_solver).
    assert (tm_time x <= tm_time z).
    { apply elem_of_app in Hz as [Hz|[->|Hz]%elem_of_cons]; [specialize (H1 _ Hz); lia|lia|by apply H2]. }
    assert (tm_time z <= tm_time x).
    { apply elem_of_app in Hx as [Hx|[->|Hx]%elem_of_cons]; [specialize (J1 _ Hx); lia|lia|by apply J2]. }
    lia. }
  assert (forall k k' y, (forall w, w ∈ k -> tm_time y < tm_time w) -> tm_time y = tm_time z ->
    filter (fun x => tm_time x = tm_time z) (k ++ y :: k') =
    y :: filter (fun x => tm_time x = tm_time z) k') as Hf.
  { intros k k' y Hk Hy. rewrite filter_app, filter_cons_True by done.
    rewrite (filter_none _ k); [done|]. intros w Hw. specialize (Hk w Hw). lia. }
  pose proof (Hf k1 k2 x H1 Ht) as F1. pose proof (Hf j1 j2 z J1 eq_refl) as F2.
  rewrite E, F2 in F1. injection F1 as -> _. by exists q.
Qed.

(** ** Runs

    The timers' clients: they initialise new timers and give up idle ones, start
    idle timers, cancel any timer, and the timer interrupt is taken while a timer
    waits; in between the rest of the kernel runs, which does not touch the
    timers.  The state has the waiting timers in the order of arrival and the
    idle ones. *)
Inductive timer_step : mem * fw * (list tmr * list Z) -> mem * fw * (list tmr * list Z) -> Prop :=
| ts_init m f p idle t :
    addr_ok TIMER_SIZE t ->
    seps ((sym_wait_queue, NODE_SIZE) :: timer_rngs (t :: (tm_addr <$> p) ++ idle)) ->
    timer_step (m, f, (p, idle)) (timer_init m t, f, (p, t :: idle))
| ts_drop m f p idle t idle' :
    idle ≡ₚ t :: idle' -> timer_step (m, f, (p, idle)) (m, f, (p, idle'))
| ts_wait m f p idle idle' t now ns cb data m' f' :
    idle ≡ₚ t :: idle' -> 0 <= cb < 2 ^ 64 -> 0 <= data < 2 ^ 64 ->
    timer_wait m f now t ns cb data = Some (m', f') ->
    timer_step (m, f, (p, idle)) (m', f', (p ++ [mkTmr t (u64 (now + ns / 100)) cb data], idle'))
| ts_cancel m f k1 x k2 idle m' f' :
    timer_cancel m f (tm_addr x) = Some (m', f') ->
    timer_step (m, f, (k1 ++ x :: k2, idle)) (m', f', (k1 ++ k2, tm_addr x :: idle))
| ts_cancel_idle m f p idle t m' f' :
    t ∈ idle -> timer_cancel m f t = Some (m', f') ->
    timer_step (m, f, (p, idle)) (m', f', (p, idle))
| ts_isr m f p k1 x k2 idle m' f' call :
    earliest p k1 x k2 -> timer_isr m f = Some (m', f', call) ->
    timer_step (m, f, (p, idle)) (m', f', (k1 ++ k2, tm_addr x :: idle))
| ts_other m f p idle m' :
    unch (fun a => ~ timers_foot ((tm_addr <$> p) ++ idle) a) m m' ->
    timer_step (m, f, (p, idle)) (m', f, (p, idle)).

Definition timer_inv (s : mem * fw * (list tmr * list Z)) : Prop :=
  exists q, timers_armed s.1.1 s.1.2 q s.2.2 /\ ordered q s.2.1.

Lemma timers_unch F m m' q idle :
  timers m q idle -> unch F m m' ->
  (forall a, timers_foot ((tm_addr <$> q) ++ idle) a -> ~ F a) -> timers m' q idle.
Proof.
  intros [HD HI HF HSort HS HA] HU HX. split; [| | |done|done|done].
  - eapply dlist_unch; [exact HD|exact HU|]. intros x a Hx Ha. apply HX.
    eapply (nodes_foot _ [x]); [|by exists x; split; [left|]]. set_solver.
  - eapply idle_unch; [exact HI|exact HU|]. intros t a Ht Ha. apply HX. right. exists t. set_solver.
  - rewrite Forall_forall in HF |- *. intros x Hx. eapply fields_unch; [by apply HF|exact HU|].
    intros a Ha. apply HX. right. exists (tm_addr x). split; [|unfold TIMER_SIZE; rng].
    apply elem_of_app. left. by apply list_elem_of_fmap_2.
Qed.

Lemma timers_queue_NoDup m q idle : timers m q idle -> NoDup q.
Proof.
  intros HT. apply (NoDup_fmap_1 tm_addr).
  pose proof (nodes_ok_NoDup _ (dlist_nodes_ok _ _ _ (tq_list _ _ _ HT))) as HN.
  by apply NoDup_cons in HN as [_ HN].
Qed.

(** The interrupt takes the earliest timer. *)
Lemma timer_isr_earliest m f q p k1 x k2 idle :
  timers_armed m f q idle -> ordered q p -> earliest p k1 x k2 ->
  exists q' m' f', timer_isr m f = Some (m', f', (tm_cb x, tm_data x)) /\
    timers_armed m' f' q' (tm_addr x :: idle) /\ ordered q' (k1 ++ k2).
Proof.
  intros HI HO He. destruct (earliest_head _ _ _ _ _ HO He) as [q' ->].
  destruct (timer_isr_spec _ _ _ _ _ HI) as (m' & f' & E & HI' & _).
  exists q', m', f'. split_and!; [done..|]. destruct He as (-> & _).
  apply (ordered_remove [] x q' k1 k2); [|done]. by eapply timers_queue_NoDup, HI.
Qed.

Lemma timer_step_inv s s' : timer_step s s' -> timer_inv s -> timer_inv s'.
Proof.
  intros Hs. unfold timer_inv.
  destruct Hs as [m f p idle t Ht HS|m f p idle t idle' HP|
    m f p idle idle' t now ns cb data m' f' HP Hc Hd Ew|m f k1 x k2 idle m' f' Ec|
    m f p idle t m' f' Ht Ec|m f p k1 x k2 idle m' f' call He Ei|m f p idle m' HU];
    simpl; intros (q & HI & HO).
  - exists q. split; [|done]. destruct HI as [HT Hf]. split; [|done].
    apply timer_init_spec; [done..|]. unfold timer_rngs. by rewrite (or_perm _ _ HO).
  - exists q. split; [|done]. destruct HI as [HT Hf]. split; [|done]. by eapply timers_drop.
  - destruct (timer_wait_spec m f q idle idle' now t ns cb data HI HP Hc Hd)
      as (m2 & f2 & E & H3 & _). simplify_eq. eexists. split; [exact H3|].
    by apply ordered_insert.
  - assert (x ∈ q) as (l1 & l2 & ->)%list_elem_of_split by (rewrite (or_perm _ _ HO); set_solver).
    destruct (timer_cancel_spec _ _ _ _ _ _ HI) as (m2 & f2 & E & H3 & _). simplify_eq.
    eexists. split; [exact H3|]. eapply ordered_remove; [|exact HO]. by eapply timers_queue_NoDup, HI.
  - rewrite (timer_cancel_idle _ _ _ _ _ HI) in * by done. simplify_eq. by exists q.
  - destruct (timer_isr_earliest _ _ _ _ _ _ _ _ HI HO He) as (q' & m2 & f2 & E & H3 & H4).
    simplify_eq. by exists q'.
  - exists q. split; [|done]. destruct HI as [HT Hf]. split; [|done].
    eapply timers_unch; [exact HT|exact HU|]. intros a Ha Hn. apply Hn.
    destruct Ha as [Ha|(t & Ht & Ha)]; [by left|right]. exists t. split; [|done].
    by rewrite <-(or_perm _ _ HO).
Qed.

Lemma timer_steps_inv s s' : rtc timer_step s s' -> timer_inv s -> timer_inv s'.
Proof. induction 1; eauto using timer_step_inv. Qed.

(** C27. In every run of [timer_init] on new timers, [timer_wait], [timer_cancel],
    the timer interrupt and other kernel code, the queue in memory holds exactly
    the waiting timers, ordered by deadline and, for the same deadline, by
    arrival; the firmware's deadline is the first one in the queue, which no
    waiting timer precedes ([TIME_MAX] when none waits); and while a timer waits
    the next interrupt succeeds and calls the callback, with its data, of the
    timer that arrived first among those with the earliest deadline. *)
Theorem timer_run_ordered m0 f0 idle0 m f p idle :
  timers_armed m0 f0 [] idle0 -> rtc timer_step (m0, f0, ([], idle0)) (m, f, (p, idle)) ->
  exists q, timers m q idle /\ q ≡ₚ p /\ StronglySorted tmr_le q /\
    (forall d, filter (fun x => tm_time x = d) q = filter (fun x => tm_time x = d) p) /\
    fw_deadline f = first_deadline q /\ (forall y, y ∈ p -> fw_deadline f <= tm_time y) /\
    (p <> [] -> exists k1 x k2 m' f', earliest p k1 x k2 /\
      timer_isr m f = Some (m', f', (tm_cb x, tm_data x)) /\
      timer_step (m, f, (p, idle)) (m', f', (k1 ++ k2, tm_addr x :: idle))).
Proof.
  intros HI Hr. assert (timer_inv (m, f, (p, idle))) as (q & HI' & HO).
  { eapply timer_steps_inv; [exact Hr|]. exists []. split; [exact HI|]. split; [done|constructor|done]. }
  simpl in HI', HO. pose proof HO as [HP HS HF]. exists q.
  split_and!; [apply HI'|done|done|done|apply HI'| |].
  - intros y Hy. destruct HI' as [_ ->]. apply sorted_first; [done|]. by rewrite HP.
  - intros Hp. destruct q as [|x q]; [by apply Permutation_nil_l in HP|].
    destruct (ordered_earliest _ _ _ HO) as (k1 & k2 & He).
    destruct (timer_isr_earliest _ _ _ _ _ _ _ _ HI' HO He) as (q' & m' & f' & E & _).
    exists k1, x, k2, m', f'. split_and!; [done|done|]. by eapply ts_isr.
Qed.

(** C29. [timer_wait] on an idle timer does not panic: it computes the deadline
    [now + ns / 100] modulo 2^64, puts the timer behind all timers that are not
    later, and leaves the firmware with the first deadline of the queue. *)
Theorem timer_wait_contract m f q idle idle' now t ns cb data :
  timers_armed m f q idle -> idle ≡ₚ t :: idle' -> 0 <= cb < 2 ^ 64 -> 0 <= data < 2 ^ 64 ->
  let x := mkTmr t (u64 (now + ns / 100)) cb data in
  exists m' f', timer_wait m f now t ns cb data = Some (m', f') /\
    timers_armed m' f' (insert_tmr x q) idle' /\
    unch (timers_foot (t :: (tm_addr <$> q))) m m'.
Proof. apply timer_wait_spec. Qed.

(** [timer_cancel] takes a waiting timer out of the queue and sets the
    firmware to the first deadline that is left; on an idle timer it does
    nothing. *)
Lemma timer_cancel_contract m f q idle t :
  timers_armed m f q idle -> t ∈ (tm_addr <$> q) ++ idle ->
  exists m' f' q' idle', timer_cancel m f t = Some (m', f') /\ timers_armed m' f' q' idle' /\
    t ∈ idle' /\ (t ∉ tm_addr <$> q') /\ (t ∈ idle -> m' = m /\ f' = f /\ q' = q).
Proof.
  intros HI Ht. pose proof HI as [HT _].
  assert (forall q2 i2, seps (timer_rngs ((tm_addr <$> q2) ++ i2)) ->
    t ∈ i2 -> t ∉ tm_addr <$> q2) as Hx.
  { intros q2 i2 HS H2 H1. unfold timer_rngs in HS. rewrite fmap_app in HS.
    apply seps_app in HS as (_ & _ & HS).
    specialize (HS _ _ (timer_rngs_elem _ _ H1) (timer_rngs_elem _ _ H2)).
    unfold TIMER_SIZE, disj in HS. simpl in HS. lia. }
  pose proof (tq_seps _ _ _ HT) as [_ HS].
  destruct (decide (t ∈ idle)) as [Hi|Hi].
  - exists m, f, q, idle. rewrite (timer_cancel_idle _ _ _ _ _ HI Hi). split_and!; eauto.
  - apply elem_of_app in Ht as [(x & -> & Hq)%list_elem_of_fmap|]; [|done].
    apply list_elem_of_split in Hq as (l1 & l2 & ->).
    destruct (timer_cancel_spec _ _ _ _ _ _ HI) as (m' & f' & E & HI' & _).
    exists m', f', (l1 ++ l2), (tm_addr x :: idle). split_and!; [done|done|left| |done].
    apply (Hx _ (tm_addr x :: idle)); [apply HI'|left].
Qed.
End proofs.

(** ** Concrete timers *)

Module Demo.
#[local] Existing Instance virt_layout.
#[local] Existing Instance plain_fw.
#[local] Existing Instance plain_fw_ok.

(** The firmware after [timer_arch_init]. *)
Definition fw0 : fw := (timer_arch_init 0 (0 : @fw plain_fw)).1.2.

(** The static list head and [sched.c]'s timer after [timer_init]. *)
Definition timer_mem : mem := timer_init (list_init_head ∅ sym_wait_queue) sym_timer.

Lemma timer_mem_armed : timers_armed timer_mem fw0 [] [sym_timer].
Proof.
  destruct (list_init_head_dlist ∅ sym_wait_queue) as [HD _]; [done|].
  destruct (list_init_head_dlist (list_init_head ∅ sym_wait_queue) sym_timer) as [HD' HU]; [done|].
  split; [split|done].
  - eapply dlist_unch; [exact HD|exact HU|].
    intros x a ->%list_elem_of_singleton Ha Hb. unfold inrng, NODE_SIZE in *. simpl in *. lia.
  - by intros t ->%list_elem_of_singleton.
  - constructor.
  - constructor.
  - split; repeat constructor. unfold disj, NODE_SIZE, TIMER_SIZE. simpl. lia.
  - split; [repeat constructor|]; unfold addr_ok, TIMER_SIZE, NODE_SIZE; simpl; lia.
Qed.

(** After one wait, the interrupt calls the callback. *)
Lemma timer_run_ordered_witness :
  exists m f m' f', fw_deadline f <= 5010 /\
    timer_isr m f = Some (m', f', (0x80200000, 0)).
Proof.
  pose (x := mkTmr sym_timer 5010 0x80200000 0).
  destruct (timer_wait_spec timer_mem fw0 [] [sym_timer] [] 5000 sym_timer 1000 0x80200000 0
    timer_mem_armed (Permutation_refl _) ltac:(lia) ltac:(lia)) as (m & f & E & _).
  destruct (timer_run_ordered timer_mem fw0 [sym_timer] m f [x] [] timer_mem_armed)
    as (q & _ & _ & _ & _ & _ & Hf & Hi).
  - apply rtc_once. refine (ts_wait timer_mem fw0 [] [sym_timer] [] sym_timer 5000 1000 0x80200000 0
      m f (Permutation_refl _) _ _ E); lia.
  - destruct Hi as (k1 & y & k2 & m' & f' & (Ey & _) & Ei & _); [discriminate|].
    exists m, f, m', f'. split; [exact (Hf x ltac:(left))|].
    destruct k1 as [|z k1]; [injection Ey as <- _; exact Ei|].
    exfalso. injection Ey as _ Ey. destruct k1; discriminate Ey.
Defined.

Lemma timer_wait_contract_witness :
  exists m' f', timer_wait timer_mem fw0 5000 sym_timer 1000 0x80200000 0 = Some (m', f') /\
    timers_armed m' f' [mkTmr sym_timer 5010 0x80200000 0] [].
Proof.
  destruct (timer_wait_contract timer_mem fw0 [] [sym_timer] [] 5000 sym_timer 1000 0x80200000 0
    timer_mem_armed (Permutation_refl _) ltac:(lia) ltac:(lia)) as (m' & f' & E & HI & _).
  exists m', f'. split; [exact E|exact HI].
Defined.
End Demo.
