(* ===== verification/Proc.v ===== *)
(** * Processes: [src/proc.c], [include/proc.h], [include/fd.h] and
    [src/arch/riscv/proc.c]

    A [proc_t] is an object in memory; its fields are at the offsets of the
    RISC-V ABI.  [proc_table] and the static [last_pid] of [new_pid] are the
    record [ptable]. *)

From S2P Require Import Prelude.
From S2P Require Import Errno.
From S2P Require Import Mem.
From S2P Require Import DList.
From S2P Require Import Layout.
From S2P Require Import Str.
From S2P Require Import Pages.
From S2P Require Import Vm.
From S2P Require Import Timer.

(** Addresses of functions and read-only objects. *)
Class Code := {
  fn_proc_entry : Z;
  fn_idle_task : Z;
  fn_sched_preempt : Z;
  fn_wakeup_proc : Z;
  fn_uart_isr : Z;
  obj_TTY_DRIVER : Z;
  obj_UART_DRIVER : Z;
}.

(** ** [proc_t] *)

Definition PROC_SIZE : Z := 1712.
Definition proc_node (p : Z) : Z := p.
Definition proc_tree_node (p : Z) : Z := p + 16.
Definition proc_pid (m : mem) (p : Z) : Z := i32 (load 4 m (p + 32)).
Definition set_proc_pid (m : mem) (p v : Z) : mem := store 4 m (p + 32) v.
Definition proc_flags (m : mem) (p : Z) : Z := load 4 m (p + 36).
Definition set_proc_flags (m : mem) (p v : Z) : mem := store 4 m (p + 36) v.
Definition proc_parent (m : mem) (p : Z) : Z := load 8 m (p + 40).
Definition set_proc_parent (m : mem) (p v : Z) : mem := store 8 m (p + 40) v.
Definition proc_children (p : Z) : Z := p + 48.
Definition proc_zombie_children (p : Z) : Z := p + 64.
Definition proc_fd (p fd : Z) : Z := p + 80 + fd * 24.
Definition proc_state (m : mem) (p : Z) : Z := load 4 m (p + 1616).
Definition set_proc_state (m : mem) (p v : Z) : mem := store 4 m (p + 1616) v.
Definition proc_proc_waiting (m : mem) (p : Z) : Z := load 8 m (p + 1624).
Definition set_proc_proc_waiting (m : mem) (p v : Z) : mem := store 8 m (p + 1624) v.
Definition proc_timer (p : Z) : Z := p + 1632.
Definition proc_exit_status (m : mem) (p : Z) : Z := i32 (load 4 m (p + 1672)).
Definition set_proc_exit_status (m : mem) (p v : Z) : mem := store 4 m (p + 1672) v.
Definition proc_page_table (m : mem) (p : Z) : Z := load 8 m (p + 1680).
Definition set_proc_page_table (m : mem) (p v : Z) : mem := store 8 m (p + 1680) v.
Definition proc_kern_stack (m : mem) (p : Z) : Z := load 8 m (p + 1688).
Definition set_proc_kern_stack (m : mem) (p v : Z) : mem := store 8 m (p + 1688) v.
Definition proc_user_stack (m : mem) (p : Z) : Z := load 8 m (p + 1696).
Definition set_proc_user_stack (m : mem) (p v : Z) : mem := store 8 m (p + 1696) v.
Definition proc_sp (m : mem) (p : Z) : Z := load 8 m (p + 1704).
Definition set_proc_sp (m : mem) (p v : Z) : mem := store 8 m (p + 1704) v.

Definition PROC_FLAG_KERN : Z := 0x1.

Definition PROC_STATE_INIT : Z := 0.
Definition PROC_STATE_READY : Z := 1.
Definition PROC_STATE_CURR : Z := 2.
Definition PROC_STATE_WAIT_SEM : Z := 3.
Definition PROC_STATE_WAIT_CHILD : Z := 4.
Definition PROC_STATE_SLEEP : Z := 5.
Definition PROC_STATE_ZOMBIE : Z := 6.

(** [fd_t]: flags, and [dev_t] with the driver and the device number. *)
Definition FD_FLAG_USED : Z := 0x1.
Definition FD_FLAG_READABLE : Z := 0x2.
Definition FD_FLAG_WRITABLE : Z := 0x4.
Definition fd_flags (m : mem) (a : Z) : Z := load 4 m a.
Definition set_fd_flags (m : mem) (a v : Z) : mem := store 4 m a v.
Definition fd_driver (m : mem) (a : Z) : Z := load 8 m (a + 8).
Definition fd_num (m : mem) (a : Z) : Z := load 4 m (a + 16).
Definition set_fd_dev (m : mem) (a driver num : Z) : mem :=
  store 4 (store 8 m (a + 8) driver) (a + 16) num.

(** ** Process identifiers *)

Record ptable := mkTable { pt_procs : list Z; pt_last_pid : Z }.

Definition ptable0 : ptable :=
  mkTable (replicate (Z.to_nat PROC_TABLE_SIZE) nullptr) (PROC_TABLE_SIZE - 1).

Definition pt_get (t : ptable) (pid : Z) : Z := pt_procs t !!! Z.to_nat pid.
Definition pt_set (t : ptable) (pid p : Z) : ptable :=
  mkTable (<[Z.to_nat pid := p]> (pt_procs t)) (pt_last_pid t).

Definition new_pid (t : ptable) : ptable * Z :=
  let try_pid pid (t : ptable) :=
    if pt_get t pid =? nullptr then inr (mkTable (pt_procs t) pid, pid) else inl t in
  match for_ret (pt_last_pid t + 1) PROC_TABLE_SIZE try_pid t with
  | inr r => r
  | inl t =>
      match for_ret 0 (pt_last_pid t) try_pid t with
      | inr r => r
      | inl t => (t, - EAGAIN)
      end
  end.

(** ** File descriptors *)

Definition new_fd (m : mem) (proc : Z) : mem * Z :=
  match for_ret 0 PROC_FD_CAPACITY (fun fd m =>
          if negb (fd_flags m (proc_fd proc fd) &? FD_FLAG_USED)
          then inr (set_fd_flags m (proc_fd proc fd) FD_FLAG_USED, fd) else inl m) m with
  | inr r => r
  | inl m => (m, - EAGAIN)
  end.

(** [proc->fds[fd].dev = make_dev(TTY_DRIVER, 0); proc->fds[fd].flags |= flag] *)
Definition open_tty `{C : Code} (m : mem) (proc fd flag : Z) : mem :=
  let m := set_fd_dev m (proc_fd proc fd) obj_TTY_DRIVER 0 in
  set_fd_flags m (proc_fd proc fd) (Z.lor (fd_flags m (proc_fd proc fd)) flag).

Definition init_fds `{C : Code} (m : mem) (proc : Z) : mem * Z :=
  let m := for_range 0 PROC_FD_CAPACITY (fun i m => set_fd_flags m (proc_fd proc i) 0) m in
  let '(m, stdin_fd) := new_fd m proc in
  if stdin_fd <? 0 then (m, stdin_fd)
  else
    let m := open_tty m proc stdin_fd FD_FLAG_READABLE in
    let '(m, stdout_fd) := new_fd m proc in
    if stdin_fd <? 0 then (m, stdin_fd)
    else
      let m := open_tty m proc stdout_fd FD_FLAG_WRITABLE in
      let '(m, stderr_fd) := new_fd m proc in
      if stdin_fd <? 0 then (m, stdin_fd)
      else
        let m := open_tty m proc stderr_fd FD_FLAG_WRITABLE in
        (m, 0).

Definition proc_is_bad_fd (m : mem) (proc fd : Z) : bool :=
  (fd <? 0) || (PROC_FD_CAPACITY <=? fd) || negb (fd_flags m (proc_fd proc fd) &? FD_FLAG_USED).

(** ** Stacks *)

Definition CSR_SSTATUS_SPIE : Z := 0x20.
Definition CSR_SSTATUS_SPP : Z := 0x100.

(** [proc->sp[i] = v] *)
Definition set_sp_slot (m : mem) (proc i v : Z) : mem := store 8 m (proc_sp m proc + i * 8) v.

(** [src/arch/riscv/proc.c]; [sstatus] is the value of the register. *)
Definition proc_fill_stack `{C : Code} (sstatus : Z) (m : mem) (proc entry usp argc argv : Z) : mem :=
  let sstatus := Z.lor sstatus CSR_SSTATUS_SPIE in
  let sstatus :=
    if proc_flags m proc &? PROC_FLAG_KERN then Z.lor sstatus CSR_SSTATUS_SPP
    else Z.ldiff sstatus CSR_SSTATUS_SPP in
  let m := set_proc_sp m proc (u64 (proc_sp m proc - 38 * 8)) in
  let m := set_sp_slot m proc 31 argv in
  let m := set_sp_slot m proc 30 (u64 argc) in
  let m := set_sp_slot m proc 27 entry in
  let m := set_sp_slot m proc 26 sstatus in
  let m := set_sp_slot m proc 25 (Z.ldiff usp 0xF) in
  let m := set_sp_slot m proc 16 (Z.lor (Z.shiftl 8 60) (proc_page_table m proc / PAGE_SIZE)) in
  set_sp_slot m proc 15 fn_proc_entry.

(** The loop of [init_stacks] that copies the arguments. *)
Definition copy_args (m : mem) (argc argv new_argv usp : Z) : option (mem * Z) :=
  match for_ret 0 argc (fun i '(m, usp) =>
          match str_len m (load 8 m (argv + i * 8)) with
          | None => inr tt
          | Some len =>
              let usp := u64 (usp - (len + 1)) in
              let m := store 8 m (new_argv + i * 8) usp in
              inl (mem_copy m usp (load 8 m (argv + i * 8)) (len + 1), usp)
          end) (m, usp) with
  | inl r => Some r
  | inr _ => None
  end.

Section code.
Context `{PA : PageAllocator} `{L : Layout} `{C : Code}.

Definition init_stacks (sstatus : Z) (m : mem) (proc entry argc argv : Z) : option (mem * Z) :=
  let '(m, kern_stack) := pa_alloc m in
  let m := set_proc_kern_stack m proc kern_stack in
  let '(m, user_stack) := pa_alloc m in
  let m := set_proc_user_stack m proc user_stack in
  if (proc_kern_stack m proc =? nullptr) || (proc_user_stack m proc =? nullptr)
  then Some (m, - ENOMEM)
  else
    let usp := u64 (proc_user_stack m proc + PAGE_SIZE) in
    let usp := u64 (usp - u64 (argc + 1) * 8) in
    let new_argv := usp in
    let m := store 8 m (new_argv + argc * 8) nullptr in
    '(m, usp) ← copy_args m argc argv new_argv usp;
    let m := set_proc_sp m proc (u64 (proc_kern_stack m proc + PAGE_SIZE)) in
    let m := proc_fill_stack sstatus m proc entry usp argc new_argv in
    Some (m, 0).

(** The three mappings that [proc_init] makes for a user process; a negative
    result is returned by [proc_init]. *)
Definition map_proc_pages (m : mem) (proc page_table : Z) : mem * Z :=
  let '(m, res) := vm_map_page m page_table sym_trampoline sym_trampoline
                     (Z.lor VM_FLAG_READABLE VM_FLAG_EXECUTABLE) in
  if res <? 0 then (m, res)
  else
    let '(m, res) := vm_map_page m page_table (proc_kern_stack m proc) (proc_kern_stack m proc)
                       (Z.lor VM_FLAG_READABLE VM_FLAG_WRITABLE) in
    if res <? 0 then (m, res)
    else vm_map_page m page_table (proc_user_stack m proc) (proc_user_stack m proc)
           (Z.lor (Z.lor VM_FLAG_READABLE VM_FLAG_WRITABLE) VM_FLAG_USER).

Definition proc_init (sstatus : Z) (m : mem) (t : ptable)
    (proc entry flags parent argc argv page_table : Z) : option (mem * ptable * Z) :=
  let '(t, pid) := new_pid t in
  let m := set_proc_pid m proc pid in
  if proc_pid m proc <? 0 then Some (m, t, proc_pid m proc)
  else
    let m := set_proc_flags m proc flags in
    let m := set_proc_parent m proc parent in
    let m := list_init_head m (proc_children proc) in
    let m := list_init_head m (proc_zombie_children proc) in
    let '(m, res) := init_fds m proc in
    if res <? 0 then Some (m, t, res)
    else
      let m := set_proc_state m proc PROC_STATE_INIT in
      let m := timer_init m (proc_timer proc) in
      let m := set_proc_page_table m proc page_table in
      '(m, res) ← init_stacks sstatus m proc entry argc argv;
      if res <? 0 then Some (m, t, res)
      else
        let '(m, res) :=
          if negb (flags &? PROC_FLAG_KERN) then map_proc_pages m proc page_table else (m, 0) in
        if res <? 0 then Some (m, t, res)
        else
          let t := pt_set t (proc_pid m proc) proc in
          let m := if negb (parent =? nullptr)
                   then list_push_back m (proc_children parent) (proc_tree_node proc) else m in
          Some (m, t, 0).

Definition proc_deinit (m : mem) (t : ptable) (proc : Z) : mem * ptable :=
  let m := list_remove m (proc_tree_node proc) in
  let t := pt_set t (proc_pid m proc) nullptr in
  let m := pa_free m (proc_user_stack m proc) in
  let m := pa_free m (proc_kern_stack m proc) in
  let m := pa_free m (proc_page_table m proc) in
  (m, t).
End code.

Definition proc_adopt (m : mem) (new_parent proc : Z) : mem :=
  let m := list_remove m (proc_tree_node proc) in
  let m := set_proc_parent m proc new_parent in
  if negb (proc_state m proc =? PROC_STATE_ZOMBIE)
  then list_push_back m (proc_children new_parent) (proc_tree_node proc)
  else list_push_back m (proc_zombie_children new_parent) (proc_tree_node proc).
