(* ===== verification/ProcSpec.v ===== *)
(** * Properties of process identifiers, descriptors and stacks *)

From S2P Require Import Prelude.
From S2P Require Import Errno.
From S2P Require Import Mem.
From S2P Require Import DList.
From S2P Require Import Layout.
From S2P Require Import Str.
From S2P Require Import Pages.
From S2P Require Import Vm.
From S2P Require Import Timer.
From S2P Require Import Proc.

(** ** Process identifiers *)

Definition ptable_ok (t : ptable) : Prop :=
  length (pt_procs t) = Z.to_nat PROC_TABLE_SIZE /\ 0 <= pt_last_pid t < PROC_TABLE_SIZE.

(** [pid] is not in use. *)
Definition pid_free (t : ptable) (pid : Z) : bool := pt_get t pid =? nullptr.

(** How far a search that starts behind [last] goes to reach [pid]. *)
Definition pid_distance (last pid : Z) : Z := (pid - last - 1) `mod` PROC_TABLE_SIZE.

Lemma new_pid_eq t :
  new_pid t =
  match List.find (pid_free t) (seqZ (pt_last_pid t + 1) (PROC_TABLE_SIZE - (pt_last_pid t + 1))) with
  | Some pid => (mkTable (pt_procs t) pid, pid)
  | None =>
      match List.find (pid_free t) (seqZ 0 (pt_last_pid t)) with
      | Some pid => (mkTable (pt_procs t) pid, pid)
      | None => (t, - EAGAIN)
      end
  end.
Proof.
  unfold new_pid, for_ret.
  rewrite (for_list_find _ _ (pid_free t) (fun pid => (mkTable (pt_procs t) pid, pid))) by done.
  destruct (List.find _ (seqZ (pt_last_pid t + 1) _)); [done|].
  rewrite (for_list_find _ _ (pid_free t) (fun pid => (mkTable (pt_procs t) pid, pid))) by done.
  rewrite Z.sub_0_r. by destruct (List.find _ _).
Qed.

(** C30. [new_pid] returns the first free identifier behind the last one it gave
    out, in cyclic order, and remembers it; it returns [-EAGAIN], changing
    nothing, exactly when every identifier other than the last one is in use:
    the last one itself is not considered, even when it is free. *)
Theorem new_pid_cyclic t :
  ptable_ok t ->
  let '(t', r) := new_pid t in
  ptable_ok t' /\ pt_procs t' = pt_procs t /\
  ((0 <= r < PROC_TABLE_SIZE /\ pt_last_pid t' = r /\ pid_free t r = true /\
    r <> pt_last_pid t /\
    forall pid, 0 <= pid < PROC_TABLE_SIZE -> pid_free t pid = true -> pid <> pt_last_pid t ->
      pid_distance (pt_last_pid t) r <= pid_distance (pt_last_pid t) pid) \/
   (r = - EAGAIN /\ t' = t /\
    forall pid, 0 <= pid < PROC_TABLE_SIZE -> pid <> pt_last_pid t -> pid_free t pid = false)).
Proof.
  intros [HL Hl]. rewrite new_pid_eq. unfold ptable_ok, pid_distance, PROC_TABLE_SIZE in *.
  set (last := pt_last_pid t) in *.
  pose proof (find_seqZ (pid_free t) (last + 1) (256 - (last + 1))) as H1.
  pose proof (find_seqZ (pid_free t) 0 last) as H2.
  assert (forall pid, 0 <= pid < 256 -> pid <> last ->
    (pid - last - 1) `mod` 256 = if last <? pid then pid - last - 1 else pid - last - 1 + 256) as HD.
  { intros pid Hp Hne. destruct (Z.ltb_spec last pid); [by apply Z.mod_small; lia|].
    rewrite <-(Z.mod_add _ 1) by lia. apply Z.mod_small. lia. }
  destruct (List.find (pid_free t) (seqZ (last + 1) _)) as [r|].
  - destruct H1 as (Hr & Hf & Hmin). split_and!; [done|simpl; lia..|done|left].
    split_and!; [lia..|done|done|lia|]. intros pid Hp Hfp Hne. rewrite !HD by lia.
    destruct (Z.ltb_spec last r), (Z.ltb_spec last pid); try lia.
    destruct (Z.le_gt_cases r pid); [lia|]. rewrite Hmin in Hfp by lia. done.
  - destruct (List.find (pid_free t) (seqZ 0 last)) as [r|].
    + destruct H2 as (Hr & Hf & Hmin). split_and!; [done|simpl; lia..|done|left].
      split_and!; [lia..|done|done|lia|]. intros pid Hp Hfp Hne. rewrite !HD by lia.
      destruct (Z.ltb_spec last r), (Z.ltb_spec last pid); try lia.
      * rewrite H1 in Hfp by lia. done.
      * destruct (Z.le_gt_cases r pid); [lia|]. rewrite Hmin in Hfp by lia. done.
    + split_and!; [done|lia..|done|right]. split_and!; [done|done|]. intros pid Hp Hne.
      destruct (Z.lt_ge_cases pid last); [apply H2|apply H1]; lia.
Qed.

Lemma ptable0_ok : ptable_ok ptable0.
Proof. split; [done|]. unfold ptable0, PROC_TABLE_SIZE. simpl. lia. Qed.

Lemma new_pid_cyclic_witness : ptable_ok (new_pid ptable0).1 /\ (new_pid ptable0).2 = 0.
Proof.
  pose proof (new_pid_cyclic ptable0 ptable0_ok) as H.
  destruct (new_pid ptable0) as [t' r] eqn:E. split; [exact (proj1 H)|].
  vm_compute in E. injection E as _ <-. reflexivity.
Defined.

(** The last identifier is never given out again, even when it is the only free one. *)
Lemma new_pid_skips_last :
  new_pid (mkTable (nullptr :: replicate 255 0x1000) 0) =
  (mkTable (nullptr :: replicate 255 0x1000) 0, - EAGAIN).
Proof. vm_compute. reflexivity. Qed.

(** ** Descriptors *)

(** The entry of a descriptor in the table of [proc]. *)
Definition fd_is (m : mem) (proc fd flags : Z) : Prop :=
  fd_flags m (proc_fd proc fd) = flags.

Definition in_fds (proc a : Z) : Prop := inrng (proc + 80) (64 * 24) a.

Lemma set_fd_flags_get m proc i j v :
  0 <= i < 64 -> 0 <= j < 64 -> 0 <= v < 2 ^ 32 ->
  fd_flags (set_fd_flags m (proc_fd proc i) v) (proc_fd proc j) =
  if decide (i = j) then v else fd_flags m (proc_fd proc j).
Proof.
  intros Hi Hj Hv. unfold fd_flags, set_fd_flags, proc_fd. case_decide as E.
  - subst. rewrite load4_store4. by apply Z.mod_small.
  - apply load_store_ne. unfold disj. lia.
Qed.

Lemma set_fd_unch m proc i v :
  0 <= i < 64 -> unch (in_fds proc) m (set_fd_flags m (proc_fd proc i) v).
Proof.
  intros Hi. eapply unch_mono; [|apply (store_unch 4)]. unfold in_fds, proc_fd. rng.
Qed.

(** The loop that clears the table. *)
Lemma clear_fds m proc n :
  0 <= n <= 64 ->
  let m' := for_range 0 n (fun i m => set_fd_flags m (proc_fd proc i) 0) m in
  (forall j, 0 <= j < n -> fd_is m' proc j 0) /\ unch (in_fds proc) m m'.
Proof.
  intros [H0 Hn]. revert Hn. pattern n. apply natlike_ind; [| |exact H0].
  - intros _. rewrite for_range_nil by lia. split; [intros; lia|done].
  - clear n H0. intros n Hn IH Hn'. destruct IH as [IH HU]; [lia|].
    rewrite <-Z.add_1_r, for_range_last by lia. split.
    + intros j Hj. unfold fd_is. rewrite set_fd_flags_get by lia.
      case_decide; [done|]. apply IH. lia.
    + etrans; [exact HU|]. apply set_fd_unch. lia.
Qed.

(** [new_fd] takes the first entry that is not used. *)
Lemma new_fd_spec m proc fd :
  0 <= fd < 64 -> (forall j, 0 <= j < fd -> fd_is m proc j 3 \/ fd_is m proc j 5) ->
  fd_is m proc fd 0 ->
  new_fd m proc = (set_fd_flags m (proc_fd proc fd) FD_FLAG_USED, fd).
Proof.
  intros Hfd Hused H0. unfold new_fd, for_ret.
  rewrite (for_list_find _ _ (fun fd => negb (fd_flags m (proc_fd proc fd) &? FD_FLAG_USED))
    (fun fd => (set_fd_flags m (proc_fd proc fd) FD_FLAG_USED, fd))) by done.
  pose proof (find_seqZ (fun fd => negb (fd_flags m (proc_fd proc fd) &? FD_FLAG_USED))
    0 (PROC_FD_CAPACITY - 0)) as H. unfold fd_is in *. unfold PROC_FD_CAPACITY in *.
  destruct (List.find _ _) as [i|].
  - destruct H as (Hi & Hp & Hmin). assert (i = fd) as ->; [|done].
    destruct (Z.lt_trichotomy i fd) as [Hlt|[|Hgt]]; [|done|].
    + destruct (Hused i) as [E|E]; [lia| |]; rewrite E in Hp; done.
    + specialize (Hmin fd ltac:(lia)). cbv beta in Hmin. rewrite H0 in Hmin. done.
  - specialize (H fd ltac:(lia)). cbv beta in H. rewrite H0 in H. done.
Qed.

Section fds.
Context `{C : Code}.
Hypothesis tty_addr : 0 <= obj_TTY_DRIVER < 2 ^ 64.

(** All of an entry: flags, driver, device number. *)
Definition fd_entry (m : mem) (proc j : Z) : Z * Z * Z :=
  (fd_flags m (proc_fd proc j), fd_driver m (proc_fd proc j), fd_num m (proc_fd proc j)).

(** Opening one descriptor: [new_fd] and [open_tty]. *)
Lemma open_fd_spec m proc fd flag :
  0 <= fd < 64 -> 0 <= flag < 8 -> fd_is m proc fd 0 ->
  let m' := open_tty (set_fd_flags m (proc_fd proc fd) FD_FLAG_USED) proc fd flag in
  fd_entry m' proc fd = (Z.lor FD_FLAG_USED flag, obj_TTY_DRIVER, 0) /\
  (forall j, 0 <= j < 64 -> j <> fd -> fd_entry m' proc j = fd_entry m proc j) /\
  unch (in_fds proc) m m'.
Proof.
  intros Hfd Hflag H0 m'. unfold m', open_tty. set (m1 := set_fd_flags m _ _).
  set (m2 := set_fd_dev m1 _ _ _).
  assert (fd_flags m2 (proc_fd proc fd) = FD_FLAG_USED) as E2.
  { unfold m2, set_fd_dev, fd_flags. rewrite !load_store_ne by (unfold disj; lia).
    unfold m1, set_fd_flags. rewrite load4_store4. done. }
  rewrite E2. assert (0 <= Z.lor FD_FLAG_USED flag < 2 ^ 32) as Hl.
  { apply small_bits; [lia|]. intros k Hk. rewrite Z.lor_spec.
    rewrite (bits_small FD_FLAG_USED 3 k), (bits_small flag 3 k) by (unfold FD_FLAG_USED; lia). done. }
  split_and!.
  - unfold fd_entry, fd_flags, fd_driver, fd_num, set_fd_flags. f_equal; [f_equal|].
    + rewrite load4_store4. by apply Z.mod_small.
    + rewrite load_store_ne by (unfold disj; lia). unfold m2, set_fd_dev.
      rewrite load_store_ne, load8_store8 by (unfold disj; lia). by apply u64_small.
    + rewrite load_store_ne by (unfold disj; lia). unfold m2, set_fd_dev. by rewrite load4_store4.
  - intros j Hj Hne. unfold fd_entry, fd_flags, fd_driver, fd_num, m2, m1, set_fd_dev, set_fd_flags, proc_fd.
    rewrite !load_store_ne by (unfold disj; lia). done.
  - etrans; [by apply (set_fd_unch m proc fd FD_FLAG_USED)|]. fold m1.
    etrans; [|by apply set_fd_unch]. unfold m2, set_fd_dev.
    etrans; (eapply unch_mono; [|apply store_unch]); unfold in_fds, proc_fd; rng.
Qed.

(** The descriptors below [fd] are open, the others are not. *)
Definition open_upto (m : mem) (proc fd : Z) : Prop :=
  (forall j, 0 <= j < fd -> fd_is m proc j 3 \/ fd_is m proc j 5) /\
  (forall j, fd <= j < 64 -> fd_is m proc j 0).

Lemma open_step m proc fd flag :
  open_upto m proc fd -> 0 <= fd < 64 -> flag = FD_FLAG_READABLE \/ flag = FD_FLAG_WRITABLE ->
  exists m1 m2, new_fd m proc = (m1, fd) /\ open_tty m1 proc fd flag = m2 /\
    open_upto m2 proc (fd + 1) /\
    fd_entry m2 proc fd = (Z.lor FD_FLAG_USED flag, obj_TTY_DRIVER, 0) /\
    (forall j, 0 <= j < 64 -> j <> fd -> fd_entry m2 proc j = fd_entry m proc j) /\
    unch (in_fds proc) m m2.
Proof.
  intros [Hu Hc] Hfd Hflag.
  destruct (open_fd_spec m proc fd flag) as (E & H & HU);
    [done|destruct Hflag as [->| ->]; done|apply Hc; lia|].
  eexists _, _. split; [apply new_fd_spec; [done|done|apply Hc; lia]|].
  split; [done|]. split; [|done]. split.
  - intros j Hj. destruct (decide (j = fd)) as [->|Hne].
    + injection E as E _ _. destruct Hflag as [->| ->]; [left|right]; exact E.
    + specialize (H j ltac:(lia) Hne). injection H as H _ _. unfold fd_is. rewrite H. apply Hu. lia.
  - intros j Hj. specialize (H j ltac:(lia) ltac:(lia)). injection H as H _ _.
    unfold fd_is. rewrite H. apply Hc. lia.
Qed.

(** C31. [init_fds] always succeeds: descriptor 0 is the terminal for reading, 1
    and 2 are the terminal for writing, and no other descriptor is open. *)
Theorem init_fds_opens_tty m proc :
  exists m', init_fds m proc = (m', 0) /\ unch (in_fds proc) m m' /\
    fd_entry m' proc 0 = (Z.lor FD_FLAG_USED FD_FLAG_READABLE, obj_TTY_DRIVER, 0) /\
    fd_entry m' proc 1 = (Z.lor FD_FLAG_USED FD_FLAG_WRITABLE, obj_TTY_DRIVER, 0) /\
    fd_entry m' proc 2 = (Z.lor FD_FLAG_USED FD_FLAG_WRITABLE, obj_TTY_DRIVER, 0) /\
    (forall fd, proc_is_bad_fd m' proc fd = negb ((0 <=? fd) && (fd <=? 2))).
Proof.
  unfold init_fds. destruct (clear_fds m proc PROC_FD_CAPACITY) as [Hc HU0]; [done|].
  revert Hc HU0. generalize (for_range 0 PROC_FD_CAPACITY
    (fun i m => set_fd_flags m (proc_fd proc i) 0) m). intros m0 Hc HU0.
  destruct (open_step m0 proc 0 FD_FLAG_READABLE) as (n1 & m1 & -> & -> & U1 & E1 & _ & HU1);
    [split; [lia|exact Hc]|lia|by left|]. change (0 <? 0) with false. cbv iota.
  destruct (open_step m1 proc 1 FD_FLAG_WRITABLE) as (n2 & m2 & -> & -> & U2 & E2 & H2 & HU2);
    [done|lia|by right|].
  destruct (open_step m2 proc 2 FD_FLAG_WRITABLE) as (n3 & m3 & -> & -> & U3 & E3 & H3 & HU3);
    [done|lia|by right|].
  exists m3. assert (fd_entry m3 proc 0 = fd_entry m1 proc 0) as F0 by (by rewrite H3, H2 by lia).
  assert (fd_entry m3 proc 1 = fd_entry m2 proc 1) as F1 by (by rewrite H3 by lia).
  split_and!; [done|by do 3 (etrans; [eassumption|])|congruence..|]. clear - U3.
  intros fd. unfold proc_is_bad_fd. change PROC_FD_CAPACITY with 64.
  destruct (Z.ltb_spec fd 0); [by rewrite (proj2 (Z.leb_gt 0 fd)) by lia|].
  rewrite (proj2 (Z.leb_le 0 fd)) by lia. destruct (Z.leb_spec 64 fd).
  { by rewrite (proj2 (Z.leb_gt fd 2)) by lia. }
  destruct U3 as [Hu Hc]. unfold fd_is in *. destruct (Z.leb_spec fd 2).
  - by destruct (Hu fd ltac:(lia)) as [-> | ->].
  - by rewrite (Hc fd) by lia.
Qed.
End fds.

Module Demo.
#[local] Instance tty_code : Code := {|
  fn_proc_entry := 0x802030c0; fn_idle_task := 0x80201000; fn_sched_preempt := 0x80201100;
  fn_wakeup_proc := 0x80201200; fn_uart_isr := 0x80201300;
  obj_TTY_DRIVER := 0x80207000; obj_UART_DRIVER := 0x80207010;
|}.

Lemma init_fds_opens_tty_witness :
  exists m', init_fds ∅ 0x80300000 = (m', 0) /\ unch (in_fds 0x80300000) ∅ m' /\
    fd_entry m' 0x80300000 0 = (3, 0x80207000, 0) /\
    proc_is_bad_fd m' 0x80300000 2 = false /\ proc_is_bad_fd m' 0x80300000 3 = true.
Proof.
  destruct (init_fds_opens_tty (C := tty_code) ltac:(by compute_done) ∅ 0x80300000)
    as (m' & E & HU & E0 & _ & _ & HB).
  exists m'. rewrite !HB. split_and!; [exact E|exact HU|exact E0|reflexivity..].
Defined.
End Demo.
