(* ===== verification/Asm.v ===== *)
(** * Context switch and trap entry: [src/arch/riscv/proc.S] and
    [src/arch/riscv/trap.S]

    The assembly routines as instruction lists over a small RISC-V machine: the
    integer registers, the supervisor registers they use, and memory.  The
    routines are straight-line code, so that a routine is run by running its
    instructions in order; [ret], [sret] and the call of [trap_handler] are the
    ends of the lists.  Memory is accessed by physical address: the kernel runs
    untranslated, and [proc_init] maps the kernel stack and the trampoline at
    their physical addresses. *)

From S2P Require Import Prelude.
From S2P Require Import Mem.

Inductive reg := zero | ra | sp | gp | tp | t0 | t1 | t2 | t3 | t4 | t5 | t6
  | s0 | s1 | s2 | s3 | s4 | s5 | s6 | s7 | s8 | s9 | s10 | s11
  | a0 | a1 | a2 | a3 | a4 | a5 | a6 | a7.

Inductive csr := sstatus | sepc | scause | stval | sscratch | satp.

#[export] Instance reg_eq_dec : EqDecision reg.
Proof. solve_decision. Defined.
#[export] Instance csr_eq_dec : EqDecision csr.
Proof. solve_decision. Defined.

Inductive instr :=
| Add (rd rs : reg) (imm : Z)
| Mv (rd rs : reg)
| Sd (rs : reg) (off : Z) (base : reg)
| Ld (rd : reg) (off : Z) (base : reg)
| Csrr (rd : reg) (c : csr)
| Csrw (c : csr) (rs : reg)
| Csrrw (rd : reg) (c : csr) (rs : reg)
| SfenceVma.

Record cpu := mkCpu { xs : reg -> Z; cs : csr -> Z; cmem : mem }.

Definition x_get (s : cpu) (r : reg) : Z := match r with zero => 0 | _ => xs s r end.
Definition x_set (s : cpu) (r : reg) (v : Z) : cpu :=
  mkCpu (fun r' => if decide (r' = r) then v else xs s r') (cs s) (cmem s).
Definition c_set (s : cpu) (c : csr) (v : Z) : cpu :=
  mkCpu (xs s) (fun c' => if decide (c' = c) then v else cs s c') (cmem s).

Definition step (s : cpu) (i : instr) : cpu :=
  match i with
  | Add rd rs imm => x_set s rd (u64 (x_get s rs + imm))
  | Mv rd rs => x_set s rd (x_get s rs)
  | Sd rs off base => mkCpu (xs s) (cs s) (store 8 (cmem s) (u64 (x_get s base + off)) (x_get s rs))
  | Ld rd off base => x_set s rd (load 8 (cmem s) (u64 (x_get s base + off)))
  | Csrr rd c => x_set s rd (cs s c)
  | Csrw c rs => c_set s c (x_get s rs)
  | Csrrw rd c rs => let old := cs s c in x_set (c_set s c (x_get s rs)) rd old
  | SfenceVma => s
  end.

Definition run (prog : list instr) (s : cpu) : cpu := fold_left step prog s.

(** [ctx_sw(old_sp, new_sp)] up to its [ret]. *)
Definition ctx_sw_save : list instr := [
  Add sp sp (-128);
  Sd ra 120 sp; Sd gp 112 sp; Sd tp 104 sp; Sd s0 96 sp; Sd s1 88 sp; Sd s2 80 sp;
  Sd s3 72 sp; Sd s4 64 sp; Sd s5 56 sp; Sd s6 48 sp; Sd s7 40 sp; Sd s8 32 sp;
  Sd s9 24 sp; Sd s10 16 sp; Sd s11 8 sp;
  Sd sp 0 a0].

Definition ctx_sw_restore : list instr := [
  Ld sp 0 a1;
  Ld s11 8 sp; Ld s10 16 sp; Ld s9 24 sp; Ld s8 32 sp; Ld s7 40 sp; Ld s6 48 sp;
  Ld s5 56 sp; Ld s4 64 sp; Ld s3 72 sp; Ld s2 80 sp; Ld s1 88 sp; Ld s0 96 sp;
  Ld tp 104 sp; Ld gp 112 sp; Ld ra 120 sp;
  Add sp sp 128].

Definition ctx_sw : list instr := ctx_sw_save ++ ctx_sw_restore.

(** [trampoline] up to [jal trap_handler]. *)
Definition trampoline : list instr := [
  Csrrw sp sscratch sp; Add sp sp (-176);
  Sd a0 112 sp; Sd a1 120 sp; Sd a2 128 sp; Sd a3 136 sp; Sd a4 144 sp; Sd a5 152 sp;
  Sd a6 160 sp; Sd a7 168 sp;
  Csrr a0 sstatus; Csrr a1 sepc; Csrr a2 scause; Csrr a3 stval;
  Sd a0 80 sp; Sd a1 88 sp; Sd a2 96 sp; Sd a3 104 sp;
  Csrr a0 sscratch; Sd a0 72 sp; Csrw sscratch sp;
  Sd ra 64 sp; Sd t0 56 sp; Sd t1 48 sp; Sd t2 40 sp; Sd t3 32 sp; Sd t4 24 sp;
  Sd t5 16 sp; Sd t6 8 sp;
  Csrr t0 satp; Sd t0 0 sp;
  SfenceVma; Csrw satp zero; SfenceVma;
  Mv a0 sp; Add a0 a0 80].

(** [proc_entry] up to its [sret]. *)
Definition proc_entry : list instr := [
  SfenceVma; Ld t0 0 sp; Csrw satp t0; SfenceVma;
  Ld t6 8 sp; Ld t5 16 sp; Ld t4 24 sp; Ld t3 32 sp; Ld t2 40 sp; Ld t1 48 sp;
  Ld t0 56 sp; Ld ra 64 sp;
  Ld a0 72 sp; Csrw sscratch a0;
  Ld a0 80 sp; Ld a1 88 sp; Csrw sstatus a0; Csrw sepc a1;
  Ld a0 112 sp; Ld a1 120 sp; Ld a2 128 sp; Ld a3 136 sp; Ld a4 144 sp; Ld a5 152 sp;
  Ld a6 160 sp; Ld a7 168 sp;
  Add sp sp 176; Csrrw sp sscratch sp].

(** ** Blocks of stores and loads *)

Definition saves (l : list (reg * Z)) (base : reg) : list instr :=
  (fun ro => Sd ro.1 ro.2 base) <$> l.
Definition loads (l : list (reg * Z)) (base : reg) : list instr :=
  (fun ro => Ld ro.1 ro.2 base) <$> l.

(** Registers hold 64-bit values. *)
Definition cpu_ok (s : cpu) : Prop :=
  (forall r, 0 <= xs s r < 2 ^ 64) /\ (forall c, 0 <= cs s c < 2 ^ 64).

(** The words of a stack frame at [b]: pairs of offset and value. *)
Definition frame (m : mem) (b : Z) (ws : list (Z * Z)) : Prop :=
  forall o v, (o, v) ∈ ws -> load 8 m (b + o) = v.

(** Offsets of distinct words of a frame of [n] bytes. *)
Definition offs_ok (n : Z) (os : list Z) : Prop :=
  NoDup os /\ Forall (fun o => 0 <= o /\ o + 8 <= n /\ o `mod` 8 = 0) os.

#[export] Instance offs_ok_dec n os : Decision (offs_ok n os).
Proof. unfold offs_ok. apply _. Defined.

Lemma offs_ok_cons n o os :
  offs_ok n (o :: os) -> offs_ok n os /\ 0 <= o /\ o + 8 <= n /\
  forall o', o' ∈ os -> disj o' 8 o 8.
Proof.
  intros [[Ho HN]%NoDup_cons [Hb HF]%Forall_cons]. split_and!; [by split|lia..|].
  intros o' Ho'. rewrite Forall_forall in HF. specialize (HF o' Ho').
  assert (o <> o') by (by intros ->). unfold disj.
  pose proof (Z.div_mod o 8). pose proof (Z.div_mod o' 8). lia.
Qed.

Lemma run_app p q s : run (p ++ q) s = run q (run p s).
Proof. apply fold_left_app. Qed.

Lemma x_get_range s r : cpu_ok s -> 0 <= x_get s r < 2 ^ 64.
Proof. intros [H _]. destruct r; simpl; done || lia. Qed.

Lemma frame_perm m b ws ws' : ws ≡ₚ ws' -> frame m b ws -> frame m b ws'.
Proof. intros HP HF o v Hv. apply HF. by rewrite HP. Qed.

Lemma frame_unch F m m' b n ws :
  frame m b ws -> offs_ok n (ws.*1) -> unch F m m' -> (forall a, inrng b n a -> ~ F a) -> frame m' b ws.
Proof.
  intros HF [_ HO] HU HX o v Hv. rewrite <-(HF o v Hv). eapply load_unch; [exact HU|].
  intros a Ha. apply HX. rewrite Forall_forall in HO.
  specialize (HO o ltac:(apply list_elem_of_fmap; by exists (o, v))). rng.
Qed.

(** One store into a frame. *)
Lemma frame_store m b n o v ws :
  frame m b ws -> offs_ok n (o :: ws.*1) -> 0 <= v < 2 ^ 64 ->
  frame (store 8 m (b + o) v) b ((o, v) :: ws).
Proof.
  intros HF (HO & H0 & Hn & HD)%offs_ok_cons Hv o' v' [E|Hin]%elem_of_cons.
  - injection E as -> ->. rewrite load8_store8. by apply u64_small.
  - rewrite load_store_ne; [by apply HF|].
    specialize (HD o' ltac:(apply list_elem_of_fmap; by exists (o', v'))). rng.
Qed.

(** A block of stores: registers stay, the frame grows. *)
Lemma run_saves l base b n s ws :
  cpu_ok s -> x_get s base = b -> 0 <= b -> b + n <= 2 ^ 64 ->
  offs_ok n (rev l.*2 ++ ws.*1) -> frame (cmem s) b ws ->
  let s' := run (saves l base) s in
  xs s' = xs s /\ cs s' = cs s /\ unch (inrng b n) (cmem s) (cmem s') /\
  frame (cmem s') b (rev ((fun ro => (ro.2, x_get s ro.1)) <$> l) ++ ws).
Proof.
  revert s ws. induction l as [|[r o] l IH]; intros s ws Hok Hb H0 Hn HO HF; [by split_and!|].
  cbn [saves fmap list_fmap map]. simpl in HO. rewrite <-app_assoc in HO. simpl in HO.
  set (s1 := step s (Sd r o base)).
  assert (offs_ok n (o :: ws.*1)) as HO1.
  { destruct HO as [HN HFo]. apply NoDup_app in HN as (_ & _ & HN). by apply Forall_app in HFo as [_ ?]. }
  destruct (offs_ok_cons _ _ _ HO1) as (_ & Ho0 & Hon & _).
  assert (cmem s1 = store 8 (cmem s) (b + o) (x_get s r)) as Em.
  { simpl. rewrite Hb, u64_small by lia. done. }
  destruct (IH s1 ((o, x_get s r) :: ws)) as (Ex & Ec & HU & HF').
  - exact Hok.
  - exact Hb.
  - done.
  - done.
  - exact HO.
  - rewrite Em. eapply frame_store; eauto using x_get_range.
  - cbv zeta. change (run (Sd r o base :: saves l base) s) with (run (saves l base) s1).
    split_and!; [done|done| |].
    + etrans; [|exact HU]. rewrite Em. eapply unch_mono; [|apply (store_unch 8)]. rng.
    + simpl. rewrite <-app_assoc. exact HF'.
Qed.

Lemma x_get_set_ne s r r' v : r' <> r -> x_get (x_set s r v) r' = x_get s r'.
Proof. intros Hne. destruct r'; [done|..]; unfold x_get; simpl; by rewrite decide_False. Qed.

(** A block of loads from a frame. *)
Lemma run_loads l base b n s :
  x_get s base = b -> 0 <= b -> b + n <= 2 ^ 64 ->
  Forall (fun ro => 0 <= ro.2 /\ ro.2 + 8 <= n) l -> base ∉ l.*1 -> zero ∉ l.*1 -> NoDup l.*1 ->
  let s' := run (loads l base) s in
  cs s' = cs s /\ cmem s' = cmem s /\
  (forall r o, (r, o) ∈ l -> xs s' r = load 8 (cmem s) (b + o)) /\
  (forall r, r ∉ l.*1 -> xs s' r = xs s r).
Proof.
  revert s. induction l as [|[r o] l IH]; intros s Hb H0 Hn HF Hbase Hz HN.
  { split_and!; [done|done| |done]. by intros r o ?%not_elem_of_nil. }
  change (loads ((r, o) :: l) base) with (Ld r o base :: loads l base).
  apply Forall_cons in HF as [Ho HF]. simpl in Ho. rewrite fmap_cons in Hbase, Hz, HN |- *.
  cbn [fst] in Hbase, Hz, HN |- *. apply NoDup_cons in HN as [Hr HN]. set (s1 := step s (Ld r o base)).
  assert (x_get s1 base = b) as Hb1.
  { rewrite <-Hb. apply x_get_set_ne. intros ->. apply Hbase. left. }
  apply not_elem_of_cons in Hbase as [_ Hbase]. apply not_elem_of_cons in Hz as [_ Hz].
  destruct (IH s1 Hb1 H0 Hn HF Hbase Hz HN) as (Ec & Em & Hl & Hk).
  cbv zeta. change (run (Ld r o base :: loads l base) s) with (run (loads l base) s1).
  split_and!; [done|done| |].
  - intros r' o' [E|Hin]%elem_of_cons; [|by rewrite (Hl r' o' Hin)].
    injection E as -> ->. rewrite Hk by done. unfold s1. simpl.
    rewrite decide_True by done. rewrite Hb, u64_small by lia. done.
  - intros r' [Hr1 Hr2]%not_elem_of_cons. rewrite Hk by done. unfold s1. simpl. by rewrite decide_False.
Qed.

(** ** [ctx_sw] *)

Definition ctx_frame : list (reg * Z) :=
  [(ra, 120); (gp, 112); (tp, 104); (s0, 96); (s1, 88); (s2, 80); (s3, 72); (s4, 64);
   (s5, 56); (s6, 48); (s7, 40); (s8, 32); (s9, 24); (s10, 16); (s11, 8)].

Lemma ctx_sw_save_eq :
  ctx_sw_save = [Add sp sp (-128)] ++ saves ctx_frame sp ++ [Sd sp 0 a0].
Proof. reflexivity. Qed.

Lemma ctx_sw_restore_eq :
  ctx_sw_restore = [Ld sp 0 a1] ++ loads (rev ctx_frame) sp ++ [Add sp sp 128].
Proof. reflexivity. Qed.

(** The registers a caller finds unchanged. *)
Definition callee_saved : list reg := sp :: ctx_frame.*1.

Lemma ctx_offs : offs_ok 128 (rev ctx_frame.*2 ++ []).
Proof. by compute_done. Qed.

(** Single instructions of the routines. *)
Lemma run_add s r imm :
  r <> zero ->
  let s' := run [Add r r imm] s in
  xs s' r = u64 (xs s r + imm) /\ (forall r', r' <> r -> xs s' r' = xs s r') /\
  cs s' = cs s /\ cmem s' = cmem s.
Proof.
  intros Hz. simpl. split_and!; [|intros r' Hr'|done|done].
  - rewrite decide_True by done. by destruct r.
  - by rewrite decide_False.
Qed.

Lemma run_sd s r off base :
  let s' := run [Sd r off base] s in
  xs s' = xs s /\ cs s' = cs s /\
  cmem s' = store 8 (cmem s) (u64 (x_get s base + off)) (x_get s r).
Proof. done. Qed.

Lemma run_ld s r off base :
  r <> zero ->
  let s' := run [Ld r off base] s in
  xs s' r = load 8 (cmem s) (u64 (x_get s base + off)) /\
  (forall r', r' <> r -> xs s' r' = xs s r') /\ cs s' = cs s /\ cmem s' = cmem s.
Proof.
  intros Hz. simpl. split_and!; [by rewrite decide_True|intros r' Hr'; by rewrite decide_False|done..].
Qed.

Lemma ctx_save_spec s :
  cpu_ok s -> 128 <= xs s sp -> xs s a0 + 8 <= 2 ^ 64 -> disj (xs s sp - 128) 128 (xs s a0) 8 ->
  let s' := run ctx_sw_save s in let b := xs s sp - 128 in
  (forall r, r <> sp -> xs s' r = xs s r) /\ cs s' = cs s /\
  frame (cmem s') b (rev ((fun ro => (ro.2, xs s ro.1)) <$> ctx_frame)) /\
  load 8 (cmem s') (xs s a0) = b /\
  unch (fun a => inrng b 128 a \/ inrng (xs s a0) 8 a) (cmem s) (cmem s').
Proof.
  intros Hok Hsp Ha Hd. cbv zeta. rewrite ctx_sw_save_eq, !run_app.
  pose proof (run_add s sp (-128) ltac:(done)) as H1. revert H1.
  generalize (run [Add sp sp (-128)] s). intros n1 (E1 & E1' & Ec1 & Em1).
  pose proof (proj1 Hok sp) as Hr. pose proof (proj1 Hok a0) as Hra.
  rewrite u64_small in E1 by lia. replace (xs s sp + -128) with (xs s sp - 128) in E1 by lia.
  assert (cpu_ok n1) as Hok1.
  { split; [|rewrite Ec1; apply Hok]. intros r. destruct (decide (r = sp)) as [->|Hne]; [lia|].
    rewrite E1' by done. apply Hok. }
  pose proof (run_saves ctx_frame sp (xs s sp - 128) 128 n1 [] Hok1 E1 ltac:(lia) ltac:(lia)
    ctx_offs ltac:(by intros o v ?%not_elem_of_nil)) as H2. revert H2.
  generalize (run (saves ctx_frame sp) n1). intros n2 (Ex & Ec & HU & HF).
  pose proof (run_sd n2 sp 0 a0) as H3. revert H3.
  generalize (run [Sd sp 0 a0] n2). intros n3 (Ex3 & Ec3 & Em3).
  cbn [x_get] in Em3. rewrite Ex, E1, E1', Z.add_0_r, u64_small in Em3 by (done || lia).
  assert (unch (inrng (xs s a0) 8) (cmem n2) (cmem n3)) as HU3.
  { rewrite Em3. apply (store_unch 8). }
  rewrite app_nil_r in HF.
  assert (forall r, r ∈ ctx_frame.*1 -> x_get n1 r = xs s r) as Hget.
  { intros r Hin. assert (r <> sp /\ r <> zero) as [Hne Hz] by (split; intros ->; revert Hin; by compute_done).
    rewrite <-E1' by done. by destruct r. }
  split_and!.
  - intros r Hne. by rewrite Ex3, Ex, E1'.
  - congruence.
  - eapply (frame_unch _ _ _ _ 128); [| |exact HU3|rng].
    + replace ((fun ro => (ro.2, xs s ro.1)) <$> ctx_frame)
        with ((fun ro => (ro.2, x_get n1 ro.1)) <$> ctx_frame); [exact HF|].
      apply list_fmap_ext. intros i [r o] Hi. simpl. f_equal. apply Hget.
      apply list_elem_of_fmap. exists (r, o). split; [done|]. by eapply list_elem_of_lookup_2.
    + pose proof ctx_offs as HO. rewrite app_nil_r in HO. exact HO.
  - rewrite Em3, load8_store8. apply u64_small. lia.
  - rewrite <-Em1. etrans; (eapply unch_mono; [|first [exact HU|exact HU3]]); tauto.
Qed.

Lemma ctx_restore_spec s b (f : reg -> Z) :
  cpu_ok s -> xs s a1 + 8 <= 2 ^ 64 -> load 8 (cmem s) (xs s a1) = b -> b + 128 < 2 ^ 64 ->
  frame (cmem s) b (rev ((fun ro => (ro.2, f ro.1)) <$> ctx_frame)) ->
  let s' := run ctx_sw_restore s in
  xs s' sp = b + 128 /\ (forall r, r ∈ ctx_frame.*1 -> xs s' r = f r) /\
  (forall r, r ∉ callee_saved -> xs s' r = xs s r) /\ cs s' = cs s /\ cmem s' = cmem s.
Proof.
  intros Hok Ha Hb Hbound HF. cbv zeta. rewrite ctx_sw_restore_eq, !run_app.
  pose proof (proj1 Hok a1) as Hr. pose proof (load8_range (cmem s) (xs s a1)) as Hl. rewrite Hb in Hl.
  pose proof (run_ld s sp 0 a1 ltac:(done)) as H1. revert H1.
  generalize (run [Ld sp 0 a1] s). intros n1 (E1 & E1' & Ec1 & Em1).
  cbn [x_get] in E1. rewrite Z.add_0_r, u64_small, Hb in E1 by lia.
  pose proof (run_loads (rev ctx_frame) sp b 128 n1 E1 ltac:(lia) ltac:(lia)
    ltac:(by compute_done) ltac:(by compute_done) ltac:(by compute_done) ltac:(by compute_done)) as H2.
  revert H2. generalize (run (loads (rev ctx_frame) sp) n1). intros n2 (Ec2 & Em2 & Hin & Hout).
  pose proof (run_add n2 sp 128 ltac:(done)) as H3. revert H3.
  generalize (run [Add sp sp 128] n2). intros n3 (E3 & E3' & Ec3 & Em3).
  assert (forall r, r ∉ ctx_frame.*1 -> r ∉ (rev ctx_frame).*1) as Hrev.
  { intros r Hn H. apply Hn. apply list_elem_of_fmap in H as (x & -> & Hx).
    apply list_elem_of_fmap. exists x. split; [done|]. by rewrite Permutation_rev. }
  split_and!; [| | |congruence|congruence].
  - rewrite E3, Hout, E1 by by compute_done. apply u64_small. lia.
  - intros r Hr'. rewrite E3' by (intros ->; revert Hr'; by compute_done).
    apply list_elem_of_fmap in Hr' as ([r' o] & -> & Hx). simpl.
    rewrite (Hin r' o), Em1; [|by rewrite <-Permutation_rev]. apply HF.
    rewrite <-Permutation_rev. apply list_elem_of_fmap. by exists (r', o).
  - intros r [Hne Hn]%not_elem_of_cons. rewrite E3' by done.
    rewrite Hout by by apply Hrev. by apply E1'.
Qed.

(** The state in which a process is switched out by [ctx_sw] (at [s]) and later
    switched in again (from [s2], where another process calls [ctx_sw]). *)
Record switched_back (s s2 : cpu) : Prop := {
  sb_ok : cpu_ok s /\ cpu_ok s2;
  (** both stacks have room, and the saved stack pointers are elsewhere *)
  sb_room : 128 <= xs s sp /\ 128 <= xs s2 sp /\ xs s a0 + 8 <= 2 ^ 64 /\ xs s2 a0 + 8 <= 2 ^ 64;
  sb_disj : disj (xs s sp - 128) 128 (xs s a0) 8 /\ disj (xs s2 sp - 128) 128 (xs s2 a0) 8;
  sb_disj2 : disj (xs s sp - 128) 128 (xs s2 sp - 128) 128 /\ disj (xs s sp - 128) 128 (xs s2 a0) 8 /\
             disj (xs s a0) 8 (xs s2 sp - 128) 128 /\ disj (xs s a0) 8 (xs s2 a0) 8;
  (** the second call switches to the process *)
  sb_target : xs s2 a1 = xs s a0;
  (** nobody touched what the first call saved *)
  sb_kept : unch (fun a => ~ (inrng (xs s sp - 128) 128 a \/ inrng (xs s a0) 8 a))
              (cmem (run ctx_sw s)) (cmem s2);
}.

(** The second half of [ctx_sw] writes no memory. *)
Lemma ctx_restore_mem s : cmem (run ctx_sw_restore s) = cmem s.
Proof. reflexivity. Qed.

(** Its effect on the return address and the stack pointer. *)
Lemma ctx_restore_regs s :
  let b := load 8 (cmem s) (u64 (xs s a1 + 0)) in
  xs (run ctx_sw_restore s) ra = load 8 (cmem s) (u64 (b + 120)) /\
  xs (run ctx_sw_restore s) sp = u64 (b + 128) /\ cmem (run ctx_sw_restore s) = cmem s.
Proof. split_and!; reflexivity. Qed.

(** C28. [ctx_sw] returns to its caller: when a process that was switched out is
    switched in again, its stack pointer, return address, [gp], [tp] and
    [s0]..[s11] are what they were when it called [ctx_sw], provided that its
    saved frame and its saved stack pointer were left alone. *)
Theorem ctx_sw_returns s s2 :
  switched_back s s2 -> forall r, r ∈ callee_saved -> xs (run ctx_sw s2) r = xs s r.
Proof.
  intros [[Hok Hok2] (Hr1 & Hr2 & Ha1 & Ha2) [Hd1 Hd2] (D1 & D2 & D3 & D4) Ht HK] r Hr.
  unfold ctx_sw in *. rewrite run_app, ctx_restore_mem in HK. rewrite run_app.
  destruct (ctx_save_spec s Hok Hr1 Ha1 Hd1) as (_ & _ & HF & Hl & _). revert HK HF Hl.
  generalize (run ctx_sw_save s). intros n1 HK HF Hl.
  destruct (ctx_save_spec s2 Hok2 Hr2 Ha2 Hd2) as (Ex & Ec & _ & _ & HU).
  pose proof (proj1 Hok sp) as Hrs. pose proof (proj1 Hok a0) as Hra.
  pose proof (proj1 Hok2 sp) as Hrs2. pose proof (proj1 Hok2 a0) as Hra2.
  assert (cpu_ok (run ctx_sw_save s2)) as Hok3.
  { split; [|rewrite Ec; apply Hok2]. intros r'. destruct (decide (r' = sp)) as [->|Hne].
    - change (xs (run ctx_sw_save s2) sp) with (u64 (xs s2 sp + -128)). apply u64_range.
    - rewrite Ex by done. apply Hok2. }
  revert Ex Ec HU Hok3. generalize (run ctx_sw_save s2). intros n2 Ex Ec HU Hok3.
  assert (xs n2 a1 = xs s a0) as E1 by (by rewrite Ex).
  assert (forall a, inrng (xs s sp - 128) 128 a \/ inrng (xs s a0) 8 a -> cmem n2 !!! a = cmem n1 !!! a) as Hkeep.
  { intros a Ha. rewrite (HU a) by (clear -Ha D1 D2 D3 D4; rng). apply HK. tauto. }
  destruct (ctx_restore_spec n2 (xs s sp - 128) (xs s) Hok3) as (Esp & Ein & _).
  - by rewrite E1.
  - rewrite E1, <-Hl. apply load_ext. intros a Ha. apply Hkeep. by right.
  - lia.
  - intros o v Hv. rewrite <-(HF o v Hv). apply load_ext. intros a Ha. apply Hkeep. left.
    pose proof ctx_offs as [_ HO]. rewrite app_nil_r, Forall_forall in HO.
    specialize (HO o). rewrite <-Permutation_rev in Hv.
    apply list_elem_of_fmap in Hv as ([r' o'] & E & Hx). simpl in E. injection E as -> ->.
    destruct HO as (? & ? & _); [|rng]. rewrite <-Permutation_rev.
    apply list_elem_of_fmap. by exists (r', o').
  - apply elem_of_cons in Hr as [->|Hr]; [rewrite Esp; lia|by apply Ein].
Qed.

(** ** Traps *)

(** Words stored one after the other. *)
Definition store_words (b : Z) (ws : list (Z * Z)) (m : mem) : mem :=
  fold_left (fun m ov => store 8 m (u64 (b + ov.1)) ov.2) ws m.

Lemma store_words_spec b n ws ws0 m :
  0 <= b -> b + n <= 2 ^ 64 -> offs_ok n (rev ws.*1 ++ ws0.*1) ->
  Forall (fun ov => 0 <= ov.2 < 2 ^ 64) ws -> frame m b ws0 ->
  frame (store_words b ws m) b (rev ws ++ ws0) /\ unch (inrng b n) m (store_words b ws m).
Proof.
  intros H0 Hn. revert ws0 m. induction ws as [|[o v] ws IH]; intros ws0 m HO HV HF; [done|].
  apply Forall_cons in HV as [Hv HV]. simpl in Hv. simpl in HO. rewrite <-app_assoc in HO. simpl in HO.
  assert (offs_ok n (o :: ws0.*1)) as HO1.
  { destruct HO as [HN HFo]. apply NoDup_app in HN as (_ & _ & HN). by apply Forall_app in HFo as [_ ?]. }
  destruct (offs_ok_cons _ _ _ HO1) as (_ & Ho0 & Hon & _).
  change (store_words b ((o, v) :: ws) m) with (store_words b ws (store 8 m (u64 (b + o)) v)).
  rewrite u64_small by lia.
  destruct (IH ((o, v) :: ws0) (store 8 m (b + o) v)) as [HF' HU]; [exact HO|done| |].
  - by eapply frame_store.
  - split; [simpl; rewrite <-app_assoc; exact HF'|].
    etrans; [|exact HU]. eapply unch_mono; [|apply (store_unch 8)]. rng.
Qed.

(** What the trap entry saves, in order, as offsets into the frame. *)
Definition trap_words (s : cpu) : list (Z * Z) :=
  [(112, xs s a0); (120, xs s a1); (128, xs s a2); (136, xs s a3); (144, xs s a4);
   (152, xs s a5); (160, xs s a6); (168, xs s a7);
   (80, cs s sstatus); (88, cs s sepc); (96, cs s scause); (104, cs s stval);
   (72, xs s sp); (64, xs s ra); (56, xs s t0); (48, xs s t1); (40, xs s t2); (32, xs s t3);
   (24, xs s t4); (16, xs s t5); (8, xs s t6); (0, cs s satp)].

Definition trap_base (s : cpu) : Z := u64 (cs s sscratch + -176).

Lemma trampoline_mem s : cmem (run trampoline s) = store_words (trap_base s) (trap_words s) (cmem s).
Proof. reflexivity. Qed.

(** The registers that the trap entry does not save: the handler, a C function,
    keeps them. *)
Definition handler_saved : list reg := [gp; tp; s0; s1; s2; s3; s4; s5; s6; s7; s8; s9; s10; s11].

Lemma trampoline_regs s :
  xs (run trampoline s) sp = trap_base s /\ xs (run trampoline s) a0 = u64 (trap_base s + 80) /\
  cs (run trampoline s) satp = 0 /\
  forall r, r ∈ handler_saved -> xs (run trampoline s) r = xs s r.
Proof.
  split_and!; [reflexivity..|]. intros r Hr.
  unfold handler_saved in Hr. rewrite !elem_of_cons, elem_of_nil in Hr.
  repeat destruct Hr as [->|Hr]; reflexivity || done.
Qed.

(** The registers [proc_entry] loads, with their offsets. *)
Definition entry_regs : list (reg * Z) :=
  [(t6, 8); (t5, 16); (t4, 24); (t3, 32); (t2, 40); (t1, 48); (t0, 56); (ra, 64); (sp, 72);
   (a0, 112); (a1, 120); (a2, 128); (a3, 136); (a4, 144); (a5, 152); (a6, 160); (a7, 168)].

Lemma proc_entry_regs s :
  let word o := load 8 (cmem s) (u64 (xs s sp + o)) in
  let s' := run proc_entry s in
  (forall r o, (r, o) ∈ entry_regs -> xs s' r = word o) /\
  (forall r, r ∈ handler_saved -> xs s' r = xs s r) /\
  cs s' satp = word 0 /\ cs s' sstatus = word 80 /\ cs s' sepc = word 88 /\
  cs s' sscratch = u64 (xs s sp + 176) /\ cmem s' = cmem s.
Proof.
  cbv zeta. split_and!; [| |reflexivity..].
  - intros r o H. unfold entry_regs in H. rewrite !elem_of_cons, elem_of_nil in H.
    repeat destruct H as [[= -> ->]|H]; reflexivity || done.
  - intros r Hr. unfold handler_saved in Hr. rewrite !elem_of_cons, elem_of_nil in Hr.
    repeat destruct Hr as [->|Hr]; reflexivity || done.
Qed.

(** The offsets of the frame. *)
Definition trap_offs : list Z :=
  [112; 120; 128; 136; 144; 152; 160; 168; 80; 88; 96; 104; 72; 64; 56; 48; 40; 32; 24; 16; 8; 0].

Lemma trap_offs_ok : offs_ok 176 (rev trap_offs ++ []).
Proof. by compute_done. Qed.

Lemma trap_frame_spec s :
  cpu_ok s -> 176 <= cs s sscratch ->
  trap_base s = cs s sscratch - 176 /\
  frame (cmem (run trampoline s)) (cs s sscratch - 176) (rev (trap_words s)) /\
  unch (inrng (cs s sscratch - 176) 176) (cmem s) (cmem (run trampoline s)).
Proof.
  intros Hok Hk. pose proof (proj2 Hok sscratch) as Hr.
  assert (trap_base s = cs s sscratch - 176) as E by (apply u64_small; lia).
  split; [done|]. rewrite trampoline_mem, E.
  destruct (store_words_spec (cs s sscratch - 176) 176 (trap_words s) [] (cmem s)) as [HF HU];
    [lia|lia|exact trap_offs_ok| |by intros o v ?%not_elem_of_nil|].
  - repeat constructor; simpl; first [apply Hok|apply (proj2 Hok)].
  - rewrite app_nil_r in HF. done.
Qed.

(** A trap handled by a C function: from [s1], after the trap entry, to [s2]. *)
Record handler_ran (s s1 s2 : cpu) (ret pc : Z) : Prop := {
  hr_sp : xs s2 sp = xs s1 sp;
  hr_saved r : r ∈ handler_saved -> xs s2 r = xs s1 r;
  (** of the frame, it may change [a0] and [sepc] *)
  hr_frame : forall a, inrng (trap_base s) 176 a -> ~ inrng (trap_base s + 112) 8 a ->
    ~ inrng (trap_base s + 88) 8 a -> cmem s2 !!! a = cmem s1 !!! a;
  hr_ret : load 8 (cmem s2) (trap_base s + 112) = ret;
  hr_pc : load 8 (cmem s2) (trap_base s + 88) = pc;
}.

(** Membership in a concrete list. *)
Ltac in_list := solve [left | right; in_list].

(** C14. A trap is transparent: after the trap entry, a handler that keeps the
    registers a C function must keep, and the trap exit, every register of the
    interrupted program has its old value, except [a0], which has the handler's
    result; [satp], [sstatus] and [sscratch] are restored and [sepc] is the
    frame's. *)
Theorem trap_transparent s s2 ret pc :
  cpu_ok s -> 176 <= cs s sscratch -> handler_ran s (run trampoline s) s2 ret pc ->
  let s' := run proc_entry s2 in
  (forall r, r <> zero -> r <> a0 -> xs s' r = xs s r) /\ xs s' a0 = ret /\
  cs s' sepc = pc /\ cs s' sstatus = cs s sstatus /\ cs s' satp = cs s satp /\
  cs s' sscratch = cs s sscratch.
Proof.
  intros Hok Hk [Esp Esv HF Hret Hpc]. cbv zeta.
  pose proof (proj2 Hok sscratch) as Hr.
  destruct (trap_frame_spec s Hok Hk) as (Eb & HFr & _).
  destruct (trampoline_regs s) as (Tsp & _ & _ & Tsv).
  rewrite Tsp, Eb in Esp. rewrite Eb in HF, Hret, Hpc. set (b := cs s sscratch - 176) in *.
  assert (forall o v, (o, v) ∈ trap_words s -> o <> 112 -> o <> 88 ->
    load 8 (cmem s2) (u64 (b + o)) = v) as Hword.
  { intros o v Hv H1 H2. pose proof trap_offs_ok as [_ HO]. rewrite app_nil_r, Forall_forall in HO.
    assert (o ∈ rev trap_offs) as Ho.
    { rewrite <-Permutation_rev. change trap_offs with (trap_words s).*1.
      apply list_elem_of_fmap. by exists (o, v). }
    specialize (HO o Ho). rewrite u64_small by (unfold b; lia).
    rewrite <-(HFr o v) by (by rewrite <-Permutation_rev). apply load_ext. intros a Ha.
    pose proof (Z.div_mod o 8). apply HF; unfold inrng in *; lia. }
  destruct (proc_entry_regs s2) as (Hin & Hsv & Esatp & Esst & Esepc & Essc & _).
  revert Hin Hsv Esatp Esst Esepc Essc. generalize (run proc_entry s2).
  intros s' Hin Hsv Esatp Esst Esepc Essc. rewrite Esp in *. split_and!.
  - intros r Hz Ha0. destruct (decide (r ∈ handler_saved)) as [Hs|Hs].
    + rewrite Hsv, Esv by done. by apply Tsv.
    + destruct r; try done; try (exfalso; apply Hs; by compute_done);
        (erewrite Hin by in_list); apply Hword; lia || in_list.
  - rewrite (Hin a0 112), u64_small by (in_list || (unfold b; lia)). done.
  - rewrite Esepc, u64_small by (unfold b; lia). done.
  - rewrite Esst. apply Hword; lia || in_list.
  - rewrite Esatp. apply Hword; lia || in_list.
  - rewrite Essc. unfold b. replace (cs s sscratch - 176 + 176) with (cs s sscratch) by lia.
    apply u64_small. lia.
Qed.

(** ** Concrete machines *)

Module Demo.
(** A process at stack pointer 0x10000 that stores its stack pointer at 0x1000. *)
Definition demo_regs (r : reg) : Z :=
  match r with sp => 0x10000 | a0 => 0x1000 | a1 => 0x2000 | s0 => 7 | ra => 0x80200100 | _ => 1 end.
Definition demo_csrs (c : csr) : Z :=
  match c with sscratch => 0x30000 | sepc => 0x100 | satp => 2 ^ 63 + 5 | _ => 0 end.
Definition cpu_a : cpu := mkCpu demo_regs demo_csrs ∅.

(** Another process, which switches back to it. *)
Definition regs_b (r : reg) : Z :=
  match r with sp => 0x20000 | a0 => 0x3000 | a1 => 0x1000 | _ => 2 end.
Definition cpu_b : cpu := mkCpu regs_b demo_csrs (cmem (run ctx_sw cpu_a)).

Lemma cpu_a_ok : cpu_ok cpu_a.
Proof. split; intros []; simpl; lia. Qed.

Lemma regs_b_back m :
  m = cmem (run ctx_sw cpu_a) -> switched_back cpu_a (mkCpu regs_b demo_csrs m).
Proof.
  intros E. split; cbn [cmem xs regs_b cpu_a demo_regs];
    [|lia|unfold disj; lia|unfold disj; lia|done|by rewrite <-E].
  split; [apply cpu_a_ok|split; intros []; simpl; lia].
Qed.

Lemma cpu_b_back : switched_back cpu_a cpu_b.
Proof. exact (regs_b_back _ eq_refl). Qed.

Lemma ctx_sw_returns_witness : xs (run ctx_sw cpu_b) s0 = 7 /\ xs (run ctx_sw cpu_b) sp = 0x10000.
Proof.
  split; [exact (ctx_sw_returns cpu_a cpu_b cpu_b_back s0 ltac:(in_list))|
          exact (ctx_sw_returns cpu_a cpu_b cpu_b_back sp ltac:(in_list))].
Defined.

(** A handler that only writes its result and the new [sepc]. *)
Definition handled (s s1 : cpu) (ret pc : Z) : cpu :=
  mkCpu (xs s1) (cs s1)
    (store 8 (store 8 (cmem s1) (trap_base s + 112) ret) (trap_base s + 88) pc).

Lemma handled_ran s s1 ret pc :
  0 <= ret < 2 ^ 64 -> 0 <= pc < 2 ^ 64 -> handler_ran s s1 (handled s s1 ret pc) ret pc.
Proof.
  intros Hr Hp. split; unfold handled; cbn [xs cmem]; [done|done|..].
  - intros a Ha H1 H2. rewrite (store_unch 8 _ (trap_base s + 88) _ a H2).
    by rewrite (store_unch 8 _ (trap_base s + 112) _ a H1).
  - rewrite load_store_ne, load8_store8 by (unfold disj; lia). by apply u64_small.
  - rewrite load8_store8. by apply u64_small.
Qed.

(** A handler that returns 42 and skips the instruction. *)
Definition cpu_h : cpu := handled cpu_a (run trampoline cpu_a) 42 0x104.

Lemma trap_transparent_witness :
  let s' := run proc_entry cpu_h in
  xs s' a0 = 42 /\ xs s' sp = 0x10000 /\ cs s' sepc = 0x104 /\ cs s' sscratch = 0x30000.
Proof.
  destruct (trap_transparent cpu_a cpu_h 42 0x104 cpu_a_ok ltac:(simpl; lia)
    (handled_ran cpu_a (run trampoline cpu_a) 42 0x104 ltac:(lia) ltac:(lia)))
    as (Hr & Ha & Hp & _ & _ & Hs).
  split; [exact Ha|split; [exact (Hr sp ltac:(done) ltac:(done))|split; [exact Hp|exact Hs]]].
Defined.
End Demo.
