(* ===== verification/ProcStart.v ===== *)
(** * How a process starts

    [proc_fill_stack] builds the two frames that [ctx_sw] and [proc_entry] take
    down when the process is first switched to. *)

From S2P Require Import Prelude.
From S2P Require Import Mem.
From S2P Require Import Layout.
From S2P Require Import Vm.
From S2P Require Import Proc.
From S2P Require Import Asm.

Section start.
Context `{C : Code}.
Context (sst : Z) (m : mem) (proc entry usp argc argv top : Z).
Hypothesis Hcode : 0 <= fn_proc_entry < 2 ^ 64.
Hypothesis Hargs : 0 <= sst < 2 ^ 64 /\ 0 <= entry < 2 ^ 64 /\ 0 <= usp < 2 ^ 64 /\ 0 <= argv < 2 ^ 64.
Hypothesis Hproc : 0 <= proc /\ proc + PROC_SIZE <= 2 ^ 64.
(** [proc->sp] is the top of the kernel stack, which is apart from [*proc]. *)
Hypothesis Hsp : proc_sp m proc = top.
Hypothesis Htop : 304 <= top < 2 ^ 64.
Hypothesis Hsep : disj (top - 304) 304 proc PROC_SIZE.

(** The status register, the page table register and the frame. *)
Definition start_sstatus : Z :=
  if proc_flags m proc &? PROC_FLAG_KERN then Z.lor (Z.lor sst CSR_SSTATUS_SPIE) CSR_SSTATUS_SPP
  else Z.ldiff (Z.lor sst CSR_SSTATUS_SPIE) CSR_SSTATUS_SPP.

Definition start_satp : Z := Z.lor (Z.shiftl 8 60) (proc_page_table m proc / PAGE_SIZE).

Definition start_words : list (Z * Z) :=
  [(31 * 8, argv); (30 * 8, u64 argc); (27 * 8, entry); (26 * 8, start_sstatus);
   (25 * 8, Z.ldiff usp 0xF); (16 * 8, start_satp); (15 * 8, fn_proc_entry)].

Definition start_offs : list Z := [248; 240; 216; 208; 200; 128; 120].

Lemma start_offs_ok : offs_ok 304 (rev start_offs ++ []).
Proof. by compute_done. Qed.

Lemma slot_eq n i v :
  proc_sp n proc = top - 304 -> 0 <= i < 38 ->
  set_sp_slot n proc i v = store 8 n (u64 (top - 304 + i * 8)) v /\
  proc_sp (set_sp_slot n proc i v) proc = top - 304 /\
  proc_page_table (set_sp_slot n proc i v) proc = proc_page_table n proc.
Proof.
  intros E Hi. unfold set_sp_slot, proc_sp, proc_page_table in *. rewrite E.
  unfold PROC_SIZE in *. rewrite u64_small by lia.
  split_and!; [done|rewrite <-E..]; apply load_store_ne; unfold disj in *; lia.
Qed.

(** The stores of [proc_fill_stack]. *)
Lemma fill_stack_eq :
  proc_fill_stack sst m proc entry usp argc argv =
  store_words (top - 304) start_words (set_proc_sp m proc (top - 304)).
Proof.
  unfold proc_fill_stack. fold start_sstatus. rewrite Hsp, u64_small by lia.
  change (top - 38 * 8) with (top - 304).
  assert (proc_sp (set_proc_sp m proc (top - 304)) proc = top - 304) as E0.
  { unfold proc_sp, set_proc_sp. rewrite load8_store8. apply u64_small. lia. }
  assert (proc_page_table (set_proc_sp m proc (top - 304)) proc = proc_page_table m proc) as P0.
  { apply load_store_ne. unfold disj. lia. }
  revert E0 P0. generalize (set_proc_sp m proc (top - 304)). intros n0 E0 P0. cbv zeta.
  destruct (slot_eq n0 31 argv E0 ltac:(lia)) as (S1 & E1 & P1).
  destruct (slot_eq _ 30 (u64 argc) E1 ltac:(lia)) as (S2 & E2 & P2).
  destruct (slot_eq _ 27 entry E2 ltac:(lia)) as (S3 & E3 & P3).
  destruct (slot_eq _ 26 start_sstatus E3 ltac:(lia)) as (S4 & E4 & P4).
  destruct (slot_eq _ 25 (Z.ldiff usp 0xF) E4 ltac:(lia)) as (S5 & E5 & P5).
  rewrite P5, P4, P3, P2, P1, P0. fold start_satp.
  destruct (slot_eq _ 16 start_satp E5 ltac:(lia)) as (S6 & E6 & _).
  destruct (slot_eq _ 15 fn_proc_entry E6 ltac:(lia)) as (S7 & _ & _).
  rewrite S7, S6, S5, S4, S3, S2, S1. reflexivity.
Qed.

Lemma start_words_range : Forall (fun ov => 0 <= ov.2 < 2 ^ 64) start_words.
Proof.
  destruct Hargs as (H1 & H2 & H3 & H4).
  assert (forall x y, 0 <= x < 2 ^ 64 -> 0 <= y < 2 ^ 64 -> 0 <= Z.lor x y < 2 ^ 64) as Hlor.
  { intros x y Hx Hy. apply small_bits; [lia|]. intros k Hk. rewrite Z.lor_spec.
    by rewrite (bits_small x 64 k), (bits_small y 64 k) by lia. }
  assert (forall x y, 0 <= x < 2 ^ 64 -> 0 <= Z.ldiff x y < 2 ^ 64) as Hldiff.
  { intros x y Hx. apply small_bits; [lia|]. intros k Hk. rewrite Z.ldiff_spec.
    by rewrite (bits_small x 64 k) by lia. }
  pose proof (load8_range m (proc + 1680)) as Hpt.
  unfold start_words, start_sstatus, start_satp, proc_page_table, CSR_SSTATUS_SPIE, CSR_SSTATUS_SPP, PAGE_SIZE.
  repeat (apply Forall_cons; split; [cbn [snd]|]); [done|apply u64_range|done| |by apply Hldiff| |done|by apply Forall_nil].
  - destruct (proc_flags m proc &? PROC_FLAG_KERN); [apply Hlor; [apply Hlor|]; lia|].
    apply Hldiff, Hlor; lia.
  - apply Hlor; [by vm_compute|]. split; [apply Z.div_pos; lia|].
    apply Z.div_lt_upper_bound; lia.
Qed.

(** The frame, the saved stack pointer, and nothing else. *)
Lemma fill_stack_spec :
  let m' := proc_fill_stack sst m proc entry usp argc argv in
  frame m' (top - 304) (rev start_words) /\ proc_sp m' proc = top - 304 /\
  unch (fun a => inrng (top - 304) 304 a \/ inrng (proc + 1704) 8 a) m m'.
Proof.
  cbv zeta. rewrite fill_stack_eq.
  destruct (store_words_spec (top - 304) 304 start_words [] (set_proc_sp m proc (top - 304)))
    as [HF HU]; [lia|lia|exact start_offs_ok|apply start_words_range|by intros o v ?%not_elem_of_nil|].
  rewrite app_nil_r in HF. split_and!; [done| |].
  - unfold proc_sp. rewrite (load_unch _ 8 _ _ _ HU) by (unfold PROC_SIZE in *; rng).
    unfold set_proc_sp. rewrite load8_store8. apply u64_small. lia.
  - etrans; [eapply unch_mono; [|apply (store_unch 8)]|eapply unch_mono; [|exact HU]]; [|tauto].
    intros a Ha. right. exact Ha.
Qed.

(** A frame word in a memory that has kept the frame. *)
Lemma start_word n o v :
  (forall a, inrng (top - 304) 304 a \/ inrng (proc + 1704) 8 a ->
     n !!! a = proc_fill_stack sst m proc entry usp argc argv !!! a) ->
  (o, v) ∈ start_words -> load 8 n (u64 (top - 304 + o)) = v.
Proof.
  intros HK Hv. destruct fill_stack_spec as (HF & _ & _).
  assert (o ∈ rev start_offs) as Ho.
  { rewrite <-Permutation_rev. change start_offs with start_words.*1.
    apply list_elem_of_fmap. by exists (o, v). }
  pose proof start_offs_ok as [_ HO]. rewrite app_nil_r, Forall_forall in HO. specialize (HO o Ho).
  rewrite u64_small by lia. rewrite <-(HF o v) by (by rewrite <-Permutation_rev).
  apply load_ext. intros a Ha. apply HK. left. rng.
Qed.

Lemma start_sp n :
  (forall a, inrng (top - 304) 304 a \/ inrng (proc + 1704) 8 a ->
     n !!! a = proc_fill_stack sst m proc entry usp argc argv !!! a) ->
  load 8 n (proc + 1704) = top - 304.
Proof.
  pose proof fill_stack_spec as HF. cbv zeta in HF. revert HF.
  generalize (proc_fill_stack sst m proc entry usp argc argv). intros m' (_ & E & _) HK.
  rewrite <-E. unfold proc_sp. apply load_ext. intros a Ha. apply HK. by right.
Qed.

(** The second half, from the state that [ctx_sw] returns in. *)
Lemma entry_from_frame (s1 : cpu) :
  xs s1 sp = top - 176 ->
  (forall o v, (o, v) ∈ start_words -> load 8 (cmem s1) (u64 (top - 304 + o)) = v) ->
  let s2 := run proc_entry s1 in
  cs s2 sepc = entry /\ xs s2 a0 = u64 argc /\ xs s2 a1 = argv /\ xs s2 sp = Z.ldiff usp 0xF /\
  cs s2 satp = start_satp /\ cs s2 sstatus = start_sstatus /\ cs s2 sscratch = top.
Proof.
  intros Es1 HW.
  assert (forall o v, (o + 128, v) ∈ start_words -> load 8 (cmem s1) (u64 (xs s1 sp + o)) = v) as HW1.
  { intros o v Hv. rewrite Es1, <-(HW _ v Hv). do 2 f_equal. lia. }
  destruct (proc_entry_regs s1) as (Hin & _ & Esatp & Esst & Esepc & Essc & _). cbv zeta.
  revert Hin Esatp Esst Esepc Essc. generalize (run proc_entry s1).
  intros s2 Hin Esatp Esst Esepc Essc.
  split_and!.
  - rewrite Esepc. apply HW1. in_list.
  - rewrite (Hin a0 112) by in_list. apply HW1. in_list.
  - rewrite (Hin a1 120) by in_list. apply HW1. in_list.
  - rewrite (Hin sp 72) by in_list. apply HW1. in_list.
  - rewrite Esatp. apply HW1. in_list.
  - rewrite Esst. apply HW1. in_list.
  - rewrite Essc, Es1, u64_small by lia. lia.
Qed.

(** C13. The first switch to a process: whatever the state of the processor, when
    [ctx_sw] loads the stack pointer that [proc_fill_stack] left in [proc->sp],
    it returns to [proc_entry], and [proc_entry] enters the program at [entry]
    with [a0 = argc], [a1 = argv], the 16-byte aligned stack pointer, the
    process's page table and status, and the top of the kernel stack in
    [sscratch] for the next trap. *)
Theorem new_process_starts (s : cpu) :
  xs s a1 = proc + 1704 ->
  (forall a, inrng (top - 304) 304 a \/ inrng (proc + 1704) 8 a ->
     cmem s !!! a = proc_fill_stack sst m proc entry usp argc argv !!! a) ->
  let s1 := run ctx_sw_restore s in let s2 := run proc_entry s1 in
  xs s1 ra = fn_proc_entry /\
  cs s2 sepc = entry /\ xs s2 a0 = u64 argc /\ xs s2 a1 = argv /\ xs s2 sp = Z.ldiff usp 0xF /\
  cs s2 satp = start_satp /\ cs s2 sstatus = start_sstatus /\ cs s2 sscratch = top.
Proof.
  intros Ha1 HK. cbv zeta. pose proof (fun o v => start_word (cmem s) o v HK) as HW.
  pose proof (start_sp (cmem s) HK) as Esp.
  assert (u64 (xs s a1 + 0) = proc + 1704) as Ea.
  { rewrite Ha1, Z.add_0_r. apply u64_small. unfold PROC_SIZE in *. lia. }
  pose proof (ctx_restore_regs s) as HR. cbv zeta in HR. revert HR.
  generalize (run ctx_sw_restore s). intros s1 (Era & Es1 & Em1). rewrite Ea, Esp in Era, Es1.
  rewrite u64_small in Es1 by lia.
  split; [rewrite Era; apply HW; in_list|].
  pose proof (entry_from_frame s1) as HE. cbv zeta in HE. revert HE.
  generalize (run proc_entry s1). intros s2 HE.
  apply HE; [rewrite Es1; lia|]. rewrite Em1. exact HW.
Qed.
End start.

(** ** A process on the [virt] platform *)

Module Demo.
#[local] Instance demo_code : Code := {|
  fn_proc_entry := 0x802030c0; fn_idle_task := 0x80201000; fn_sched_preempt := 0x80201100;
  fn_wakeup_proc := 0x80201200; fn_uart_isr := 0x80201300;
  obj_TTY_DRIVER := 0x80207000; obj_UART_DRIVER := 0x80207010;
|}.

(** A [proc_t] at 0x80300000 whose kernel stack ends at 0x80302000. *)
Definition proc_mem : mem := set_proc_sp ∅ 0x80300000 0x80302000.
Definition filled : mem := proc_fill_stack 0 proc_mem 0x80300000 0x1010c 0x80303000 2 0x80302fe8.
Definition cpu_any (m : mem) : cpu :=
  mkCpu (fun r => match r with a1 => 0x80300000 + 1704 | _ => 1 end) (fun _ => 0) m.

Lemma proc_mem_sp : proc_sp proc_mem 0x80300000 = 0x80302000.
Proof. unfold proc_sp, proc_mem, set_proc_sp. rewrite load8_store8. reflexivity. Qed.

Lemma new_process_starts_witness :
  let s1 := run ctx_sw_restore (cpu_any filled) in let s2 := run proc_entry s1 in
  xs s1 ra = 0x802030c0 /\
  cs s2 sepc = 0x1010c /\ xs s2 a0 = u64 2 /\ xs s2 a1 = 0x80302fe8 /\
  xs s2 sp = Z.ldiff 0x80303000 0xF /\
  cs s2 satp = start_satp proc_mem 0x80300000 /\ cs s2 sstatus = start_sstatus 0 proc_mem 0x80300000 /\
  cs s2 sscratch = 0x80302000.
Proof.
  refine (new_process_starts 0 proc_mem 0x80300000 0x1010c 0x80303000 2 0x80302fe8 0x80302000
            _ _ _ proc_mem_sp _ _ (cpu_any filled) _ _).
  - by compute_done.
  - lia.
  - unfold PROC_SIZE. lia.
  - lia.
  - unfold disj, PROC_SIZE. lia.
  - reflexivity.
  - intros a _. reflexivity.
Defined.
End Demo.
