(* ===== verification/Kern.v ===== *)
(** * The kernel's state and its effects

    Kernel code runs with interrupts off, so between two context switches a call
    is a function on the state of the kernel.  [proc_ctx_sw] suspends the caller
    on its kernel stack until some process switches back to it; its effect is
    the constructor [Switch], whose last argument is what is left to run.

    The state has the memory, the static variables that no pointer refers to,
    and the hart: registers, firmware and devices.  Devices are a parameter:
    loads and stores at register addresses and the [time] register. *)

From S2P Require Import Prelude.
From S2P Require Import Mem.
From S2P Require Import Sbi.
From S2P Require Import Proc.

Class Machine := {
  mach : Type;
  (** a load or store of [n] bytes at a device register *)
  mmio_load : nat -> mach -> Z -> mach * Z;
  mmio_store : nat -> mach -> Z -> Z -> mach;
  (** [rdtime] *)
  mach_time : mach -> mach * Z;
}.

(** [isr_t] of [src/intr.c]. *)
Record isr_t := mkIsr { isr_irq : Z; isr_isr : Z; isr_data : Z }.

(** [ctrl_blk_t] of [src/drivers/uart.c]. *)
Record ctrl_blk_t := mkCtrl { cb_addr : Z; cb_reg_size : Z }.

(** The static variables of [src/module/log.c]. *)
Record log_state := mkLog { lg_inited : bool; lg_buf : list byte; lg_head : Z; lg_tail : Z }.

(** The static variables of the drivers: [isrs] ([nr_isrs] is its length),
    [tty_ctrl_blks], the [ctrl_blks] of the UART driver ([nr_devs] is its
    length), the PLIC's [base_addr], and the log. *)
Record drivers := mkDrv {
  d_isrs : list isr_t;
  d_ttys : list Z;
  d_uarts : list ctrl_blk_t;
  d_plic : Z;
  d_log : log_state;
}.

Section state.
Context `{FW : Firmware} `{MC : Machine}.

Record hart := mkHart { h_fw : fw; h_mach : mach; h_sie : Z; h_stvec : Z; h_sstatus : Z }.

Record kst := mkK {
  k_mem : mem;
  k_hart : hart;
  k_curr : Z;
  k_procs : ptable;
  k_drv : drivers;
}.

Definition set_mem (m : mem) (k : kst) : kst := mkK m (k_hart k) (k_curr k) (k_procs k) (k_drv k).
Definition set_hart (h : hart) (k : kst) : kst := mkK (k_mem k) h (k_curr k) (k_procs k) (k_drv k).
Definition set_curr (p : Z) (k : kst) : kst := mkK (k_mem k) (k_hart k) p (k_procs k) (k_drv k).
Definition set_procs (t : ptable) (k : kst) : kst := mkK (k_mem k) (k_hart k) (k_curr k) t (k_drv k).
Definition set_drv (d : drivers) (k : kst) : kst := mkK (k_mem k) (k_hart k) (k_curr k) (k_procs k) d.
Definition set_fw (f : fw) (k : kst) : kst :=
  let h := k_hart k in set_hart (mkHart f (h_mach h) (h_sie h) (h_stvec h) (h_sstatus h)) k.
Definition set_mach (c : mach) (k : kst) : kst :=
  let h := k_hart k in set_hart (mkHart (h_fw h) c (h_sie h) (h_stvec h) (h_sstatus h)) k.

(** Why the kernel stops: [pm_hang] waits for ever, after a panic or on
    request; [Stuck] is behaviour the source leaves undefined (a call through a
    pointer to no function, [unreachable], an index out of range), or a loop
    that does not end. *)
Inductive stop := Hang | Stuck.

Inductive outcome (A : Type) : Type :=
| Ret (k : kst) (a : A)
| Switch (k : kst) (old_proc new_proc : Z) (rest : kst -> outcome A)
| Stop (k : kst) (why : stop).

#[global] Arguments Ret {A}.
#[global] Arguments Switch {A}.
#[global] Arguments Stop {A}.

Definition M (A : Type) : Type := kst -> outcome A.

Fixpoint bind_outcome {A B : Type} (o : outcome A) (f : A -> M B) : outcome B :=
  match o with
  | Ret k a => f a k
  | Switch k old new rest => Switch k old new (fun k' => bind_outcome (rest k') f)
  | Stop k why => Stop k why
  end.

Definition ret {A : Type} (a : A) : M A := fun k => Ret k a.
Definition bind {A B : Type} (c : M A) (f : A -> M B) : M B := fun k => bind_outcome (c k) f.
Definition halt {A : Type} (why : stop) : M A := fun k => Stop k why.

(** Reading and updating parts of the state. *)
Definition gets {A : Type} (f : kst -> A) : M A := fun k => Ret k (f k).
Definition modify (f : kst -> kst) : M unit := fun k => Ret (f k) tt.
Definition mem_of {A : Type} (f : mem -> A) : M A := gets (fun k => f (k_mem k)).
Definition upd_mem (f : mem -> mem) : M unit := modify (fun k => set_mem (f (k_mem k)) k).
Definition curr_proc : M Z := gets k_curr.

(** A function on the memory that also returns a value. *)
Definition run_mem {A : Type} (f : mem -> mem * A) : M A :=
  fun k => let '(m, a) := f (k_mem k) in Ret (set_mem m k) a.

(** A function on memory and firmware that may panic. *)
Definition run_fw {A : Type} (f : mem -> fw -> option (mem * fw * A)) : M A :=
  fun k => match f (k_mem k) (h_fw (k_hart k)) with
           | Some (m, fw, a) => Ret (set_fw fw (set_mem m k)) a
           | None => Stop k Hang
           end.

(** A value that has to be there. *)
Definition the {A : Type} (o : option A) : M A :=
  match o with Some a => ret a | None => halt Stuck end.

(** Device registers and the clock. *)
Definition dev_load (n : nat) (a : Z) : M Z := fun k =>
  let '(c, v) := mmio_load n (h_mach (k_hart k)) a in Ret (set_mach c k) v.
Definition dev_store (n : nat) (a v : Z) : M unit :=
  modify (fun k => set_mach (mmio_store n (h_mach (k_hart k)) a v) k).

(** [time] of [src/arch/riscv/time.c] *)
Definition time : M Z := fun k =>
  let '(c, v) := mach_time (h_mach (k_hart k)) in Ret (set_mach c k) v.
End state.

Declare Scope kern_scope.
Delimit Scope kern_scope with kern.
Notation "'let*' x := c 'in' d" := (bind c (fun x => d))
  (at level 10, x name, d at level 200) : kern_scope.
Notation "c ';*' d" := (bind c (fun _ => d)) (at level 100, right associativity) : kern_scope.

(** [for (i = lo; i < hi; i++) body], leaving the loop when the body returns a
    value. *)
Fixpoint for_each `{FW : Firmware} `{MC : Machine} {R : Type} (ixs : list Z) (body : Z -> M (option R)) : M (option R) :=
  match ixs with
  | [] => ret None
  | i :: ixs => bind (body i) (fun r => match r with Some _ => ret r | None => for_each ixs body end)
  end.

(** A loop that may suspend its process in every iteration, with the number of
    iterations bounded by [n]. *)
Fixpoint loop_upto `{FW : Firmware} `{MC : Machine} {R : Type} (n : nat) (body : M (option R)) : M R :=
  match n with
  | O => halt Stuck
  | S n => bind body (fun r => match r with Some r => ret r | None => loop_upto n body end)
  end.

(** ** Laws *)

Section laws.
Context `{FW : Firmware} `{MC : Machine}.

Lemma bind_ret {A B} (a : A) (f : A -> M B) k : bind (ret a) f k = f a k.
Proof. done. Qed.

Lemma bind_gets {A B} (f : kst -> A) (g : A -> M B) k : bind (gets f) g k = g (f k) k.
Proof. done. Qed.

Lemma bind_mem {A B} (f : mem -> A) (g : A -> M B) k : bind (mem_of f) g k = g (f (k_mem k)) k.
Proof. done. Qed.

Lemma bind_upd {B} (f : mem -> mem) (g : unit -> M B) k :
  bind (upd_mem f) g k = g tt (set_mem (f (k_mem k)) k).
Proof. done. Qed.

Lemma bind_Ret {A B} (c : M A) (f : A -> M B) k k' a : c k = Ret k' a -> bind c f k = f a k'.
Proof. unfold bind. by intros ->. Qed.

Lemma bind_bind_Ret {A B D} (c : M A) (f : A -> M B) (g : B -> M D) k k' a :
  c k = Ret k' a -> bind (bind c f) g k = bind (f a) g k'.
Proof. unfold bind. by intros ->. Qed.
End laws.

(** A machine whose clock advances with every reading and whose registers all
    read [LSR_THRE]; it remembers what was written, the last write first. *)
Definition plain_mach : Machine := {|
  mach := Z * list (Z * Z);
  mmio_load := fun _ c a => (c, 0x20);
  mmio_store := fun _ c a v => (c.1, (a, v) :: c.2);
  mach_time := fun c => ((c.1 + 1, c.2), c.1);
|}.
