(* ===== verification/Sched.v ===== *)
(** * The scheduler: [src/sched.c], and [src/sync/sem.c] on top of it

    [sched_update_state] and [sched_resched] call each other.  The call from
    [sched_update_state] is only made for a state in which the process cannot
    run, the calls from [sched_resched] only for READY and CURR, so the
    recursion is one level deep: [sched_update_body] has the inner call as a
    parameter, and the equations of the source are lemmas. *)

From S2P Require Import Prelude.
From S2P Require Import Mem.
From S2P Require Import DList.
From S2P Require Import Layout.
From S2P Require Import Pages.
From S2P Require Import Sbi.
From S2P Require Import Timer.
From S2P Require Import Proc.
From S2P Require Import Kern.
#[local] Open Scope kern_scope.

Section code.
Context `{PA : PageAllocator} `{L : Layout} `{C : Code} `{FW : Firmware} `{MC : Machine}.

(** [proc_ctx_sw] of [src/proc.c]: [ctx_sw] comes back when a process switches
    to [old_proc]. *)
Definition proc_ctx_sw (old_proc new_proc : Z) : M unit :=
  fun k => Switch k old_proc new_proc (fun k' => Ret k' tt).

(** The first [switch] of [sched_update_state], on the old state. *)
Definition sched_leave (proc old : Z) : M unit :=
  if old =? PROC_STATE_READY then upd_mem (fun m => list_remove m (proc_node proc))
  else if old =? PROC_STATE_SLEEP
  then run_fw (fun m f => '(m, f) ← timer_cancel m f (proc_timer proc); Some (m, f, tt))
  else ret tt.

(** The second [switch], on the new state. *)
Definition sched_enter (resched : M unit) (proc state : Z) : M unit :=
  if state =? PROC_STATE_READY
  then upd_mem (fun m => list_push_front m sym_ready_queue (proc_node proc))
  else if state =? PROC_STATE_CURR then modify (set_curr proc)
  else if (state =? PROC_STATE_WAIT_SEM) || (state =? PROC_STATE_WAIT_CHILD)
          || (state =? PROC_STATE_SLEEP)
  then let* curr := curr_proc in if proc =? curr then resched else ret tt
  else if state =? PROC_STATE_ZOMBIE
  then
    let* curr := curr_proc in
    if proc =? curr then modify (set_curr nullptr) ;* resched else ret tt
  else ret tt.

Definition sched_update_body (resched : M unit) (proc state : Z) : M unit :=
  let* old := mem_of (fun m => proc_state m proc) in
  if old =? state then ret tt
  else
    sched_leave proc old ;*
    upd_mem (fun m => set_proc_state m proc state) ;*
    sched_enter resched proc state.

Definition sched_resched_body (update_state : Z -> Z -> M unit) : M unit :=
  let* old_proc := curr_proc in
  let* old_state := mem_of (fun m => proc_state m old_proc) in
  (if negb (old_proc =? nullptr) && (old_state =? PROC_STATE_CURR)
   then update_state old_proc PROC_STATE_READY else ret tt) ;*
  let* new_proc := mem_of (fun m => list_first_entry m sym_ready_queue 0) in
  update_state new_proc PROC_STATE_CURR ;*
  proc_ctx_sw old_proc new_proc.

Definition sched_resched : M unit := sched_resched_body (sched_update_body (halt Stuck)).
Definition sched_update_state : Z -> Z -> M unit := sched_update_body sched_resched.

(** [timer_wait] with the clock of the hart. *)
Definition k_timer_wait (timer ns callback data : Z) : M unit :=
  let* now := time in
  run_fw (fun m f => '(m, f) ← timer_wait m f now timer ns callback data; Some (m, f, tt)).

Definition sched_preempt : M unit :=
  k_timer_wait sym_timer SCHED_TIMESLICE fn_sched_preempt nullptr ;* sched_resched.

(** [[[noreturn]]]: coming back is undefined. *)
Definition sched_start : M unit :=
  k_timer_wait sym_timer SCHED_TIMESLICE fn_sched_preempt nullptr ;* sched_resched ;* halt Stuck.

(** [proc_init] on the state of the kernel. *)
Definition k_proc_init (proc entry flags parent argc argv page_table : Z) : M Z := fun k =>
  match proc_init (h_sstatus (k_hart k)) (k_mem k) (k_procs k)
          proc entry flags parent argc argv page_table with
  | Some (m, t, res) => Ret (set_procs t (set_mem m k)) res
  | None => Stop k Stuck
  end.

(** The [init] of [src/sched.c]. *)
Definition sched_init : M Z :=
  let* res := k_proc_init sym_idle_proc fn_idle_task PROC_FLAG_KERN nullptr 0 nullptr nullptr in
  if res <? 0 then ret res
  else
    sched_update_state sym_idle_proc PROC_STATE_READY ;*
    upd_mem (fun m => timer_init m sym_timer) ;*
    ret 0.

(** ** Semaphores *)

Definition SEM_SIZE : Z := 24.
Definition sem_val (m : mem) (sem : Z) : Z := i32 (load 4 m (sem + 16)).
Definition set_sem_val (m : mem) (sem v : Z) : mem := store 4 m (sem + 16) v.

Definition sem_init (m : mem) (sem : Z) : mem := set_sem_val (list_init_head m sem) sem 0.

(** What [sem_deinit] and [sem_signal] do for a process that waits. *)
Definition sem_wake (sem : Z) : M unit :=
  let* proc := mem_of (fun m => list_first_entry m sem 0) in
  upd_mem (fun m => list_pop_front m sem) ;*
  sched_update_state proc PROC_STATE_READY.

(** [sem->val++], with the old value. *)
Definition sem_incr (sem : Z) : M Z :=
  run_mem (fun m => (set_sem_val m sem (i32 (sem_val m sem + 1)), sem_val m sem)).

(** The loop ends when the value has reached 0; [-val + 1] iterations. *)
Definition sem_deinit (sem : Z) : M unit :=
  let* val := mem_of (fun m => sem_val m sem) in
  loop_upto (Z.to_nat (Z.max 0 (- val) + 1))
    (let* val := sem_incr sem in
     if val <? 0 then sem_wake sem ;* ret None else ret (Some tt)).

Definition sem_wait (sem : Z) : M unit :=
  upd_mem (fun m => set_sem_val m sem (i32 (sem_val m sem - 1))) ;*
  let* val := mem_of (fun m => sem_val m sem) in
  if val <? 0
  then
    let* curr := curr_proc in
    upd_mem (fun m => list_push_back m sem (proc_node curr)) ;*
    sched_update_state curr PROC_STATE_WAIT_SEM
  else ret tt.

Definition sem_signal (sem : Z) : M unit :=
  let* val := sem_incr sem in
  if val <? 0 then sem_wake sem else ret tt.

Definition sem_signaln (sem n : Z) : M unit :=
  let* _ := for_each (R := unit) (seqZ 0 n) (fun _ => sem_signal sem ;* ret None) in ret tt.
End code.
