(* ===== verification/SchedRep.v ===== *)
(** * The scheduler's objects in memory

    [rep] relates the state of the kernel to the queues of processes (the ready
    queue and the queues of the semaphores), the states of the processes, the
    values of the semaphores and the timers.  A process is linked by its only
    [node], so no process is in two queues.  The lemmas say how each kind of
    store changes one of these and leaves the others. *)

From S2P Require Import Prelude.
From S2P Require Import Mem.
From S2P Require Import DList.
From S2P Require Import Layout.
From S2P Require Import Pages.
From S2P Require Import Sbi.
From S2P Require Import Timer.
From S2P Require Import Proc.
From S2P Require Import Kern.
From S2P Require Import Sched.

(** The abstract state; a queue is named by its head. *)
Record sys := mkSys {
  y_queue : Z -> list Z;
  y_state : Z -> Z;
  y_val : Z -> Z;
  y_curr : Z;
  y_timers : list tmr * list Z;
}.

Definition upd {A} (f : Z -> A) (x : Z) (v : A) : Z -> A := fun y => if decide (y = x) then v else f y.

Definition y_set_queue (h : Z) (q : list Z) (y : sys) : sys :=
  mkSys (upd (y_queue y) h q) (y_state y) (y_val y) (y_curr y) (y_timers y).
Definition y_set_state (p v : Z) (y : sys) : sys :=
  mkSys (y_queue y) (upd (y_state y) p v) (y_val y) (y_curr y) (y_timers y).
Definition y_set_val (s v : Z) (y : sys) : sys :=
  mkSys (y_queue y) (y_state y) (upd (y_val y) s v) (y_curr y) (y_timers y).
Definition y_set_curr (p : Z) (y : sys) : sys :=
  mkSys (y_queue y) (y_state y) (y_val y) p (y_timers y).
Definition y_set_timers (t : list tmr * list Z) (y : sys) : sys :=
  mkSys (y_queue y) (y_state y) (y_val y) (y_curr y) t.

Lemma upd_eq {A} (f : Z -> A) x v : upd f x v x = v.
Proof. unfold upd. by rewrite decide_True. Qed.

Lemma upd_ne {A} (f : Z -> A) x v y : y <> x -> upd f x v y = f y.
Proof. intros. unfold upd. by rewrite decide_False. Qed.

Section rep.
Context `{L : Layout} `{FW : Firmware} {FWOK : FirmwareOk FW} `{MC : Machine}.
(** The processes and semaphores of the kernel. *)
Context (procs sems : list Z).

Definition heads : list Z := sym_ready_queue :: sems.

(** The objects that hold a node of a queue, and all objects. *)
Definition qobjs : list (Z * Z) :=
  (sym_ready_queue, NODE_SIZE) :: ((fun s => (s, SEM_SIZE)) <$> sems) ++ ((fun p => (p, PROC_SIZE)) <$> procs).

Definition objs : list (Z * Z) :=
  (sym_wait_queue, NODE_SIZE) :: (sym_timer, TIMER_SIZE) :: qobjs.

Record objs_ok : Prop := {
  ob_seps : seps objs;
  ob_ready : addr_ok NODE_SIZE sym_ready_queue;
  ob_sems : Forall (addr_ok SEM_SIZE) sems;
  ob_procs : Forall (fun p => p <> nullptr /\ addr_ok PROC_SIZE p) procs;
}.

(** Every timer of the kernel. *)
Definition all_timers : list Z := sym_timer :: (proc_timer <$> procs).

Record linked (y : sys) : Prop := {
  ln_procs h p : h ∈ heads -> p ∈ y_queue y h -> p ∈ procs;
  ln_uniq h1 h2 p : h1 ∈ heads -> h2 ∈ heads -> p ∈ y_queue y h1 -> p ∈ y_queue y h2 -> h1 = h2;
}.

Record rep (k : kst) (y : sys) : Prop := {
  rp_queue h : h ∈ heads -> dlist (k_mem k) h (y_queue y h);
  rp_linked : linked y;
  rp_state p : p ∈ procs -> proc_state (k_mem k) p = y_state y p;
  rp_val s : s ∈ sems -> sem_val (k_mem k) s = y_val y s;
  rp_timers : timers_armed (k_mem k) (h_fw (k_hart k)) (y_timers y).1 (y_timers y).2;
  rp_all : (tm_addr <$> (y_timers y).1) ++ (y_timers y).2 ≡ₚ all_timers;
  rp_curr : k_curr k = y_curr y;
}.

Context (HO : objs_ok).

(** ** Which bytes belong to what *)

Lemma obj_sem s : s ∈ sems -> (s, SEM_SIZE) ∈ qobjs.
Proof. intros H. right. apply elem_of_app. left. apply list_elem_of_fmap. eauto. Qed.

Lemma obj_proc p : p ∈ procs -> (p, PROC_SIZE) ∈ qobjs.
Proof. intros H. right. apply elem_of_app. right. apply list_elem_of_fmap. eauto. Qed.

Lemma obj_sep r s : r ∈ qobjs -> s ∈ qobjs -> r = s \/ disj r.1 r.2 s.1 s.2.
Proof. apply seps_elem. apply (ob_seps HO). Qed.

Lemma timer_sep r s :
  r ∈ [(sym_wait_queue, NODE_SIZE); (sym_timer, TIMER_SIZE)] -> s ∈ qobjs -> disj r.1 r.2 s.1 s.2.
Proof.
  intros Hr Hs. destruct (ob_seps HO) as (HW & HT & _). rewrite !Forall_forall in HW, HT.
  apply elem_of_cons in Hr as [->|[->|[]%elem_of_nil]%elem_of_cons]; [apply HW; by right|by apply HT].
Qed.

(** The object around a node. *)
Lemma node_obj x : x ∈ heads ++ procs -> exists n, (x, n) ∈ qobjs /\ NODE_SIZE <= n.
Proof.
  intros [[->|H]%elem_of_cons|H]%elem_of_app; eexists;
    (split; [first [by left|by apply obj_sem|by apply obj_proc]|done]).
Qed.

Ltac obj_lia := unfold disj, inrng, NODE_SIZE, SEM_SIZE, PROC_SIZE, TIMER_SIZE in *; simpl in *; lia.

Lemma nodes_disj x y : x ∈ heads ++ procs -> y ∈ heads ++ procs -> x = y \/ disj x NODE_SIZE y NODE_SIZE.
Proof.
  intros (n1 & H1 & ?)%node_obj (n2 & H2 & ?)%node_obj.
  destruct (obj_sep _ _ H1 H2) as [E|E]; [left; congruence|right; obj_lia].
Qed.

(** A node is apart from the other fields of every object. *)
Lemma node_field x o n p :
  x ∈ heads ++ procs -> p ∈ procs -> NODE_SIZE <= o -> 0 <= n -> o + n <= PROC_SIZE ->
  disj x NODE_SIZE (p + o) n.
Proof.
  intros (k & H1 & ?)%node_obj H2%obj_proc Ho Hn Hs.
  destruct (obj_sep _ _ H1 H2) as [E|E]; [injection E as -> ->|]; obj_lia.
Qed.

Lemma node_val x s : x ∈ heads ++ procs -> s ∈ sems -> disj x NODE_SIZE (s + 16) 4.
Proof.
  intros (k & H1 & ?)%node_obj H2%obj_sem.
  destruct (obj_sep _ _ H1 H2) as [E|E]; [injection E as -> ->|]; obj_lia.
Qed.

Lemma sem_not_proc s p : s ∈ sems -> p ∈ procs -> disj s SEM_SIZE p PROC_SIZE.
Proof. intros H1%obj_sem H2%obj_proc. destruct (obj_sep _ _ H1 H2) as [E|E]; [done|exact E]. Qed.

Lemma proc_not_proc p q : p ∈ procs -> q ∈ procs -> p = q \/ disj p PROC_SIZE q PROC_SIZE.
Proof. intros H1%obj_proc H2%obj_proc. destruct (obj_sep _ _ H1 H2); [left; congruence|by right]. Qed.

Lemma sem_not_sem s t : s ∈ sems -> t ∈ sems -> s = t \/ disj s SEM_SIZE t SEM_SIZE.
Proof. intros H1%obj_sem H2%obj_sem. destruct (obj_sep _ _ H1 H2); [left; congruence|by right]. Qed.

(** The timers' bytes: two static objects and one field of every process. *)
Lemma timer_foot_obj a r :
  timers_foot all_timers a -> r ∈ qobjs -> inrng r.1 r.2 a ->
  exists p, p ∈ procs /\ inrng (p + 1632) TIMER_SIZE a.
Proof.
  intros HF Hr Ha.
  assert (forall t, t ∈ [(sym_wait_queue, NODE_SIZE); (sym_timer, TIMER_SIZE)] -> ~ inrng t.1 t.2 a) as Hs.
  { intros t Ht Hb. pose proof (timer_sep _ _ Ht Hr). obj_lia. }
  destruct HF as [H|(t & [->|(p & -> & Hp)%list_elem_of_fmap]%elem_of_cons & Hb)].
  - destruct (Hs (sym_wait_queue, NODE_SIZE)); [left|done].
  - destruct (Hs (sym_timer, TIMER_SIZE)); [right; left|done].
  - eauto.
Qed.

Lemma timer_foot_node x a : x ∈ heads ++ procs -> inrng x NODE_SIZE a -> ~ timers_foot all_timers a.
Proof.
  intros Hx Ha HF. destruct (node_obj x Hx) as (n & H1 & ?).
  destruct (timer_foot_obj a (x, n) HF H1) as (p & Hp & Hb); [obj_lia|].
  pose proof (node_field x 1632 40 p Hx Hp ltac:(done) ltac:(done) ltac:(done)). obj_lia.
Qed.

Lemma timer_foot_sem s a : s ∈ sems -> inrng s SEM_SIZE a -> ~ timers_foot all_timers a.
Proof.
  intros Hs Ha HF. destruct (timer_foot_obj a (s, SEM_SIZE) HF (obj_sem s Hs) Ha) as (p & Hp & Hb).
  pose proof (sem_not_proc s p Hs Hp). obj_lia.
Qed.

Lemma timer_foot_state q a : q ∈ procs -> inrng (q + 1616) 4 a -> ~ timers_foot all_timers a.
Proof.
  intros Hq Ha HF. destruct (timer_foot_obj a (q, PROC_SIZE) HF (obj_proc q Hq)) as (p & Hp & Hb); [obj_lia|].
  destruct (proc_not_proc p q Hp Hq) as [->|]; obj_lia.
Qed.

(** ** What a store leaves *)

(** The timers survive changes outside their bytes. *)
Lemma armed_unch F m m' f q idle :
  timers_armed m f q idle -> (tm_addr <$> q) ++ idle ≡ₚ all_timers -> unch F m m' ->
  (forall a, timers_foot all_timers a -> ~ F a) -> timers_armed m' f q idle.
Proof.
  intros [HT Hf] HP HU HF. split; [|done]. eapply timers_unch; [exact HT|exact HU|].
  intros a Ha. apply HF. destruct Ha as [Ha|(t & Ht & Ha)]; [by left|right].
  exists t. split; [|done]. by rewrite <-HP.
Qed.

(** A queue survives changes outside its nodes. *)
Lemma queue_unch F m m' y h :
  dlist m h (y_queue y h) -> linked y -> h ∈ heads -> unch F m m' ->
  (forall x a, x ∈ heads ++ procs -> x = h \/ x ∈ y_queue y h -> inrng x NODE_SIZE a -> ~ F a) ->
  dlist m' h (y_queue y h).
Proof.
  intros HD [HP _] Hh HU HF. eapply dlist_unch; [exact HD|exact HU|].
  intros x a Hx Ha. apply (HF x a); [|by apply elem_of_cons|done].
  apply elem_of_app. apply elem_of_cons in Hx as [->|Hx]; eauto.
Qed.

(** Relinking the nodes of one queue, with the process [p]. *)
Lemma rep_queue k y h p m' xs :
  rep k y -> h ∈ heads -> p ∈ procs ->
  dlist m' h xs -> unch (in_nodes (p :: h :: y_queue y h)) (k_mem k) m' ->
  (forall x, x ∈ xs -> x = p \/ x ∈ y_queue y h) ->
  (forall h', h' ∈ heads -> h' <> h -> p ∉ y_queue y h') ->
  rep (set_mem m' k) (y_set_queue h xs y).
Proof.
  intros [HQ HL HS HV HT HA HC] Hh Hp HD HU Hxs Hfree.
  assert (forall x, x ∈ p :: h :: y_queue y h -> x ∈ heads ++ procs) as Hin.
  { intros x Hx. apply elem_of_app. apply elem_of_cons in Hx as [->|[->|Hx]%elem_of_cons]; eauto.
    right. by apply (ln_procs _ HL h). }
  split; simpl; [|split; simpl| | | |done|done].
  - intros h' Hh'. destruct (decide (h' = h)) as [->|Hne]; [by rewrite upd_eq|].
    rewrite upd_ne by done. eapply queue_unch; [by apply HQ|done|done|exact HU|].
    intros x a Hx Hx' Ha (z & Hz & Hb).
    destruct (nodes_disj x z Hx (Hin z Hz)) as [->|Hd]; [|obj_lia].
    assert ((h' ∉ procs) /\ (h ∉ procs)) as [Hn1 Hn2].
    { assert (forall g, g ∈ heads -> g ∉ procs) as Hg; [|by split; apply Hg].
      intros g [->|Hg]%elem_of_cons Hg'.
      - destruct (obj_sep (sym_ready_queue, NODE_SIZE) (sym_ready_queue, PROC_SIZE)) as [E|E];
          [left|by apply obj_proc|done|obj_lia].
      - pose proof (sem_not_proc g g Hg Hg'). obj_lia. }
    apply elem_of_cons in Hz as [->|[->|Hz]%elem_of_cons].
    + destruct Hx' as [->|Hx']; [done|]. by apply (Hfree h').
    + destruct Hx' as [->|Hx']; [done|]. apply Hn2. by apply (ln_procs _ HL h').
    + destruct Hx' as [->|Hx']; [by apply Hn1, (ln_procs _ HL h)|].
      apply Hne. by apply (ln_uniq _ HL _ _ z).
  - intros h' x Hh'. destruct (decide (h' = h)) as [->|Hne]; [rewrite upd_eq|rewrite upd_ne by done].
    + intros [->|Hx]%Hxs; [done|by apply (ln_procs _ HL h)].
    + by apply (ln_procs _ HL).
  - intros h1 h2 x H1 H2.
    destruct (decide (h1 = h)) as [->|N1], (decide (h2 = h)) as [->|N2];
      rewrite ?upd_eq, ?upd_ne by done; [done|..|by apply (ln_uniq _ HL)].
    + intros [->|Hx1]%Hxs Hx2; [by destruct (Hfree h2)|by apply (ln_uniq _ HL _ _ x)].
    + intros Hx2 [->|Hx1]%Hxs; [by destruct (Hfree h1)|by apply (ln_uniq _ HL _ _ x)].
  - intros q Hq. rewrite <-HS by done. eapply load_unch; [exact HU|].
    intros a Ha (z & Hz & Hb).
    pose proof (node_field z 1616 4 q (Hin z Hz) Hq ltac:(done) ltac:(done) ltac:(done)). obj_lia.
  - intros s Hs. rewrite <-HV by done. unfold sem_val. f_equal. eapply load_unch; [exact HU|].
    intros a Ha (z & Hz & Hb). pose proof (node_val z s (Hin z Hz) Hs). obj_lia.
  - eapply armed_unch; [exact HT|done|exact HU|]. intros a Ha (z & Hz & Hb).
    by eapply timer_foot_node; [apply Hin, Hz|..].
Qed.
(** A queue survives stores to the fields behind the nodes. *)
Lemma queues_field k y m' x o n :
  rep k y -> unch (inrng (x + o) n) (k_mem k) m' ->
  (forall z, z ∈ heads ++ procs -> disj z NODE_SIZE (x + o) n) ->
  forall h, h ∈ heads -> dlist m' h (y_queue y h).
Proof.
  intros HR HU Hx h Hh. eapply queue_unch; [by apply HR|apply HR|done|exact HU|].
  intros z a Hz _ Ha Hb. specialize (Hx z Hz). obj_lia.
Qed.

(** The state of a process. *)
Lemma rep_state k y p v :
  rep k y -> p ∈ procs -> 0 <= v < 2 ^ 32 ->
  rep (set_mem (set_proc_state (k_mem k) p v) k) (y_set_state p v y).
Proof.
  intros HR Hp Hv. pose proof HR as [HQ HL HS HV HT HA HC].
  pose proof (store_unch 4 (k_mem k) (p + 1616) v : unch (inrng (p + 1616) 4) _ _) as HU.
  split; simpl; [|by destruct HL| | | |done|done].
  - eapply (queues_field _ _ _ p 1616 4); [exact HR|exact HU|].
    intros z Hz. by apply node_field.
  - intros q Hq. unfold proc_state, set_proc_state.
    destruct (decide (q = p)) as [->|Hne].
    + rewrite upd_eq, load4_store4. by apply Z.mod_small.
    + rewrite upd_ne by done. rewrite <-HS by done. apply load_store_ne.
      destruct (proc_not_proc p q Hp Hq); [congruence|obj_lia].
  - intros s Hs. rewrite <-HV by done. unfold sem_val. f_equal. apply load_store_ne.
    pose proof (sem_not_proc s p Hs Hp). obj_lia.
  - eapply armed_unch; [exact HT|done|exact HU|]. intros a Ha Hb. by eapply timer_foot_state.
Qed.

Lemma i32_load4 v : - 2 ^ 31 <= v < 2 ^ 31 -> i32 (u32 v) = v.
Proof.
  intros Hv. unfold i32, u32. rewrite Zplus_mod_idemp_l, Z.mod_small by lia. lia.
Qed.

(** The value of a semaphore. *)
Lemma rep_val k y s v :
  rep k y -> s ∈ sems -> - 2 ^ 31 <= v < 2 ^ 31 ->
  rep (set_mem (set_sem_val (k_mem k) s v) k) (y_set_val s v y).
Proof.
  intros HR Hs Hv. pose proof HR as [HQ HL HS HV HT HA HC].
  pose proof (store_unch 4 (k_mem k) (s + 16) v : unch (inrng (s + 16) 4) _ _) as HU.
  split; simpl; [|by destruct HL| | | |done|done].
  - eapply (queues_field _ _ _ s 16 4); [exact HR|exact HU|].
    intros z Hz. by apply node_val.
  - intros q Hq. rewrite <-HS by done. apply load_store_ne.
    pose proof (sem_not_proc s q Hs Hq). obj_lia.
  - intros t Ht. unfold sem_val, set_sem_val. destruct (decide (t = s)) as [->|Hne].
    + rewrite upd_eq, load4_store4. by apply i32_load4.
    + rewrite upd_ne by done. rewrite <-HV by done. unfold sem_val. f_equal. apply load_store_ne.
      destruct (sem_not_sem s t Hs Ht); [congruence|obj_lia].
  - eapply armed_unch; [exact HT|done|exact HU|]. intros a Ha Hb.
    eapply timer_foot_sem; [exact Hs| |exact Ha]. obj_lia.
Qed.

(** The timers. *)
Lemma rep_timers k y m' f' q idle :
  rep k y -> timers_armed m' f' q idle -> (tm_addr <$> q) ++ idle ≡ₚ all_timers ->
  unch (timers_foot all_timers) (k_mem k) m' ->
  rep (set_fw f' (set_mem m' k)) (y_set_timers (q, idle) y).
Proof.
  intros HR HT' HA' HU. pose proof HR as [HQ HL HS HV HT HA HC].
  split; simpl; [|by destruct HL| | |done|done|done].
  - intros h Hh. eapply queue_unch; [by apply HQ|done|done|exact HU|].
    intros x a Hx _ Ha. by eapply timer_foot_node.
  - intros q' Hq. rewrite <-HS by done. eapply load_unch; [exact HU|].
    intros a Ha. eapply timer_foot_state; [exact Hq|exact Ha].
  - intros s Hs. rewrite <-HV by done. unfold sem_val. f_equal. eapply load_unch; [exact HU|].
    intros a Ha. eapply timer_foot_sem; [exact Hs|obj_lia].
Qed.

Lemma rep_set_curr k y p : rep k y -> rep (set_curr p k) (y_set_curr p y).
Proof. intros [? [] ? ? ? ? ?]. by split. Qed.

(** A process that is in no other queue can be linked into [h]. *)
Lemma link_ok k y h p :
  rep k y -> h ∈ heads -> p ∈ procs -> p ∉ y_queue y h -> nodes_ok (p :: h :: y_queue y h).
Proof.
  intros HR Hh Hp Hn. pose proof (dlist_nodes_ok _ _ _ (rp_queue _ _ HR h Hh)) as [HS HF].
  assert (forall x, x ∈ h :: y_queue y h -> x ∈ heads ++ procs /\ x <> p) as Hin.
  { intros x [->|Hx]%elem_of_cons.
    - split; [set_solver|]. intros ->. apply elem_of_cons in Hh as [->|Hh].
      + destruct (obj_sep (sym_ready_queue, NODE_SIZE) (sym_ready_queue, PROC_SIZE)) as [E|E];
          [left|by apply obj_proc|done|obj_lia].
      + pose proof (sem_not_proc p p Hh Hp). obj_lia.
    - split; [|congruence]. apply elem_of_app. right. by apply (ln_procs _ (rp_linked _ _ HR) h). }
  split; simpl; [split; [|done]|constructor; [|done]].
  - change ((h, NODE_SIZE) :: node_rngs (y_queue y h)) with (node_rngs (h :: y_queue y h)).
    rewrite Forall_forall. intros r (x & -> & Hx)%list_elem_of_fmap. simpl.
    destruct (Hin x Hx) as [Hx1 Hx2].
    destruct (nodes_disj p x) as [|Hd]; [set_solver|done|congruence|done].
  - pose proof (ob_procs HO) as HP. rewrite Forall_forall in HP. destruct (HP p Hp) as [_ HA].
    unfold addr_ok in *. obj_lia.
Qed.
End rep.
