(* ===== verification/SchedSpec.v ===== *)
(** * What the scheduler and the semaphores do

    The operations of [src/sched.c] and [src/sync/sem.c] refine functions on the
    abstract state [sys]: a stack of ready processes and one queue per
    semaphore. *)

From S2P Require Import Prelude.
From S2P Require Import Mem.
From S2P Require Import DList.
From S2P Require Import Layout.
From S2P Require Import Pages.
From S2P Require Import Sbi.
From S2P Require Import Timer.
From S2P Require Import Proc.
From S2P Require Import Kern.
From S2P Require Import Sched.
From S2P Require Import SchedRep.
#[local] Open Scope kern_scope.

(** ** The abstract operations *)

Definition without (p : Z) (q : list Z) : list Z := filter (fun x => x <> p) q.

(** A timer is cancelled: it goes from the queue to the idle timers. *)
Definition cancel_tmr (t : Z) (ts : list tmr * list Z) : list tmr * list Z :=
  if decide (t ∈ tm_addr <$> ts.1) then (filter (fun x => tm_addr x <> t) ts.1, t :: ts.2) else ts.

(** Filtering out one element by its key. *)
Lemma filter_fresh {A} (f : A -> Z) t (l : list A) : t ∉ f <$> l -> filter (fun y => f y <> t) l = l.
Proof.
  induction l as [|x l IH]; intros Ht; [done|]. rewrite fmap_cons, not_elem_of_cons in Ht.
  destruct Ht as [Hx Ht]. rewrite filter_cons_True by congruence. f_equal. by apply IH.
Qed.

Lemma filter_middle {A} (f : A -> Z) t (l1 : list A) x l2 :
  f x = t -> t ∉ f <$> (l1 ++ l2) -> filter (fun y => f y <> t) (l1 ++ x :: l2) = l1 ++ l2.
Proof.
  intros Hx Ht. rewrite fmap_app, not_elem_of_app in Ht. destruct Ht as [H1 H2].
  rewrite filter_app, filter_cons_False by tauto. by rewrite !filter_fresh.
Qed.

Lemma without_head p q : p ∉ q -> without p (p :: q) = q.
Proof. intros Hp. apply (filter_middle id _ [] p q); [done|]. by rewrite list_fmap_id. Qed.

(** [cancel_tmr] is what [timer_cancel] does. *)
Lemma timer_cancel_refines `{L : Layout} `{FW : Firmware} {FWOK : FirmwareOk FW} m f q idle t :
  timers_armed m f q idle -> t ∈ (tm_addr <$> q) ++ idle ->
  let ts := cancel_tmr t (q, idle) in
  exists m' f', timer_cancel m f t = Some (m', f') /\ timers_armed m' f' ts.1 ts.2 /\
    (tm_addr <$> ts.1) ++ ts.2 ≡ₚ (tm_addr <$> q) ++ idle /\
    unch (timers_foot ((tm_addr <$> q) ++ idle)) m m'.
Proof.
  intros HT Ht. unfold cancel_tmr. simpl. case_decide as Hq.
  - apply list_elem_of_fmap in Hq as (x & -> & (l1 & l2 & ->)%list_elem_of_split).
    destruct (timer_cancel_spec m f l1 x l2 idle HT) as (m' & f' & E1 & HT' & HU).
    pose proof (nodes_ok_NoDup _ (dlist_nodes_ok _ _ _ (tq_list _ _ _ (proj1 HT)))) as HN.
    apply NoDup_cons in HN as [_ HN]. rewrite <-Permutation_middle in HN.
    apply NoDup_cons in HN as [HN _]. simpl. rewrite (filter_middle tm_addr) by done.
    exists m', f'. split_and!; [done|done| |].
    + rewrite !fmap_app, fmap_cons, <-!app_assoc. simpl. by rewrite <-!Permutation_middle.
    + eapply unch_mono; [|exact HU]. intros a [Ha|(t & Ht' & Ha)]; [by left|right].
      exists t. split; [by apply elem_of_app; left|done].
  - apply elem_of_app in Ht as [|Ht]; [done|]. exists m, f.
    by rewrite (timer_cancel_idle _ _ _ _ _ HT Ht).
Qed.

Section abstract.
Context `{L : Layout}.

Definition y_ready (y : sys) : list Z := y_queue y sym_ready_queue.

(** Leaving the old state and entering the new one. *)
Definition a_leave (p : Z) (y : sys) : sys :=
  if y_state y p =? PROC_STATE_READY then y_set_queue sym_ready_queue (without p (y_ready y)) y
  else if y_state y p =? PROC_STATE_SLEEP
  then y_set_timers (cancel_tmr (proc_timer p) (y_timers y)) y
  else y.

Definition a_enter (p s : Z) (y : sys) : sys :=
  if s =? PROC_STATE_READY then y_set_queue sym_ready_queue (p :: y_ready y) y
  else if s =? PROC_STATE_CURR then y_set_curr p y
  else y.

Definition a_update (p s : Z) (y : sys) : sys :=
  if y_state y p =? s then y else a_enter p s (y_set_state p s (a_leave p y)).

(** The running process goes to the top of the stack, and the top runs. *)
Definition a_put_back (y : sys) : sys :=
  if negb (y_curr y =? nullptr) && (y_state y (y_curr y) =? PROC_STATE_CURR)
  then a_update (y_curr y) PROC_STATE_READY y else y.

Definition a_next (y : sys) : Z := hd sym_ready_queue (y_ready (a_put_back y)).
Definition a_resched (y : sys) : sys := a_update (a_next y) PROC_STATE_CURR (a_put_back y).
End abstract.

Section refine.
Context `{PA : PageAllocator} `{L : Layout} `{C : Code} `{FW : Firmware} {FWOK : FirmwareOk FW} `{MC : Machine}.
Context (procs sems : list Z).
Context (HO : objs_ok procs sems).

#[local] Abbreviation heads := (heads sems).
#[local] Abbreviation rep := (rep procs sems).
#[local] Abbreviation all_timers := (all_timers procs).

(** The bytes the scheduler may change, and what else stays. *)
Definition sched_foot (a : Z) : Prop :=
  (exists x, x ∈ heads ++ procs /\ inrng x NODE_SIZE a) \/
  (exists s, s ∈ sems /\ inrng (s + 16) 4 a) \/
  (exists p, p ∈ procs /\ inrng (p + 1616) 4 a) \/ timers_foot all_timers a.

Record only_sched (k k' : kst) : Prop := {
  os_mem : unch sched_foot (k_mem k) (k_mem k');
  os_drv : k_drv k' = k_drv k;
  os_procs : k_procs k' = k_procs k;
  os_hart : h_mach (k_hart k') = h_mach (k_hart k) /\ h_sie (k_hart k') = h_sie (k_hart k) /\
            h_stvec (k_hart k') = h_stvec (k_hart k) /\ h_sstatus (k_hart k') = h_sstatus (k_hart k);
}.

#[export] Instance only_sched_PreOrder : PreOrder only_sched.
Proof.
  split.
  - intros k. split; done.
  - intros k1 k2 k3 [A1 B1 C1 (D1 & E1 & F1 & G1)] [A2 B2 C2 (D2 & E2 & F2 & G2)].
    split; [by etrans|congruence..|split_and!; congruence].
Qed.

Lemma only_sched_mem k m' F :
  unch F (k_mem k) m' -> (forall a, F a -> sched_foot a) -> only_sched k (set_mem m' k).
Proof. intros HU HF. split; [eapply unch_mono; [exact HF|exact HU]|done..]. Qed.

Lemma nodes_sched (xs : list Z) a :
  (forall x, x ∈ xs -> x ∈ heads ++ procs) -> in_nodes xs a -> sched_foot a.
Proof. intros Hx (x & H1 & H2). left. eauto. Qed.

(** ** One change of state *)

Lemma without_split p l1 l2 : NoDup (l1 ++ p :: l2) -> without p (l1 ++ p :: l2) = l1 ++ l2.
Proof.
  intros HN. rewrite <-Permutation_middle in HN. apply NoDup_cons in HN as [Hp _].
  apply (filter_middle id); [done|]. by rewrite list_fmap_id.
Qed.

Lemma leave_spec k y p :
  rep k y -> p ∈ procs -> (y_state y p = PROC_STATE_READY -> p ∈ y_ready y) ->
  exists k', sched_leave p (y_state y p) k = Ret k' tt /\ rep k' (a_leave p y) /\ only_sched k k'.
Proof.
  intros HR Hp Hready. unfold a_leave, sched_leave. case_test.
  - specialize (Hready E). apply list_elem_of_split in Hready as (l1 & l2 & El).
    assert (dlist (k_mem k) sym_ready_queue (l1 ++ p :: l2)) as HD.
    { rewrite <-El. apply (rp_queue _ _ _ _ HR). left. }
    pose proof (nodes_ok_NoDup _ (dlist_nodes_ok _ _ _ HD)) as [_ HN]%NoDup_cons.
    destruct (list_remove_dlist _ _ _ _ _ HD) as [HD' HU].
    eexists. split; [done|]. rewrite El, (without_split p) by done. split.
    + eapply (rep_queue _ _ HO _ _ _ p); [done|left|done|exact HD'| | |].
      * eapply unch_mono; [|exact HU]. intros a (x & Hx & Ha). exists x. split; [|done].
        change (y_queue y sym_ready_queue) with (y_ready y). rewrite El. set_solver.
      * intros x Hx. change (y_queue y sym_ready_queue) with (y_ready y). rewrite El. set_solver.
      * intros h Hh Hne Hq. apply Hne, (ln_uniq _ _ _ (rp_linked _ _ _ _ HR) _ _ p); [done|left|done|].
        change (p ∈ y_ready y). rewrite El. set_solver.
    + eapply only_sched_mem; [exact HU|]. intros a. apply nodes_sched. intros x Hx.
      apply elem_of_cons in Hx as [->|Hx]; [left|]. apply elem_of_app. right.
      apply (ln_procs _ _ _ (rp_linked _ _ _ _ HR) sym_ready_queue); [left|].
      change (x ∈ y_ready y). rewrite El. set_solver.
  - case_test; [|by exists k].
    pose proof (rp_timers _ _ _ _ HR) as HT. pose proof (rp_all _ _ _ _ HR) as HA.
    destruct (y_timers y) as [q idle]. simpl in HT, HA.
    assert (proc_timer p ∈ (tm_addr <$> q) ++ idle) as Ht.
    { rewrite HA. right. by apply list_elem_of_fmap_2. }
    destruct (timer_cancel_refines _ _ _ _ _ HT Ht) as (m' & f' & Ec & HT' & HP & HU).
    unfold run_fw. rewrite Ec. simpl. eexists. split; [done|].
    assert (unch (timers_foot all_timers) (k_mem k) m') as HU'.
    { eapply unch_mono; [|exact HU]. intros a [Ha|(t & Ht' & Ha)]; [by left|right].
      exists t. split; [by rewrite <-HA|done]. }
    destruct (cancel_tmr (proc_timer p) (q, idle)) as [q' idle']. split.
    + eapply rep_timers; [done|done|exact HT'|by rewrite HP|done].
    + split; [|done..]. eapply unch_mono; [|exact HU']. intros a Ha. by do 3 right.
Qed.

(** A process that leaves the ready queue is in no queue, if it was in no other. *)
Lemma leave_queue y p h :
  y_queue (a_leave p y) h =
  if (y_state y p =? PROC_STATE_READY) && bool_decide (h = sym_ready_queue)
  then without p (y_ready y) else y_queue y h.
Proof.
  unfold a_leave. destruct (y_state y p =? PROC_STATE_READY); simpl.
  - unfold upd. by destruct (decide (h = sym_ready_queue)) as [->|H];
      [rewrite bool_decide_true|rewrite bool_decide_false].
  - by destruct (y_state y p =? PROC_STATE_SLEEP).
Qed.

Lemma leave_same y p :
  y_state (a_leave p y) = y_state y /\ y_curr (a_leave p y) = y_curr y /\ y_val (a_leave p y) = y_val y.
Proof.
  unfold a_leave. destruct (y_state y p =? PROC_STATE_READY); [done|].
  by destruct (y_state y p =? PROC_STATE_SLEEP).
Qed.

(** Up to the second [switch]. *)
Lemma update_prefix R k y p s :
  rep k y -> p ∈ procs -> 0 <= s < 2 ^ 32 -> y_state y p <> s ->
  (y_state y p = PROC_STATE_READY -> p ∈ y_ready y) ->
  exists k', sched_update_body R p s k = sched_enter R p s k' /\
    rep k' (y_set_state p s (a_leave p y)) /\ only_sched k k'.
Proof.
  intros HR Hp Hs Hne Hready. destruct (leave_spec k y p HR Hp Hready) as (k1 & E & HR1 & HO1).
  unfold sched_update_body, mem_of, gets, bind at 1. simpl. rewrite (rp_state _ _ _ _ HR p Hp).
  apply Z.eqb_neq in Hne. rewrite Hne. unfold bind at 1. rewrite E. simpl.
  eexists. split; [reflexivity|]. split; [by eapply rep_state|].
  etrans; [exact HO1|]. eapply only_sched_mem; [apply (store_unch 4)|]. intros a Ha. do 2 right. left.
  exists p. split; [done|exact Ha].
Qed.

(** To READY. *)
Lemma update_ready R k y p :
  rep k y -> p ∈ procs -> (y_state y p = PROC_STATE_READY -> p ∈ y_ready y) ->
  (forall h, h ∈ heads -> y_state y p <> PROC_STATE_READY -> p ∉ y_queue y h) ->
  exists k', sched_update_body R p PROC_STATE_READY k = Ret k' tt /\
    rep k' (a_update p PROC_STATE_READY y) /\ only_sched k k'.
Proof.
  intros HR Hp Hready Hfree. unfold a_update. case_test.
  { exists k. split; [|done]. unfold sched_update_body, mem_of, gets, bind. simpl.
    by rewrite (rp_state _ _ _ _ HR p Hp), E. }
  destruct (update_prefix R k y p PROC_STATE_READY HR Hp) as (k1 & -> & HR1 & HO1); [done..|].
  assert (forall h, y_queue (a_leave p y) h = y_queue y h) as Hq.
  { intros h. rewrite leave_queue. by rewrite (proj2 (Z.eqb_neq _ _) E). }
  destruct (list_push_front_dlist (k_mem k1) sym_ready_queue (y_queue y sym_ready_queue) p) as [HD HU].
  { rewrite <-Hq. apply (rp_queue _ _ _ _ HR1). left. }
  { rewrite <-Hq. eapply (link_ok _ _ HO _ _ _ _ HR1); [left|done|]. simpl. rewrite Hq.
    apply Hfree; [left|done]. }
  eexists. split; [done|]. split.
  - unfold a_enter, y_ready. simpl. rewrite Hq.
    eapply (rep_queue _ _ HO _ _ _ p); [exact HR1|left|done|exact HD|..]; simpl.
    + by rewrite Hq.
    + intros x. rewrite Hq. by apply elem_of_cons.
    + intros h Hh _. rewrite Hq. by apply Hfree.
  - etrans; [exact HO1|]. eapply only_sched_mem; [exact HU|]. intros a. apply nodes_sched.
    intros x Hx. apply elem_of_cons in Hx as [->|[->|Hx]%elem_of_cons]; [set_solver|left|].
    apply elem_of_app. right. apply (ln_procs _ _ _ (rp_linked _ _ _ _ HR) sym_ready_queue); [left|done].
Qed.

(** To CURR. *)
Lemma update_curr R k y p :
  rep k y -> p ∈ procs -> (y_state y p = PROC_STATE_READY -> p ∈ y_ready y) ->
  exists k', sched_update_body R p PROC_STATE_CURR k = Ret k' tt /\
    rep k' (a_update p PROC_STATE_CURR y) /\ only_sched k k'.
Proof.
  intros HR Hp Hready. unfold a_update. case_test.
  { exists k. split; [|done]. unfold sched_update_body, mem_of, gets, bind. simpl.
    by rewrite (rp_state _ _ _ _ HR p Hp), E. }
  destruct (update_prefix R k y p PROC_STATE_CURR HR Hp) as (k1 & -> & HR1 & HO1); [done..|].
  eexists. split; [done|]. split; [by apply rep_set_curr|]. etrans; [exact HO1|]. by split.
Qed.

(** The running process stops: the scheduler is called. *)
Lemma update_stops R k y s :
  rep k y -> y_curr y ∈ procs -> s ∈ [PROC_STATE_WAIT_SEM; PROC_STATE_WAIT_CHILD; PROC_STATE_SLEEP] ->
  y_state y (y_curr y) = PROC_STATE_CURR ->
  exists k', sched_update_body R (y_curr y) s k = R k' /\
    rep k' (a_update (y_curr y) s y) /\ only_sched k k'.
Proof.
  intros HR Hp Hs Hc. set (p := y_curr y) in *.
  assert (y_state y p <> s /\ 0 <= s < 2 ^ 32) as [Hne Hr].
  { rewrite Hc. apply elem_of_cons in Hs as [->|[->|[->|[]%elem_of_nil]%elem_of_cons]%elem_of_cons]; done. }
  destruct (update_prefix R k y p s HR Hp Hr Hne) as (k1 & -> & HR1 & HO1); [by rewrite Hc|].
  exists k1. unfold a_update. rewrite (proj2 (Z.eqb_neq _ _) Hne).
  assert (k_curr k1 = p) as Ek. { rewrite (rp_curr _ _ _ _ HR1). simpl. apply leave_same. }
  split; [|split; [|done]].
  - apply elem_of_cons in Hs as [->|[->|[->|[]%elem_of_nil]%elem_of_cons]%elem_of_cons];
      unfold sched_enter, curr_proc, gets, bind; simpl; by rewrite Ek, Z.eqb_refl.
  - unfold a_enter.
    by apply elem_of_cons in Hs as [->|[->|[->|[]%elem_of_nil]%elem_of_cons]%elem_of_cons].
Qed.

Lemma update_zombie R k y :
  rep k y -> y_curr y ∈ procs -> y_state y (y_curr y) = PROC_STATE_CURR ->
  exists k', sched_update_body R (y_curr y) PROC_STATE_ZOMBIE k = R k' /\
    rep k' (y_set_curr nullptr (a_update (y_curr y) PROC_STATE_ZOMBIE y)) /\ only_sched k k'.
Proof.
  intros HR Hp Hc. set (p := y_curr y) in *.
  assert (y_state y p <> PROC_STATE_ZOMBIE) as Hne by (by rewrite Hc).
  destruct (update_prefix R k y p PROC_STATE_ZOMBIE HR Hp) as (k1 & -> & HR1 & HO1);
    [done|done|by rewrite Hc|].
  exists (set_curr nullptr k1). unfold a_update. rewrite (proj2 (Z.eqb_neq _ _) Hne).
  assert (k_curr k1 = p) as Ek. { rewrite (rp_curr _ _ _ _ HR1). simpl. apply leave_same. }
  unfold sched_enter, curr_proc, gets, bind. simpl. rewrite Ek, Z.eqb_refl.
  split; [done|]. split; [by apply rep_set_curr|]. etrans; [exact HO1|]. by split.
Qed.

(** Choosing the next process: [old] may be running, stopped or gone. *)
Lemma resched_spec k y :
  rep k y ->
  (y_curr y <> nullptr -> y_curr y ∈ procs /\ forall h, h ∈ heads ->
     y_state y (y_curr y) = PROC_STATE_CURR -> y_curr y ∉ y_queue y h) ->
  y_ready (a_put_back y) <> [] ->
  exists k', sched_resched k = Switch k' (y_curr y) (a_next y) (fun k => Ret k tt) /\
    rep k' (a_resched y) /\ only_sched k k'.
Proof.
  intros HR Hcurr Hne. unfold sched_resched, sched_resched_body, a_resched.
  unfold curr_proc. rewrite bind_gets, bind_mem, (rp_curr _ _ _ _ HR). set (old := y_curr y) in *.
  assert (exists k1, (if negb (old =? nullptr) && (proc_state (k_mem k) old =? PROC_STATE_CURR)
            then sched_update_body (halt Stuck) old PROC_STATE_READY else ret tt) k = Ret k1 tt /\
          rep k1 (a_put_back y) /\ only_sched k k1) as (k1 & E1 & HR1 & HO1).
  { unfold a_put_back. fold old. destruct (Z.eqb_spec old nullptr) as [->|Hn]; simpl; [by exists k|].
    destruct (Hcurr Hn) as [Hp Hfree]. rewrite (rp_state _ _ _ _ HR old Hp). case_test; [|by exists k].
    apply update_ready; [done|done|by rewrite E|]. intros h Hh _. by apply Hfree. }
  rewrite (bind_Ret _ _ _ _ _ E1).
  pose proof (rp_queue _ _ _ _ HR1 sym_ready_queue ltac:(left)) as HD.
  change (y_queue (a_put_back y) sym_ready_queue) with (y_ready (a_put_back y)) in HD.
  rewrite bind_mem. unfold list_first_entry, list_entry. rewrite (list_front_spec _ _ _ HD).
  unfold a_next. destruct (y_ready (a_put_back y)) as [|new ready] eqn:Er; [done|].
  simpl hd. rewrite Z.sub_0_r.
  assert (new ∈ procs) as Hnew.
  { apply (ln_procs _ _ _ (rp_linked _ _ _ _ HR1) sym_ready_queue); [left|].
    change (new ∈ y_ready (a_put_back y)). rewrite Er. left. }
  destruct (update_curr (halt Stuck) k1 (a_put_back y) new HR1 Hnew) as (k2 & E2 & HR2 & HO2).
  { intros _. rewrite Er. left. }
  rewrite (bind_Ret _ _ _ _ _ E2). exists k2. split; [done|]. split; [done|]. by etrans.
Qed.
End refine.
