(* ===== verification/SchedRun.v ===== *)
(** * Runs of the scheduler

    Every operation that changes the state of a process implements one of the
    abstract steps below, and keeps the invariant [wf]: one process runs, the
    ready queue has exactly the READY processes, and a semaphore of value [-n]
    has exactly [n] processes in its queue. *)

From S2P Require Import Prelude.
From S2P Require Import Mem.
From S2P Require Import DList.
From S2P Require Import Layout.
From S2P Require Import Pages.
From S2P Require Import Sbi.
From S2P Require Import Timer.
From S2P Require Import Proc.
From S2P Require Import Kern.
From S2P Require Import Sched.
From S2P Require Import SchedRep.
From S2P Require Import SchedSpec.
#[local] Open Scope kern_scope.

(** Two abstract states that agree pointwise. *)
Record sys_eq (x y : sys) : Prop := {
  se_queue h : y_queue x h = y_queue y h;
  se_state p : y_state x p = y_state y p;
  se_val s : y_val x s = y_val y s;
  se_curr : y_curr x = y_curr y;
  se_timers : y_timers x = y_timers y;
}.

#[export] Instance sys_equiv : Equiv sys := sys_eq.

#[export] Instance sys_eq_Equivalence : Equivalence (≡@{sys}).
Proof.
  split.
  - intros x. by split.
  - intros x y []. by split.
  - intros x y z [A B C D E] [A' B' C' D' E']. split; congruence.
Qed.

(** ** The abstract steps *)

Section steps.
Context `{L : Layout}.

(** The process on top of the stack of ready processes runs. *)
Definition y_run_next (y : sys) : sys :=
  match y_ready y with
  | n :: rest => y_set_curr n (y_set_state n PROC_STATE_CURR (y_set_queue sym_ready_queue rest y))
  | [] => y
  end.

Definition y_push (p : Z) (y : sys) : sys :=
  y_set_state p PROC_STATE_READY (y_set_queue sym_ready_queue (p :: y_ready y) y).

Inductive sop :=
| Yield                    (* [sched_resched] while the caller can run *)
| Block (state : Z)        (* the caller goes to SLEEP or WAIT_CHILD *)
| Exit                     (* the caller becomes a zombie *)
| Wake (p : Z)             (* [p] is woken from SLEEP or WAIT_CHILD, or is new *)
| SemWait (s : Z)
| SemSignal (s : Z).

(** The new state, and the switch (from, to) if there is one. *)
Definition y_step (o : sop) (y : sys) : sys * option (Z * Z) :=
  let next := hd nullptr (y_ready y) in
  match o with
  | Yield => (y, Some (y_curr y, y_curr y))
  | Block st => (y_run_next (y_set_state (y_curr y) st y), Some (y_curr y, next))
  | Exit => (y_run_next (y_set_state (y_curr y) PROC_STATE_ZOMBIE y), Some (nullptr, next))
  | Wake p =>
      (y_push p (if y_state y p =? PROC_STATE_SLEEP
                 then y_set_timers (cancel_tmr (proc_timer p) (y_timers y)) y else y), None)
  | SemWait s =>
      let y1 := y_set_val s (y_val y s - 1) y in
      if 0 <? y_val y s then (y1, None)
      else (y_run_next (y_set_state (y_curr y) PROC_STATE_WAIT_SEM
              (y_set_queue s (y_queue y s ++ [y_curr y]) y1)), Some (y_curr y, next))
  | SemSignal s =>
      let y1 := y_set_val s (y_val y s + 1) y in
      match y_queue y s with
      | p :: rest => if y_val y s <? 0 then (y_push p (y_set_queue s rest y1), None) else (y1, None)
      | [] => (y1, None)
      end
  end.
End steps.

Section run.
Context `{PA : PageAllocator} `{L : Layout} `{C : Code} `{FW : Firmware} {FWOK : FirmwareOk FW} `{MC : Machine}.
Context (procs sems : list Z).
Context (HO : objs_ok procs sems).
Context (Hmany : Z.of_nat (length procs) <= PROC_TABLE_SIZE).

#[local] Abbreviation heads := (heads sems).
#[local] Abbreviation rep := (rep procs sems).
#[local] Abbreviation linked := (linked procs sems).
#[local] Abbreviation only_sched := (only_sched procs sems).

(** The code of a step. *)
Definition run_sop (o : sop) : M unit :=
  match o with
  | Yield => sched_resched
  | Block st => let* p := curr_proc in sched_update_state p st
  | Exit => let* p := curr_proc in sched_update_state p PROC_STATE_ZOMBIE
  | Wake p => sched_update_state p PROC_STATE_READY
  | SemWait s => sem_wait s
  | SemSignal s => sem_signal s
  end.

(** When a step may be taken.  The idle process only yields. *)
Definition may (o : sop) (y : sys) : Prop :=
  match o with
  | Yield => True
  | Block st => (st = PROC_STATE_SLEEP \/ st = PROC_STATE_WAIT_CHILD) /\ y_curr y <> sym_idle_proc
  | Exit => y_curr y <> sym_idle_proc
  | Wake p => p ∈ procs /\ y_state y p ∈ [PROC_STATE_INIT; PROC_STATE_SLEEP; PROC_STATE_WAIT_CHILD]
  | SemWait s => s ∈ sems /\ y_curr y <> sym_idle_proc
  | SemSignal s => s ∈ sems /\ y_val y s < 2 ^ 31 - 1
  end.

(** The invariant, when the process [c] runs ([None]: between two processes). *)
Record wf (c : option Z) (y : sys) : Prop := {
  wf_linked : linked y;
  wf_nodup h : h ∈ heads -> NoDup (y_queue y h);
  wf_ready p : p ∈ procs -> (p ∈ y_ready y <-> y_state y p = PROC_STATE_READY);
  wf_wait p : p ∈ procs -> (y_state y p = PROC_STATE_WAIT_SEM <-> exists s, s ∈ sems /\ p ∈ y_queue y s);
  wf_val s : s ∈ sems -> Z.of_nat (length (y_queue y s)) = Z.max 0 (- y_val y s);
  wf_max s : s ∈ sems -> y_val y s < 2 ^ 31;
  wf_curr p : p ∈ procs -> (y_state y p = PROC_STATE_CURR <-> c = Some p);
  wf_idle : sym_idle_proc ∈ procs /\
            (y_state y sym_idle_proc = PROC_STATE_READY \/ y_state y sym_idle_proc = PROC_STATE_CURR);
}.

Definition running (y : sys) : Prop := y_curr y ∈ procs /\ wf (Some (y_curr y)) y.

(** ** Equal states *)

#[export] Instance rep_Proper : Proper (eq ==> (≡) ==> impl) rep.
Proof.
  intros k k' <- y y' [A B C' D E] [HQ [HL1 HL2] HS HV HT HA HC].
  split; [|split| | | | |]; try setoid_rewrite <-A; try setoid_rewrite <-B;
    try setoid_rewrite <-C'; rewrite <-?D, <-?E; done.
Qed.

(** ** The invariant *)

Lemma ready_not_sem : sym_ready_queue ∉ sems.
Proof.
  intros Hs. destruct (obj_sep _ _ HO (sym_ready_queue, NODE_SIZE) (sym_ready_queue, SEM_SIZE)) as [E|E];
    [left|by apply obj_sem|done|]. unfold disj, NODE_SIZE, SEM_SIZE in E. simpl in E. lia.
Qed.

Lemma head_ready h : h ∈ sems -> h <> sym_ready_queue.
Proof. intros Hs ->. by apply ready_not_sem. Qed.

(** A process that is neither READY nor waiting for a semaphore is in no queue. *)
Lemma wf_free c y p h :
  wf c y -> p ∈ procs -> y_state y p <> PROC_STATE_READY -> y_state y p <> PROC_STATE_WAIT_SEM ->
  h ∈ heads -> p ∉ y_queue y h.
Proof.
  intros HW Hp H1 H2 Hh Hq. apply elem_of_cons in Hh as [->|Hh].
  - apply H1. by apply (wf_ready _ _ HW).
  - apply H2. apply (wf_wait _ _ HW); eauto.
Qed.

Lemma wf_ready_cons y : wf None y -> exists n rest, y_ready y = n :: rest.
Proof.
  intros HW. destruct (wf_idle _ _ HW) as [Hi [Hs|Hs]].
  - apply (wf_ready _ _ HW) in Hs; [|done]. destruct (y_ready y) as [|n rest]; [|by eauto].
    by apply elem_of_nil in Hs.
  - apply (wf_curr _ _ HW) in Hs; done.
Qed.

(** The next process runs. *)
Lemma wf_next y n rest :
  wf None y -> y_ready y = n :: rest -> n ∈ procs /\ wf (Some n) (y_run_next y).
Proof.
  intros [[HL1 HL2] HN HR HW HV HM HC [Hi1 Hi2]] Er.
  assert (sym_ready_queue ∈ heads) as Hh by left.
  assert (n ∈ y_ready y) as Hn by (rewrite Er; left).
  assert (n ∈ procs) as Hp by (by apply (HL1 sym_ready_queue)).
  pose proof (proj1 (HR n Hp) Hn) as Sn.
  pose proof (HN _ Hh) as HNr. change (NoDup (y_ready y)) in HNr. rewrite Er in HNr.
  apply NoDup_cons in HNr as [Hfresh HNr].
  assert (forall h p, p ∈ upd (y_queue y) sym_ready_queue rest h -> p ∈ y_queue y h) as Hsub.
  { intros h p. unfold upd. case_decide; [subst h|done]. intros. change (p ∈ y_ready y).
    rewrite Er. by right. }
  split; [done|]. unfold y_run_next. rewrite Er. split; simpl.
  - split; simpl; eauto.
  - intros h Hh'. unfold upd. case_decide; [done|by apply HN].
  - intros p Hp'. unfold y_ready. simpl. rewrite upd_eq. unfold upd. case_decide as Ep.
    + subst p. split; [intros; by apply Hfresh in H|done].
    + rewrite <-HR, Er, elem_of_cons by done. naive_solver.
  - intros p Hp'. unfold upd at 1. case_decide as Ep.
    + subst p. split; [done|]. intros (s & Hs & Hq). rewrite upd_ne in Hq by by apply head_ready.
      exfalso. apply (head_ready s Hs). apply (HL2 s sym_ready_queue n); [by right|done..].
    + rewrite HW by done. split; intros (s & Hs & Hq); exists s; split; try done;
        [|apply Hsub; done]. by rewrite upd_ne by by apply head_ready.
  - intros s Hs. rewrite upd_ne by by apply head_ready. by apply HV.
  - done.
  - intros p Hp'. unfold upd. case_decide as Ep; [by subst p|]. rewrite HC by done. naive_solver.
  - split; [done|]. unfold upd. case_decide; [by right|done].
Qed.

(** The running process stops; it is in no queue, or in one semaphore's. *)
Lemma wf_stop y p st :
  wf (Some p) y -> p ∈ procs -> p <> sym_idle_proc ->
  st ∈ [PROC_STATE_WAIT_CHILD; PROC_STATE_SLEEP; PROC_STATE_ZOMBIE] ->
  wf None (y_set_state p st y).
Proof.
  intros HWF Hp Hi Hst. pose proof (proj2 (wf_curr _ _ HWF p Hp) eq_refl) as Sp.
  assert (st <> PROC_STATE_READY /\ st <> PROC_STATE_WAIT_SEM /\ st <> PROC_STATE_CURR) as (N1 & N2 & N3).
  { apply elem_of_cons in Hst as [->|[->|[->|[]%elem_of_nil]%elem_of_cons]%elem_of_cons]; done. }
  pose proof (fun h => wf_free _ _ p h HWF Hp ltac:(by rewrite Sp) ltac:(by rewrite Sp)) as Hfree.
  destruct HWF as [[HL1 HL2] HN HR HW HV HM HC [Hi1 Hi2]].
  split; simpl; try done.
  - intros q Hq. unfold upd. case_decide as Eq; [subst q|by apply HR].
    split; [intros Hr; by apply (Hfree sym_ready_queue) in Hr; [|left]|done].
  - intros q Hq. unfold upd. case_decide as Eq; [subst q|by apply HW].
    split; [done|]. intros (s & Hs & Hq'). by apply (Hfree s) in Hq'; [|right].
  - intros q Hq. unfold upd. case_decide as Eq; [subst q; done|]. rewrite HC by done. naive_solver.
  - split; [done|]. by rewrite upd_ne.
Qed.

(** The running process waits for a semaphore. *)
Lemma wf_block y p s :
  wf (Some p) y -> p ∈ procs -> p <> sym_idle_proc -> s ∈ sems -> y_val y s <= 0 ->
  wf None (y_set_state p PROC_STATE_WAIT_SEM (y_set_queue s (y_queue y s ++ [p]) (y_set_val s (y_val y s - 1) y))).
Proof.
  intros HWF Hp Hi Hs Hv. pose proof (proj2 (wf_curr _ _ HWF p Hp) eq_refl) as Sp.
  pose proof (fun h => wf_free _ _ p h HWF Hp ltac:(by rewrite Sp) ltac:(by rewrite Sp)) as Hfree.
  destruct HWF as [[HL1 HL2] HN HR HW HV HM HC [Hi1 Hi2]].
  assert (forall h q, q ∈ upd (y_queue y) s (y_queue y s ++ [p]) h <-> q ∈ y_queue y h \/ (h = s /\ q = p)) as Hq.
  { intros h q. unfold upd. case_decide; [subst h|naive_solver].
    rewrite elem_of_app, list_elem_of_singleton. naive_solver. }
  split; simpl.
  - split; simpl; intros h; setoid_rewrite Hq.
    + intros q Hh [Hx|[-> ->]]; [by eapply HL1|done].
    + intros h2 q H1 H2 [Hx|[? ?]] [Hy|[? ?]]; subst; [by eapply HL2|..|done]; exfalso;
        (eapply Hfree; [|eassumption]; done).
  - intros h Hh. unfold upd. case_decide; [subst h|by apply HN]. apply NoDup_app. split_and!;
      [by apply HN|intros x Hx Ex%list_elem_of_singleton; subst x; by eapply Hfree|apply NoDup_singleton].
  - intros q Hq'. unfold y_ready. simpl. rewrite Hq. unfold upd. case_decide as Eq.
    + subst q. split; [|done]. intros [Hx|[E _]]; [by apply (Hfree sym_ready_queue) in Hx; [|left]|].
      exfalso. by apply (head_ready s Hs).
    + rewrite <-HR by done. unfold y_ready. naive_solver.
  - intros q Hq'. setoid_rewrite Hq. unfold upd. case_decide as Eq.
    + subst q. split; [|done]. intros _. exists s. split; [done|by right].
    + rewrite HW by done. naive_solver.
  - intros t Ht. unfold upd. case_decide; [subst t|by apply HV].
    rewrite length_app, Nat2Z.inj_add, HV by done. simpl. lia.
  - intros t Ht. unfold upd. case_decide; [subst t; lia|by apply HM].
  - intros q Hq'. unfold upd. case_decide as Eq; [subst q; done|]. rewrite HC by done. naive_solver.
  - split; [done|]. by rewrite upd_ne.
Qed.

(** A process that is in no queue becomes ready. *)
Lemma wf_push c y p :
  wf c y -> p ∈ procs -> y_state y p ∈ [PROC_STATE_INIT; PROC_STATE_SLEEP; PROC_STATE_WAIT_CHILD] ->
  wf c (y_push p y).
Proof.
  intros HWF Hp Hst.
  assert (y_state y p <> PROC_STATE_READY /\ y_state y p <> PROC_STATE_WAIT_SEM /\
          y_state y p <> PROC_STATE_CURR) as (N1 & N2 & N3).
  { apply elem_of_cons in Hst as [->|[->|[->|[]%elem_of_nil]%elem_of_cons]%elem_of_cons]; done. }
  pose proof (fun h => wf_free _ _ p h HWF Hp N1 N2) as Hfree.
  destruct HWF as [[HL1 HL2] HN HR HW HV HM HC [Hi1 Hi2]].
  assert (forall h q, q ∈ upd (y_queue y) sym_ready_queue (p :: y_ready y) h <->
    q ∈ y_queue y h \/ (h = sym_ready_queue /\ q = p)) as Hq.
  { intros h q. unfold upd. case_decide; [subst h|naive_solver].
    unfold y_ready. rewrite elem_of_cons. naive_solver. }
  assert (p = sym_idle_proc -> False) by (intros ->; naive_solver).
  split; simpl.
  - split; simpl; intros h; setoid_rewrite Hq.
    + intros q Hh [Hx|[-> ->]]; [by eapply HL1|done].
    + intros h2 q H1 H2 [Hx|[? ?]] [Hy|[? ?]]; subst; [by eapply HL2|..|done]; exfalso;
        (eapply Hfree; [|eassumption]; done).
  - intros h Hh. unfold upd. case_decide; [subst h|by apply HN]. apply NoDup_cons.
    split; [by apply Hfree|by apply (HN sym_ready_queue)].
  - intros q Hq'. unfold y_ready. simpl. rewrite Hq. unfold upd. case_decide as Eq.
    + subst q. naive_solver.
    + rewrite <-HR by done. unfold y_ready. naive_solver.
  - intros q Hq'. setoid_rewrite Hq. unfold upd. case_decide as Eq.
    + subst q. split; [done|]. intros (s & Hs & [Hx|[-> _]]); [by apply (Hfree s) in Hx; [|right]|].
      exfalso. by apply ready_not_sem.
    + rewrite HW by done. naive_solver.
  - intros t Ht. rewrite upd_ne by by apply head_ready. by apply HV.
  - done.
  - intros q Hq'. unfold upd. case_decide as Eq; [subst q|by apply HC].
    split; [done|]. intros. exfalso. apply N3. by apply HC.
  - split; [done|]. by rewrite upd_ne.
Qed.

(** The first process of a semaphore's queue becomes ready. *)
Lemma wf_signal c y p s rest :
  wf c y -> s ∈ sems -> y_queue y s = p :: rest ->
  wf c (y_push p (y_set_queue s rest (y_set_val s (y_val y s + 1) y))) /\ p ∈ procs /\
  y_state y p = PROC_STATE_WAIT_SEM /\ (forall h, h ∈ heads -> p ∉ upd (y_queue y) s rest h).
Proof.
  intros [[HL1 HL2] HN HR HW HV HM HC [Hi1 Hi2]] Hs Eq.
  assert (s ∈ heads) as Hh by (by right).
  assert (p ∈ procs) as Hp by (apply (HL1 s); [done|rewrite Eq; left]).
  assert (y_state y p = PROC_STATE_WAIT_SEM) as Sp.
  { apply HW; [done|]. exists s. split; [done|]. rewrite Eq. left. }
  pose proof (HN s Hh) as HNs. rewrite Eq in HNs. apply NoDup_cons in HNs as [Hp' HNs].
  assert (forall h, h ∈ heads -> p ∉ upd (y_queue y) s rest h) as Hfree.
  { intros h Hh'. unfold upd. case_decide as E; [done|]. intros Hx. apply E.
    apply (HL2 h s p); [done..|]. rewrite Eq. left. }
  assert (forall h q, q ∈ upd (y_queue y) s rest h -> q ∈ y_queue y h) as Hsub.
  { intros h q. unfold upd. case_decide; [subst h|done]. rewrite Eq. by right. }
  assert (forall h q, q ∈ y_queue y h -> q <> p -> q ∈ upd (y_queue y) s rest h) as Hsup.
  { intros h q. unfold upd. case_decide; [subst h|done]. rewrite Eq. set_solver. }
  pose proof (head_ready s Hs) as Hsr.
  assert (upd (y_queue y) s rest sym_ready_queue = y_ready y) as Er by (by rewrite upd_ne).
  split; [|done]. unfold y_push, y_ready at 1. simpl. rewrite Er.
  assert (forall h q, q ∈ upd (upd (y_queue y) s rest) sym_ready_queue (p :: y_ready y) h <->
    q ∈ upd (y_queue y) s rest h \/ (h = sym_ready_queue /\ q = p)) as Hq.
  { intros h q. unfold upd at 1. case_decide; [subst h|naive_solver].
    rewrite elem_of_cons, Er. naive_solver. }
  split; simpl.
  - split; simpl; intros h; setoid_rewrite Hq.
    + intros q Hh' [Hx%Hsub|[-> ->]]; [by eapply HL1|done].
    + intros h2 q H1 H2 [Hx|[? ?]] [Hy|[? ?]]; subst; [apply Hsub in Hx, Hy; by eapply HL2|..|done];
        exfalso; (eapply Hfree; [|eassumption]; done).
  - intros h Hh'. unfold upd at 1. case_decide; [subst h|].
    + apply NoDup_cons. rewrite <-Er at 1. split; [by apply Hfree|by apply (HN sym_ready_queue)].
    + unfold upd. case_decide; [done|by apply HN].
  - intros q Hq'. unfold y_ready. simpl. rewrite Hq, Er. unfold upd. case_decide as E.
    + subst q. naive_solver.
    + rewrite <-HR by done. naive_solver.
  - intros q Hq'. setoid_rewrite Hq. unfold upd at 1. case_decide as E.
    + subst q. split; [done|]. intros (t & Ht & [Hx|[-> _]]); [by apply (Hfree t) in Hx; [|right]|].
      exfalso. by apply ready_not_sem.
    + rewrite HW by done. split; intros (t & Ht & Hx); exists t; (split; [done|]).
      * left. by apply Hsup.
      * destruct Hx as [Hx|[-> _]]; [by apply Hsub|]. exfalso. by apply ready_not_sem.
  - intros t Ht. rewrite upd_ne by by apply head_ready. unfold upd. case_decide; [subst t|by apply HV].
    specialize (HV s Hs). rewrite Eq in HV. simpl in HV. lia.
  - intros t Ht. unfold upd. case_decide; [subst t|by apply HM].
    specialize (HV s Hs). rewrite Eq in HV. simpl in HV. lia.
  - intros q Hq'. unfold upd. case_decide as E; [subst q|by apply HC].
    split; [done|]. intros Hc. apply HC in Hc; [|done]. by rewrite Sp in Hc.
  - split; [done|]. rewrite upd_ne; [done|]. intros <-. rewrite Sp in Hi2. by destruct Hi2.
Qed.

(** The value of a semaphore nobody waits for. *)
Lemma wf_set_val c y s v :
  wf c y -> 0 <= y_val y s -> 0 <= v < 2 ^ 31 -> wf c (y_set_val s v y).
Proof.
  intros [[HL1 HL2] HN HR HW HV HM HC HI] H1 H2. split; simpl; try done.
  - intros t Ht. unfold upd. case_decide; [subst t|by apply HV]. rewrite HV by done. lia.
  - intros t Ht. unfold upd. case_decide; [lia|by apply HM].
Qed.

(** ** Choosing the next process *)

(** When nothing runs, the top of the stack is next. *)
Lemma resched_stopped y n rest :
  wf None y -> (y_curr y <> nullptr -> y_curr y ∈ procs) -> y_ready y = n :: rest ->
  a_put_back y = y /\ a_next y = n /\ a_resched y = y_run_next y.
Proof.
  intros HW Hc Er. assert (a_put_back y = y) as E1.
  { unfold a_put_back. destruct (Z.eqb_spec (y_curr y) nullptr) as [|Hn]; [done|]. simpl.
    case_test; [|done]. by apply (wf_curr _ _ HW) in E; [|apply Hc]. }
  assert (n ∈ procs /\ y_state y n = PROC_STATE_READY /\ n ∉ rest) as (Hp & Hn & Hf).
  { assert (n ∈ y_ready y) as Hn by (rewrite Er; left).
    assert (n ∈ procs) as Hp by (apply (ln_procs _ _ _ (wf_linked _ _ HW) sym_ready_queue); [left|done]).
    split_and!; [done|by apply (wf_ready _ _ HW)|].
    pose proof (wf_nodup _ _ HW sym_ready_queue ltac:(left)) as HN. change (NoDup (y_ready y)) in HN.
    rewrite Er in HN. by apply NoDup_cons in HN as [? _]. }
  unfold a_resched, a_next. rewrite E1, Er. simpl. split_and!; [done..|].
  unfold a_update, a_leave, y_run_next. rewrite Hn, Er. simpl. do 3 f_equal.
  by apply without_head.
Qed.

(** A process that can run is chosen again. *)
Lemma resched_running y : running y -> a_next y = y_curr y /\ a_resched y ≡ y /\ y_ready (a_put_back y) <> [].
Proof.
  intros [Hp HW]. set (c := y_curr y) in *.
  pose proof (proj2 (wf_curr _ _ HW c Hp) eq_refl) as Sc.
  assert (c <> nullptr) as Hn.
  { pose proof (ob_procs _ _ HO) as HF. rewrite Forall_forall in HF. by apply HF. }
  assert (c ∉ y_ready y) as Hc by (apply (wf_free _ _ c sym_ready_queue HW); [done|by rewrite Sc..|left]).
  assert (a_put_back y = y_set_queue sym_ready_queue (c :: y_ready y) (y_set_state c PROC_STATE_READY y)) as E.
  { unfold a_put_back. fold c. rewrite (proj2 (Z.eqb_neq _ _) Hn), Sc. simpl.
    unfold a_update, a_leave, a_enter. by rewrite Sc. }
  assert (a_next y = c) as En. { unfold a_next. rewrite E. unfold y_ready. simpl. by rewrite upd_eq. }
  split_and!; [done| |rewrite E; unfold y_ready; simpl; by rewrite upd_eq].
  unfold a_resched. rewrite En, E. unfold a_update, a_leave, a_enter, y_ready. simpl. rewrite !upd_eq. simpl.
  rewrite (without_head c) by done. split; simpl; try done.
  - intros h. unfold upd. by repeat (case_decide; subst).
  - intros q. unfold upd. repeat case_decide; subst; done.
Qed.

(** [sched_resched] between two processes. *)
Lemma resched_next k y old n rest :
  rep k y -> wf None y -> y_curr y = old -> (old <> nullptr -> old ∈ procs) -> y_ready y = n :: rest ->
  exists k', sched_resched k = Switch k' old n (fun k => Ret k tt) /\
    rep k' (y_run_next y) /\ running (y_run_next y) /\ only_sched k k'.
Proof.
  intros HR HW <- Hc Er. destruct (resched_stopped y n rest HW Hc Er) as (E1 & E2 & E3).
  destruct (resched_spec procs sems HO k y HR) as (k' & E & HR' & Hk).
  - intros Hn. split; [auto|]. intros h Hh Hs. by apply (wf_curr _ _ HW) in Hs; [|auto].
  - by rewrite E1, Er.
  - exists k'. rewrite E2 in E. rewrite E3 in HR'. split_and!; [done|done| |done].
    destruct (wf_next y n rest HW Er) as [Hp HW']. split; unfold y_run_next in *; rewrite Er in *; done.
Qed.

Lemma running_curr y :
  running y -> y_state y (y_curr y) = PROC_STATE_CURR /\ forall h, h ∈ heads -> y_curr y ∉ y_queue y h.
Proof.
  intros [Hp HW]. pose proof (proj2 (wf_curr _ _ HW _ Hp) eq_refl) as Sc. split; [done|].
  intros h Hh. apply (wf_free _ _ _ _ HW); [done|by rewrite Sc..|done].
Qed.

(** The equation of the source for [sched_update_state]. *)
Lemma update_eq p st k : sched_update_state p st k = sched_update_body sched_resched p st k.
Proof. done. Qed.

Definition step_ok (o : sop) (k : kst) (y : sys) : Prop :=
  exists k', run_sop o k = match (y_step o y).2 with
                           | None => Ret k' tt
                           | Some (old, new) => Switch k' old new (fun k => Ret k tt)
                           end /\
    rep k' (y_step o y).1 /\ running (y_step o y).1 /\ only_sched k k'.

Lemma yield_ok k y : rep k y -> running y -> step_ok Yield k y.
Proof.
  intros HR HW. destruct (resched_running y HW) as (E1 & E2 & E3).
  destruct (resched_spec procs sems HO k y HR) as (k' & E & HR' & Hk).
  - intros _. split; [apply HW|]. intros h Hh _. by apply running_curr.
  - done.
  - exists k'. simpl. rewrite E1 in E. rewrite E2 in HR'. done.
Qed.

Lemma block_ok k y st : rep k y -> running y -> may (Block st) y -> step_ok (Block st) k y.
Proof.
  intros HR HW [Hst Hi]. destruct (running_curr y HW) as [Sc Hfree].
  destruct (update_stops procs sems HO sched_resched k y st HR (proj1 HW)) as (k1 & E1 & HR1 & Hk1);
    [set_solver|done|].
  assert (a_update (y_curr y) st y = y_set_state (y_curr y) st y) as Ea.
  { unfold a_update, a_leave, a_enter. rewrite Sc. by destruct Hst as [->| ->]. }
  rewrite Ea in HR1. pose proof (wf_stop y _ st (proj2 HW) (proj1 HW) Hi ltac:(set_solver)) as HW1.
  destruct (wf_ready_cons _ HW1) as (n & rest & Er).
  destruct (resched_next k1 _ _ n rest HR1 HW1 eq_refl (fun _ => proj1 HW) Er) as (k2 & E2 & HR2 & HW2 & Hk2).
  exists k2. simpl. change (y_ready (y_set_state (y_curr y) st y)) with (y_ready y) in Er. rewrite Er.
  split_and!; [|done|done|by etrans]. unfold curr_proc. rewrite bind_gets, (rp_curr _ _ _ _ HR), update_eq.
  by rewrite E1.
Qed.

Lemma exit_ok k y : rep k y -> running y -> may Exit y -> step_ok Exit k y.
Proof.
  intros HR HW Hi. destruct (running_curr y HW) as [Sc Hfree].
  destruct (update_zombie procs sems HO sched_resched k y HR (proj1 HW) Sc) as (k1 & E1 & HR1 & Hk1).
  assert (a_update (y_curr y) PROC_STATE_ZOMBIE y = y_set_state (y_curr y) PROC_STATE_ZOMBIE y) as Ea.
  { unfold a_update, a_leave, a_enter. by rewrite Sc. }
  rewrite Ea in HR1. set (y1 := y_set_state (y_curr y) PROC_STATE_ZOMBIE y) in *.
  pose proof (wf_stop y _ PROC_STATE_ZOMBIE (proj2 HW) (proj1 HW) Hi ltac:(set_solver)) as HW1.
  assert (wf None (y_set_curr nullptr y1)) as HW2 by (destruct HW1 as [[] ? ? ? ? ? ? ?]; by split).
  destruct (wf_ready_cons _ HW2) as (n & rest & Er).
  destruct (resched_next k1 _ _ n rest HR1 HW2 eq_refl ltac:(done) Er) as (k2 & E2 & HR2 & HW3 & Hk2).
  exists k2. simpl. fold y1. change (y_ready (y_set_curr nullptr y1)) with (y_ready y) in Er. rewrite Er.
  assert (y_run_next (y_set_curr nullptr y1) = y_run_next y1) as En.
  { unfold y_run_next. change (y_ready (y_set_curr nullptr y1)) with (y_ready y).
    change (y_ready y1) with (y_ready y). by rewrite Er. }
  rewrite En in *. split_and!; [|done|done|by etrans].
  unfold curr_proc. rewrite bind_gets, (rp_curr _ _ _ _ HR), update_eq. by rewrite E1.
Qed.

Lemma wake_ok k y p : rep k y -> running y -> may (Wake p) y -> step_ok (Wake p) k y.
Proof.
  intros HR HW [Hp Hst].
  assert (y_state y p <> PROC_STATE_READY /\ y_state y p <> PROC_STATE_WAIT_SEM) as [N1 N2].
  { apply elem_of_cons in Hst as [->|[->|[->|[]%elem_of_nil]%elem_of_cons]%elem_of_cons]; done. }
  destruct (update_ready procs sems HO sched_resched k y p HR Hp) as (k1 & E1 & HR1 & Hk1).
  - intros E. by rewrite E in N1.
  - intros h Hh _. by apply (wf_free _ _ _ _ (proj2 HW)).
  - exists k1. set (y0 := if y_state y p =? PROC_STATE_SLEEP
      then y_set_timers (cancel_tmr (proc_timer p) (y_timers y)) y else y).
    assert (a_leave p y = y0) as El. { unfold a_leave. by rewrite (proj2 (Z.eqb_neq _ _) N1). }
    assert (wf (Some (y_curr y0)) y0 /\ y_state y0 p = y_state y p /\ y_curr y0 ∈ procs) as (HW0 & Es & Hc).
    { subst y0. destruct HW as [Hc HW]. case_test; [|done].
      split; [|done]. destruct HW as [[] ? ? ? ? ? ? ?]. by split. }
    unfold a_update in HR1. rewrite (proj2 (Z.eqb_neq _ _) N1), El in HR1. simpl. fold y0.
    split_and!; [by rewrite update_eq|exact HR1| |done].
    split; [done|]. apply wf_push; [done|done|by rewrite Es].
Qed.

Lemma i32_id x : - 2 ^ 31 <= x < 2 ^ 31 -> i32 x = x.
Proof. intros Hx. unfold i32. rewrite Z.mod_small; lia. Qed.

(** No semaphore goes below minus the number of processes. *)
Lemma val_bound y s : running y -> s ∈ sems -> - PROC_TABLE_SIZE <= y_val y s < 2 ^ 31.
Proof.
  intros [Hc HW] Hs. split; [|by apply (wf_max _ _ HW)].
  assert (length (y_queue y s) ≤ length procs)%nat as Hl.
  { apply submseteq_length, NoDup_submseteq; [apply (wf_nodup _ _ HW); by right|].
    intros p Hp. apply (ln_procs _ _ _ (wf_linked _ _ HW) s); [by right|done]. }
  pose proof (wf_val _ _ HW s Hs). lia.
Qed.

Lemma val_foot k s v : s ∈ sems -> only_sched k (set_mem (set_sem_val (k_mem k) s v) k).
Proof.
  intros Hs. eapply only_sched_mem; [apply (store_unch 4)|]. intros a Ha. right. left.
  exists s. split; [done|exact Ha].
Qed.

Lemma sem_wait_ok k y s : rep k y -> running y -> may (SemWait s) y -> step_ok (SemWait s) k y.
Proof.
  intros HR HW [Hs Hi]. pose proof (val_bound y s HW Hs) as Hb. unfold PROC_TABLE_SIZE in Hb.
  set (v := y_val y s) in *. destruct (running_curr y HW) as [Sc Hfree]. set (c := y_curr y) in *.
  unfold step_ok. simpl. fold v c.
  pose proof (rep_val _ _ HO k y s (v - 1) HR Hs ltac:(lia)) as HR1.
  assert (sem_wait s k = (if v - 1 <? 0
    then bind (upd_mem (fun m => list_push_back m s (proc_node c))) (fun _ => sched_update_state c PROC_STATE_WAIT_SEM)
    else ret tt) (set_mem (set_sem_val (k_mem k) s (v - 1)) k)) as E0.
  { unfold sem_wait. rewrite bind_upd.
    rewrite (rp_val _ _ _ _ HR s Hs). fold v. rewrite i32_id by lia. rewrite bind_mem.
    rewrite (rp_val _ _ _ _ HR1 s Hs). simpl. rewrite upd_eq. case_test; [|done].
    unfold curr_proc. rewrite bind_gets. by rewrite (rp_curr _ _ _ _ HR1). }
  rewrite E0. clear E0. destruct (Z.ltb_spec 0 v) as [Hv|Hv].
  { rewrite (proj2 (Z.ltb_ge _ _)) by lia. eexists. split; [done|]. split; [done|]. split; [|by apply val_foot].
    split; [apply HW|]. simpl. apply wf_set_val; [apply HW|fold v; lia..]. }
  rewrite (proj2 (Z.ltb_lt _ _)) by lia. set (k1 := set_mem _ k) in *.
  assert (s ∈ heads) as Hh by (by right).
  destruct (list_push_back_dlist (k_mem k1) s (y_queue y s) c) as [HD HU].
  { apply (rp_queue _ _ _ _ HR1 s Hh). }
  { eapply (link_ok _ _ HO _ _ _ _ HR1); [done|apply HW|by apply Hfree]. }
  set (y1 := y_set_val s (v - 1) y) in *. set (y2 := y_set_queue s (y_queue y s ++ [c]) y1) in *.
  set (k2 := set_mem (list_push_back (k_mem k1) s c) k1).
  assert (rep k2 y2) as HR2.
  { eapply (rep_queue _ _ HO _ _ _ c); [exact HR1|done|apply HW|exact HD|exact HU| |].
    - intros x. rewrite elem_of_app, list_elem_of_singleton. tauto.
    - intros h Hh' _. by apply Hfree. }
  assert (only_sched k k2) as Hk2.
  { etrans; [by apply val_foot|]. eapply only_sched_mem; [exact HU|]. intros a. apply nodes_sched.
    intros x Hx. apply elem_of_cons in Hx as [->|[->|Hx]%elem_of_cons];
      [apply elem_of_app; right; apply HW|by apply elem_of_app; left|].
    apply elem_of_app. right. by apply (ln_procs _ _ _ (wf_linked _ _ (proj2 HW)) s). }
  destruct (update_stops procs sems HO sched_resched k2 y2 PROC_STATE_WAIT_SEM HR2 (proj1 HW))
    as (k3 & E3 & HR3 & Hk3); [left|done|].
  assert (a_update c PROC_STATE_WAIT_SEM y2 = y_set_state c PROC_STATE_WAIT_SEM y2) as Ea.
  { unfold a_update, a_leave, a_enter. simpl. by rewrite Sc. }
  change (y_curr y2) with c in *. rewrite Ea in HR3.
  pose proof (wf_block y c s (proj2 HW) (proj1 HW) Hi Hs Hv) as HW3. fold v y1 y2 in HW3.
  destruct (wf_ready_cons _ HW3) as (n & rest & Er).
  destruct (resched_next k3 _ _ n rest HR3 HW3 eq_refl (fun _ => proj1 HW) Er) as (k4 & E4 & HR4 & HW4 & Hk4).
  exists k4. simpl.
  assert (y_ready y = n :: rest) as ->.
  { rewrite <-Er. unfold y_ready. simpl. by rewrite upd_ne by (intros E; by apply (head_ready s Hs)). }
  split_and!; [|done|done|by etrans; [exact Hk2|etrans]].
  rewrite bind_upd, update_eq. change (proc_node c) with c. fold k2. by rewrite E3.
Qed.

Lemma sem_signal_ok k y s : rep k y -> running y -> may (SemSignal s) y -> step_ok (SemSignal s) k y.
Proof.
  intros HR HW [Hs Hm]. pose proof (val_bound y s HW Hs) as Hb. unfold PROC_TABLE_SIZE in Hb.
  set (v := y_val y s) in *. unfold step_ok. simpl. fold v.
  pose proof (rep_val _ _ HO k y s (v + 1) HR Hs ltac:(lia)) as HR1.
  set (k1 := set_mem (set_sem_val (k_mem k) s (v + 1)) k) in *.
  assert (sem_signal s k = (if v <? 0 then sem_wake s else ret tt) k1) as ->.
  { unfold sem_signal, sem_incr, run_mem, bind at 1. rewrite (rp_val _ _ _ _ HR s Hs). fold v.
    rewrite i32_id by lia. done. }
  pose proof (wf_val _ _ (proj2 HW) s Hs) as Hl. fold v in Hl.
  destruct (Z.ltb_spec v 0) as [Hv|Hv].
  2: { assert (length (y_queue y s) = 0)%nat as El by lia. apply nil_length_inv in El. rewrite El.
       exists k1. split_and!; [done|done| |by apply val_foot].
       split; [apply HW|]. apply wf_set_val; [apply HW|fold v; lia..]. }
  destruct (y_queue y s) as [|p rest] eqn:Eq; [simpl in Hl; lia|].
  destruct (wf_signal _ _ p s rest (proj2 HW) Hs Eq) as (HW' & Hp & Sp & Hfree). fold v in HW'.
  assert (s ∈ heads) as Hh by (by right).
  pose proof (rp_queue _ _ _ _ HR1 s Hh) as HD. change (dlist (k_mem k1) s (y_queue y s)) in HD.
  rewrite Eq in HD.
  destruct (list_pop_front_dlist _ _ _ _ HD) as [HD' HU].
  set (y1 := y_set_val s (v + 1) y) in *. set (y2 := y_set_queue s rest y1) in *.
  set (k2 := set_mem (list_pop_front (k_mem k1) s) k1).
  assert (rep k2 y2) as HR2.
  { eapply (rep_queue _ _ HO _ _ _ p); [exact HR1|done|done|exact HD'| | |]; simpl; rewrite ?Eq.
    - eapply unch_mono; [|exact HU]. intros a (x & Hx & Ha). exists x. set_solver.
    - set_solver.
    - intros h Hh' Hne. specialize (Hfree h Hh'). by rewrite upd_ne in Hfree. }
  destruct (update_ready procs sems HO sched_resched k2 y2 p HR2 Hp) as (k3 & E3 & HR3 & Hk3).
  { intros E. simpl in E. by rewrite Sp in E. }
  { intros h Hh' _. by apply Hfree. }
  exists k3. split_and!.
  - unfold sem_wake. rewrite bind_mem. unfold list_first_entry, list_entry.
    rewrite (list_front_spec _ _ _ HD). simpl hd. rewrite Z.sub_0_r.
    rewrite bind_upd, update_eq. fold k2. by rewrite E3.
  - unfold a_update, a_leave in HR3. simpl in HR3. by rewrite Sp in HR3.
  - split; [apply HW|exact HW'].
  - etrans; [by apply val_foot|]. fold k1. etrans; [|exact Hk3].
    eapply only_sched_mem; [exact HU|]. intros a. apply nodes_sched. intros x Hx. apply elem_of_app.
    apply elem_of_cons in Hx as [->|Hx]; [by left|]. right.
    apply (ln_procs _ _ _ (wf_linked _ _ (proj2 HW)) s); [done|]. rewrite Eq. by right.
Qed.

Lemma sop_ok o k y : rep k y -> running y -> may o y -> step_ok o k y.
Proof. destruct o; intros; [by apply yield_ok|by apply block_ok|by apply exit_ok|by apply wake_ok|
  by apply sem_wait_ok|by apply sem_signal_ok]. Qed.

(** ** Sequences of steps *)

(** The state in which the kernel goes on, in the same process or in the next. *)
Definition after (c : M unit) (k : kst) : option kst :=
  match c k with Ret k' _ => Some k' | Switch k' _ _ _ => Some k' | Stop _ _ => None end.

Fixpoint run_sops (os : list sop) (k : kst) : option kst :=
  match os with [] => Some k | o :: os => k' ← after (run_sop o) k; run_sops os k' end.

Definition y_steps (os : list sop) (y : sys) : sys := fold_left (fun y o => (y_step o y).1) os y.

Fixpoint may_all (os : list sop) (y : sys) : Prop :=
  match os with [] => True | o :: os => may o y /\ may_all os (y_step o y).1 end.

Lemma run_sops_ok os k y :
  rep k y -> running y -> may_all os y ->
  exists k', run_sops os k = Some k' /\ rep k' (y_steps os y) /\ running (y_steps os y) /\ only_sched k k'.
Proof.
  revert k y. induction os as [|o os IH]; intros k y HR HW HM; [by exists k|].
  destruct HM as [Ho HM]. destruct (sop_ok o k y HR HW Ho) as (k1 & E & HR1 & HW1 & Hk1).
  destruct (IH _ _ HR1 HW1 HM) as (k2 & E2 & HR2 & HW2 & Hk2).
  exists k2. simpl. unfold after. rewrite E. split_and!; [|done|done|by etrans].
  destruct (y_step o y).2 as [[old new]|]; done.
Qed.

(** What the invariant says of the memory. *)
Definition sched_sound (k : kst) : Prop :=
  (exists ready, dlist (k_mem k) sym_ready_queue ready /\
     forall p, p ∈ procs -> (p ∈ ready <-> proc_state (k_mem k) p = PROC_STATE_READY)) /\
  (forall p, p ∈ procs -> (proc_state (k_mem k) p = PROC_STATE_CURR <-> p = k_curr k)) /\
  (forall s, s ∈ sems -> exists q, dlist (k_mem k) s q /\
     Z.of_nat (length q) = Z.max 0 (- sem_val (k_mem k) s) /\
     forall p, p ∈ q -> proc_state (k_mem k) p = PROC_STATE_WAIT_SEM) /\
  k_curr k ∈ procs.

Lemma running_sound k y : rep k y -> running y -> sched_sound k.
Proof.
  intros [HQ HL HS HV _ _ HC] [Hc HW]. split_and!.
  - exists (y_ready y). split; [apply HQ; left|]. intros p Hp. rewrite HS by done. by apply (wf_ready _ _ HW).
  - intros p Hp. rewrite HS, HC by done. rewrite (wf_curr _ _ HW) by done. naive_solver.
  - intros s Hs. exists (y_queue y s). split_and!; [apply HQ; by right| |].
    + rewrite HV by done. by apply (wf_val _ _ HW).
    + intros p Hp. assert (p ∈ procs) by (apply (ln_procs _ _ _ (wf_linked _ _ HW) s); [by right|done]).
      rewrite HS by done. apply (wf_wait _ _ HW); eauto.
  - by rewrite HC.
Qed.

(** C6. The scheduler and the semaphores refine the abstract steps: from a state
    that represents [y], each operation returns, or switches from and to exactly
    the processes that [y_step] says, in a state that represents the abstract
    result.  The processor goes to the process that became ready last; nothing
    but queue nodes, process states, semaphore values and timers is written. *)
Theorem sched_op_refines o k y :
  rep k y -> running y -> may o y ->
  exists k', run_sop o k = match (y_step o y).2 with
                           | None => Ret k' tt
                           | Some (old, new) => Switch k' old new (fun k => Ret k tt)
                           end /\
    rep k' (y_step o y).1 /\ running (y_step o y).1 /\ only_sched k k'.
Proof. apply sop_ok. Qed.

(** C7. In every sequence of scheduler and semaphore operations the kernel never
    gets stuck and stays sound: exactly one process runs, it is [curr_proc]; the
    ready queue holds exactly the READY processes, so it is never empty when the
    scheduler takes from it; and a semaphore of value [-n] has exactly [n]
    processes in its queue, all in WAIT_SEM. *)
Theorem sched_runs_sound os k y :
  rep k y -> running y -> may_all os y -> exists k', run_sops os k = Some k' /\ sched_sound k'.
Proof.
  intros HR HW HM. destruct (run_sops_ok os k y HR HW HM) as (k' & E & HR' & HW' & _).
  exists k'. split; [done|by eapply running_sound].
Qed.

End run.
