(* ===== verification/SemSpec.v ===== *)
(** * Loops over semaphores, and the timer tick

    [sem_signaln], [sem_deinit] and [sched_preempt], composed of the steps of
    the scheduler. *)

From S2P Require Import Prelude.
From S2P Require Import Mem.
From S2P Require Import DList.
From S2P Require Import Layout.
From S2P Require Import Pages.
From S2P Require Import Sbi.
From S2P Require Import Timer.
From S2P Require Import Proc.
From S2P Require Import Kern.
From S2P Require Import Sched.
From S2P Require Import SchedRep.
From S2P Require Import SchedSpec.
From S2P Require Import SchedRun.
#[local] Open Scope kern_scope.

Section sem.
Context `{PA : PageAllocator} `{L : Layout} `{C : Code} `{FW : Firmware} {FWOK : FirmwareOk FW} `{MC : Machine}.
Context (procs sems : list Z).
Context (HO : objs_ok procs sems).
Context (Hmany : Z.of_nat (length procs) <= PROC_TABLE_SIZE).

#[local] Abbreviation rep := (rep procs sems).
#[local] Abbreviation running := (running procs sems).
#[local] Abbreviation only_sched := (only_sched procs sems).

(** The state after [n] signals. *)
Definition y_signals (n : nat) (s : Z) (y : sys) : sys :=
  Nat.iter n (fun y => (y_step (SemSignal s) y).1) y.

Lemma y_signals_succ n s y : y_signals (S n) s y = y_signals n s (y_step (SemSignal s) y).1.
Proof. unfold y_signals. by rewrite Nat.iter_succ_r. Qed.

(** One signal, on the parts of the state. *)
Lemma signal_parts s y :
  running y -> s ∈ sems ->
  let y' := (y_step (SemSignal s) y).1 in
  y_val y' s = y_val y s + 1 /\ y_queue y' s = drop 1 (y_queue y s) /\
  y_ready y' = rev (take 1 (y_queue y s)) ++ y_ready y /\ y_curr y' = y_curr y /\ (y_step (SemSignal s) y).2 = None.
Proof.
  intros HW Hs. pose proof (wf_val _ _ _ _ (proj2 HW) s Hs) as Hv.
  pose proof (head_ready _ _ HO s Hs) as Hne. simpl.
  destruct (y_queue y s) as [|p rest] eqn:Eq.
  - simpl. rewrite upd_eq, Eq. done.
  - simpl in Hv. rewrite (proj2 (Z.ltb_lt _ _)) by lia. unfold y_ready. simpl.
    rewrite upd_eq, upd_ne, upd_eq by done. rewrite upd_eq. unfold y_ready. simpl.
    by rewrite upd_ne by done.
Qed.

Lemma signals_parts n s y k :
  rep k y -> running y -> s ∈ sems -> y_val y s + Z.of_nat n < 2 ^ 31 ->
  let y' := y_signals n s y in
  y_val y' s = y_val y s + Z.of_nat n /\ y_queue y' s = drop n (y_queue y s) /\
  y_ready y' = rev (take n (y_queue y s)) ++ y_ready y /\ y_curr y' = y_curr y.
Proof.
  revert y k. induction n as [|n IH]; intros y k HR HW Hs Hm.
  - cbv zeta. unfold y_signals. simpl. rewrite Z.add_0_r, drop_0. done.
  - rewrite y_signals_succ.
    assert (may procs sems (SemSignal s) y) as Hmay by (split; [done|lia]).
    destruct (sem_signal_ok procs sems HO Hmany k y s HR HW Hmay) as (k1 & _ & HR1 & HW1 & _).
    destruct (signal_parts s y HW Hs) as (E1 & E2 & E3 & E4 & _).
    destruct (IH _ k1 HR1 HW1 Hs ltac:(lia)) as (F1 & F2 & F3 & F4). cbv zeta. split_and!.
    + rewrite F1, E1. lia.
    + rewrite F2, E2. by rewrite drop_drop.
    + rewrite F3, E3, E2. destruct (y_queue y s) as [|p q]; [simpl; by rewrite take_nil|].
      simpl. rewrite drop_0, <-app_assoc. done.
    + congruence.
Qed.

(** [n] signals in a loop. *)
Lemma signal_loop ixs s k y :
  rep k y -> running y -> s ∈ sems -> y_val y s + Z.of_nat (length ixs) < 2 ^ 31 ->
  exists k', for_each (R := unit) ixs (fun _ => sem_signal s ;* ret None) k = Ret k' None /\
    rep k' (y_signals (length ixs) s y) /\ running (y_signals (length ixs) s y) /\ only_sched k k'.
Proof.
  revert k y. induction ixs as [|i ixs IH]; intros k y HR HW Hs Hm; [by exists k|].
  simpl length in *.
  assert (may procs sems (SemSignal s) y) as Hmay by (split; [done|lia]).
  destruct (sem_signal_ok procs sems HO Hmany k y s HR HW Hmay) as (k1 & E1 & HR1 & HW1 & Hk1).
  destruct (signal_parts s y HW Hs) as (Ev & _ & _ & _ & E2). rewrite E2 in E1.
  destruct (IH k1 _ HR1 HW1 Hs ltac:(rewrite Ev; lia)) as (k2 & E3 & HR2 & HW2 & Hk2).
  exists k2. rewrite y_signals_succ. split_and!; [|done|done|by etrans].
  simpl for_each. rewrite (bind_Ret _ _ k k1 None); [exact E3|].
  change (sem_signal s k = Ret k1 tt) in E1. by rewrite (bind_Ret _ _ _ _ _ E1).
Qed.

Lemma sem_signaln_ok s n k y :
  rep k y -> running y -> s ∈ sems -> 0 <= n -> y_val y s + n < 2 ^ 31 ->
  exists k' y', sem_signaln s n k = Ret k' tt /\ rep k' y' /\ running y' /\ only_sched k k' /\
    y_val y' s = y_val y s + n /\ y_queue y' s = drop (Z.to_nat n) (y_queue y s) /\
    y_ready y' = rev (take (Z.to_nat n) (y_queue y s)) ++ y_ready y /\ y_curr y' = y_curr y.
Proof.
  intros HR HW Hs Hn Hm.
  destruct (signal_loop (seqZ 0 n) s k y HR HW Hs) as (k' & E & HR' & HW' & Hk').
  { rewrite length_seqZ. lia. }
  rewrite length_seqZ in *. exists k', (y_signals (Z.to_nat n) s y).
  destruct (signals_parts (Z.to_nat n) s y k HR HW Hs ltac:(lia)) as (E1 & E2 & E3 & E4).
  rewrite Z2Nat.id in E1 by lia. split_and!; try done.
  unfold sem_signaln. by rewrite (bind_Ret _ _ _ _ _ E).
Qed.

(** C34. [sem_signaln] with [n] adds [n] to the value and wakes the first [n]
    processes of the queue, or all of them if fewer wait.  They are taken in the
    order in which they came, and pushed one by one on the stack of ready
    processes, so the last one woken is the next to run; no process is switched
    out. *)
Theorem sem_signaln_wakes s n k y :
  rep k y -> running y -> s ∈ sems -> 0 <= n -> y_val y s + n < 2 ^ 31 ->
  exists k' y', sem_signaln s n k = Ret k' tt /\ rep k' y' /\ running y' /\ only_sched k k' /\
    y_val y' s = y_val y s + n /\ y_queue y' s = drop (Z.to_nat n) (y_queue y s) /\
    y_ready y' = rev (take (Z.to_nat n) (y_queue y s)) ++ y_ready y /\ y_curr y' = y_curr y.
Proof. apply sem_signaln_ok. Qed.

(** The loop of [sem_deinit] from a value [v], with [n] processes waiting. *)
Lemma deinit_loop n s k y :
  rep k y -> running y -> s ∈ sems -> length (y_queue y s) = n -> y_val y s < 2 ^ 31 - 1 ->
  exists k', loop_upto (S n) (let* val := sem_incr s in
       if val <? 0 then sem_wake s ;* ret None else ret (Some tt)) k = Ret k' tt /\
    rep k' (y_signals (S n) s y) /\ running (y_signals (S n) s y) /\ only_sched k k'.
Proof.
  revert k y. induction n as [|n IH]; intros k y HR HW Hs Hl Hm.
  all: pose proof (wf_val _ _ _ _ (proj2 HW) s Hs) as Hv; rewrite Hl in Hv.
  all: destruct (sem_signal_ok procs sems HO Hmany k y s HR HW (conj Hs Hm)) as (k1 & E1 & HR1 & HW1 & Hk1).
  all: destruct (signal_parts s y HW Hs) as (Ev & Eq & _ & _ & E2); rewrite E2 in E1.
  all: change (sem_signal s k = Ret k1 tt) in E1; unfold sem_signal in E1.
  all: assert ((sem_incr s k) = Ret (set_mem (set_sem_val (k_mem k) s (i32 (y_val y s + 1))) k) (y_val y s)) as Ei
    by (unfold sem_incr, run_mem; by rewrite (rp_val _ _ _ _ HR s Hs)).
  all: rewrite (bind_Ret _ _ _ _ _ Ei) in E1.
  - exists k1. split_and!; [|done|done|done]. simpl.
    rewrite (bind_Ret _ _ k k1 (Some tt)); [done|]. rewrite (bind_Ret _ _ _ _ _ Ei).
    rewrite (proj2 (Z.ltb_ge _ _)) in * by lia. by injection E1 as ->.
  - rewrite (proj2 (Z.ltb_lt _ _)) in E1 by lia.
    destruct (IH k1 _ HR1 HW1 Hs) as (k2 & E3 & HR2 & HW2 & Hk2).
    { rewrite Eq, length_drop, Hl. lia. }
    { rewrite Ev. lia. }
    exists k2. rewrite y_signals_succ. split_and!; [|done|done|by etrans].
    change (loop_upto (S (S n)) ?b k) with
      (bind b (fun r => match r with Some r => ret r | None => loop_upto (S n) b end) k).
    rewrite (bind_Ret _ _ k k1 None); [exact E3|]. rewrite (bind_Ret _ _ _ _ _ Ei).
    rewrite (proj2 (Z.ltb_lt _ _)) by lia. by rewrite (bind_Ret _ _ _ _ _ E1).
Qed.

(** C35. [sem_deinit] ends: it wakes every process that waits for the semaphore
    and leaves it with an empty queue. *)
Theorem sem_deinit_ends s k y :
  rep k y -> running y -> s ∈ sems -> y_val y s < 2 ^ 31 - 1 ->
  exists k' y', sem_deinit s k = Ret k' tt /\ rep k' y' /\ running y' /\ only_sched k k' /\
    y_queue y' s = [] /\ y_val y' s = Z.max 0 (y_val y s) + 1 /\
    y_ready y' = rev (y_queue y s) ++ y_ready y /\ y_curr y' = y_curr y.
Proof.
  intros HR HW Hs Hm. pose proof (wf_val _ _ _ _ (proj2 HW) s Hs) as Hv.
  destruct (deinit_loop (length (y_queue y s)) s k y HR HW Hs eq_refl Hm) as (k' & E & HR' & HW' & Hk').
  destruct (signals_parts (S (length (y_queue y s))) s y k HR HW Hs ltac:(lia)) as (E1 & E2 & E3 & E4).
  eexists k', _. split_and!; [|exact HR'|exact HW'|exact Hk'|..].
  - unfold sem_deinit. rewrite bind_mem, (rp_val _ _ _ _ HR s Hs).
    replace (Z.to_nat (Z.max 0 (- y_val y s) + 1)) with (S (length (y_queue y s))) by lia. exact E.
  - rewrite E2. apply drop_ge. lia.
  - rewrite E1. lia.
  - rewrite E3, take_ge by lia. done.
  - done.
Qed.

(** ** The timer tick *)

(** [timer_wait] on the kernel's state, for an idle timer. *)
Lemma k_timer_wait_spec k y t ns cb data idle' :
  rep k y -> (y_timers y).2 ≡ₚ t :: idle' -> 0 <= cb < 2 ^ 64 -> 0 <= data < 2 ^ 64 ->
  let now := (mach_time (h_mach (k_hart k))).2 in
  exists k', k_timer_wait t ns cb data k = Ret k' tt /\
    rep k' (y_set_timers (insert_tmr (mkTmr t (u64 (now + ns / 100)) cb data) (y_timers y).1, idle') y) /\
    k_drv k' = k_drv k /\ k_procs k' = k_procs k /\
    unch (timers_foot (all_timers procs)) (k_mem k) (k_mem k').
Proof.
  intros HR HP Hcb Hd. cbv zeta. unfold k_timer_wait, time, bind.
  destruct (mach_time (h_mach (k_hart k))) as [c now] eqn:Et. cbn [bind_outcome snd].
  pose proof (rp_all _ _ _ _ HR) as HA.
  destruct (timer_wait_spec _ _ _ _ idle' now t ns cb data (rp_timers _ _ _ _ HR) HP Hcb Hd)
    as (m' & f' & E & HT & HU).
  change (k_mem (set_mach c k)) with (k_mem k).
  change (h_fw (k_hart (set_mach c k))) with (h_fw (k_hart k)). unfold run_fw.
  change (k_mem (set_mach c k)) with (k_mem k).
  change (h_fw (k_hart (set_mach c k))) with (h_fw (k_hart k)). rewrite E. simpl.
  assert (unch (timers_foot (all_timers procs)) (k_mem k) m') as HU'.
  { eapply unch_mono; [|exact HU]. intros a [Ha|(z & Hz & Ha)]; [by left|right].
    exists z. split; [|done]. rewrite <-HA, HP. set_solver. }
  eexists. split; [done|]. split; [|done].
  assert (rep (set_mach c k) y) as HR' by (destruct HR; by split).
  eapply rep_timers; [done|exact HR'|exact HT| |exact HU'].
  rewrite <-HA, HP, insert_tmr_perm. simpl. by rewrite Permutation_middle.
Qed.

(** The timers are no part of the invariant of the scheduler. *)
Lemma running_timers y ts : running y -> running (y_set_timers ts y).
Proof. intros [Hc [[] ? ? ? ? ? ? ?]]. split; [done|]. by split. Qed.

(** [sched_preempt] sets the next tick 100000 clock ticks (10 ms) ahead and
    switches from the running process to that same process. *)
Lemma preempt_ok k y idle' :
  0 <= fn_sched_preempt < 2 ^ 64 -> rep k y -> running y -> (y_timers y).2 ≡ₚ sym_timer :: idle' ->
  let now := (mach_time (h_mach (k_hart k))).2 in
  let tick := mkTmr sym_timer (u64 (now + 100000)) fn_sched_preempt nullptr in
  exists k', sched_preempt k = Switch k' (k_curr k) (k_curr k) (fun k => Ret k tt) /\
    rep k' (y_set_timers (insert_tmr tick (y_timers y).1, idle') y) /\
    unch (sched_foot procs sems) (k_mem k) (k_mem k').
Proof.
  intros Hfn HR HW HP. cbv zeta.
  destruct (k_timer_wait_spec k y sym_timer SCHED_TIMESLICE fn_sched_preempt nullptr idle' HR HP Hfn ltac:(done))
    as (k1 & E1 & HR1 & _ & _ & HU1). cbv zeta in HR1. change (SCHED_TIMESLICE / 100) with 100000 in HR1.
  set (y1 := y_set_timers _ y) in *.
  pose proof (running_timers y _ HW : running y1) as HW1.
  destruct (yield_ok procs sems HO k1 y1 HR1 HW1) as (k2 & E2 & HR2 & _ & [HU2 _ _ _]).
  exists k2. split_and!; [|exact HR2|].
  - unfold sched_preempt. rewrite (bind_Ret _ _ _ _ _ E1).
    change (sched_resched k1 = Switch k2 (y_curr y1) (y_curr y1) (fun k => Ret k tt)) in E2. rewrite E2.
    by rewrite (rp_curr _ _ _ _ HR).
  - etrans; [|exact HU2]. eapply unch_mono; [|exact HU1]. intros a Ha. by do 3 right.
Qed.
End sem.
