(* ===== verification/SchedDemo.v ===== *)
(** * A small kernel: three processes and a semaphore

    The idle process is ready, the second process runs, and the third waits for
    the semaphore.  The theorems on the scheduler are applied to it. *)

From S2P Require Import Prelude.
From S2P Require Import Mem.
From S2P Require Import DList.
From S2P Require Import Layout.
From S2P Require Import Pages.
From S2P Require Import Sbi.
From S2P Require Import Timer.
From S2P Require Import Proc.
From S2P Require Import Kern.
From S2P Require Import Sched.
From S2P Require Import SchedRep.
From S2P Require Import SchedSpec.
From S2P Require Import SchedRun.
From S2P Require Import SemSpec.

(** Concrete lists are decidable. *)
#[export] Instance seps_dec rs : Decision (seps rs).
Proof. induction rs as [|r rs IH]; simpl; apply _. Defined.

#[export] Instance addr_ok_dec n x : Decision (addr_ok n x).
Proof. unfold addr_ok. apply _. Defined.

#[export] Instance chain_dec m l : Decision (chain m l).
Proof. induction l as [|x [|y l] IH]; simpl; apply _. Defined.

#[export] Instance dlist_dec m h xs : Decision (dlist m h xs).
Proof. unfold dlist, nodes_ok. apply _. Defined.

#[local] Existing Instance virt_layout.
#[local] Existing Instance plain_fw.
#[local] Existing Instance plain_fw_ok.
#[local] Existing Instance plain_mach.

#[export] Instance demo_code : Code := {|
  fn_proc_entry := 0x802030c0; fn_idle_task := 0x80201000; fn_sched_preempt := 0x80201100;
  fn_wakeup_proc := 0x80201200; fn_uart_isr := 0x80201300;
  obj_TTY_DRIVER := 0x80207000; obj_UART_DRIVER := 0x80207010;
|}.

Definition p_idle : Z := sym_idle_proc.
Definition p_a : Z := 0x80230000.
Definition p_b : Z := 0x80231000.
Definition the_sem : Z := 0x80232000.
Definition demo_procs : list Z := [p_idle; p_a; p_b].
Definition demo_sems : list Z := [the_sem].

Definition demo_mem : mem :=
  let m := list_init_head ∅ sym_ready_queue in
  let m := list_init_head m sym_wait_queue in
  let m := fold_left timer_init (all_timers demo_procs) m in
  let m := list_push_front m sym_ready_queue p_idle in
  let m := set_proc_state m p_idle PROC_STATE_READY in
  let m := set_proc_state m p_a PROC_STATE_CURR in
  let m := sem_init m the_sem in
  let m := set_sem_val m the_sem (-1) in
  let m := list_push_back m the_sem p_b in
  set_proc_state m p_b PROC_STATE_WAIT_SEM.

Definition demo_log : log_state := mkLog false [] 0 0.
Definition demo_k : kst :=
  mkK demo_mem (mkHart Timer.Demo.fw0 ((5000, []) : @mach plain_mach) 0 0 0) p_a ptable0
      (mkDrv [] [] [] 0 demo_log).

Definition demo_y : sys := {|
  y_queue := fun h => if decide (h = sym_ready_queue) then [p_idle] else if decide (h = the_sem) then [p_b] else [];
  y_state := fun p => if decide (p = p_idle) then PROC_STATE_READY
                      else if decide (p = p_a) then PROC_STATE_CURR else PROC_STATE_WAIT_SEM;
  y_val := fun _ => -1;
  y_curr := p_a;
  y_timers := ([], all_timers demo_procs);
|}.

Lemma demo_objs : objs_ok demo_procs demo_sems.
Proof. split; [by compute_done|by compute_done|by compute_done|]. repeat constructor; done. Qed.

Ltac each_elem H :=
  repeat (apply elem_of_cons in H as [->|H]; [|]); try by apply elem_of_nil in H.

Lemma demo_linked : linked demo_procs demo_sems demo_y.
Proof.
  split.
  - intros h p Hh Hp. each_elem Hh; simpl in Hp; each_elem Hp; by compute_done.
  - intros h1 h2 p H1 H2. each_elem H1; each_elem H2; try done; simpl;
      intros Hp Hq; each_elem Hp; apply list_elem_of_singleton in Hq; by vm_compute in Hq.
Qed.

Lemma demo_rep : rep demo_procs demo_sems demo_k demo_y.
Proof.
  split; [|exact demo_linked| | | | |done].
  - intros h Hh. each_elem Hh; by compute_done.
  - intros p Hp. each_elem Hp; by vm_compute.
  - intros s Hs. each_elem Hs; by vm_compute.
  - split; [split|done].
    + by compute_done.
    + intros t Ht. simpl in Ht. each_elem Ht; by compute_done.
    + constructor.
    + constructor.
    + by compute_done.
    + split; by compute_done.
  - done.
Qed.

Lemma demo_running : running demo_procs demo_sems demo_y.
Proof.
  split; [by compute_done|]. split; [exact demo_linked|..].
  - intros h Hh. each_elem Hh; by compute_done.
  - intros p Hp. each_elem Hp; by compute_done.
  - intros p Hp. split.
    + intros E. exists the_sem. split; [by compute_done|]. each_elem Hp; [done..|by compute_done].
    + intros (s & Hs & Hq). each_elem Hs. simpl in Hq. each_elem Hq. done.
  - intros s Hs. each_elem Hs. done.
  - intros s Hs. simpl. lia.
  - intros p Hp. each_elem Hp; by compute_done.
  - split; [by compute_done|by left].
Qed.

Lemma demo_many : Z.of_nat (length demo_procs) <= PROC_TABLE_SIZE.
Proof. by compute_done. Qed.

(** Signal, wait, sleep, yield, in this order. *)
Definition demo_ops : list sop := [SemSignal the_sem; SemWait the_sem; Block PROC_STATE_SLEEP; Yield].

Lemma demo_ops_may : may_all demo_procs demo_sems demo_ops demo_y.
Proof.
  simpl. split_and!; try done; by compute_done.
Qed.

Lemma sched_op_refines_witness :
  exists k', run_sop (Block PROC_STATE_SLEEP) demo_k = Switch k' p_a p_idle (fun k => Ret k tt) /\
    running demo_procs demo_sems (y_step (Block PROC_STATE_SLEEP) demo_y).1.
Proof.
  destruct (sched_op_refines demo_procs demo_sems demo_objs demo_many (Block PROC_STATE_SLEEP) demo_k demo_y
    demo_rep demo_running ltac:(split; [by left|done])) as (k' & E & _ & HW & _).
  exists k'. split; [exact E|exact HW].
Defined.

Lemma sched_runs_sound_witness :
  exists k', run_sops demo_ops demo_k = Some k' /\ sched_sound demo_procs demo_sems k'.
Proof.
  exact (sched_runs_sound demo_procs demo_sems demo_objs demo_many demo_ops demo_k demo_y
           demo_rep demo_running demo_ops_may).
Defined.

Lemma sem_signaln_wakes_witness :
  exists k' y', sem_signaln the_sem 2 demo_k = Ret k' tt /\ y_val y' the_sem = 1 /\ y_ready y' = [p_b; p_idle].
Proof.
  destruct (sem_signaln_wakes demo_procs demo_sems demo_objs demo_many the_sem 2 demo_k demo_y
    demo_rep demo_running ltac:(left) ltac:(lia) ltac:(simpl; lia)) as (k' & y' & E & _ & _ & _ & Ev & _ & Er & _).
  exists k', y'. split; [exact E|split; [exact Ev|exact Er]].
Defined.

Lemma sem_deinit_ends_witness :
  exists k' y', sem_deinit the_sem demo_k = Ret k' tt /\ y_queue y' the_sem = [] /\ y_val y' the_sem = 1.
Proof.
  destruct (sem_deinit_ends demo_procs demo_sems demo_objs demo_many the_sem demo_k demo_y
    demo_rep demo_running ltac:(left) ltac:(simpl; lia)) as (k' & y' & E & _ & _ & _ & Eq & Ev & _).
  exists k', y'. split; [exact E|split; [exact Eq|exact Ev]].
Defined.
