(* ===== verification/Intr.v ===== *)
(** * Interrupts: [src/intr.c], [src/drivers/plic.c], [src/arch/riscv/intr.c]

    [isrs] with [nr_isrs] is the list [d_isrs].  The PLIC's registers are
    reached through the machine. *)

From stdpp Require Import strings.
From S2P Require Import Prelude.
From S2P Require Import Errno.
From S2P Require Import Layout.
From S2P Require Import Sbi.
From S2P Require Import Kern.
#[local] Open Scope Z_scope.
#[local] Open Scope kern_scope.

(** [dev_node_t] of [include/dev.h]; the entry that ends the table has no name. *)
Record dev_node_t := mkNode {
  nd_name : option string;
  nd_addr : Z;
  nd_irq : Z;
  nd_reg_size : Z;
}.

(** [DEV_TABLE] of [src/platforms/virt.c] *)
Definition DEV_TABLE : list dev_node_t := [
  mkNode (Some "plic"%string) 0x0C000000 0 0;
  mkNode (Some "uart8250"%string) 0x10000000 10 1;
  mkNode None 0 0 0 ].

(** ** The PLIC *)

Definition INTR_PRIO (irq : Z) : Z := u32 (irq * 4).
Definition INTR_ENABLE (irq : Z) : Z := u32 (0x2080 + irq / 32 * 4).
Definition PRIO_THRESHOLD : Z := 0x201000.
Definition INTR_CLAIM : Z := 0x201004.
Definition INTR_COMPLETION : Z := 0x201004.
Definition CSR_SIE_SEIE : Z := 0x200.

Section code.
Context `{FW : Firmware} `{MC : Machine}.

(** [reg(reg)] *)
Definition plic_reg (reg : Z) : M Z := gets (fun k => u64 (d_plic (k_drv k) + reg)).

Definition plic_enable_irq (irq : Z) : M unit :=
  let* a := plic_reg (INTR_ENABLE irq) in
  let* v := dev_load 4 a in
  dev_store 4 a (Z.lor v (u32 (Z.shiftl 1 (irq `mod` 32)))) ;*
  let* a := plic_reg (INTR_PRIO irq) in
  dev_store 4 a 1.

Definition plic_claim : M Z := let* a := plic_reg INTR_CLAIM in dev_load 4 a.

Definition plic_complete (irq : Z) : M unit :=
  let* a := plic_reg INTR_COMPLETION in dev_store 4 a irq.

Definition set_plic (base : Z) (d : drivers) : drivers :=
  mkDrv (d_isrs d) (d_ttys d) (d_uarts d) base (d_log d).

(** [csr_set_bits(sie, bits)] *)
Definition set_sie_bits (bits : Z) (k : kst) : kst :=
  let h := k_hart k in
  set_hart (mkHart (h_fw h) (h_mach h) (Z.lor (h_sie h) bits) (h_stvec h) (h_sstatus h)) k.

(** The [init_dev] of [plic.c]. *)
Definition plic_init_dev (node : dev_node_t) : M Z :=
  modify (fun k => set_drv (set_plic (nd_addr node) (k_drv k)) k) ;*
  modify (set_sie_bits CSR_SIE_SEIE) ;*
  let* a := plic_reg PRIO_THRESHOLD in
  dev_store 4 a 0 ;*
  ret 0.

Definition intr_enable_irq (irq : Z) : M unit := plic_enable_irq irq.

(** ** Handlers *)

Definition set_isrs (l : list isr_t) (d : drivers) : drivers :=
  mkDrv l (d_ttys d) (d_uarts d) (d_plic d) (d_log d).

Definition nr_isrs (d : drivers) : Z := Z.of_nat (length (d_isrs d)).

Definition intr_register_isr (irq isr data : Z) : M Z :=
  let* d := gets k_drv in
  if INTR_ISR_CAPACITY <=? nr_isrs d then ret (- EAGAIN)
  else modify (set_drv (set_isrs (d_isrs d ++ [mkIsr irq isr data]) d)) ;* ret 0.

(** [call isr data] is the call through the function pointer. *)
Definition intr_isr_with (call : Z -> Z -> M unit) (irq : Z) : M unit :=
  let* l := gets (fun k => d_isrs (k_drv k)) in
  match List.find (fun i => isr_irq i =? irq) l with
  | Some i => call (isr_isr i) (isr_data i)
  | None => ret tt
  end.
End code.
