(* ===== verification/Tty.v ===== *)
(** * Devices and terminals: [src/dev.c], [src/drivers/uart.c],
    [src/drivers/ldisc.c], [src/drivers/tty.c] and their headers

    A terminal is a [tty_ctrl_blk_t] in memory: the line discipline's part, a
    ring buffer of received bytes, and a semaphore that counts the bytes of
    complete lines.  A [const u8 *] with its size is the list of the bytes it
    points to. *)

From stdpp Require Import strings.
From S2P Require Import Prelude.
From S2P Require Import Errno.
From S2P Require Import Mem.
From S2P Require Import DList.
From S2P Require Import Layout.
From S2P Require Import Pages.
From S2P Require Import Kalloc.
From S2P Require Import Sbi.
From S2P Require Import Timer.
From S2P Require Import Proc.
From S2P Require Import Kern.
From S2P Require Import Sched.
From S2P Require Import Intr.
#[local] Open Scope Z_scope.
#[local] Open Scope kern_scope.

(** [dev_t] of [include/dev.h]: [driver] and [num]. *)
Definition dev_t : Type := Z * Z.
Definition DEV_SIZE : Z := 16.
Definition load_dev (m : mem) (a : Z) : dev_t := (load 8 m a, load 4 m (a + 8)).
Definition store_dev (m : mem) (a : Z) (d : dev_t) : mem := store 4 (store 8 m a d.1) (a + 8) d.2.

(** [tty_ctrl_blk_t]; [ldisc_ctrl_blk_t] is its first field. *)
Definition TTY_CTRL_BLK_SIZE : Z := 136.
Definition blk_src (t : Z) : Z := t.
Definition blk_sink (t i : Z) : Z := t + 16 + i * DEV_SIZE.
Definition nr_sinks (m : mem) (t : Z) : Z := load 4 m (t + 80).
Definition set_nr_sinks (m : mem) (t v : Z) : mem := store 4 m (t + 80) v.
Definition cursor_pos (m : mem) (t : Z) : Z := load 4 m (t + 84).
Definition set_cursor_pos (m : mem) (t v : Z) : mem := store 4 m (t + 84) v.
Definition rx_buf (m : mem) (t : Z) : Z := load 8 m (t + 88).
Definition set_rx_buf (m : mem) (t v : Z) : mem := store 8 m (t + 88) v.
Definition rx_head (m : mem) (t : Z) : Z := load 8 m (t + 96).
Definition set_rx_head (m : mem) (t v : Z) : mem := store 8 m (t + 96) v.
Definition rx_tail (m : mem) (t : Z) : Z := load 8 m (t + 104).
Definition set_rx_tail (m : mem) (t v : Z) : mem := store 8 m (t + 104) v.
Definition rx_sem (t : Z) : Z := t + 112.

(** Registers of the UART. *)
Definition THR : Z := 0.
Definition RBR : Z := 0.
Definition IER : Z := 1.
Definition LSR : Z := 5.
Definition IER_ERBFI : Z := 0x01.
Definition LSR_THRE : Z := 0x20.

Section code.
Context `{PA : PageAllocator} `{L : Layout} `{C : Code} `{FW : Firmware} `{MC : Machine}.

(** ** The UART *)

(** [ctrl_blks[num]]; the blocks behind [nr_devs] are zero. *)
Definition uart_blk (num : Z) : M ctrl_blk_t :=
  let* l := gets (fun k => d_uarts (k_drv k)) in
  match l !! Z.to_nat num with
  | Some b => ret b
  | None => if num <? DRIVER_DEV_CAPACITY then ret (mkCtrl 0 0) else halt Stuck
  end.

(** The address of [reg(num, reg)]. *)
Definition uart_reg (num reg : Z) : M Z :=
  let* b := uart_blk num in ret (u64 (cb_addr b + cb_reg_size b * reg)).

(** [while (!(reg(num, LSR) & LSR_THRE));] *)
Definition mach_poll (c : mach) (a : Z) : option mach :=
  while (fun c => let '(c, v) := mmio_load 1 c a in if v &? LSR_THRE then inr c else inl c) c.

Definition uart_poll (a : Z) : M unit := fun k =>
  match mach_poll (h_mach (k_hart k)) a with
  | Some c => Ret (set_mach c k) tt
  | None => Stop k Stuck
  end.

Fixpoint uart_write_bytes (num : Z) (buf : list byte) : M unit :=
  match buf with
  | [] => ret tt
  | b :: buf =>
      let* lsr := uart_reg num LSR in
      uart_poll lsr ;*
      let* thr := uart_reg num THR in
      dev_store 1 thr (byte.unsigned b) ;*
      uart_write_bytes num buf
  end.

(** [write] of [uart.c] *)
Definition uart_write (num : Z) (buf : list byte) : M Z :=
  uart_write_bytes num buf ;* ret (Z.of_nat (length buf)).

(** ** Devices and the line discipline's output

    [dev_write] calls the driver, the terminal's driver writes to its sinks,
    and that is [dev_write] again.  The only sinks the drivers register are
    UARTs, which call nothing: [depth] bounds the nesting. *)

(** [tty_ctrl_blks[num]] *)
Definition tty_blk (num : Z) : M Z :=
  let* l := gets (fun k => d_ttys (k_drv k)) in the (l !! Z.to_nat num).

Definition ldisc_write_with (write : dev_t -> list byte -> M Z) (num : Z) (buf : list byte) : M Z :=
  let* t := tty_blk num in
  let* n := mem_of (fun m => nr_sinks m t) in
  let* r := for_each (seqZ 0 n) (fun i =>
    let* sink := mem_of (fun m => load_dev m (blk_sink t i)) in
    let* res := write sink buf in
    ret (if res <? 0 then Some res else None)) in
  ret (match r with Some res => res | None => Z.of_nat (length buf) end).

(** The test that starts [read] and [write] of [tty.c]. *)
Definition tty_absent (num : Z) : M bool :=
  if DRIVER_DEV_CAPACITY <=? num then ret true
  else let* t := tty_blk num in ret (t =? nullptr).

(** [write] of [tty.c] *)
Definition tty_write_with (write : dev_t -> list byte -> M Z) (num : Z) (buf : list byte) : M Z :=
  let* absent := tty_absent num in
  if absent then ret (- ENXIO) else ldisc_write_with write num buf.

Fixpoint dev_write_upto (depth : nat) (dev : dev_t) (buf : list byte) : M Z :=
  match depth with
  | O => halt Stuck
  | S depth =>
      if dev.1 =? obj_TTY_DRIVER then tty_write_with (dev_write_upto depth) dev.2 buf
      else if dev.1 =? obj_UART_DRIVER then uart_write dev.2 buf
      else halt Stuck
  end.

Definition dev_write : dev_t -> list byte -> M Z := dev_write_upto 2.
Definition ldisc_write : Z -> list byte -> M Z := ldisc_write_with (dev_write_upto 1).

(** ** Terminals *)

(** The body of the loop of [read], behind [sem_wait]: one byte goes from the
    ring buffer to [buf[i]]; a newline ends the loop. *)
Definition tty_take (t buf i : Z) : M (option Z) :=
  upd_mem (fun m =>
    let head := rx_head m t in
    let m := store 1 (set_rx_head m t (u64 (head + 1))) (buf + i) (load 1 m (rx_buf m t + head)) in
    set_rx_head m t (rx_head m t `mod` TTY_BUF_SIZE)) ;*
  let* b := mem_of (fun m => load 1 m (buf + i)) in
  ret (if b =? 10 then Some (i + 1) else None).

Definition tty_read_loop (t buf : Z) (ixs : list Z) : M (option Z) :=
  for_each ixs (fun i => sem_wait (rx_sem t) ;* tty_take t buf i).

(** [read] of [tty.c]; [buf] is an address. *)
Definition tty_read (num buf size : Z) : M Z :=
  let* absent := tty_absent num in
  if absent then ret (- ENXIO)
  else
    let* t := tty_blk num in
    let* r := tty_read_loop t buf (seqZ 0 size) in
    ret (match r with Some n => n | None => size end).

(** [dev_read]; the UART driver has no [read]. *)
Definition dev_read (dev : dev_t) (buf size : Z) : M Z :=
  if dev.1 =? obj_TTY_DRIVER then tty_read dev.2 buf size
  else if dev.1 =? obj_UART_DRIVER then ret (- ENXIO)
  else halt Stuck.

(** [kmalloc] and [kfree] on the state of the kernel. *)
Definition k_kmalloc (size : Z) : M Z := fun k =>
  match kmalloc (k_mem k) size with
  | Some (m, p) => Ret (set_mem m k) p
  | None => Stop k Stuck
  end.

Definition tty_init_ctrl_blk (t : Z) : M Z :=
  let* b := k_kmalloc TTY_BUF_SIZE in
  upd_mem (fun m => set_rx_buf m t b) ;*
  if b =? nullptr then ret (- ENOMEM)
  else
    upd_mem (fun m => set_rx_head m t 0) ;*
    upd_mem (fun m => set_rx_tail m t 0) ;*
    upd_mem (fun m => sem_init m (rx_sem t)) ;*
    ret 0.

(** ** The line discipline *)

Definition set_tty (num t : Z) (k : kst) : kst :=
  let d := k_drv k in
  set_drv (mkDrv (d_isrs d) (<[Z.to_nat num := t]> (d_ttys d)) (d_uarts d) (d_plic d) (d_log d)) k.

Definition lazy_init_ctrl_blk (num : Z) : M Z :=
  if DRIVER_DEV_CAPACITY <=? num then ret (- EAGAIN)
  else
    let* old := tty_blk num in
    if negb (old =? nullptr) then ret 0
    else
      let* t := k_kmalloc TTY_CTRL_BLK_SIZE in
      if t =? nullptr then ret (- ENOMEM)
      else
        upd_mem (fun m => set_nr_sinks m t 0) ;*
        upd_mem (fun m => set_cursor_pos m t 0) ;*
        let* res := tty_init_ctrl_blk t in
        if res <? 0 then ret res
        else modify (set_tty num t) ;* ret 0.

Definition ldisc_register_src (num : Z) (dev : dev_t) : M Z :=
  let* res := lazy_init_ctrl_blk num in
  if res <? 0 then ret res
  else
    let* t := tty_blk num in
    upd_mem (fun m => store_dev m (blk_src t) dev) ;*
    ret 0.

Definition ldisc_register_sink (num : Z) (dev : dev_t) : M Z :=
  let* res := lazy_init_ctrl_blk num in
  if res <? 0 then ret res
  else
    let* t := tty_blk num in
    let* n := mem_of (fun m => nr_sinks m t) in
    if TTY_SINK_CAPACITY <=? n then ret (- EAGAIN)
    else
      upd_mem (fun m => set_nr_sinks m t (u32 (n + 1))) ;*
      upd_mem (fun m => store_dev m (blk_sink t n) dev) ;*
      ret 0.

(** "\b \b" *)
Definition ERASE : list byte := [Init.Byte.x08; Init.Byte.x20; Init.Byte.x08].

Definition ldisc_recv_byte (num byt : Z) : M unit :=
  let* t := tty_blk num in
  let byt := if byt =? 13 then 10 else byt in
  if byt =? 0x7F then
    let* cursor := mem_of (fun m => cursor_pos m t) in
    if 0 <? cursor then
      upd_mem (fun m => if rx_tail m t =? 0 then set_rx_tail m t TTY_BUF_SIZE else m) ;*
      upd_mem (fun m => set_rx_tail m t (u64 (rx_tail m t - 1))) ;*
      upd_mem (fun m => set_cursor_pos m t (u32 (cursor_pos m t - 1))) ;*
      let* _ := ldisc_write num ERASE in ret tt
    else ret tt
  else
    let* next_tail := mem_of (fun m => u64 (rx_tail m t + 1) `mod` TTY_BUF_SIZE) in
    let* head := mem_of (fun m => rx_head m t) in
    if next_tail =? head then ret tt
    else
      upd_mem (fun m => store 1 m (rx_buf m t + rx_tail m t) byt) ;*
      upd_mem (fun m => set_rx_tail m t next_tail) ;*
      upd_mem (fun m => set_cursor_pos m t (u32 (cursor_pos m t + 1))) ;*
      (if byt =? 10 then
         let* n := mem_of (fun m => cursor_pos m t) in
         sem_signaln (rx_sem t) n ;*
         upd_mem (fun m => set_cursor_pos m t 0)
       else ret tt) ;*
      let* _ := ldisc_write num [byte.of_Z byt] in ret tt.

(** ** Interrupts of the UART, and its initialisation *)

(** [isr] of [uart.c]; [data] is cast to the device number. *)
Definition uart_isr (data : Z) : M unit :=
  let num := u32 data in
  let* a := uart_reg num RBR in
  let* b := dev_load 1 a in
  ldisc_recv_byte num b.

(** Calls of registered handlers. *)
Definition call_isr (fn data : Z) : M unit :=
  if fn =? fn_uart_isr then uart_isr data else halt Stuck.

Definition intr_isr : Z -> M unit := intr_isr_with call_isr.

Definition set_uarts (l : list ctrl_blk_t) (d : drivers) : drivers :=
  mkDrv (d_isrs d) (d_ttys d) l (d_plic d) (d_log d).

(** [init_dev] of [uart.c] *)
Definition uart_init_dev (node : dev_node_t) : M Z :=
  let* d := gets k_drv in
  let num := Z.of_nat (length (d_uarts d)) in
  if DRIVER_DEV_CAPACITY <=? num then ret (- EAGAIN)
  else
    modify (set_drv (set_uarts (d_uarts d ++ [mkCtrl (nd_addr node) (nd_reg_size node)]) d)) ;*
    let* ier := uart_reg num IER in
    dev_store 1 ier IER_ERBFI ;*
    intr_enable_irq (nd_irq node) ;*
    let* res := intr_register_isr (nd_irq node) fn_uart_isr num in
    if res <? 0 then ret res
    else
      let* res := ldisc_register_src num (obj_UART_DRIVER, num) in
      if res <? 0 then ret res
      else
        let* res := ldisc_register_sink num (obj_UART_DRIVER, num) in
        if res <? 0 then ret res else ret 0.
End code.
