(* ===== verification/TtyRing.v ===== *)
(** * The ring buffer of a terminal

    [ring m t buf ls ed]: the buffer holds the bytes [ls] of complete lines,
    then the bytes [ed] of the line that is being typed.  The stores of
    [ldisc_recv_byte] and of the terminal's [read] are a deque on them. *)

From S2P Require Import Prelude.
From S2P Require Import Mem.
From S2P Require Import Layout.
From S2P Require Import Tty.

(** The fields of the terminal other than the semaphore. *)
Definition TTY_FIELDS : Z := 112.

Record ring (m : mem) (t buf : Z) (ls ed : list byte) : Prop := {
  rg_buf : rx_buf m t = buf;
  rg_head : 0 <= rx_head m t < TTY_BUF_SIZE;
  rg_tail : rx_tail m t = (rx_head m t + Z.of_nat (length (ls ++ ed))) `mod` TTY_BUF_SIZE;
  rg_cursor : cursor_pos m t = Z.of_nat (length ed);
  rg_room : Z.of_nat (length (ls ++ ed)) < TTY_BUF_SIZE;
  rg_bytes i b : (ls ++ ed) !! i = Some b ->
    m !!! (buf + (rx_head m t + Z.of_nat i) `mod` TTY_BUF_SIZE) = b;
}.

(** The terminal and its buffer are apart. *)
Definition ring_sep (t buf : Z) : Prop :=
  disj t TTY_CTRL_BLK_SIZE buf TTY_BUF_SIZE.

(** The bytes that [ring] depends on. *)
Definition ring_foot (t buf a : Z) : Prop := inrng (t + 84) 28 a \/ inrng buf TTY_BUF_SIZE a.

Lemma ring_unch F m m' t buf ls ed :
  ring m t buf ls ed -> unch F m m' -> (forall a, ring_foot t buf a -> ~ F a) -> ring m' t buf ls ed.
Proof.
  intros [HB HH HT HC HR HX] HU HF.
  assert (forall o n, 84 <= o -> o + Z.of_nat n <= 112 -> load n m' (t + o) = load n m (t + o)) as E.
  { intros o n H1 H2. eapply load_unch; [exact HU|]. intros a Ha. apply HF. left. unfold inrng in *. lia. }
  unfold rx_buf, rx_head, rx_tail, cursor_pos in *.
  split; unfold rx_buf, rx_head, rx_tail, cursor_pos; rewrite ?E by lia; try done.
  intros i b Hi. rewrite <-(HX i b Hi). apply HU, HF. right.
  pose proof (Z.mod_pos_bound (load 8 m (t + 96) + Z.of_nat i) TTY_BUF_SIZE ltac:(done)).
  unfold inrng. lia.
Qed.

Section ring.
Context (t buf : Z).
Hypothesis Hsep : ring_sep t buf.

Ltac fld := unfold ring_sep, disj, inrng, TTY_CTRL_BLK_SIZE, TTY_BUF_SIZE in *; simpl in *; lia.

(** A store to one field leaves the others and the buffer. *)
Lemma field_get m o n v o' n' :
  disj (t + o) (Z.of_nat n) (t + o') (Z.of_nat n') -> load n' (store n m (t + o) v) (t + o') = load n' m (t + o').
Proof. intros. apply load_store_ne. by apply disj_sym. Qed.

Lemma buf_get m o n v i :
  0 <= o -> o + Z.of_nat n <= 136 -> 0 <= i < TTY_BUF_SIZE ->
  store n m (t + o) v !!! (buf + i) = m !!! (buf + i).
Proof. intros H1 H2 H3. apply store_unch. fld. Qed.

Lemma field_buf m i b o n :
  0 <= i < TTY_BUF_SIZE -> 0 <= o -> o + Z.of_nat n <= 136 ->
  load n (store 1 m (buf + i) b) (t + o) = load n m (t + o).
Proof. intros. apply load_store_ne. fld. Qed.

(** The bytes of the ring survive stores to the fields. *)
Lemma bytes_field m o n v i : 0 <= o -> o + Z.of_nat n <= 136 ->
  store n m (t + o) v !!! (buf + i `mod` TTY_BUF_SIZE) = m !!! (buf + i `mod` TTY_BUF_SIZE).
Proof. intros. apply buf_get; [done..|]. by apply Z.mod_pos_bound. Qed.

Lemma byte_store m a b : 0 <= b < 256 -> store 1 m a b !!! a = byte.of_Z b.
Proof.
  intros Hb. unfold store. simpl. rewrite lookup_total_insert_eq. done.
Qed.

Lemma u32_twice x : 0 <= x < 2 ^ 32 -> u32 (u32 x) = x.
Proof. intros Hx. unfold u32. by rewrite !(Z.mod_small x). Qed.

Lemma u64_twice x : 0 <= x < 2 ^ 64 -> u64 (u64 x) = x.
Proof. intros Hx. by rewrite !(u64_small x). Qed.

(** Different offsets below the size are different slots. *)
Lemma slots_ne h i j :
  0 <= i < TTY_BUF_SIZE -> 0 <= j < TTY_BUF_SIZE -> i <> j ->
  (h + i) `mod` TTY_BUF_SIZE <> (h + j) `mod` TTY_BUF_SIZE.
Proof.
  unfold TTY_BUF_SIZE. intros Hi Hj Hne E.
  pose proof (Z.div_mod (h + i) 128). pose proof (Z.div_mod (h + j) 128). lia.
Qed.

Ltac flds :=
  unfold set_rx_head, set_rx_tail, set_cursor_pos, rx_buf, rx_head, rx_tail, cursor_pos in *;
  repeat first [rewrite load8_store8 | rewrite load4_store4 | rewrite field_get by fld
               | rewrite field_buf by (fld || by apply Z.mod_pos_bound)].

(** The room that the code tests for. *)
Lemma ring_full m ls ed :
  ring m t buf ls ed ->
  (u64 (rx_tail m t + 1) `mod` TTY_BUF_SIZE =? rx_head m t) =
  (Z.of_nat (length (ls ++ ed)) =? TTY_BUF_SIZE - 1).
Proof.
  intros [HB HH HT HC HR HX]. rewrite HT. set (h := rx_head m t) in *. set (n := Z.of_nat _) in *.
  unfold TTY_BUF_SIZE in *. pose proof (Z.mod_pos_bound (h + n) 128 ltac:(lia)).
  rewrite u64_small, Zplus_mod_idemp_l by lia.
  pose proof (Z.div_mod (h + n + 1) 128). pose proof (Z.mod_pos_bound (h + n + 1) 128 ltac:(lia)).
  apply Bool.eq_iff_eq_true. rewrite !Z.eqb_eq. split; intros; [|subst n]; lia.
Qed.

(** One byte is appended. *)
Lemma ring_push m ls ed b :
  ring m t buf ls ed -> 0 <= b < 256 -> Z.of_nat (length (ls ++ ed)) < TTY_BUF_SIZE - 1 ->
  let m1 := store 1 m (rx_buf m t + rx_tail m t) b in
  let m2 := set_rx_tail m1 t (u64 (rx_tail m t + 1) `mod` TTY_BUF_SIZE) in
  let m3 := set_cursor_pos m2 t (u32 (cursor_pos m2 t + 1)) in
  ring m3 t buf ls (ed ++ [byte.of_Z b]).
Proof.
  intros [HB HH HT HC HR HX] Hb Hroom. cbv zeta. rewrite HB, HT.
  set (h := rx_head m t) in *. set (n := length (ls ++ ed)) in *.
  pose proof (Z.mod_pos_bound (h + Z.of_nat n) TTY_BUF_SIZE ltac:(done)) as Hs.
  pose proof (Z.mod_pos_bound (u64 ((h + Z.of_nat n) `mod` TTY_BUF_SIZE + 1)) TTY_BUF_SIZE ltac:(done)) as Hs'.
  assert (Z.of_nat (length (ls ++ ed ++ [byte.of_Z b])) = Z.of_nat n + 1) as El.
  { unfold n. rewrite !length_app. simpl. lia. }
  assert (Z.of_nat (length ed) <= Z.of_nat n) as Hle by (unfold n; rewrite length_app; lia).
  split; flds; fold h.
  - done.
  - done.
  - rewrite u64_small by (unfold TTY_BUF_SIZE in *; lia). rewrite El.
    rewrite u64_small by (unfold TTY_BUF_SIZE in *; lia). rewrite Zplus_mod_idemp_l. f_equal. lia.
  - rewrite HC, u32_twice by (unfold TTY_BUF_SIZE in *; lia). rewrite length_app. simpl. lia.
  - rewrite El. lia.
  - intros i c. rewrite app_assoc. intros [Hi|[Hi Hc]]%lookup_app_Some.
    + rewrite !bytes_field by lia. rewrite <-(HX i c Hi). apply store_unch.
      apply lookup_lt_Some in Hi. fold n in Hi.
      pose proof (slots_ne h (Z.of_nat i) (Z.of_nat n) ltac:(lia) ltac:(lia) ltac:(lia)). fld.
    + fold n in Hi, Hc. apply list_lookup_singleton_Some in Hc as [Hc <-].
      replace i with n by lia. rewrite !bytes_field by lia. by apply byte_store.
Qed.

(** The last byte of the line that is typed is erased. *)
Lemma ring_erase m ls ed x :
  ring m t buf ls (ed ++ [x]) ->
  let m1 := if rx_tail m t =? 0 then set_rx_tail m t TTY_BUF_SIZE else m in
  let m2 := set_rx_tail m1 t (u64 (rx_tail m1 t - 1)) in
  let m3 := set_cursor_pos m2 t (u32 (cursor_pos m2 t - 1)) in
  ring m3 t buf ls ed.
Proof.
  intros [HB HH HT HC HR HX]. cbv zeta.
  assert (Z.of_nat (length (ls ++ ed ++ [x])) = Z.of_nat (length (ls ++ ed)) + 1) as El.
  { rewrite !length_app. simpl. lia. }
  rewrite El in HT, HR. rewrite length_app in HC. simpl in HC.
  set (h := rx_head m t) in *. set (n := Z.of_nat (length (ls ++ ed))) in *.
  assert (forall m', (forall o k, o <> 104 -> 84 <= o -> o + Z.of_nat k <= 112 -> disj o (Z.of_nat k) 104 8 ->
      load k m' (t + o) = load k m (t + o)) ->
    (forall i, m' !!! (buf + i `mod` TTY_BUF_SIZE) = m !!! (buf + i `mod` TTY_BUF_SIZE)) ->
    rx_tail m' t = (if rx_tail m t =? 0 then TTY_BUF_SIZE else rx_tail m t) ->
    ring (set_cursor_pos (set_rx_tail m' t (u64 (rx_tail m' t - 1))) t
           (u32 (cursor_pos (set_rx_tail m' t (u64 (rx_tail m' t - 1))) t - 1))) t buf ls ed) as Hgo.
  { intros m' HF HB' HT'.
    pose proof (Z.mod_pos_bound (h + (n + 1)) TTY_BUF_SIZE ltac:(done)) as Hr. rewrite <-HT in Hr.
    assert (0 <= rx_tail m' t - 1 < TTY_BUF_SIZE /\ rx_tail m' t - 1 = (h + n) `mod` TTY_BUF_SIZE) as [Hb Ht].
    { rewrite HT'. unfold TTY_BUF_SIZE in *. pose proof (Z.div_mod (h + n) 128).
      pose proof (Z.div_mod (h + (n + 1)) 128). pose proof (Z.mod_pos_bound (h + n) 128 ltac:(lia)).
      destruct (Z.eqb_spec (rx_tail m t) 0); lia. }
    set (w := rx_tail m' t - 1) in *.
    split; flds; rewrite ?HF by (fld || lia); fold h; try done.
    - rewrite u64_twice by (unfold TTY_BUF_SIZE in *; lia). exact Ht.
    - rewrite HC, u32_twice; [lia|]. unfold n in HR. rewrite length_app in HR. unfold TTY_BUF_SIZE in *. lia.
    - fold n. lia.
    - intros i c Hi. rewrite !bytes_field by lia. rewrite HB'. apply HX. rewrite app_assoc.
      by apply lookup_app_l_Some. }
  destruct (rx_tail m t =? 0); apply Hgo.
  - intros o k H1 H2 H3 H4. unfold set_rx_tail. apply load_store_ne. fld.
  - intros i. apply bytes_field; lia.
  - unfold rx_tail, set_rx_tail. rewrite load8_store8. done.
  - done.
  - done.
  - done.
Qed.

(** The line is complete. *)
Lemma ring_commit m ls ed :
  ring m t buf ls ed -> ring (set_cursor_pos m t 0) t buf (ls ++ ed) [].
Proof.
  intros [HB HH HT HC HR HX]. split; flds; rewrite ?app_nil_r; try done.
  intros i b Hi. rewrite bytes_field by lia. by apply HX.
Qed.

(** The first byte is taken. *)
Lemma ring_take m b ls ed :
  ring m t buf (b :: ls) ed ->
  load 1 m (rx_buf m t + rx_head m t) = byte.unsigned b /\
  (forall m', (forall o k, 84 <= o -> o + Z.of_nat k <= 112 -> disj o (Z.of_nat k) 96 8 ->
      load k m' (t + o) = load k m (t + o)) ->
    (forall i, m' !!! (buf + i `mod` TTY_BUF_SIZE) = m !!! (buf + i `mod` TTY_BUF_SIZE)) ->
    rx_head m' t = (rx_head m t + 1) `mod` TTY_BUF_SIZE -> ring m' t buf ls ed).
Proof.
  intros [HB HH HT HC HR HX]. set (h := rx_head m t) in *. split.
  - pose proof (HX 0%nat b eq_refl) as H0. rewrite Z.add_0_r, Z.mod_small in H0 by done.
    rewrite HB, load1_byte. by rewrite H0.
  - intros m' HF HB' HH'. split.
    + unfold rx_buf. rewrite HF by fld. done.
    + rewrite HH'. by apply Z.mod_pos_bound.
    + unfold rx_tail. rewrite HF by fld. change (load 8 m (t + 104)) with (rx_tail m t).
      rewrite HT, HH', Zplus_mod_idemp_l. f_equal. simpl length. lia.
    + unfold cursor_pos. rewrite HF by fld. done.
    + simpl in HR. lia.
    + intros i c Hi. rewrite HH', Zplus_mod_idemp_l, HB'. rewrite <-(HX (S i) c Hi). do 3 f_equal. lia.
Qed.
End ring.
