(* ===== verification/TtySpec.v ===== *)
(** * What a terminal does

    The device is assumed to behave as an 8250 does: its transmitter becomes
    ready, and a byte stored in its holding register is sent ([UartOk]).  Then a
    terminal is a line editor: typed bytes are echoed, can be erased until the
    end of the line, and are read line by line. *)

From Stdlib Require Strings.Byte.
From S2P Require Import Prelude.
From S2P Require Import Errno.
From S2P Require Import Mem.
From S2P Require Import DList.
From S2P Require Import Layout.
From S2P Require Import Pages.
From S2P Require Import Sbi.
From S2P Require Import Timer.
From S2P Require Import Proc.
From S2P Require Import Kern.
From S2P Require Import Sched.
From S2P Require Import SchedRep.
From S2P Require Import SchedSpec.
From S2P Require Import SchedRun.
From S2P Require Import SemSpec.
From S2P Require Import Intr.
From S2P Require Import Tty.
From S2P Require Import TtyRing.
#[local] Open Scope kern_scope.

Class UartOk (MC : Machine) := {
  (** the bytes stored at a register so far *)
  tx : mach -> Z -> list Z;
  tx_store c a v b : tx (mmio_store 1 c a v) b = tx c b ++ (if decide (a = b) then [v] else []);
  tx_poll c a : exists c', mach_poll c a = Some c' /\ forall b, tx c' b = tx c b;
}.

(** The machine that remembers its writes is such a device. *)
Definition plain_uart_ok : UartOk plain_mach.
Proof.
  refine {| tx := fun (c : @mach plain_mach) b =>
              rev (List.map snd (List.filter (fun w => w.1 =? b) c.2)) |}.
  - intros c a v b. simpl. destruct (Z.eqb_spec a b) as [->|Hne]; simpl.
    + by rewrite decide_True.
    + by rewrite decide_False, app_nil_r.
  - intros c a. exists c. split; [|done]. reflexivity.
Defined.

(** ** Output *)

Section output.
Context `{PA : PageAllocator} `{L : Layout} `{C : Code} `{FW : Firmware} `{MC : Machine} {UOK : UartOk MC}.

Definition out (k : kst) (a : Z) : list Z := tx (h_mach (k_hart k)) a.

(** Only the machine changes, by sending [bs] through the register [thr]. *)
Definition sent (k k' : kst) (thr : Z) (bs : list byte) : Prop :=
  (exists c, k' = set_mach c k) /\
  (forall a, out k' a = out k a ++ (if decide (thr = a) then byte.unsigned <$> bs else [])).

Lemma sent_nil k thr : sent k k thr [].
Proof.
  split; [exists (h_mach (k_hart k)); by destruct k as [? [] ? ? ?]|].
  intros a. destruct (decide (thr = a)); simpl; by rewrite app_nil_r.
Qed.

Lemma sent_app k1 k2 k3 thr bs cs : sent k1 k2 thr bs -> sent k2 k3 thr cs -> sent k1 k3 thr (bs ++ cs).
Proof.
  intros [[c1 ->] H1] [[c2 ->] H2]. split; [by exists c2|].
  intros a. rewrite H2, H1, <-app_assoc. f_equal. by destruct (decide (thr = a)); rewrite ?fmap_app.
Qed.

Definition uart_thr (b : ctrl_blk_t) : Z := u64 (cb_addr b + cb_reg_size b * THR).

Lemma uart_write_spec num b bs k :
  d_uarts (k_drv k) !! Z.to_nat num = Some b ->
  exists k', uart_write num bs k = Ret k' (Z.of_nat (length bs)) /\ sent k k' (uart_thr b) bs.
Proof.
  intros Hb. unfold uart_write.
  assert (exists k', uart_write_bytes num bs k = Ret k' tt /\ sent k k' (uart_thr b) bs) as (k' & E & Hs).
  { revert k Hb. induction bs as [|x bs IH]; intros k Hb; [exists k; split; [done|apply sent_nil]|].
    assert (forall k r, d_uarts (k_drv k) !! Z.to_nat num = Some b ->
      uart_reg num r k = Ret k (u64 (cb_addr b + cb_reg_size b * r))) as Hreg.
    { intros k0 r H0. unfold uart_reg, uart_blk, bind, gets. simpl. by rewrite H0. }
    simpl uart_write_bytes. rewrite (bind_Ret _ _ _ _ _ (Hreg k LSR Hb)).
    destruct (tx_poll (h_mach (k_hart k)) (u64 (cb_addr b + cb_reg_size b * LSR))) as (c & Ep & Hc).
    unfold uart_poll, bind at 1. rewrite Ep. cbn [bind_outcome].
    rewrite (bind_Ret _ _ _ _ _ (Hreg (set_mach c k) THR Hb)).
    fold (uart_thr b). unfold dev_store, modify, bind at 1. cbn [bind_outcome].
    set (k1 := set_mach _ (set_mach c k)).
    destruct (IH k1 Hb) as (k' & E & Hs). exists k'. split; [exact E|].
    apply (sent_app k k1 k' _ [x] bs); [|done].
    split; [by eexists|]. intros a. unfold out. simpl. rewrite tx_store, Hc. done. }
  exists k'. split; [by rewrite (bind_Ret _ _ _ _ _ E)|done].
Qed.

(** A terminal whose only sink is the UART [u]. *)
Record console (k : kst) (num t u : Z) (b : ctrl_blk_t) : Prop := {
  cn_tty : d_ttys (k_drv k) !! Z.to_nat num = Some t;
  cn_sinks : nr_sinks (k_mem k) t = 1;
  cn_sink : load_dev (k_mem k) (blk_sink t 0) = (obj_UART_DRIVER, u);
  cn_uart : d_uarts (k_drv k) !! Z.to_nat u = Some b;
}.

Hypothesis Hobj : obj_UART_DRIVER <> obj_TTY_DRIVER.

Lemma tty_blk_get k num t : d_ttys (k_drv k) !! Z.to_nat num = Some t -> tty_blk num k = Ret k t.
Proof. intros H. unfold tty_blk, bind, gets. simpl. by rewrite H. Qed.

Lemma ldisc_write_spec d k num t u b bs :
  console k num t u b ->
  exists k', ldisc_write_with (dev_write_upto (S d)) num bs k = Ret k' (Z.of_nat (length bs)) /\
    sent k k' (uart_thr b) bs.
Proof.
  intros [H1 H2 H3 H4]. destruct (uart_write_spec u b bs k H4) as (k' & E & Hs). exists k'. split; [|done].
  unfold ldisc_write_with. rewrite (bind_Ret _ _ _ _ _ (tty_blk_get k num t H1)), bind_mem, H2.
  change (seqZ 0 1) with [0]. unfold for_each.
  rewrite (bind_Ret _ _ k k' None); [done|].
  rewrite (bind_Ret _ _ k k' None); [done|].
  rewrite bind_mem, H3. simpl dev_write_upto. rewrite (proj2 (Z.eqb_neq _ _) Hobj), Z.eqb_refl.
  rewrite (bind_Ret _ _ _ _ _ E). rewrite (proj2 (Z.ltb_ge _ _)) by lia. done.
Qed.
End output.

(** ** Input *)

(** What receiving a byte does to the complete lines and the line being typed:
    also the bytes echoed, and the number of bytes that become readable. *)
Definition LF : byte := Init.Byte.x0a.

Definition recv (b : Z) (ls ed : list byte) : list byte * list byte * list byte * Z :=
  let b := if b =? 13 then 10 else b in
  if b =? 0x7F then
    match ed with
    | [] => (ls, ed, [], 0)
    | _ => (ls, removelast ed, ERASE, 0)
    end
  else if Z.of_nat (length (ls ++ ed)) =? TTY_BUF_SIZE - 1 then (ls, ed, [], 0)
  else if b =? 10 then (ls ++ ed ++ [LF], [], [LF], Z.of_nat (length ed) + 1)
  else (ls, ed ++ [byte.of_Z b], [byte.of_Z b], 0).

Section terminal.
Context `{PA : PageAllocator} `{L : Layout} `{C : Code} `{FW : Firmware} {FWOK : FirmwareOk FW}.
Context `{MC : Machine} {UOK : UartOk MC}.
Context (procs sems : list Z).
Context (HO : objs_ok procs sems).
Context (Hmany : Z.of_nat (length procs) <= PROC_TABLE_SIZE).
Context (Hobj : obj_UART_DRIVER <> obj_TTY_DRIVER).
(** The terminal [num], its UART and its buffer. *)
Context (num t u buf : Z) (b : ctrl_blk_t).
Context (Hsem : rx_sem t ∈ sems).
Context (Hring : ring_sep t buf).
Context (Happart : forall a, inrng t TTY_FIELDS a \/ inrng buf TTY_BUF_SIZE a -> ~ sched_foot procs sems a).

#[local] Abbreviation rep := (rep procs sems).
#[local] Abbreviation running := (running procs sems).
#[local] Abbreviation only_sched := (only_sched procs sems).

(** The scheduler's objects depend on its bytes only. *)
Lemma rep_unch k y m' F :
  rep k y -> unch F (k_mem k) m' -> (forall a, sched_foot procs sems a -> ~ F a) -> rep (set_mem m' k) y.
Proof.
  intros HR HU HF. pose proof HR as [HQ HL HS HV HT HA HC]. split; simpl; try done.
  - intros h Hh. eapply (queue_unch procs sems); [by apply HQ|done|done|exact HU|].
    intros x a Hx _ Ha. apply HF. left. eauto.
  - intros p Hp. rewrite <-HS by done. eapply load_unch; [exact HU|].
    intros a Ha. apply HF. do 2 right. left. exists p. split; [done|exact Ha].
  - intros s Hs. rewrite <-HV by done. unfold sem_val. f_equal. eapply load_unch; [exact HU|].
    intros a Ha. apply HF. right. left. exists s. split; [done|exact Ha].
  - eapply armed_unch; [exact HT|done|exact HU|]. intros a Ha. apply HF. by do 3 right.
Qed.

(** Everything about the terminal in one place. *)
Record terminal (k : kst) (y : sys) (ls ed : list byte) : Prop := {
  tr_rep : rep k y;
  tr_running : running y;
  tr_console : console k num t u b;
  tr_ring : ring (k_mem k) t buf ls ed;
}.

(** A memory in which neither the scheduler's bytes nor the sinks changed. *)
Lemma terminal_unch F k y ls ed m' ls' ed' :
  terminal k y ls ed -> unch F (k_mem k) m' ->
  (forall a, F a -> ~ sched_foot procs sems a /\ ~ inrng (t + 16) 68 a) ->
  ring m' t buf ls' ed' -> terminal (set_mem m' k) y ls' ed'.
Proof.
  intros [HR HW [H1 H2 H3 H4] HG] HU HF HG'. split; [|done| |done].
  - eapply rep_unch; [exact HR|exact HU|]. intros a Ha Hf. by destruct (HF a Hf).
  - assert (forall o n, 16 <= o -> o + Z.of_nat n <= 84 -> load n m' (t + o) = load n (k_mem k) (t + o)) as E.
    { intros o n Ho Hn. eapply load_unch; [exact HU|]. intros a Ha Hf. apply (HF a Hf). unfold inrng in *. lia. }
    split; [done| | |done].
    + unfold nr_sinks in *. simpl. by rewrite E.
    + unfold load_dev, blk_sink in *. simpl. rewrite <-!Z.add_assoc in *. by rewrite !E.
Qed.

Lemma ring_foot_apart a : ring_foot t buf a -> ~ sched_foot procs sems a /\ ~ inrng (t + 16) 68 a.
Proof.
  intros Ha. split.
  - apply Happart. destruct Ha as [Ha|Ha]; [left|by right]. unfold inrng, TTY_FIELDS in *. lia.
  - unfold ring_foot, ring_sep, TTY_CTRL_BLK_SIZE, TTY_BUF_SIZE, disj, inrng in *. lia.
Qed.

Lemma terminal_mem k y ls ed m' ls' ed' :
  terminal k y ls ed -> unch (ring_foot t buf) (k_mem k) m' -> ring m' t buf ls' ed' ->
  terminal (set_mem m' k) y ls' ed'.
Proof. intros HT HU. eapply terminal_unch; [exact HT|exact HU|exact ring_foot_apart]. Qed.

(** The scheduler runs: the terminal stays. *)
Lemma terminal_sched k y ls ed k' y' :
  terminal k y ls ed -> rep k' y' -> running y' -> only_sched k k' -> terminal k' y' ls ed.
Proof.
  intros [HR HW [H1 H2 H3 H4] HG] HR' HW' [HU HD HP HH].
  assert (forall o n, 0 <= o -> o + Z.of_nat n <= TTY_FIELDS ->
    load n (k_mem k') (t + o) = load n (k_mem k) (t + o)) as E.
  { intros o n Ho Hn. eapply load_unch; [exact HU|]. intros a Ha. apply Happart. left. unfold inrng in *. lia. }
  split; [done|done|split; [by rewrite HD| | |by rewrite HD]|].
  - unfold nr_sinks in *. by rewrite E by (unfold TTY_FIELDS; lia).
  - unfold load_dev, blk_sink in *. rewrite <-!Z.add_assoc in *. by rewrite !E by (unfold TTY_FIELDS, DEV_SIZE; lia).
  - eapply ring_unch; [exact HG|exact HU|]. intros a [Ha|Ha]; apply Happart; [left|by right].
    unfold inrng, TTY_FIELDS in *. lia.
Qed.

(** Output: the terminal stays. *)
Lemma terminal_sent k y ls ed k' thr bs : terminal k y ls ed -> sent k k' thr bs -> terminal k' y ls ed.
Proof. intros [[] HW [] HG] [[c ->] _]. by split; [split| |split|]. Qed.

Lemma field_foot m o n v : 84 <= o -> o + Z.of_nat n <= 112 -> unch (ring_foot t buf) m (store n m (t + o) v).
Proof. intros H1 H2. eapply unch_mono; [|apply store_unch]. intros a Ha. left. unfold inrng in *. lia. Qed.

Lemma buf_foot m i v : 0 <= i < TTY_BUF_SIZE -> unch (ring_foot t buf) m (store 1 m (buf + i) v).
Proof. intros Hi. eapply unch_mono; [|apply store_unch]. intros a Ha. right. unfold inrng in *. lia. Qed.

(** The last call of [ldisc_recv_byte]: the echo. *)
Lemma echo_spec k y ls ed bs :
  terminal k y ls ed ->
  exists k', (let* _ := ldisc_write num bs in ret tt) k = Ret k' tt /\ terminal k' y ls ed /\
    sent k k' (uart_thr b) bs.
Proof.
  intros HT. destruct (ldisc_write_spec Hobj 0 k num t u b bs (tr_console _ _ _ _ HT)) as (k' & E & Hs).
  exists k'. split_and!; [by rewrite (bind_Ret _ _ _ _ _ E)|by eapply terminal_sent|done].
Qed.

(** What a call did: the queues, the output, and nothing else of note. *)
Definition received (k : kst) (y : sys) (bt : Z) (ls ed : list byte) (k' : kst) (y' : sys) : Prop :=
  let '(ls', ed', echo, n) := recv bt ls ed in
  terminal k' y' ls' ed' /\
  y_val y' (rx_sem t) = y_val y (rx_sem t) + n /\
  y_queue y' (rx_sem t) = drop (Z.to_nat n) (y_queue y (rx_sem t)) /\
  y_ready y' = rev (take (Z.to_nat n) (y_queue y (rx_sem t))) ++ y_ready y /\
  y_curr y' = y_curr y /\
  out k' (uart_thr b) = out k (uart_thr b) ++ (byte.unsigned <$> echo).

Lemma received_quiet k y bt ls ed k' ls' ed' echo :
  recv bt ls ed = (ls', ed', echo, 0) -> terminal k' y ls' ed' ->
  out k' (uart_thr b) = out k (uart_thr b) ++ (byte.unsigned <$> echo) ->
  received k y bt ls ed k' y.
Proof.
  intros E HT Ho. unfold received. rewrite E. split_and!; try done. lia.
Qed.

Lemma out_sent k k' bs m' :
  sent (set_mem m' k) k' (uart_thr b) bs ->
  out k' (uart_thr b) = out k (uart_thr b) ++ (byte.unsigned <$> bs).
Proof. intros [_ Ho]. rewrite Ho, decide_True by done. done. Qed.

Lemma recv_del k y ls ed :
  terminal k y ls ed ->
  exists k' y', ldisc_recv_byte num 0x7F k = Ret k' tt /\ received k y 0x7F ls ed k' y'.
Proof.
  intros HT. pose proof (tr_ring _ _ _ _ HT) as HG. unfold ldisc_recv_byte.
  rewrite (bind_Ret _ _ _ _ _ (tty_blk_get k num t (cn_tty _ _ _ _ _ (tr_console _ _ _ _ HT)))).
  change (0x7F =? 13) with false. cbv iota zeta. change (0x7F =? 0x7F) with true. cbv iota.
  rewrite bind_mem, (rg_cursor _ _ _ _ _ HG).
  destruct (decide (ed = [])) as [->|Hne].
  { exists k, y. split; [done|]. eapply received_quiet; [done|done|]. by rewrite app_nil_r. }
  destruct (List.exists_last Hne) as (ed' & x & ->).
  rewrite (proj2 (Z.ltb_lt _ _)) by (rewrite length_app; simpl; lia). rewrite !bind_upd.
  pose proof (ring_erase t buf Hring (k_mem k) ls ed' x HG) as HG'. cbv zeta in HG'.
  match goal with |- context [?c (set_mem ?m3 (set_mem ?m2 (set_mem ?m1 k)))] =>
    change (set_mem m3 (set_mem m2 (set_mem m1 k))) with (set_mem m3 k) end.
  match type of HG' with ring ?m _ _ _ _ => assert (unch (ring_foot t buf) (k_mem k) m) as HU end.
  { etrans; [|apply field_foot; lia]. etrans; [|apply field_foot; lia].
    case_test; [apply field_foot; lia|done]. }
  pose proof (terminal_mem _ _ _ _ _ _ _ HT HU HG') as HT'.
  destruct (echo_spec _ _ _ _ ERASE HT') as (k' & E & HT'' & Hs).
  exists k', y. split; [exact E|]. eapply received_quiet; [|exact HT''|by eapply out_sent].
  unfold recv. simpl. destruct (ed' ++ [x]) eqn:Ee; [by destruct ed'|]. by rewrite <-Ee, removelast_last.
Qed.

(** Any other byte. *)
Lemma recv_char k y bt ls ed :
  terminal k y ls ed -> 0 <= bt < 256 -> bt <> 0x7F -> y_val y (rx_sem t) + TTY_BUF_SIZE < 2 ^ 31 ->
  exists k' y', ldisc_recv_byte num bt k = Ret k' tt /\ received k y bt ls ed k' y'.
Proof.
  intros HT Hbt Hne Hval. pose proof (tr_ring _ _ _ _ HT) as HG. unfold ldisc_recv_byte.
  rewrite (bind_Ret _ _ _ _ _ (tty_blk_get k num t (cn_tty _ _ _ _ _ (tr_console _ _ _ _ HT)))).
  cbv zeta. set (c := if bt =? 13 then 10 else bt).
  assert (0 <= c < 256 /\ (c =? 0x7F) = false) as [Hc Ec].
  { unfold c. case_test; [lia|]. split; [lia|]. apply Z.eqb_neq. lia. }
  rewrite Ec, !bind_mem, (ring_full t buf _ _ _ HG).
  destruct (Z.of_nat (length (ls ++ ed)) =? TTY_BUF_SIZE - 1) eqn:Efull.
  { exists k, y. split; [done|]. eapply (received_quiet _ _ _ _ _ _ ls ed []); [|done|by rewrite app_nil_r].
    unfold recv. fold c. by rewrite Ec, Efull. }
  apply Z.eqb_neq in Efull as Hn. pose proof (rg_room _ _ _ _ _ HG) as Hroom.
  rewrite !bind_upd.
  pose proof (ring_push t buf Hring (k_mem k) ls ed c HG Hc ltac:(lia)) as HG'. cbv zeta in HG'.
  match goal with |- context [set_mem ?m3 (set_mem ?m2 (set_mem ?m1 k))] =>
    change (set_mem m3 (set_mem m2 (set_mem m1 k))) with (set_mem m3 k) end.
  match type of HG' with ring ?m _ _ _ _ => set (m3 := m) in *; assert (unch (ring_foot t buf) (k_mem k) m3) as HU end.
  { unfold m3. etrans; [|apply field_foot; lia]. etrans; [|apply field_foot; lia].
    rewrite (rg_buf _ _ _ _ _ HG). apply buf_foot. rewrite (rg_tail _ _ _ _ _ HG). by apply Z.mod_pos_bound. }
  pose proof (terminal_mem _ _ _ _ _ _ _ HT HU HG') as HT'.
  match goal with |- context [set_mem ?m k] => change (set_mem m k) with (set_mem m3 k) end.
  set (k1 := set_mem m3 k) in *.
  destruct (Z.eqb_spec c 10) as [E10|E10].
  - assert (cursor_pos m3 t = Z.of_nat (length ed) + 1) as Ecur.
    { rewrite (rg_cursor _ _ _ _ _ HG'), length_app. simpl. lia. }
    rewrite length_app in Hroom.
    destruct (sem_signaln_ok procs sems HO Hmany (rx_sem t) (Z.of_nat (length ed) + 1) k1 y
      (tr_rep _ _ _ _ HT') (tr_running _ _ _ _ HT') Hsem ltac:(lia) ltac:(lia))
      as (k2 & y2 & E2 & HR2 & HW2 & Hk2 & Ev & Eq & Er & Ey).
    pose proof (terminal_sched _ _ _ _ _ _ HT' HR2 HW2 Hk2) as HT2.
    assert (terminal (set_mem (set_cursor_pos (k_mem k2) t 0) k2) y2 (ls ++ ed ++ [LF]) []) as HT3.
    { eapply terminal_mem; [exact HT2|apply field_foot; lia|].
      pose proof (ring_commit t buf Hring _ _ _ (tr_ring _ _ _ _ HT2)) as HG3. by rewrite E10 in HG3. }
    destruct (echo_spec _ _ _ _ [byte.of_Z c] HT3) as (k' & E & HT4 & Hs).
    exists k', y2. split.
    + rewrite (bind_Ret _ _ k1 (set_mem (set_cursor_pos (k_mem k2) t 0) k2) tt); [exact E|].
      rewrite bind_mem. change (k_mem k1) with m3. rewrite Ecur. by rewrite (bind_Ret _ _ _ _ _ E2).
    + unfold received, recv. fold c. rewrite Ec, Efull, E10. change (10 =? 10) with true. cbv iota.
      split_and!; try done. rewrite E10 in Hs. rewrite (out_sent _ _ _ _ Hs). f_equal. unfold out.
      by rewrite (proj1 (os_hart _ _ _ _ Hk2)).
  - rewrite bind_ret. destruct (echo_spec _ _ _ _ [byte.of_Z c] HT') as (k' & E & HT'' & Hs).
    exists k', y. split; [exact E|]. eapply received_quiet; [|exact HT''|by eapply out_sent].
    unfold recv. fold c. by rewrite Ec, Efull, (proj2 (Z.eqb_neq _ _) E10).
Qed.

(** C32. A terminal refines the line editor [recv]: every received byte changes
    the complete lines and the line being typed as [recv] says, and its echo
    goes out through the UART.  A carriage return counts as a newline, delete
    takes back one byte of the current line and never one of a complete line, a
    byte that does not fit is dropped without echo, and exactly when a line
    becomes complete its bytes are added to the semaphore, which wakes the
    readers that wait. *)
Theorem tty_receives k y bt ls ed :
  terminal k y ls ed -> 0 <= bt < 256 -> y_val y (rx_sem t) + TTY_BUF_SIZE < 2 ^ 31 ->
  exists k' y', ldisc_recv_byte num bt k = Ret k' tt /\ received k y bt ls ed k' y'.
Proof.
  intros HT Hb Hv. destruct (decide (bt = 0x7F)) as [->|Hne]; [by apply recv_del|by apply recv_char].
Qed.

(** ** Reading *)

(** The bytes that [read] takes from [ls]: up to [n], and no further than the
    end of the first line. *)
Fixpoint line (n : nat) (ls : list byte) : list byte :=
  match n, ls with
  | S n, x :: ls => x :: (if decide (x = LF) then [] else line n ls)
  | _, _ => []
  end.

(** Enough bytes are there to end [read]. *)
Definition avail (n : nat) (ls : list byte) : Prop := (n <= length ls)%nat \/ LF ∈ ls.

(** The result of the loop that starts at index [i]. *)
Definition line_end (i : Z) (n : nat) (ls : list byte) : option Z :=
  if decide (LF ∈ line n ls) then Some (i + Z.of_nat (length (line n ls))) else None.

Lemma lf_value x : (byte.unsigned x =? 10) = bool_decide (x = LF).
Proof. by destruct x. Qed.

Lemma line_cons i n x ls :
  line_end i (S n) (x :: ls) = if decide (x = LF) then Some (i + 1) else line_end (i + 1) n ls.
Proof.
  unfold line_end. simpl. destruct (decide (x = LF)) as [->|Hne].
  - rewrite decide_True by left. done.
  - destruct (decide (LF ∈ line n ls)) as [H|H].
    + rewrite decide_True by (by right). f_equal. simpl. lia.
    + rewrite decide_False; [done|]. intros [E|E]%elem_of_cons; [by subst x|done].
Qed.

Lemma avail_cons n x ls : avail (S n) (x :: ls) -> x <> LF -> avail n ls.
Proof. intros [H|[H|H]%elem_of_cons] Hx; [left; simpl in H; lia|by subst|by right]. Qed.

Context (ubuf : Z) (size : nat).
(** The caller's buffer is apart from the terminal and the scheduler. *)
Context (Huser : forall a, inrng ubuf (Z.of_nat size) a ->
  ~ sched_foot procs sems a /\ ~ inrng t TTY_FIELDS a /\ ~ inrng buf TTY_BUF_SIZE a).

(** One byte. *)
Lemma take_spec k y x ls ed i :
  terminal k y (x :: ls) ed -> 0 <= i < Z.of_nat size ->
  exists k', tty_take t ubuf i k = Ret k' (if decide (x = LF) then Some (i + 1) else None) /\
    terminal k' y ls ed /\ k_mem k' !!! (ubuf + i) = x /\
    unch (fun a => ring_foot t buf a \/ a = ubuf + i) (k_mem k) (k_mem k').
Proof.
  intros HT Hi. pose proof (tr_ring _ _ _ _ HT) as HG.
  destruct (ring_take t buf _ _ _ _ HG) as [Hb Htake]. unfold tty_take. rewrite bind_upd, bind_mem.
  set (m := k_mem k) in *. rewrite Hb.
  destruct (Huser (ubuf + i)) as (N1 & N2 & N3); [unfold inrng; lia|].
  set (h := rx_head m t) in *. pose proof (rg_head _ _ _ _ _ HG) as Hh. fold m h in Hh.
  set (m1 := set_rx_head m t (u64 (h + 1))). set (m2 := store 1 m1 (ubuf + i) (byte.unsigned x)).
  assert (rx_head m2 t = h + 1) as E2.
  { unfold rx_head, m2. rewrite load_store_ne by (unfold disj, inrng, TTY_FIELDS in *; lia).
    unfold m1, set_rx_head. rewrite load8_store8, u64_twice; [done|]. unfold TTY_BUF_SIZE in *. lia. }
  rewrite E2. set (m3 := set_rx_head m2 t ((h + 1) `mod` TTY_BUF_SIZE)).
  pose proof (Z.mod_pos_bound (h + 1) TTY_BUF_SIZE ltac:(done)) as Hm.
  assert (m3 !!! (ubuf + i) = x) as Ex.
  { unfold m3, set_rx_head. rewrite (store_unch 8) by (unfold inrng, TTY_FIELDS in *; simpl; lia).
    unfold m2. rewrite byte_store by apply byte.unsigned_range. apply byte.of_Z_unsigned. }
  assert (unch (fun a => ring_foot t buf a \/ a = ubuf + i) m m3) as HU.
  { etrans; [|eapply unch_mono; [|apply (field_foot _ 96 8); lia]; tauto].
    etrans; [eapply unch_mono; [|apply (field_foot _ 96 8); lia]; tauto|].
    eapply unch_mono; [|apply (store_unch 1)]. intros a Ha. right. unfold inrng in Ha. lia. }
  simpl k_mem. fold m1 m2 m3. rewrite load1_byte, Ex, lf_value.
  exists (set_mem m3 k). split_and!; [|eapply (terminal_unch _ _ _ _ _ _ _ _ HT HU)|done|done].
  - case_bool_decide; [by rewrite decide_True|by rewrite decide_False].
  - intros a [Ha| ->]; [by apply ring_foot_apart|]. split; [done|]. unfold inrng, TTY_FIELDS in *. lia.
  - apply Htake.
    + intros o n Ho Hn Hd. unfold m3, set_rx_head. rewrite load_store_ne by (unfold disj in *; simpl; lia).
      unfold m2. rewrite load_store_ne by (unfold disj, inrng, TTY_FIELDS in *; simpl; lia).
      unfold m1, set_rx_head. apply load_store_ne. unfold disj in *. simpl. lia.
    + intros j. unfold m3, m2, m1, set_rx_head. rewrite (bytes_field t buf Hring) by lia.
      pose proof (Z.mod_pos_bound j TTY_BUF_SIZE ltac:(done)).
      rewrite (store_unch 1) by (unfold inrng in *; simpl; lia). by rewrite (bytes_field t buf Hring) by lia.
    + unfold rx_head at 1, m3, set_rx_head. rewrite load8_store8. apply u64_small. unfold TTY_BUF_SIZE in *. lia.
Qed.

(** [sem_wait] when a byte is ready. *)
Lemma wait_ready k y ls ed :
  terminal k y ls ed -> y_curr y <> sym_idle_proc -> 0 < y_val y (rx_sem t) ->
  exists k', sem_wait (rx_sem t) k = Ret k' tt /\
    terminal k' (y_set_val (rx_sem t) (y_val y (rx_sem t) - 1) y) ls ed /\
    unch (sched_foot procs sems) (k_mem k) (k_mem k').
Proof.
  intros HT Hi Hv. pose proof HT as [HR HW _ _].
  destruct (sem_wait_ok procs sems HO Hmany k y (rx_sem t) HR HW (conj Hsem Hi)) as (k' & E & HR' & HW' & Hk).
  simpl in E, HR', HW'. rewrite (proj2 (Z.ltb_lt _ _) Hv) in *. simpl in *.
  exists k'. split_and!; [done|by eapply terminal_sched|apply Hk].
Qed.

(** What reading [n] bytes from [ls] to [ubuf + i] did. *)
Record was_read (k : kst) (y : sys) (i : Z) (n : nat) (ls ed : list byte) (k' : kst) (y' : sys) : Prop := {
  wr_term : terminal k' y' (drop (length (line n ls)) ls) ed;
  wr_val : y_val y' (rx_sem t) = Z.of_nat (length (drop (length (line n ls)) ls));
  wr_same : y_curr y' = y_curr y /\ (forall h, y_queue y' h = y_queue y h) /\ (forall p, y_state y' p = y_state y p);
  wr_bytes : read_bytes (k_mem k') (ubuf + i) (length (line n ls)) = line n ls;
  wr_unch : unch (fun a => ring_foot t buf a \/ sched_foot procs sems a \/ inrng (ubuf + i) (Z.of_nat n) a)
              (k_mem k) (k_mem k');
}.

(** The rest of the loop, once [sem_wait] has returned at index [i]. *)
Definition tty_read_on (i : Z) (n : nat) : M (option Z) :=
  let* r := tty_take t ubuf i in
  match r with
  | Some _ => ret r
  | None => tty_read_loop t ubuf (seqZ (i + 1) (Z.of_nat n))
  end.

Lemma read_on n k y x ls ed i :
  terminal k y (x :: ls) ed -> y_val y (rx_sem t) = Z.of_nat (length ls) -> y_curr y <> sym_idle_proc ->
  0 <= i -> i + Z.of_nat (S n) <= Z.of_nat size -> avail (S n) (x :: ls) ->
  exists k' y', tty_read_on i n k = Ret k' (line_end i (S n) (x :: ls)) /\
    was_read k y i (S n) (x :: ls) ed k' y'.
Proof.
  revert k y x ls i. induction n as [|n IH]; intros k y x ls i HT Hv Hc Hi Hs Ha.
  all: destruct (take_spec k y x ls ed i HT ltac:(lia)) as (k1 & E1 & HT1 & Ex & HU1).
  all: unfold tty_read_on; rewrite (bind_Ret _ _ _ _ _ E1), line_cons.
  all: assert (unch (fun a => ring_foot t buf a \/ sched_foot procs sems a \/
      inrng (ubuf + i) (Z.of_nat 1) a) (k_mem k) (k_mem k1)) as HU1'
    by (eapply unch_mono; [|exact HU1]; intros a [Hf| ->]; [by left|right; right; unfold inrng; lia]).
  - exists k1, y. split; [by destruct (decide (x = LF))|].
    assert (line 1 (x :: ls) = [x]) as El by (simpl; by destruct (decide (x = LF)), ls).
    split; rewrite ?El; simpl; rewrite ?drop_0; [done|done|done|by rewrite Ex|exact HU1'].
  - destruct (decide (x = LF)) as [Hx|Hx].
    { exists k1, y. split; [done|].
      assert (line (S (S n)) (x :: ls) = [x]) as El by (simpl; by rewrite decide_True by done).
      split; rewrite ?El; simpl; rewrite ?drop_0; [done|done|done|by rewrite Ex|].
      eapply unch_mono; [|exact HU1']. intros a Hf. unfold inrng in *. intuition lia. }
    pose proof (avail_cons _ _ _ Ha Hx) as Ha'.
    destruct ls as [|x' ls]; [by destruct Ha' as [Hl|?%elem_of_nil]; [simpl in Hl; lia|]|].
    destruct (wait_ready k1 y _ ed HT1 Hc ltac:(rewrite Hv; simpl; lia)) as (k2 & E2 & HT2 & HU2).
    rewrite Hv in HT2.
    destruct (IH k2 _ x' ls (i + 1) HT2) as (k3 & y3 & E3 & [W1 W2 W3 W4 W5]); [|done|lia|lia|done|].
    { simpl. rewrite upd_eq. simpl. lia. }
    exists k3, y3. split.
    + rewrite <-E3. unfold tty_read_loop. rewrite seqZ_cons by lia.
      replace (Z.succ (i + 1)) with (i + 1 + 1) by lia.
      replace (Z.pred (Z.of_nat (S n))) with (Z.of_nat n) by lia.
      change (for_each (?j :: ?ixs) ?body) with
        (bind (body j) (fun r => match r with Some _ => ret r | None => for_each ixs body end)).
      cbv beta. by rewrite (bind_bind_Ret _ _ _ _ _ _ E2).
    + assert (line (S (S n)) (x :: x' :: ls) = x :: line (S n) (x' :: ls)) as El.
      { change (line (S (S n)) (x :: x' :: ls)) with (x :: (if decide (x = LF) then [] else line (S n) (x' :: ls))).
        by rewrite decide_False. }
      split; rewrite ?El.
      * exact W1.
      * exact W2.
      * destruct W3 as (A1 & A2 & A3). split_and!; [done|intros h; by rewrite A2|intros p; by rewrite A3].
      * simpl. f_equal; [|by rewrite <-Z.add_assoc].
        assert (inrng ubuf (Z.of_nat size) (ubuf + i)) as Hin by (unfold inrng; lia).
        destruct (Huser _ Hin) as (N1 & N2 & N3).
        assert (~ ring_foot t buf (ubuf + i)) as N4.
        { intros [Hf|Hf]; [apply N2; unfold inrng, TTY_FIELDS in *; lia|done]. }
        rewrite W5, HU2; [done|done|]. intros [?|[?|?]]; [done..|]. unfold inrng in *. lia.
      * etrans; [eapply unch_mono; [|exact HU1']|etrans; [eapply unch_mono; [|exact HU2]|
          eapply unch_mono; [|exact W5]]]; intros a; unfold inrng; intuition lia.
Qed.

(** ** [read] *)

Context (Hnum : num < DRIVER_DEV_CAPACITY) (Ht : t <> nullptr).

Lemma line_full n ls : avail n ls -> LF ∉ line n ls -> length (line n ls) = n.
Proof.
  revert ls. induction n as [|n IH]; intros ls Ha Hl; [done|].
  destruct ls as [|x ls]; [by destruct Ha as [H|H%elem_of_nil]; [simpl in H; lia|]|].
  simpl in *. destruct (decide (x = LF)) as [->|Hx]; [by destruct Hl; left|].
  rewrite not_elem_of_cons in Hl. f_equal. apply IH; [by eapply avail_cons|tauto].
Qed.

Lemma line_end_result n ls :
  avail n ls ->
  match line_end 0 n ls with Some r => r | None => Z.of_nat n end = Z.of_nat (length (line n ls)).
Proof.
  intros Ha. unfold line_end. destruct (decide (LF ∈ line n ls)) as [H|H]; [lia|].
  by rewrite line_full.
Qed.

(** What [read] does with the result of its loop. *)
Definition tty_finish (c : M (option Z)) : M Z :=
  let* r := c in ret (match r with Some n => n | None => Z.of_nat size end).

Lemma finish_eq c c' k k' : c k = c' k' -> tty_finish c k = tty_finish c' k'.
Proof. unfold tty_finish, bind. by intros ->. Qed.

Lemma tty_read_eq k y ls ed :
  terminal k y ls ed ->
  tty_read num ubuf (Z.of_nat size) k = tty_finish (tty_read_loop t ubuf (seqZ 0 (Z.of_nat size))) k.
Proof.
  intros HT. pose proof (tty_blk_get k num t (cn_tty _ _ _ _ _ (tr_console _ _ _ _ HT))) as Eb.
  unfold tty_read, tty_absent. rewrite (proj2 (Z.leb_gt _ _) Hnum).
  rewrite (bind_bind_Ret _ _ _ _ _ _ Eb), (proj2 (Z.eqb_neq _ _) Ht), bind_ret.
  by rewrite (bind_Ret _ _ _ _ _ Eb).
Qed.

(** The loop from the start, when [sem_wait] returns at once or later. *)
Lemma read_loop_first n : size = S n ->
  tty_finish (tty_read_loop t ubuf (seqZ 0 (Z.of_nat size))) =
  tty_finish (let* r := (sem_wait (rx_sem t) ;* tty_take t ubuf 0) in
    match r with Some _ => ret r | None => tty_read_loop t ubuf (seqZ 1 (Z.of_nat n)) end).
Proof.
  intros ->. unfold tty_read_loop. rewrite seqZ_cons by lia.
  by replace (Z.pred (Z.of_nat (S n))) with (Z.of_nat n) by lia.
Qed.

Lemma finish_read_on n k y x ls ed :
  size = S n -> terminal k y (x :: ls) ed -> y_val y (rx_sem t) = Z.of_nat (length ls) ->
  y_curr y <> sym_idle_proc -> avail size (x :: ls) ->
  exists k' y', tty_finish (tty_read_on 0 n) k = Ret k' (Z.of_nat (length (line size (x :: ls)))) /\
    was_read k y 0 size (x :: ls) ed k' y'.
Proof.
  intros Es HT Hv Hc Ha. rewrite Es in Ha |- *.
  destruct (read_on n k y x ls ed 0 HT Hv Hc ltac:(lia) ltac:(lia) Ha) as (k' & y' & E & HW).
  exists k', y'. split; [|done]. unfold tty_finish. rewrite (bind_Ret _ _ _ _ _ E). unfold ret. f_equal.
  rewrite Es. by apply line_end_result.
Qed.

(** C33. [read] on a terminal with a complete line, or with as many bytes as
    asked for, does not block: it returns the first bytes of the complete lines,
    at most [size] and at most to the end of the first line, in the caller's
    buffer, takes exactly these from the ring buffer and from the semaphore, and
    leaves the other lines and the line being typed. *)
Theorem tty_read_line k y ls ed :
  terminal k y ls ed -> y_val y (rx_sem t) = Z.of_nat (length ls) ->
  y_curr y <> sym_idle_proc -> avail size ls ->
  exists k' y', tty_read num ubuf (Z.of_nat size) k = Ret k' (Z.of_nat (length (line size ls))) /\
    was_read k y 0 size ls ed k' y'.
Proof.
  intros HT Hv Hc Ha. rewrite (tty_read_eq _ _ _ _ HT).
  destruct (decide (size = 0%nat)) as [E0|E0].
  { exists k, y. unfold tty_finish. rewrite E0. split; [reflexivity|].
    split; rewrite ?drop_0; done. }
  assert (exists n, size = S n) as [n Es] by (destruct size as [|n]; [done|by exists n]).
  rewrite (read_loop_first n Es).
  destruct ls as [|x ls]; [by destruct Ha as [H|H%elem_of_nil]; [rewrite Es in H; simpl in H; lia|]|].
  destruct (wait_ready k y _ ed HT Hc ltac:(rewrite Hv; simpl; lia)) as (k1 & E1 & HT1 & HU1).
  destruct (finish_read_on n k1 _ x ls ed Es HT1) as (k2 & y2 & E2 & [W1 W2 W3 W4 W5]); [|done|done|].
  { simpl. rewrite upd_eq, Hv. simpl. lia. }
  exists k2, y2. split.
  - rewrite <-E2. apply finish_eq. by rewrite (bind_bind_Ret _ _ _ _ _ _ E1).
  - split; [done|done|exact W3|done|].
    etrans; [eapply unch_mono; [|exact HU1]; tauto|exact W5].
Qed.

(** ** From the keyboard to the reader *)

(** The bytes arrive one interrupt after the other. *)
Fixpoint type_bytes (bs : list byte) : M unit :=
  match bs with
  | [] => ret tt
  | c :: bs => ldisc_recv_byte num (byte.unsigned c) ;* type_bytes bs
  end.

(** A byte that is not edited away or translated. *)
Definition plain (c : byte) : Prop :=
  byte.unsigned c <> 10 /\ byte.unsigned c <> 13 /\ byte.unsigned c <> 0x7F.

Lemma recv_plain c ls ed :
  plain c -> Z.of_nat (length (ls ++ ed)) < TTY_BUF_SIZE - 1 ->
  recv (byte.unsigned c) ls ed = (ls, ed ++ [c], [c], 0).
Proof.
  intros (H1 & H2 & H3) Hl. unfold recv. cbv zeta.
  rewrite (proj2 (Z.eqb_neq _ _) H2), (proj2 (Z.eqb_neq _ _) H3), (proj2 (Z.eqb_neq _ _) H1).
  rewrite (proj2 (Z.eqb_neq _ _)) by lia. by rewrite byte.of_Z_unsigned.
Qed.

(** The same processes wait and are ready. *)
Definition same_queues (y y' : sys) : Prop :=
  y_val y' (rx_sem t) = y_val y (rx_sem t) /\ y_queue y' (rx_sem t) = y_queue y (rx_sem t) /\
  y_ready y' = y_ready y /\ y_curr y' = y_curr y.

Lemma type_plain bs k y ls ed :
  terminal k y ls ed -> Forall plain bs -> Z.of_nat (length (ls ++ ed) + length bs) < TTY_BUF_SIZE ->
  y_val y (rx_sem t) + TTY_BUF_SIZE < 2 ^ 31 ->
  exists k' y', type_bytes bs k = Ret k' tt /\ terminal k' y' ls (ed ++ bs) /\ same_queues y y' /\
    out k' (uart_thr b) = out k (uart_thr b) ++ (byte.unsigned <$> bs).
Proof.
  revert k y ed. induction bs as [|c bs IH]; intros k y ed HT Hp Hl Hv.
  { exists k, y. rewrite !app_nil_r. done. }
  apply Forall_cons in Hp as [Hc Hp]. simpl length in Hl.
  destruct (recv_char k y (byte.unsigned c) ls ed HT) as (k1 & y1 & E1 & H1);
    [pose proof (byte.unsigned_range c); lia|apply Hc|done|].
  unfold received in H1. rewrite recv_plain in H1 by (done || lia).
  destruct H1 as (HT1 & Ev & Eq & Er & Ec & Eo). rewrite Z.add_0_r in Ev. simpl in Eq, Er.
  rewrite drop_0 in Eq.
  destruct (IH k1 y1 (ed ++ [c]) HT1 Hp) as (k2 & y2 & E2 & HT2 & (Sv & Sq & Sr & Sc) & Eo2).
  { rewrite !length_app in *. simpl. lia. }
  { lia. }
  exists k2, y2. split_and!.
  - simpl. by rewrite (bind_Ret _ _ _ _ _ E1).
  - by rewrite <-app_assoc in HT2.
  - split_and!; congruence.
  - rewrite Eo2, Eo, <-app_assoc. done.
Qed.

Lemma type_app bs cs k k' : type_bytes bs k = Ret k' tt -> type_bytes (bs ++ cs) k = type_bytes cs k'.
Proof.
  revert k. induction bs as [|c bs IH]; intros k E; simpl in *; [by injection E as ->|].
  unfold bind in *. destruct (ldisc_recv_byte num (byte.unsigned c) k); simpl in *; [by apply IH|done..].
Qed.

(** A whole line. *)
Lemma type_line bs k y p rest :
  terminal k y [] [] -> Forall plain bs -> Z.of_nat (length bs) < TTY_BUF_SIZE - 1 ->
  y_val y (rx_sem t) = -1 -> y_queue y (rx_sem t) = [p] -> y_ready y = rest ->
  exists k' y', type_bytes (bs ++ [LF]) k = Ret k' tt /\ terminal k' y' (bs ++ [LF]) [] /\
    y_val y' (rx_sem t) = Z.of_nat (length bs) /\ y_ready y' = p :: rest /\ y_curr y' = y_curr y /\
    out k' (uart_thr b) = out k (uart_thr b) ++ (byte.unsigned <$> bs ++ [LF]).
Proof.
  intros HT Hp Hl Hv Hq Hr. unfold TTY_BUF_SIZE in Hl.
  destruct (type_plain bs k y [] [] HT Hp) as (k1 & y1 & E1 & HT1 & (Sv & Sq & Sr & Sc) & Eo);
    [simpl; unfold TTY_BUF_SIZE; lia|rewrite Hv; done|].
  destruct (recv_char k1 y1 10 [] bs HT1 ltac:(lia) ltac:(lia)) as (k2 & y2 & E2 & H2); [by rewrite Sv, Hv|].
  unfold received, recv in H2. cbv zeta in H2. change (10 =? 13) with false in H2. cbv iota in H2.
  change (10 =? 0x7F) with false in H2. cbv iota in H2. simpl app in H2.
  rewrite (proj2 (Z.eqb_neq _ _)) in H2 by (unfold TTY_BUF_SIZE; lia). change (10 =? 10) with true in H2.
  cbv iota in H2. destruct H2 as (HT2 & Ev & Eq & Er & Ec & Eo2). rewrite Sv, Hv in Ev.
  rewrite Sq, Hq in Er.
  exists k2, y2. split_and!; [|exact HT2|lia| |congruence|by rewrite Eo2, Eo, fmap_app, <-app_assoc].
  - rewrite (type_app _ _ _ _ E1). simpl. by rewrite (bind_Ret _ _ _ _ _ E2).
  - rewrite Er, Sr, Hr. replace (Z.to_nat (Z.of_nat (length bs) + 1)) with (S (length bs)) by lia.
    simpl. by rewrite take_nil.
Qed.

(** [sem_wait] when no byte is ready. *)
Lemma wait_blocks k y ls ed :
  terminal k y ls ed -> y_curr y <> sym_idle_proc -> y_val y (rx_sem t) = 0 ->
  exists k' y' next rest, sem_wait (rx_sem t) k = Switch k' (y_curr y) next (fun k => Ret k tt) /\
    terminal k' y' ls ed /\ y_val y' (rx_sem t) = -1 /\ y_queue y' (rx_sem t) = [y_curr y] /\
    y_ready y = next :: rest /\ y_ready y' = rest /\ y_curr y' = next.
Proof.
  intros HT Hi Hv. pose proof HT as [HR HW _ _].
  destruct (sem_wait_ok procs sems HO Hmany k y (rx_sem t) HR HW (conj Hsem Hi)) as (k' & E & HR' & HW' & Hk).
  simpl in E, HR', HW'. rewrite Hv in *. simpl in E, HR', HW'.
  assert (y_queue y (rx_sem t) = []) as Eq.
  { apply nil_length_inv. pose proof (wf_val _ _ _ _ (proj2 HW) _ Hsem). lia. }
  rewrite Eq in *. set (y1 := y_set_state _ _ _) in *.
  assert (y_ready y1 = y_ready y) as Er1.
  { unfold y_ready, y1. simpl. rewrite upd_ne; [done|]. intros Ee. by apply (head_ready _ _ HO _ Hsem). }
  destruct (wf_idle _ _ _ _ (proj2 HW)) as [Hp Hs].
  destruct (y_ready y) as [|next rest] eqn:Er.
  { exfalso. destruct Hs as [Hs|Hs].
    - apply (wf_ready _ _ _ _ (proj2 HW)) in Hs; [|done]. rewrite Er in Hs. by apply elem_of_nil in Hs.
    - apply (wf_curr _ _ _ _ (proj2 HW)) in Hs; [|done]. congruence. }
  exists k', (y_run_next y1), next, rest. split_and!; [exact E|by eapply terminal_sched|..].
  all: unfold y_run_next; rewrite ?Er1; unfold y_ready; simpl.
  - by rewrite upd_eq.
  - rewrite upd_ne by by apply (head_ready _ _ HO). by rewrite upd_eq.
  - done.
  - by rewrite upd_eq.
  - done.
Qed.

(** C8. From the keyboard to the reader: [read] on an empty terminal switches to
    another process.  Typing a line echoes it and puts the reader on top of the
    ready processes.  When the reader runs again, [read] returns the line, with
    its newline, in the caller's buffer (the first [size] bytes of it if the
    buffer is shorter). *)
Theorem tty_line_roundtrip k y bs :
  terminal k y [] [] -> y_val y (rx_sem t) = 0 -> y_curr y <> sym_idle_proc -> (0 < size)%nat ->
  Forall plain bs -> Z.of_nat (length bs) < TTY_BUF_SIZE - 1 ->
  exists k1 next rest, tty_read num ubuf (Z.of_nat size) k = Switch k1 (y_curr y) next rest /\
  exists k2 y2, type_bytes (bs ++ [LF]) k1 = Ret k2 tt /\ terminal k2 y2 (bs ++ [LF]) [] /\
    head (y_ready y2) = Some (y_curr y) /\
    out k2 (uart_thr b) = out k1 (uart_thr b) ++ (byte.unsigned <$> bs ++ [LF]) /\
  forall k3 y3, terminal k3 y3 (bs ++ [LF]) [] -> y_val y3 (rx_sem t) = y_val y2 (rx_sem t) ->
    y_curr y3 = y_curr y ->
    exists k4, rest k3 = Ret k4 (Z.of_nat (length (take size (bs ++ [LF])))) /\
      read_bytes (k_mem k4) ubuf (length (take size (bs ++ [LF]))) = take size (bs ++ [LF]).
Proof.
  intros HT Hv Hc Hs Hp Hl. rewrite (tty_read_eq _ _ _ _ HT).
  assert (exists n, size = S n) as [n Es] by (destruct size as [|n]; [lia|by exists n]).
  destruct (wait_blocks k y [] [] HT Hc Hv) as (k1 & y1 & next & rest & E1 & HT1 & Ev1 & Eq1 & _ & Er1 & _).
  exists k1, next, (tty_finish (tty_read_on 0 n)). split.
  { rewrite (read_loop_first n Es). unfold tty_finish, tty_read_on, bind. rewrite E1. done. }
  destruct (type_line bs k1 y1 (y_curr y) rest HT1 Hp Hl Ev1 Eq1 Er1) as (k2 & y2 & E2 & HT2 & Ev2 & Er2 & _ & Eo2).
  exists k2, y2. split_and!; [done|done|by rewrite Er2|done|].
  intros k3 y3 HT3 Ev3 Ec3.
  assert (line size (bs ++ [LF]) = take size (bs ++ [LF])) as El.
  { clear -Hp. revert bs Hp. induction size as [|m IH]; intros bs Hp; [done|].
    destruct Hp as [|c bs Hc Hp]; simpl.
    - by rewrite take_nil.
    - rewrite decide_False by (intros ->; destruct Hc as [Hc _]; by apply Hc). f_equal. by apply IH. }
  destruct (bs ++ [LF]) as [|x ls] eqn:Ebs; [by destruct bs|].
  assert (Z.of_nat (length ls) = Z.of_nat (length bs)) as Elen.
  { apply (f_equal length) in Ebs. rewrite length_app in Ebs. simpl in Ebs. lia. }
  destruct (finish_read_on n k3 y3 x ls [] Es HT3) as (k4 & y4 & E4 & HW4); [congruence|congruence| |].
  { right. rewrite <-Ebs. apply elem_of_app. right. left. }
  exists k4. rewrite El in E4. split; [exact E4|].
  pose proof (wr_bytes _ _ _ _ _ _ _ _ HW4) as Hb. by rewrite Z.add_0_r, El in Hb.
Qed.
End terminal.
