(* ===== verification/TtyDemo.v ===== *)
(** * A terminal on the [virt] platform

    The processes of the small kernel, with a terminal whose sink is the UART at
    0x10000000. *)

From S2P Require Import Prelude.
From S2P Require Import Mem.
From S2P Require Import DList.
From S2P Require Import Layout.
From S2P Require Import Sbi.
From S2P Require Import Timer.
From S2P Require Import Proc.
From S2P Require Import Kern.
From S2P Require Import Sched.
From S2P Require Import SchedRep.
From S2P Require Import SchedSpec.
From S2P Require Import SchedRun.
From S2P Require Import SchedDemo.
From S2P Require Import Tty.
From S2P Require Import TtyRing.
From S2P Require Import TtySpec.

#[local] Existing Instance virt_layout.
#[local] Existing Instance plain_fw.
#[local] Existing Instance plain_fw_ok.
#[local] Existing Instance plain_mach.
#[local] Existing Instance plain_uart_ok.

Definition tty0 : Z := 0x80240000.
Definition tty0_buf : Z := 0x80240100.
Definition tty0_user : Z := 0x80241000.
Definition uart0 : ctrl_blk_t := mkCtrl 0x10000000 1.
Definition tty_sems : list Z := [rx_sem tty0].

(** The terminal with the given bytes in complete lines. *)
Definition tty_mem (ls : list byte) : mem :=
  let m := list_init_head ∅ sym_ready_queue in
  let m := list_init_head m sym_wait_queue in
  let m := fold_left timer_init (all_timers demo_procs) m in
  let m := list_push_front m sym_ready_queue p_idle in
  let m := set_proc_state m p_idle PROC_STATE_READY in
  let m := set_proc_state m p_a PROC_STATE_CURR in
  let m := set_rx_buf m tty0 tty0_buf in
  let m := set_rx_tail m tty0 (Z.of_nat (length ls)) in
  let m := set_nr_sinks m tty0 1 in
  let m := store_dev m (blk_sink tty0 0) (obj_UART_DRIVER, 0) in
  let m := sem_init m (rx_sem tty0) in
  let m := set_sem_val m (rx_sem tty0) (Z.of_nat (length ls)) in
  write_bytes m tty0_buf ls.

Definition tty_k (ls : list byte) : kst :=
  mkK (tty_mem ls) (mkHart Timer.Demo.fw0 ((5000, []) : @mach plain_mach) 0 0 0) p_a ptable0
      (mkDrv [] [tty0] [uart0] 0 demo_log).

Definition tty_y (ls : list byte) : sys := {|
  y_queue := fun h => if decide (h = sym_ready_queue) then [p_idle] else [];
  y_state := fun p => if decide (p = p_idle) then PROC_STATE_READY
                      else if decide (p = p_a) then PROC_STATE_CURR else PROC_STATE_INIT;
  y_val := fun _ => Z.of_nat (length ls);
  y_curr := p_a;
  y_timers := ([], all_timers demo_procs);
|}.

Lemma tty_objs : objs_ok demo_procs tty_sems.
Proof. split; [by compute_done|by compute_done|by compute_done|]. repeat constructor; done. Qed.

Lemma tty_linked ls : linked demo_procs tty_sems (tty_y ls).
Proof.
  split.
  - intros h p Hh Hp. each_elem Hh; simpl in Hp; each_elem Hp; by compute_done.
  - intros h1 h2 p H1 H2. each_elem H1; each_elem H2; try done; simpl; intros Hp Hq;
      first [by apply elem_of_nil in Hq|by apply elem_of_nil in Hp].
Qed.

Lemma tty_running ls : Z.of_nat (length ls) < 2 ^ 31 -> running demo_procs tty_sems (tty_y ls).
Proof.
  intros Hl. split; [by compute_done|]. split; [apply tty_linked|..].
  - intros h Hh. each_elem Hh; by compute_done.
  - intros p Hp. each_elem Hp; by compute_done.
  - intros p Hp. split; [each_elem Hp; done|].
    intros (s & Hs & Hq). each_elem Hs. simpl in Hq. by apply elem_of_nil in Hq.
  - intros s Hs. each_elem Hs. simpl. lia.
  - intros s Hs. simpl. lia.
  - intros p Hp. each_elem Hp; by compute_done.
  - split; [by compute_done|by left].
Qed.

(** "hi", newline. *)
Definition hi : list byte := [Init.Byte.x68; Init.Byte.x69].
Definition hi_line : list byte := hi ++ [LF].

Lemma tty_rep ls : ls = [] \/ ls = hi_line -> rep demo_procs tty_sems (tty_k ls) (tty_y ls).
Proof.
  intros Hls. split; [|apply tty_linked| | | | |done].
  - intros h Hh. destruct Hls as [->| ->]; each_elem Hh; by compute_done.
  - intros p Hp. destruct Hls as [->| ->]; each_elem Hp; by vm_compute.
  - intros s Hs. destruct Hls as [->| ->]; each_elem Hs; by vm_compute.
  - split; [split|done].
    + destruct Hls as [->| ->]; by compute_done.
    + intros t Ht. simpl in Ht. destruct Hls as [->| ->]; each_elem Ht; by compute_done.
    + constructor.
    + constructor.
    + by compute_done.
    + split; by compute_done.
  - done.
Qed.

Lemma tty_terminal ls :
  ls = [] \/ ls = hi_line -> terminal demo_procs tty_sems 0 tty0 0 tty0_buf uart0 (tty_k ls) (tty_y ls) ls [].
Proof.
  intros Hls. split; [by apply tty_rep|apply tty_running; by destruct Hls as [->| ->]| |].
  - split; destruct Hls as [->| ->]; by vm_compute.
  - split; rewrite ?app_nil_r; [destruct Hls as [->| ->]; by vm_compute..|].
    intros i c Hi. destruct Hls as [->| ->]; [done|].
    destruct i as [|[|[|i]]]; simpl in Hi; try done; injection Hi as <-; by vm_compute.
Qed.

(** The static objects, the processes and the terminal lie in this order. *)
Lemma sched_foot_low a :
  sched_foot demo_procs tty_sems a -> a < tty0 \/ inrng (rx_sem tty0) SEM_SIZE a.
Proof.
  assert (forall x n, x + n <= tty0 -> inrng x n a -> a < tty0 \/ inrng (rx_sem tty0) SEM_SIZE a) as Hlow.
  { unfold inrng. lia. }
  intros [(x & Hx & Ha)|[(x & Hx & Ha)|[(x & Hx & Ha)|[Ha|(x & Hx & Ha)]]]].
  - simpl in Hx. each_elem Hx; try (by eapply Hlow; [|exact Ha]).
    right. unfold inrng, NODE_SIZE, SEM_SIZE in *. lia.
  - each_elem Hx. right. unfold inrng, SEM_SIZE in *. lia.
  - each_elem Hx; by eapply Hlow; [|exact Ha].
  - by eapply Hlow; [|exact Ha].
  - simpl in Hx. each_elem Hx; by eapply Hlow; [|exact Ha].
Qed.

Lemma tty_apart a :
  inrng tty0 TTY_FIELDS a \/ inrng tty0_buf TTY_BUF_SIZE a -> ~ sched_foot demo_procs tty_sems a.
Proof.
  intros Ha [Hb|Hb]%sched_foot_low;
    unfold inrng, tty0, tty0_buf, rx_sem, TTY_FIELDS, TTY_BUF_SIZE, SEM_SIZE in *; lia.
Qed.

Lemma user_apart n a :
  inrng tty0_user (Z.of_nat n) a ->
  ~ sched_foot demo_procs tty_sems a /\ ~ inrng tty0 TTY_FIELDS a /\ ~ inrng tty0_buf TTY_BUF_SIZE a.
Proof.
  intros Ha. split_and!.
  - intros [Hb|Hb]%sched_foot_low; unfold inrng, tty0, tty0_user, rx_sem, SEM_SIZE in *; lia.
  - unfold inrng, tty0, tty0_user, TTY_FIELDS in *. lia.
  - unfold inrng, tty0_buf, tty0_user, TTY_BUF_SIZE in *. lia.
Qed.

Lemma tty_ring_sep : ring_sep tty0 tty0_buf.
Proof. by left. Qed.

Lemma tty_drivers : obj_UART_DRIVER <> obj_TTY_DRIVER.
Proof. by vm_compute. Qed.

Lemma tty_receives_witness :
  exists k' y', ldisc_recv_byte 0 0x68 (tty_k []) = Ret k' tt /\
    received demo_procs tty_sems 0 tty0 0 tty0_buf uart0 (tty_k []) (tty_y []) 0x68 [] [] k' y'.
Proof.
  exact (tty_receives demo_procs tty_sems tty_objs demo_many tty_drivers 0 tty0 0 tty0_buf uart0
    ltac:(left) tty_ring_sep tty_apart (tty_k []) (tty_y []) 0x68 [] []
    (tty_terminal [] (or_introl eq_refl)) ltac:(lia) ltac:(done)).
Defined.

Lemma tty_read_line_witness :
  exists k' y', tty_read 0 tty0_user (Z.of_nat 80) (tty_k hi_line) = Ret k' 3 /\
    was_read demo_procs tty_sems 0 tty0 0 tty0_buf uart0 tty0_user
      (tty_k hi_line) (tty_y hi_line) 0 80 hi_line [] k' y'.
Proof.
  exact (tty_read_line demo_procs tty_sems tty_objs demo_many 0 tty0 0 tty0_buf uart0
    ltac:(left) tty_ring_sep tty_apart tty0_user 80 (user_apart 80) ltac:(done) ltac:(done)
    (tty_k hi_line) (tty_y hi_line) hi_line []
    (tty_terminal hi_line (or_intror eq_refl)) ltac:(done) ltac:(done) ltac:(right; by compute_done)).
Defined.

Lemma tty_line_roundtrip_witness :
  exists k1 next rest, tty_read 0 tty0_user (Z.of_nat 80) (tty_k []) = Switch k1 p_a next rest /\
  exists k2, type_bytes 0 hi_line k1 = Ret k2 tt /\ out k2 0x10000000 = out k1 0x10000000 ++ [0x68; 0x69; 10].
Proof.
  destruct (tty_line_roundtrip demo_procs tty_sems tty_objs demo_many tty_drivers 0 tty0 0 tty0_buf uart0
    ltac:(left) tty_ring_sep tty_apart tty0_user 80 (user_apart 80) ltac:(done) ltac:(done)
    (tty_k []) (tty_y []) hi (tty_terminal [] (or_introl eq_refl)) ltac:(done) ltac:(done) ltac:(lia)
    ltac:(repeat constructor; done) ltac:(done)) as (k1 & next & rest & E1 & k2 & y2 & E2 & _ & _ & Eo & _).
  exists k1, next, rest. split; [exact E1|]. exists k2. split; [exact E2|exact Eo].
Defined.
