(* ===== verification/Log.v ===== *)
(** * The kernel log: [src/module/log.c] and [include/module/log.h]

    Until the terminal is there, messages go to a ring buffer of 4096 bytes
    that keeps the newest ones; the module's [init] copies it to the terminal,
    and from then on messages go to the terminal.  Format strings are lists of
    characters without the NUL; the variable arguments are a list. *)

From stdpp Require Import strings.
From S2P Require Import Prelude.
From S2P Require Import Errno.
From S2P Require Import Mem.
From S2P Require Import Layout.
From S2P Require Import Pages.
From S2P Require Import Sbi.
From S2P Require Import Proc.
From S2P Require Import Kern.
From S2P Require Import Sched.
From S2P Require Import Intr.
From S2P Require Import Tty.
From S2P Require Import TtySpec.
#[local] Open Scope Z_scope.
#[local] Open Scope kern_scope.

(** The characters of a literal. *)
Definition chars (s : string) : list byte := String.list_byte_of_string s.

Inductive log_severity_t :=
| LOG_SEVERITY_DEBUG | LOG_SEVERITY_INFO | LOG_SEVERITY_WARNING
| LOG_SEVERITY_ERROR | LOG_SEVERITY_CRITICAL | LOG_SEVERITY_PANIC.

(** A variable argument: a [const char *] ([None]: null) or a [usize]. *)
Inductive arg := AStr (s : option (list byte)) | AAddr (a : Z).

(** The statics before the first message. *)
Definition log0 : log_state := mkLog false (replicate (Z.to_nat LOG_BUF_SIZE) Init.Byte.x00) 0 0.

(** One iteration of the loop of [write]. *)
Definition log_put (l : log_state) (c : byte) : log_state :=
  let buf := <[Z.to_nat (lg_tail l) := c]> (lg_buf l) in
  let tail := (lg_tail l + 1) `mod` LOG_BUF_SIZE in
  let head := if tail =? lg_head l then (lg_head l + 1) `mod` LOG_BUF_SIZE else lg_head l in
  mkLog (lg_inited l) buf head tail.

(** A digit of [%p]. *)
Definition hex_digit (nibble : Z) : byte :=
  byte.of_Z (if nibble <? 10 then nibble + 48 else nibble - 10 + 65).

(** [buf[15 - i]] has the nibble [i]. *)
Definition hex_digits (addr : Z) : list byte :=
  (fun j => hex_digit (Z.land (Z.shiftr addr ((15 - j) * 4)) 0xF)) <$> seqZ 0 16.

Definition ESC : byte := Init.Byte.x1b.

(** "[\x1B[36mdebug\x1B[0m] " and the like *)
Definition severity_tag (s : log_severity_t) : list byte :=
  let tag color name := chars "[" ++ ESC :: chars color ++ chars name ++ ESC :: chars "[0m] " in
  match s with
  | LOG_SEVERITY_DEBUG => tag "[36m" "debug"
  | LOG_SEVERITY_INFO => tag "[32m" "info"
  | LOG_SEVERITY_WARNING => tag "[33m" "warning"
  | LOG_SEVERITY_ERROR => tag "[31m" "error"
  | LOG_SEVERITY_CRITICAL => tag "[43m" "critical"
  | LOG_SEVERITY_PANIC => tag "[41m" "panic"
  end.

Section code.
Context `{PA : PageAllocator} `{L : Layout} `{C : Code} `{FW : Firmware} `{MC : Machine}.

Definition set_log (l : log_state) (k : kst) : kst :=
  let d := k_drv k in
  set_drv (mkDrv (d_isrs d) (d_ttys d) (d_uarts d) (d_plic d) l) k.

(** [write] of [log.c] *)
Definition log_write (str : list byte) : M unit :=
  let* l := gets (fun k => d_log (k_drv k)) in
  if negb (lg_inited l) then modify (set_log (fold_left log_put str l))
  else let* _ := dev_write (obj_TTY_DRIVER, 0) str in ret tt.

(** [flush] *)
Definition log_flush : M unit :=
  let* l := gets (fun k => d_log (k_drv k)) in
  let* _ := dev_write (obj_TTY_DRIVER, 0) (drop (Z.to_nat (lg_head l)) (lg_buf l)) in
  if lg_tail l <? lg_head l
  then let* _ := dev_write (obj_TTY_DRIVER, 0) (take (Z.to_nat (lg_tail l)) (lg_buf l)) in ret tt
  else ret tt.

(** A conversion without its argument, and a [%] at the end of the format, read
    what is not there. *)
Fixpoint kvprintf (fmt : list byte) (args : list arg) : M unit :=
  match fmt with
  | [] => ret tt
  | Init.Byte.x25 :: fmt =>
      match fmt, args with
      | Init.Byte.x73 :: fmt, AStr (Some s) :: args => log_write s ;* kvprintf fmt args
      | Init.Byte.x73 :: fmt, _ => halt Stuck
      | Init.Byte.x70 :: fmt, AAddr a :: args => log_write (hex_digits a) ;* kvprintf fmt args
      | Init.Byte.x70 :: fmt, _ => halt Stuck
      | _ :: fmt, _ => kvprintf fmt args
      | [], _ => halt Stuck
      end
  | c :: fmt => log_write [c] ;* kvprintf fmt args
  end.

(** [pm_hang] waits for ever. *)
Definition pm_hang {A : Type} : M A := halt Hang.

Definition klogf (severity : log_severity_t) (fmt : list byte) (args : list arg) : M unit :=
  kvprintf (severity_tag severity) [] ;*
  kvprintf fmt args ;*
  match severity with
  | LOG_SEVERITY_PANIC => log_flush ;* pm_hang
  | _ => ret tt
  end.

(** The macros of [log.h], with the [_MODULE_NAME] of the file that uses them. *)
Definition log_msg (severity : log_severity_t) (module fmt : string) (args : list arg) : M unit :=
  klogf severity (chars "%s: " ++ chars fmt ++ [LF]) (AStr (Some (chars module)) :: args).
Definition log_info : string -> string -> list arg -> M unit := log_msg LOG_SEVERITY_INFO.
Definition log_critical : string -> string -> list arg -> M unit := log_msg LOG_SEVERITY_CRITICAL.
Definition log_panic {A : Type} (module fmt : string) (args : list arg) : M A :=
  log_msg LOG_SEVERITY_PANIC module fmt args ;* halt Stuck.

(** The [init] of [log.c]. *)
Definition log_init : M Z :=
  log_flush ;*
  modify (fun k => let l := d_log (k_drv k) in
                   set_log (mkLog true (lg_buf l) (lg_head l) (lg_tail l)) k) ;*
  ret 0.
End code.
