(* ===== verification/LogSpec.v ===== *)
(** * What the log keeps and prints *)

From stdpp Require Import strings.
From S2P Require Import Prelude.
From S2P Require Import Errno.
From S2P Require Import Mem.
From S2P Require Import Layout.
From S2P Require Import Pages.
From S2P Require Import Sbi.
From S2P Require Import Proc.
From S2P Require Import Kern.
From S2P Require Import Intr.
From S2P Require Import Tty.
From S2P Require Import TtySpec.
From S2P Require Import Log.
#[local] Open Scope Z_scope.
#[local] Open Scope kern_scope.

(** ** The ring buffer *)

(** The [n] bytes of the ring from [head] on. *)
Definition ring_list (buf : list byte) (head n : Z) : list byte :=
  (fun i => buf !!! Z.to_nat ((head + i) `mod` LOG_BUF_SIZE)) <$> seqZ 0 n.

(** The bytes that are kept, the oldest first. *)
Definition log_window (l : log_state) : list byte :=
  ring_list (lg_buf l) (lg_head l) ((lg_tail l - lg_head l) `mod` LOG_BUF_SIZE).

Record log_ok (l : log_state) : Prop := {
  lo_len : length (lg_buf l) = Z.to_nat LOG_BUF_SIZE;
  lo_head : 0 <= lg_head l < LOG_BUF_SIZE;
  lo_tail : 0 <= lg_tail l < LOG_BUF_SIZE;
}.

Lemma ring_list_last buf head n :
  0 <= n -> ring_list buf head (n + 1) = ring_list buf head n ++ [buf !!! Z.to_nat ((head + n) `mod` LOG_BUF_SIZE)].
Proof. intros Hn. unfold ring_list. by rewrite seqZ_app, fmap_app by lia. Qed.

Lemma ring_list_first buf head n :
  0 <= n ->
  ring_list buf head (n + 1) =
  buf !!! Z.to_nat (head `mod` LOG_BUF_SIZE) :: ring_list buf ((head + 1) `mod` LOG_BUF_SIZE) n.
Proof.
  intros Hn. unfold ring_list. rewrite seqZ_cons by lia. rewrite fmap_cons, Z.add_0_r. f_equal.
  replace (Z.pred (n + 1)) with n by lia. apply list_eq. intros i. rewrite !list_lookup_fmap.
  destruct (decide (Z.of_nat i < n)).
  - rewrite !lookup_seqZ_lt by lia. simpl. do 3 f_equal. rewrite Zplus_mod_idemp_l. f_equal. lia.
  - by rewrite !lookup_seqZ_ge by lia.
Qed.

Lemma ring_list_insert buf head n c :
  0 <= n < LOG_BUF_SIZE ->
  ring_list (<[Z.to_nat ((head + n) `mod` LOG_BUF_SIZE) := c]> buf) head n = ring_list buf head n.
Proof.
  intros Hn. apply list_fmap_ext. intros i x Hi. apply lookup_seqZ in Hi as [-> Hi].
  apply list_lookup_total_insert_ne. unfold LOG_BUF_SIZE in *.
  pose proof (Z.div_mod (head + n) 4096). pose proof (Z.div_mod (head + (0 + Z.of_nat i)) 4096).
  pose proof (Z.mod_pos_bound (head + n) 4096). pose proof (Z.mod_pos_bound (head + (0 + Z.of_nat i)) 4096).
  lia.
Qed.

Lemma length_ring_list buf head n : 0 <= n -> Z.of_nat (length (ring_list buf head n)) = n.
Proof. intros. unfold ring_list. rewrite length_fmap, length_seqZ. lia. Qed.

(** One byte goes in; when 4095 are kept, the oldest goes out. *)
Lemma log_put_window l c :
  log_ok l ->
  log_ok (log_put l c) /\
  log_window (log_put l c) =
  drop (if Z.of_nat (length (log_window l)) =? LOG_BUF_SIZE - 1 then 1 else 0) (log_window l ++ [c]).
Proof.
  intros [HL HH HT]. destruct l as [ini buf head tail]. simpl in *.
  set (n := (tail - head) `mod` LOG_BUF_SIZE).
  pose proof (Z.mod_pos_bound (tail - head) LOG_BUF_SIZE ltac:(done)) as Hn. fold n in Hn.
  assert (tail = (head + n) `mod` LOG_BUF_SIZE) as Et.
  { unfold n. rewrite Zplus_mod_idemp_r. replace (head + (tail - head)) with tail by lia. by rewrite Z.mod_small. }
  pose proof (Z.mod_pos_bound (tail + 1) LOG_BUF_SIZE ltac:(done)) as Ht'.
  pose proof (Z.mod_pos_bound (head + 1) LOG_BUF_SIZE ltac:(done)) as Hh'.
  split.
  { split; unfold log_put; simpl; [by rewrite length_insert| |done]. by case_test. }
  unfold log_put, log_window. simpl. fold n. rewrite length_ring_list by lia.
  set (buf' := <[Z.to_nat tail := c]> buf).
  assert (ring_list buf' head (n + 1) = ring_list buf head n ++ [c]) as Enew.
  { rewrite ring_list_last by lia. unfold buf'. rewrite Et at 1. rewrite ring_list_insert by done.
    rewrite <-Et, list_lookup_total_insert_eq; [done|]. rewrite HL. lia. }
  assert (((tail + 1) `mod` LOG_BUF_SIZE =? head) = (n =? LOG_BUF_SIZE - 1)) as ->.
  { unfold n, LOG_BUF_SIZE in *. pose proof (Z.div_mod (tail - head) 4096). pose proof (Z.div_mod (tail + 1) 4096).
    apply Bool.eq_iff_eq_true. rewrite !Z.eqb_eq. split; intros; lia. }
  destruct (Z.eqb_spec n (LOG_BUF_SIZE - 1)) as [En|En].
  - rewrite <-Enew, ring_list_first by lia. simpl. rewrite drop_0.
    f_equal. rewrite En, Et. unfold LOG_BUF_SIZE in *.
    rewrite Zplus_mod_idemp_l, <-Zminus_mod, En.
    replace (head + (4096 - 1) + 1 - (head + 1)) with (4096 - 1) by lia. done.
  - rewrite drop_0, <-Enew. f_equal. rewrite Et. rewrite Zplus_mod_idemp_l, Zminus_mod_idemp_l.
    replace (head + n + 1 - head) with (n + 1) by lia. apply Z.mod_small. lia.
Qed.

Lemma log_puts_window bs :
  let l := fold_left log_put bs log0 in
  log_ok l /\ log_window l = drop (length bs - Z.to_nat (LOG_BUF_SIZE - 1)) bs.
Proof.
  cbv zeta. induction bs as [|c bs [IH1 IH2]] using rev_ind.
  - split; [split; [apply length_replicate|done|done]|done].
  - rewrite fold_left_app. simpl. destruct (log_put_window _ c IH1) as [H1 H2]. split; [done|].
    rewrite H2, IH2, length_drop, length_app. simpl.
    change (Z.to_nat (LOG_BUF_SIZE - 1)) with 4095%nat. change (LOG_BUF_SIZE - 1) with 4095.
    destruct (Z.eqb_spec (Z.of_nat (length bs - (length bs - 4095))) 4095).
    + replace (length bs + 1 - 4095)%nat with (S (length bs - 4095)) by lia.
      rewrite (drop_app_le bs) by lia. rewrite drop_app_le by (rewrite length_drop; lia).
      rewrite drop_drop. do 2 f_equal. lia.
    + replace (length bs - 4095)%nat with 0%nat by lia. replace (length bs + 1 - 4095)%nat with 0%nat by lia.
      by rewrite !drop_0.
Qed.

Lemma log_puts_ok bs l : log_ok l -> log_ok (fold_left log_put bs l).
Proof.
  revert l. induction bs as [|c bs IH]; intros l Hl; [done|]. simpl.
  apply IH. by apply log_put_window.
Qed.

(** C36. The early log keeps the newest 4095 bytes: after any sequence of writes
    the ring buffer holds exactly the last 4095 bytes written (all of them, if
    there were fewer), in order, and its indices stay inside the buffer. *)
Theorem log_keeps_last bs :
  let l := fold_left log_put bs log0 in
  log_ok l /\ log_window l = drop (length bs - Z.to_nat (LOG_BUF_SIZE - 1)) bs.
Proof. apply log_puts_window. Qed.

(** ** Printing *)

(** The text of a format with its arguments; [None] where the code reads an
    argument or a character that is not there. *)
Fixpoint render (fmt : list byte) (args : list arg) : option (list byte) :=
  match fmt with
  | [] => Some []
  | Init.Byte.x25 :: fmt =>
      match fmt, args with
      | Init.Byte.x73 :: fmt, AStr (Some s) :: args => app s <$> render fmt args
      | Init.Byte.x73 :: fmt, _ => None
      | Init.Byte.x70 :: fmt, AAddr a :: args => app (hex_digits a) <$> render fmt args
      | Init.Byte.x70 :: fmt, _ => None
      | _ :: fmt, _ => render fmt args
      | [], _ => None
      end
  | c :: fmt => cons c <$> render fmt args
  end.

(** The value of a string of hexadecimal digits. *)
Definition hex_digit_value (c : byte) : Z :=
  if byte.unsigned c <=? 57 then byte.unsigned c - 48 else byte.unsigned c - 55.
Definition hex_value (ds : list byte) : Z := fold_left (fun v d => v * 16 + hex_digit_value d) ds 0.

Lemma hex_digit_roundtrip n : 0 <= n < 16 -> hex_digit_value (hex_digit n) = n.
Proof.
  intros Hn. assert (n ∈ seqZ 0 16) as H by (apply elem_of_seqZ; lia).
  revert H. change (seqZ 0 16) with [0;1;2;3;4;5;6;7;8;9;10;11;12;13;14;15].
  rewrite !elem_of_cons, elem_of_nil. intros H.
  repeat (destruct H as [->|H]; [reflexivity|]). done.
Qed.

(** [%p] prints an address as 16 hexadecimal digits from which it can be read
    back. *)
Lemma hex_digits_roundtrip a :
  0 <= a < 2 ^ 64 -> length (hex_digits a) = 16%nat /\ hex_value (hex_digits a) = a.
Proof.
  intros Ha. split; [done|].
  assert (forall j : nat, (j <= 16)%nat ->
    hex_value ((fun j => hex_digit (Z.land (Z.shiftr a ((15 - j) * 4)) 0xF)) <$> seqZ 0 (Z.of_nat j))
    = a / 2 ^ (4 * (16 - Z.of_nat j))) as H.
  { induction j as [|j IH]; intros Hj.
    - simpl. symmetry. apply Z.div_small. done.
    - replace (Z.of_nat (S j)) with (Z.of_nat j + 1) by lia. rewrite seqZ_app, fmap_app by lia.
      unfold hex_value in *. rewrite fold_left_app, IH by lia. simpl.
      change (Z.land ?x 15) with (Z.land x (Z.ones 4)). rewrite Z.land_ones, Z.shiftr_div_pow2 by lia.
      rewrite hex_digit_roundtrip by (apply Z.mod_pos_bound; lia).
      replace (4 * (16 - Z.of_nat j)) with ((15 - Z.of_nat j) * 4 + 4) by lia.
      rewrite Z.pow_add_r, <-Z.div_div by lia.
      replace (4 * (16 - (Z.of_nat j + 1))) with ((15 - Z.of_nat j) * 4) by lia.
      replace (15 - (Z.of_nat 0 + (0 + Z.of_nat j))) with (15 - Z.of_nat j) by lia.
      change (2 ^ 4) with 16. pose proof (Z.div_mod (a / 2 ^ ((15 - Z.of_nat j) * 4)) 16 ltac:(lia)). lia. }
  specialize (H 16%nat ltac:(lia)). simpl Z.of_nat in H. rewrite Z.sub_diag, Z.mul_0_r, Z.div_1_r in H. exact H.
Qed.

#[local] Arguments hex_digits : simpl never.

Section printing.
Context `{PA : PageAllocator} `{L : Layout} `{C : Code} `{FW : Firmware} `{MC : Machine} {UOK : UartOk MC}.
Context (Hobj : obj_UART_DRIVER <> obj_TTY_DRIVER).

(** A relation between the states before and after writing some bytes that
    [log_write] satisfies and that composes: then [kvprintf] satisfies it too. *)
Lemma kvprintf_lift (P : kst -> Prop) (R : kst -> kst -> list byte -> Prop) :
  (forall k, P k -> R k k []) ->
  (forall k1 k2 k3 bs cs, R k1 k2 bs -> R k2 k3 cs -> R k1 k3 (bs ++ cs)) ->
  (forall k bs, P k -> exists k', log_write bs k = Ret k' tt /\ P k' /\ R k k' bs) ->
  forall n fmt args bs k, (length fmt <= n)%nat -> render fmt args = Some bs -> P k ->
    exists k', kvprintf fmt args k = Ret k' tt /\ P k' /\ R k k' bs.
Proof.
  intros Hnil Happ Hw. induction n as [|n IH]; intros fmt args bs k Hl Hr HP.
  all: destruct fmt as [|c fmt]; [injection Hr as <-; exists k; eauto|simpl in Hl].
  { lia. }
  assert (forall s fmt' args' bs', (length fmt' <= n)%nat -> render fmt' args' = Some bs' ->
    exists k', (log_write s ;* kvprintf fmt' args') k = Ret k' tt /\ P k' /\ R k k' (s ++ bs')) as Hstep.
  { intros s fmt' args' bs' Hl' Hr'. destruct (Hw k s HP) as (k1 & E1 & HP1 & HR1).
    destruct (IH fmt' args' bs' k1 Hl' Hr' HP1) as (k2 & E2 & HP2 & HR2).
    exists k2. rewrite (bind_Ret _ _ _ _ _ E1). eauto. }
  destruct (decide (c = Init.Byte.x25)) as [->|Hc].
  - destruct fmt as [|d fmt]; [done|]. simpl in Hl.
    destruct (decide (d = Init.Byte.x73)) as [->|H1].
    { destruct args as [|[[s|]|a] args]; simpl in Hr; try done.
      apply fmap_Some in Hr as (bs' & Hr & ->). apply Hstep; [lia|done]. }
    destruct (decide (d = Init.Byte.x70)) as [->|H2].
    { destruct args as [|[s|a] args]; cbn [render] in Hr; try done.
      apply fmap_Some in Hr as (bs' & Hr & ->). apply (Hstep (hex_digits a)); [lia|done]. }
    assert (kvprintf (Init.Byte.x25 :: d :: fmt) args = kvprintf fmt args /\
            render (Init.Byte.x25 :: d :: fmt) args = render fmt args) as [E1 E2].
    { by destruct d. }
    rewrite E1. rewrite E2 in Hr. apply (IH fmt args bs k); [lia|done|done].
  - assert (kvprintf (c :: fmt) args = (log_write [c] ;* kvprintf fmt args) /\
            render (c :: fmt) args = cons c <$> render fmt args) as [E1 E2].
    { by destruct c. }
    rewrite E1. rewrite E2 in Hr. apply fmap_Some in Hr as (bs' & Hr & ->). apply (Hstep [c]); [lia|done].
Qed.

Lemma log_puts_inited bs l : lg_inited (fold_left log_put bs l) = lg_inited l.
Proof. revert l. induction bs as [|c bs IH]; intros l; [done|]. simpl. by rewrite IH. Qed.

(** Before the terminal is there. *)
Lemma kvprintf_early fmt args bs k :
  render fmt args = Some bs -> lg_inited (d_log (k_drv k)) = false ->
  kvprintf fmt args k = Ret (set_log (fold_left log_put bs (d_log (k_drv k))) k) tt.
Proof.
  intros Hr Hi.
  destruct (kvprintf_lift (fun k => lg_inited (d_log (k_drv k)) = false)
    (fun k k' bs => k' = set_log (fold_left log_put bs (d_log (k_drv k))) k)) with (n := length fmt)
    (fmt := fmt) (args := args) (bs := bs) (k := k) as (k' & E & _ & ->); try done.
  - intros k0 _. by destruct k0 as [? ? ? ? []].
  - intros k1 k2 k3 bs0 cs -> ->. simpl. by rewrite fold_left_app.
  - intros k0 bs0 H0. eexists. unfold log_write. rewrite bind_gets, H0. simpl.
    split; [reflexivity|]. split; [simpl; by rewrite log_puts_inited|done].
Qed.

(** [dev_write] on the first terminal. *)
Lemma dev_write_tty k t u b bs :
  console k 0 t u b -> t <> nullptr ->
  exists k', dev_write (obj_TTY_DRIVER, 0) bs k = Ret k' (Z.of_nat (length bs)) /\ sent k k' (uart_thr b) bs.
Proof.
  intros HC Ht. destruct (ldisc_write_spec Hobj 0 k 0 t u b bs HC) as (k' & E & Hs).
  exists k'. split; [|done]. unfold dev_write. simpl dev_write_upto. rewrite Z.eqb_refl.
  unfold tty_write_with, tty_absent. cbn [fst snd]. change (DRIVER_DEV_CAPACITY <=? 0) with false. cbv iota.
  rewrite (bind_bind_Ret _ _ _ _ _ _ (tty_blk_get k 0 t (cn_tty _ _ _ _ _ HC))).
  rewrite (proj2 (Z.eqb_neq _ _) Ht), bind_ret. exact E.
Qed.

Lemma console_sent k k' t u b thr bs : console k 0 t u b -> sent k k' thr bs -> console k' 0 t u b.
Proof. intros [] [[c ->] _]. by split. Qed.

(** Once it is. *)
Lemma kvprintf_late fmt args bs k t u b :
  render fmt args = Some bs -> lg_inited (d_log (k_drv k)) = true -> console k 0 t u b -> t <> nullptr ->
  exists k', kvprintf fmt args k = Ret k' tt /\ sent k k' (uart_thr b) bs.
Proof.
  intros Hr Hi HC Ht.
  destruct (kvprintf_lift (fun k => lg_inited (d_log (k_drv k)) = true /\ console k 0 t u b)
    (fun k k' bs => sent k k' (uart_thr b) bs)) with (n := length fmt)
    (fmt := fmt) (args := args) (bs := bs) (k := k) as (k' & E & _ & Hs); try done; [|..|by exists k'].
  - intros k0 _. apply sent_nil.
  - intros k1 k2 k3 bs0 cs. apply sent_app.
  - intros k0 bs0 [H0 HC0]. destruct (dev_write_tty k0 t u b bs0 HC0 Ht) as (k' & E & Hs).
    exists k'. unfold log_write. rewrite bind_gets, H0. simpl. rewrite (bind_Ret _ _ _ _ _ E).
    split; [done|]. split; [|done]. split; [|by eapply console_sent]. by destruct Hs as [[c ->] _].
Qed.

Lemma tag_renders s : render (severity_tag s) [] = Some (severity_tag s).
Proof. by destruct s. Qed.

(** ** The copy to the terminal *)

(** What [flush] sends behind the bytes that are kept. *)
Definition log_pad (l : log_state) : list byte :=
  if lg_tail l <? lg_head l then [] else drop (Z.to_nat (lg_tail l)) (lg_buf l).

Lemma ring_list_flat buf head n :
  length buf = Z.to_nat LOG_BUF_SIZE -> 0 <= head -> 0 <= n -> head + n <= LOG_BUF_SIZE ->
  ring_list buf head n = take (Z.to_nat n) (drop (Z.to_nat head) buf).
Proof.
  intros Hl Hh Hn Hs. unfold ring_list, LOG_BUF_SIZE in *. apply list_eq. intros i. rewrite list_lookup_fmap.
  destruct (decide (Z.of_nat i < n)).
  - rewrite lookup_seqZ_lt, lookup_take_lt, lookup_drop by lia. simpl.
    rewrite Z.mod_small by lia. replace (Z.to_nat (head + (0 + Z.of_nat i))) with (Z.to_nat head + i)%nat by lia.
    symmetry. apply list_lookup_lookup_total_lt. lia.
  - rewrite lookup_seqZ_ge, lookup_take_ge by lia. done.
Qed.

Lemma ring_list_app buf head n k :
  0 <= n -> 0 <= k -> ring_list buf head (n + k) = ring_list buf head n ++ ring_list buf ((head + n) `mod` LOG_BUF_SIZE) k.
Proof.
  intros Hn Hk. unfold ring_list. rewrite seqZ_app, fmap_app by lia. f_equal.
  apply list_eq. intros i. rewrite !list_lookup_fmap. destruct (decide (Z.of_nat i < k)).
  - rewrite !lookup_seqZ_lt by lia. simpl. do 3 f_equal. rewrite Zplus_mod_idemp_l. f_equal. lia.
  - by rewrite !lookup_seqZ_ge by lia.
Qed.

(** The two pieces that [flush] sends. *)
Lemma flush_bytes l :
  log_ok l ->
  drop (Z.to_nat (lg_head l)) (lg_buf l) ++
  (if lg_tail l <? lg_head l then take (Z.to_nat (lg_tail l)) (lg_buf l) else []) = log_window l ++ log_pad l.
Proof.
  intros [HL HH HT]. unfold log_window, log_pad. set (h := lg_head l) in *. set (t := lg_tail l) in *.
  destruct (Z.ltb_spec t h).
  - rewrite app_nil_r. replace ((t - h) `mod` LOG_BUF_SIZE) with ((LOG_BUF_SIZE - h) + t).
    2: { unfold LOG_BUF_SIZE in *. pose proof (Z.div_mod (t - h) 4096). pose proof (Z.mod_pos_bound (t - h) 4096). lia. }
    rewrite ring_list_app by lia. f_equal.
    + rewrite ring_list_flat, take_ge by (rewrite ?length_drop, ?HL; lia). done.
    + replace (h + (LOG_BUF_SIZE - h)) with LOG_BUF_SIZE by lia. rewrite Z.mod_same by done.
      by rewrite ring_list_flat, drop_0 by lia.
  - rewrite app_nil_r. rewrite Z.mod_small by lia. rewrite ring_list_flat by lia.
    rewrite <-(take_drop (Z.to_nat (t - h)) (drop (Z.to_nat h) (lg_buf l))) at 1. f_equal.
    rewrite drop_drop. f_equal. lia.
Qed.

(** Short logs have not wrapped. *)
Lemma log_short bs :
  (length bs < Z.to_nat LOG_BUF_SIZE)%nat ->
  let l := fold_left log_put bs log0 in
  lg_head l = 0 /\ lg_tail l = Z.of_nat (length bs) /\
  lg_buf l = bs ++ replicate (Z.to_nat LOG_BUF_SIZE - length bs) Init.Byte.x00.
Proof.
  cbv zeta. induction bs as [|c bs IH] using rev_ind; intros Hl; [done|].
  rewrite length_app in *. change (length [c]) with 1%nat in *. rewrite fold_left_app. simpl fold_left.
  specialize (IH ltac:(lia)). revert IH. generalize (fold_left log_put bs log0). intros l (E1 & E2 & E3).
  unfold log_put. cbn [lg_head lg_tail lg_buf]. rewrite E1, E2, E3.
  unfold LOG_BUF_SIZE in *.
  assert ((Z.of_nat (length bs) + 1) `mod` 4096 = Z.of_nat (length bs) + 1) as -> by (apply Z.mod_small; lia).
  rewrite (proj2 (Z.eqb_neq _ _)) by lia. split_and!; [done|lia|].
  rewrite Nat2Z.id. rewrite insert_app_r_alt, Nat.sub_diag by lia.
  replace (Z.to_nat 4096 - length bs)%nat with (S (Z.to_nat 4096 - (length bs + 1))) by lia.
  simpl. by rewrite <-app_assoc.
Qed.

(** [flush] sends the bytes that are kept, and what follows them in the array. *)
Lemma log_flush_sends k t u b :
  let l := d_log (k_drv k) in
  log_ok l -> console k 0 t u b -> t <> nullptr ->
  exists k', log_flush k = Ret k' tt /\ sent k k' (uart_thr b) (log_window l ++ log_pad l).
Proof.
  intros l Hok HC Ht.
  destruct (dev_write_tty k t u b (drop (Z.to_nat (lg_head l)) (lg_buf l)) HC Ht) as (k1 & E1 & S1).
  assert (exists k2, (if lg_tail l <? lg_head l
      then let* _ := dev_write (obj_TTY_DRIVER, 0) (take (Z.to_nat (lg_tail l)) (lg_buf l)) in ret tt
      else ret tt) k1 = Ret k2 tt /\
    sent k1 k2 (uart_thr b) (if lg_tail l <? lg_head l then take (Z.to_nat (lg_tail l)) (lg_buf l) else []))
    as (k2 & E2 & S2).
  { destruct (lg_tail l <? lg_head l); [|exists k1; split; [done|apply sent_nil]].
    destruct (dev_write_tty k1 t u b (take (Z.to_nat (lg_tail l)) (lg_buf l))
      (console_sent _ _ _ _ _ _ _ HC S1) Ht) as (k2 & E2 & S2).
    exists k2. by rewrite (bind_Ret _ _ _ _ _ E2). }
  exists k2. rewrite <-(flush_bytes l Hok). split; [|by eapply sent_app].
  unfold log_flush. rewrite bind_gets. fold l. by rewrite (bind_Ret _ _ _ _ _ E1).
Qed.

(** ** Messages

    A message as its author means it: characters, strings, addresses, and
    conversions that the kernel does not know. *)
Inductive piece := PChar (c : byte) | PStr (s : list byte) | PAddr (a : Z) | POther (d : byte).

(** How a piece is written in the format, its argument, and what it should look
    like: an address has 16 digits from 0 to 9 and A to F, the most significant
    first; an unknown conversion prints nothing. *)
Definition piece_fmt (p : piece) : list byte :=
  match p with
  | PChar c => [c]
  | PStr _ => chars "%s"
  | PAddr _ => chars "%p"
  | POther d => chars "%" ++ [d]
  end.

Definition piece_args (p : piece) : list arg :=
  match p with
  | PStr s => [AStr (Some s)]
  | PAddr a => [AAddr a]
  | _ => []
  end.

Definition piece_ok (p : piece) : Prop :=
  match p with
  | PChar c => [c] <> chars "%"
  | PStr _ => True
  | PAddr a => 0 <= a < 2 ^ 64
  | POther d => [d] <> chars "s" /\ [d] <> chars "p"
  end.

Definition is_hex_digit (c : byte) : Prop :=
  48 <= byte.unsigned c <= 57 \/ 65 <= byte.unsigned c <= 70.

Definition piece_shows (p : piece) (out : list byte) : Prop :=
  match p with
  | PChar c => out = [c]
  | PStr s => out = s
  | PAddr a => length out = 16%nat /\ Forall is_hex_digit out /\ hex_value out = a
  | POther _ => out = []
  end.

Definition message_fmt (ps : list piece) : list byte := mjoin (piece_fmt <$> ps).
Definition message_args (ps : list piece) : list arg := mjoin (piece_args <$> ps).
Definition message_shows (ps : list piece) (out : list byte) : Prop :=
  exists outs, Forall2 piece_shows ps outs /\ out = mjoin outs.

(** The name of the severity, in its colour, in brackets. *)
Definition severity_style (s : log_severity_t) : string * string :=
  match s with
  | LOG_SEVERITY_DEBUG => ("36", "debug")
  | LOG_SEVERITY_INFO => ("32", "info")
  | LOG_SEVERITY_WARNING => ("33", "warning")
  | LOG_SEVERITY_ERROR => ("31", "error")
  | LOG_SEVERITY_CRITICAL => ("43", "critical")
  | LOG_SEVERITY_PANIC => ("41", "panic")
  end%string.

Definition colour (sgr : string) : list byte := Init.Byte.x1b :: chars "[" ++ chars sgr ++ chars "m".

Definition tag_text (s : log_severity_t) : list byte :=
  chars "[" ++ colour (severity_style s).1 ++ chars (severity_style s).2 ++ colour "0" ++ chars "] ".

Lemma severity_tag_text s : severity_tag s = tag_text s.
Proof. by destruct s. Qed.

Lemma hex_digits_hex a : Forall is_hex_digit (hex_digits a).
Proof.
  unfold hex_digits. apply Forall_fmap, Forall_forall. intros j _. simpl.
  change 15 with (Z.ones 4) at 2. rewrite Z.land_ones by lia.
  pose proof (Z.mod_pos_bound (a ≫ ((15 - j) * 4)) (2 ^ 4) ltac:(lia)) as Hn.
  unfold is_hex_digit, hex_digit. set (n := _ `mod` 2 ^ 4) in *. clearbody n.
  rewrite byte.unsigned_of_Z. unfold byte.wrap.
  destruct (Z.ltb_spec n 10); rewrite Z.mod_small by lia; lia.
Qed.

(** The pieces of a message are printed one by one. *)
Definition piece_text (p : piece) : list byte :=
  match p with
  | PChar c => [c]
  | PStr s => s
  | PAddr a => hex_digits a
  | POther _ => []
  end.

Lemma piece_text_shows p : piece_ok p -> piece_shows p (piece_text p).
Proof.
  destruct p as [c|s|a|d]; simpl; [done..| |done]. intros Ha.
  destruct (hex_digits_roundtrip a Ha) as [H1 H2]. auto using hex_digits_hex.
Qed.

Lemma render_message ps :
  Forall piece_ok ps -> render (message_fmt ps) (message_args ps) = Some (mjoin (piece_text <$> ps)).
Proof.
  unfold message_fmt, message_args. induction 1 as [|p ps Hp _ IH]; [done|]. csimpl.
  destruct p as [c|s|a|d]; simpl piece_fmt; simpl piece_args; simpl app; cbn [piece_ok] in Hp.
  - assert (render (c :: mjoin (piece_fmt <$> ps)) (mjoin (piece_args <$> ps)) =
      cons c <$> render (mjoin (piece_fmt <$> ps)) (mjoin (piece_args <$> ps))) as ->.
    { clear IH. by destruct c. }
    by rewrite IH.
  - cbn [render]. by rewrite IH.
  - cbn [render]. by rewrite IH.
  - destruct Hp as [H1 H2]. rewrite <-IH. clear IH. by destruct d.
Qed.

Lemma message_text_shows ps : Forall piece_ok ps -> message_shows ps (mjoin (piece_text <$> ps)).
Proof.
  intros HF. exists (piece_text <$> ps). split; [|done].
  induction HF; simpl; constructor; auto using piece_text_shows.
Qed.

(** The two parts of [klogf] that print. *)
Lemma klogf_early s fmt args bs k :
  render fmt args = Some bs -> lg_inited (d_log (k_drv k)) = false ->
  klogf s fmt args k =
  (match s with LOG_SEVERITY_PANIC => log_flush ;* pm_hang | _ => ret tt end)
    (set_log (fold_left log_put (severity_tag s ++ bs) (d_log (k_drv k))) k).
Proof.
  intros Hr Hi. unfold klogf. rewrite (bind_Ret _ _ _ _ _ (kvprintf_early _ _ _ _ (tag_renders s) Hi)).
  set (k1 := set_log _ k).
  assert (lg_inited (d_log (k_drv k1)) = false) as Hi1 by (simpl; by rewrite log_puts_inited).
  rewrite (bind_Ret _ _ _ _ _ (kvprintf_early fmt args bs k1 Hr Hi1)).
  unfold k1. simpl. by rewrite <-fold_left_app.
Qed.

Lemma klogf_late s fmt args bs k t u b :
  render fmt args = Some bs -> lg_inited (d_log (k_drv k)) = true ->
  console k 0 t u b -> t <> nullptr ->
  exists k1, sent k k1 (uart_thr b) (severity_tag s ++ bs) /\
    klogf s fmt args k =
    (match s with LOG_SEVERITY_PANIC => log_flush ;* pm_hang | _ => ret tt end) k1.
Proof.
  intros Hr Hi HC Ht.
  destruct (kvprintf_late _ _ _ k t u b (tag_renders s) Hi HC Ht) as (k1 & E1 & S1).
  assert (lg_inited (d_log (k_drv k1)) = true) as Hi1 by (by destruct S1 as [[c ->] _]).
  destruct (kvprintf_late _ _ _ k1 t u b Hr Hi1 (console_sent _ _ _ _ _ _ _ HC S1) Ht) as (k2 & E2 & S2).
  exists k2. split; [by eapply sent_app|]. unfold klogf.
  by rewrite (bind_Ret _ _ _ _ _ E1), (bind_Ret _ _ _ _ _ E2).
Qed.

(** C37. [klogf] on the format and the arguments of a message [ps]: there is a text
    for it in which every character other than [%] stands for itself, [%s] is the
    string, [%p] the 16 upper-case hexadecimal digits of the address and a
    conversion that is not known is nothing; behind the name of the severity in
    brackets and in its colour, this text goes to the ring buffer before the
    terminal is there, with nothing else changed, and is sent through the UART
    afterwards.  A panic does not return: it prints in the same way, then sends
    what the ring buffer holds (also the messages sent before) and the rest of the
    array, and hangs. *)
Theorem klogf_prints s ps k :
  Forall piece_ok ps ->
  let fmt := message_fmt ps in let args := message_args ps in
  let l := d_log (k_drv k) in
  exists bs, message_shows ps bs /\
  let text := tag_text s ++ bs in
  let l' := fold_left log_put text l in
  (s <> LOG_SEVERITY_PANIC -> lg_inited l = false -> klogf s fmt args k = Ret (set_log l' k) tt) /\
  (forall t u b, s <> LOG_SEVERITY_PANIC -> lg_inited l = true -> console k 0 t u b -> t <> nullptr ->
     exists k', klogf s fmt args k = Ret k' tt /\ sent k k' (uart_thr b) text) /\
  (forall t u b, s = LOG_SEVERITY_PANIC -> log_ok l -> console k 0 t u b -> t <> nullptr ->
     exists k', klogf s fmt args k = Stop k' Hang /\
       out k' (uart_thr b) = out k (uart_thr b) ++
         (byte.unsigned <$> (if lg_inited l then text ++ log_window l ++ log_pad l
                             else log_window l' ++ log_pad l'))).
Proof.
  intros HF. cbv zeta. exists (mjoin (piece_text <$> ps)). split; [by apply message_text_shows|].
  pose proof (render_message ps HF) as Hr. rewrite <-severity_tag_text. split_and!.
  - intros Hs Hi. rewrite (klogf_early _ _ _ _ _ Hr Hi). by destruct s.
  - intros t u b Hs Hi HC Ht. destruct (klogf_late s _ _ _ k t u b Hr Hi HC Ht) as (k1 & S1 & E).
    exists k1. rewrite E. by destruct s.
  - intros t u b -> Hok HC Ht. destruct (lg_inited (d_log (k_drv k))) eqn:Hi.
    + destruct (klogf_late LOG_SEVERITY_PANIC _ _ _ k t u b Hr Hi HC Ht) as (k1 & S1 & E).
      assert (d_log (k_drv k1) = d_log (k_drv k)) as El by (by destruct S1 as [[c ->] _]).
      destruct (log_flush_sends k1 t u b) as (k2 & Ef & S2); [by rewrite El|by eapply console_sent|done|].
      exists k2. rewrite E. cbv iota. rewrite (bind_Ret _ _ _ _ _ Ef). split; [done|].
      pose proof (sent_app _ _ _ _ _ _ S1 S2) as [_ Ho]. rewrite Ho, decide_True, El by done. done.
    + rewrite (klogf_early _ _ _ _ _ Hr Hi). set (l' := fold_left log_put _ _).
      assert (log_ok l') as Hok' by by apply log_puts_ok.
      assert (console (set_log l' k) 0 t u b) as HC' by (destruct HC; by split).
      destruct (log_flush_sends (set_log l' k) t u b Hok' HC' Ht) as (k2 & Ef & [_ Ho]).
      exists k2. rewrite (bind_Ret _ _ _ _ _ Ef). split; [done|]. by rewrite Ho, decide_True by done.
Qed.

(** C38. When the log module starts, the terminal gets the bytes that were kept,
    oldest first, and messages go to the terminal from then on.  The kept bytes
    are followed by the rest of the array unless the buffer has wrapped: a log
    of fewer than 4096 bytes is sent with as many NUL bytes as fill it up. *)
Theorem log_init_replays k bs t u b :
  d_log (k_drv k) = fold_left log_put bs log0 -> console k 0 t u b -> t <> nullptr ->
  let l := d_log (k_drv k) in
  exists k', log_init k = Ret k' 0 /\ lg_inited (d_log (k_drv k')) = true /\
    out k' (uart_thr b) =
      out k (uart_thr b) ++ (byte.unsigned <$> drop (length bs - 4095) bs ++ log_pad l) /\
    ((length bs < 4096)%nat -> log_pad l = replicate (4096 - length bs) Init.Byte.x00).
Proof.
  intros El HC Ht. cbv zeta. destruct (log_puts_window bs) as [Hok Hw]. rewrite <-El in Hok, Hw.
  set (l := d_log (k_drv k)) in *.
  destruct (log_flush_sends k t u b Hok HC Ht) as (k2 & Ef & [_ Ho]). fold l in Ho.
  eexists. split; [unfold log_init; rewrite (bind_Ret _ _ _ _ _ Ef); reflexivity|].
  split_and!; [done| |].
  - specialize (Ho (uart_thr b)). rewrite decide_True, Hw in Ho by done. exact Ho.
  - intros Hl. destruct (log_short bs) as (F1 & F2 & F3); [done|].
    unfold log_pad. rewrite El. cbv zeta in F1, F2, F3. revert F1 F2 F3.
    generalize (fold_left log_put bs log0). intros l0 F1 F2 F3. rewrite F1, F2, F3.
    rewrite (proj2 (Z.ltb_ge _ _)) by lia. rewrite Nat2Z.id. by rewrite drop_app_length.
Qed.
End printing.
