(* ===== verification/LogDemo.v ===== *)
(** * Messages on the terminal of the small kernel *)

From stdpp Require Import strings.
From S2P Require Import Prelude.
From S2P Require Import Layout.
From S2P Require Import Sbi.
From S2P Require Import Kern.
From S2P Require Import Tty.
From S2P Require Import TtySpec.
From S2P Require Import SchedDemo.
From S2P Require Import TtyDemo.
From S2P Require Import Log.
From S2P Require Import LogSpec.
#[local] Open Scope Z_scope.

#[local] Existing Instance virt_layout.
#[local] Existing Instance plain_fw.
#[local] Existing Instance plain_mach.
#[local] Existing Instance plain_uart_ok.

(** The log has "hi" in it. *)
Definition log_k : kst := set_log (fold_left log_put hi log0) (tty_k []).

Lemma log_console : console log_k 0 tty0 0 uart0.
Proof.
  pose proof (tr_console _ _ _ _ _ _ _ _ _ _ _ (tty_terminal [] (or_introl eq_refl))) as [H1 H2 H3 H4].
  split; [exact H1|exact H2|exact H3|exact H4].
Qed.

Lemma tty0_nonnull : tty0 <> nullptr.
Proof. done. Qed.

(** The message "<hi>", with the format "<%s>". *)
Definition msg_hi : list piece := [PChar Init.Byte.x3c; PStr hi; PChar Init.Byte.x3e].

Lemma klogf_prints_witness :
  klogf LOG_SEVERITY_INFO (chars "<%s>") [AStr (Some hi)] log_k =
  Ret (set_log (fold_left log_put (tag_text LOG_SEVERITY_INFO ++ chars "<hi>") (d_log (k_drv log_k))) log_k) tt.
Proof.
  destruct (klogf_prints tty_drivers LOG_SEVERITY_INFO msg_hi log_k) as (bs & (outs & HF & Hbs) & H & _).
  - repeat constructor; discriminate.
  - assert (bs = chars "<hi>") as Eb; [|rewrite Eb in H; exact (H ltac:(discriminate) eq_refl)].
    apply Forall2_cons_inv_l in HF as (o1 & outs1 & H1 & HF & ->).
    apply Forall2_cons_inv_l in HF as (o2 & outs2 & H2 & HF & ->).
    apply Forall2_cons_inv_l in HF as (o3 & outs3 & H3 & HF & ->).
    apply Forall2_nil_inv_l in HF as ->. rewrite Hbs, H1, H2, H3. reflexivity.
Defined.

Lemma log_init_replays_witness :
  exists k', log_init log_k = Ret k' 0 /\ lg_inited (d_log (k_drv k')) = true /\
    ((2 < 4096)%nat -> log_pad (d_log (k_drv log_k)) = replicate (4096 - 2) Init.Byte.x00).
Proof.
  destruct (log_init_replays tty_drivers log_k hi tty0 0 uart0 eq_refl log_console tty0_nonnull)
    as (k' & E & Ei & _ & Hp).
  exists k'. split; [exact E|split; [exact Ei|exact Hp]].
Defined.
