(* ===== verification/Syscall.v ===== *)
(** * System calls: [src/syscalls/], and the power management they use

    A handler has the address of the [trapframe_t] that the trampoline left on
    the kernel stack of the calling process.  The fields it reads are loaded
    when the source reads them. *)

From stdpp Require Import strings.
From S2P Require Import Prelude.
From S2P Require Import Errno.
From S2P Require Import Mem.
From S2P Require Import DList.
From S2P Require Import Layout.
From S2P Require Import Pages.
From S2P Require Import Kalloc.
From S2P Require Import Vm.
From S2P Require Import Sbi.
From S2P Require Import Timer.
From S2P Require Import Proc.
From S2P Require Import Kern.
From S2P Require Import Sched.
From S2P Require Import Tty.
From S2P Require Import Log.
#[local] Open Scope Z_scope.
#[local] Open Scope kern_scope.

(** [trapframe_t] *)
Definition TRAPFRAME_SIZE : Z := 96.
Definition frame_sepc (m : mem) (frame : Z) : Z := load 8 m (frame + 8).
Definition set_frame_sepc (m : mem) (frame v : Z) : mem := store 8 m (frame + 8) v.
Definition frame_scause (m : mem) (frame : Z) : Z := load 8 m (frame + 16).
Definition frame_a0 (m : mem) (frame : Z) : Z := load 8 m (frame + 32).
Definition set_frame_a0 (m : mem) (frame v : Z) : mem := store 8 m (frame + 32) v.
Definition frame_a1 (m : mem) (frame : Z) : Z := load 8 m (frame + 40).
Definition frame_a2 (m : mem) (frame : Z) : Z := load 8 m (frame + 48).
Definition frame_a7 (m : mem) (frame : Z) : Z := load 8 m (frame + 88).

Section code.
Context `{PA : PageAllocator} `{L : Layout} `{C : Code} `{FW : Firmware} `{MC : Machine}.

(** A use of the object that [p] points to. *)
Definition deref (p : Z) : M unit := if p =? nullptr then halt Stuck else ret tt.

(** ** exit and wait *)

(** [while (!list_empty(head)) proc_adopt(init, list_first_entry(head))];
    [None] is a null [init]. *)
Definition adopt_all (init head : Z) (m : mem) : option mem :=
  mjoin (while (fun m =>
    if list_empty m head then inr (Some m)
    else if init =? nullptr then inr None
    else inl (proc_adopt m init (list_first_entry m head 16))) m).

Definition adopt_children (head : Z -> Z) : M unit :=
  let* curr := curr_proc in
  let* init := gets (fun k => pt_get (k_procs k) 1) in
  let* m := gets k_mem in
  let* m' := the (adopt_all init (head curr) m) in
  upd_mem (fun _ => m').

Definition sys_exit (frame : Z) : M Z :=
  let* status := mem_of (fun m => i32 (frame_a0 m frame)) in
  let* curr := curr_proc in
  upd_mem (fun m => set_proc_exit_status m curr status) ;*
  adopt_children proc_children ;*
  adopt_children proc_zombie_children ;*
  let* parent := mem_of (fun m => proc_parent m curr) in
  upd_mem (fun m => list_remove m (proc_tree_node curr)) ;*
  deref parent ;*
  upd_mem (fun m => list_push_back m (proc_zombie_children parent) (proc_tree_node curr)) ;*
  let* st := mem_of (fun m => proc_state m parent) in
  (if st =? PROC_STATE_WAIT_CHILD
   then
     upd_mem (fun m => set_proc_proc_waiting m parent curr) ;*
     sched_update_state parent PROC_STATE_READY
   else ret tt) ;*
  sched_update_state curr PROC_STATE_ZOMBIE ;*
  halt Stuck.

Definition k_proc_deinit (proc : Z) : M unit := fun k =>
  let '(m, t) := proc_deinit (k_mem k) (k_procs k) proc in Ret (set_procs t (set_mem m k)) tt.

(** Behind [quit:]. *)
Definition wait_quit (status proc : Z) : M Z :=
  (if negb (status =? nullptr)
   then upd_mem (fun m => store 4 m status (Z.land (proc_exit_status m proc) 0xFF))
   else ret tt) ;*
  k_proc_deinit proc ;*
  upd_mem (fun m => kfree m proc) ;*
  mem_of (fun m => proc_pid m proc).

Definition sys_wait (frame : Z) : M Z :=
  let* status := mem_of (fun m => frame_a0 m frame) in
  let* curr := curr_proc in
  let* none := mem_of (fun m => list_empty m (proc_children curr)) in
  let* nozombie := mem_of (fun m => list_empty m (proc_zombie_children curr)) in
  if none && nozombie then ret (- ECHILD)
  else if negb nozombie
  then
    let* proc := mem_of (fun m => list_first_entry m (proc_zombie_children curr) 16) in
    wait_quit status proc
  else
    sched_update_state curr PROC_STATE_WAIT_CHILD ;*
    let* curr := curr_proc in
    let* proc := mem_of (fun m => proc_proc_waiting m curr) in
    wait_quit status proc.

(** ** Devices *)

(** [proc_is_bad_fd(curr_proc, fd) && !(curr_proc->fds[fd].flags & flag)]; the
    second operand indexes [fds] with a descriptor that may be out of range. *)
Definition fd_refused (fd flag : Z) : M bool :=
  let* curr := curr_proc in
  let* bad := mem_of (fun m => proc_is_bad_fd m curr fd) in
  if negb bad then ret false
  else if (fd <? 0) || (PROC_FD_CAPACITY <=? fd) then halt Stuck
  else mem_of (fun m => negb (fd_flags m (proc_fd curr fd) &? flag)).

Definition sys_read (frame : Z) : M Z :=
  let* fd := mem_of (fun m => i32 (frame_a0 m frame)) in
  let* buf := mem_of (fun m => frame_a1 m frame) in
  let* size := mem_of (fun m => frame_a2 m frame) in
  let* refused := fd_refused fd FD_FLAG_READABLE in
  if refused then ret (- EBADF)
  else if buf =? nullptr then ret (- EFAULT)
  else
    let* curr := curr_proc in
    let* dev := mem_of (fun m => load_dev m (proc_fd curr fd + 8)) in
    dev_read dev buf size.

Definition sys_write (frame : Z) : M Z :=
  let* fd := mem_of (fun m => i32 (frame_a0 m frame)) in
  let* curr := curr_proc in
  let* res := mem_of (fun m => vm_virt_to_phys m (proc_page_table m curr) (frame_a1 m frame)) in
  match res with
  | inl res => ret res
  | inr buf =>
      let* size := mem_of (fun m => frame_a2 m frame) in
      let* refused := fd_refused fd FD_FLAG_WRITABLE in
      if refused then ret (- EBADF)
      else
        let* dev := mem_of (fun m => load_dev m (proc_fd curr fd + 8)) in
        let* bytes := mem_of (fun m => read_bytes m buf (Z.to_nat size)) in
        dev_write dev bytes
  end.

(** ** Processes *)

Definition sys_getpid (frame : Z) : M Z :=
  let* curr := curr_proc in mem_of (fun m => proc_pid m curr).

(** [while (argv[argc]) argc++;] *)
Definition count_args (m : mem) (argv : Z) : option Z :=
  while (fun argc => if load 8 m (argv + argc * 8) =? nullptr then inr argc else inl (argc + 1)) 0.

Definition sys_proc (frame : Z) : M Z :=
  let* entry := mem_of (fun m => frame_a0 m frame) in
  let* argv := mem_of (fun m => frame_a1 m frame) in
  if (entry =? nullptr) || (argv =? nullptr) then ret (- EFAULT)
  else
    let* n := mem_of (fun m => count_args m argv) in
    let* argc := the n in
    let* proc := k_kmalloc PROC_SIZE in
    if proc =? nullptr then ret (- ENOMEM)
    else
      let* curr := curr_proc in
      let* res := k_proc_init proc entry 0 curr (i32 argc) argv nullptr in
      if res <? 0 then ret res
      else
        sched_update_state proc PROC_STATE_READY ;*
        mem_of (fun m => proc_pid m proc).

(** ** Time *)

Definition wakeup_proc (data : Z) : M unit := sched_update_state data PROC_STATE_READY.

Definition sys_sleep (frame : Z) : M Z :=
  let* ns := mem_of (fun m => frame_a0 m frame) in
  let* curr := curr_proc in
  k_timer_wait (proc_timer curr) ns fn_wakeup_proc curr ;*
  sched_update_state curr PROC_STATE_SLEEP ;*
  ret 0.

Definition sys_yield (frame : Z) : M Z := sched_resched ;* ret 0.

(** ** Power *)

Definition REBOOT_TYPE_REBOOT : Z := 0.
Definition REBOOT_TYPE_SHUTDOWN : Z := 1.
Definition REBOOT_TYPE_HANG : Z := 2.

(** [pm_reboot] and [pm_shutdown] with their panic. *)
Definition k_pm {A : Type} (call : fw -> fw * option string) (fmt : string) : M A := fun k =>
  let '(f, name) := call (h_fw (k_hart k)) in
  log_panic "pm" fmt [AStr (chars <$> name)] (set_fw f k).

Definition k_pm_reboot {A : Type} : M A := k_pm pm_reboot "errno %s is returned when rebooting system".
Definition k_pm_shutdown {A : Type} : M A :=
  k_pm pm_shutdown "errno %s is returned when shutting down system".

Definition sys_reboot (frame : Z) : M Z :=
  let* type := mem_of (fun m => u32 (frame_a0 m frame)) in
  if type =? REBOOT_TYPE_REBOOT then k_pm_reboot
  else if type =? REBOOT_TYPE_SHUTDOWN then k_pm_shutdown
  else if type =? REBOOT_TYPE_HANG then pm_hang
  else ret (- EINVAL).

(** ** The table *)

Definition SYSCALL_TABLE : list (Z -> M Z) := [
  sys_exit; sys_read; sys_write; sys_yield; sys_sleep;
  sys_getpid; sys_proc; sys_wait; sys_reboot ].

Definition NR_SYSCALLS : Z := Z.of_nat (length SYSCALL_TABLE).
End code.
