(* ===== verification/Trap.v ===== *)
(** * Traps: [src/arch/riscv/trap.c], and what timer interrupts call

    [trap_handler] runs behind the trampoline (modelled in [Asm]), with the
    address of the frame that the trampoline saved. *)

From S2P Require Import Prelude.
From S2P Require Import Errno.
From S2P Require Import Mem.
From S2P Require Import Layout.
From S2P Require Import Pages.
From S2P Require Import Sbi.
From S2P Require Import Timer.
From S2P Require Import Proc.
From S2P Require Import Kern.
From S2P Require Import Sched.
From S2P Require Import Intr.
From S2P Require Import Tty.
From S2P Require Import Syscall.
#[local] Open Scope Z_scope.
#[local] Open Scope kern_scope.

Definition CSR_SCAUSE_INTR : Z := 0x8000000000000000.
Definition CSR_SCAUSE_TIMER_INTR : Z := 5.
Definition CSR_SCAUSE_EXT_INTR : Z := 9.
Definition CSR_SCAUSE_ECALL_U : Z := 8.
Definition RV_INSTR_LEN : Z := 4.

Section code.
Context `{PA : PageAllocator} `{L : Layout} `{C : Code} `{FW : Firmware} `{MC : Machine}.

(** The [init] of [trap.c]. *)
Definition trap_init : M Z :=
  modify (fun k => let h := k_hart k in
    set_hart (mkHart (h_fw h) (h_mach h) (h_sie h) sym_trampoline (h_sstatus h)) k) ;*
  ret 0.

(** [timer->callback(timer->data)]: the two functions that the kernel gives to
    [timer_wait]. *)
Definition call_timer (fn data : Z) : M unit :=
  if fn =? fn_sched_preempt then sched_preempt
  else if fn =? fn_wakeup_proc then wakeup_proc data
  else halt Stuck.

Definition k_timer_isr : M unit :=
  let* call := run_fw timer_isr in call_timer call.1 call.2.

Definition ext_isr : M unit :=
  let* irq := plic_claim in
  intr_isr irq ;*
  plic_complete irq.

Definition handle_ecall (frame : Z) : M unit :=
  upd_mem (fun m => set_frame_sepc m frame (u64 (frame_sepc m frame + RV_INSTR_LEN))) ;*
  let* nr := mem_of (fun m => frame_a7 m frame) in
  if NR_SYSCALLS <=? nr then upd_mem (fun m => set_frame_a0 m frame (u64 (- ENOSYS)))
  else
    let* sys := the (SYSCALL_TABLE !! Z.to_nat nr) in
    let* res := sys frame in
    upd_mem (fun m => set_frame_a0 m frame (u64 res)).

Definition trap_handler (frame : Z) : M unit :=
  let* scause := mem_of (fun m => frame_scause m frame) in
  if scause &? CSR_SCAUSE_INTR then
    let cause := Z.ldiff scause CSR_SCAUSE_INTR in
    if cause =? CSR_SCAUSE_TIMER_INTR then k_timer_isr
    else if cause =? CSR_SCAUSE_EXT_INTR then ext_isr
    else ret tt
  else if scause =? CSR_SCAUSE_ECALL_U then handle_ecall frame
  else ret tt.
End code.
