(* ===== verification/TrapSpec.v ===== *)
(** * Traps and sleeping processes

    A timer interrupt takes the first timer from the queue; a [sleep] puts one
    in.  The invariant [clocked] ties timers to processes: the scheduler's own
    timer always waits, and a process is in SLEEP exactly while its timer waits
    with the callback that wakes it. *)

From S2P Require Import Prelude.
From S2P Require Import Errno.
From S2P Require Import Mem.
From S2P Require Import DList.
From S2P Require Import Layout.
From S2P Require Import Pages.
From S2P Require Import Sbi.
From S2P Require Import Timer.
From S2P Require Import Proc.
From S2P Require Import Kern.
From S2P Require Import Sched.
From S2P Require Import SchedRep.
From S2P Require Import SchedSpec.
From S2P Require Import SchedRun.
From S2P Require Import SemSpec.
From S2P Require Import Syscall.
From S2P Require Import Trap.
#[local] Open Scope Z_scope.
#[local] Open Scope kern_scope.

(** ** The abstract steps *)

Section steps.
Context `{L : Layout} `{C : Code}.

(** The running process sleeps for [ns], from the time [now]. *)
Definition y_sleep (now ns : Z) (y : sys) : sys * option (Z * Z) :=
  let t := proc_timer (y_curr y) in
  let x := mkTmr t (u64 (now + ns / 100)) fn_wakeup_proc (y_curr y) in
  y_step (Block PROC_STATE_SLEEP)
    (y_set_timers (insert_tmr x (y_timers y).1, without t (y_timers y).2) y).

(** The first timer expires. *)
Definition y_tick (now : Z) (y : sys) : sys * option (Z * Z) :=
  match y_timers y with
  | ([], _) => (y, None)
  | (x :: q, idle) =>
      if tm_cb x =? fn_sched_preempt
      then (y_set_timers (insert_tmr (mkTmr sym_timer (u64 (now + 100000)) fn_sched_preempt nullptr) q, idle) y,
            Some (y_curr y, y_curr y))
      else (y_push (tm_data x) (y_set_timers (q, tm_addr x :: idle) y), None)
  end.
End steps.

(** ** The handler *)

Section handler.
Context `{PA : PageAllocator} `{L : Layout} `{C : Code} `{FW : Firmware} `{MC : Machine}.

(** The frame with [sepc] behind the [ecall], and with a result. *)
Definition advanced (frame : Z) (k : kst) : kst :=
  set_mem (set_frame_sepc (k_mem k) frame (u64 (frame_sepc (k_mem k) frame + RV_INSTR_LEN))) k.
Definition returned (frame v : Z) (k : kst) : kst := set_mem (set_frame_a0 (k_mem k) frame (u64 v)) k.

Definition is_tick (k : kst) (frame : Z) : Prop :=
  frame_scause (k_mem k) frame = CSR_SCAUSE_INTR + CSR_SCAUSE_TIMER_INTR.
Definition is_ecall (k : kst) (frame nr : Z) : Prop :=
  frame_scause (k_mem k) frame = CSR_SCAUSE_ECALL_U /\ frame_a7 (k_mem k) frame = nr.

Lemma trap_timer frame k : is_tick k frame -> trap_handler frame k = k_timer_isr k.
Proof. intros E. unfold trap_handler. rewrite bind_mem, E. reflexivity. Qed.

Lemma frame_other frame (m : mem) o o' v :
  o + 8 <= o' \/ o' + 8 <= o -> load 8 (store 8 m (frame + o) v) (frame + o') = load 8 m (frame + o').
Proof. intros Ho. apply load_store_ne. unfold disj. lia. Qed.

Lemma trap_ecall frame k nr :
  is_ecall k frame nr ->
  trap_handler frame k =
  (if NR_SYSCALLS <=? nr then upd_mem (fun m => set_frame_a0 m frame (u64 (- ENOSYS)))
   else bind (the (SYSCALL_TABLE !! Z.to_nat nr)) (fun sys =>
        bind (sys frame) (fun res => upd_mem (fun m => set_frame_a0 m frame (u64 res))))) (advanced frame k).
Proof.
  intros [E1 E2]. unfold trap_handler. rewrite bind_mem, E1.
  change (handle_ecall frame k = (if NR_SYSCALLS <=? nr then upd_mem (fun m => set_frame_a0 m frame (u64 (- ENOSYS)))
   else bind (the (SYSCALL_TABLE !! Z.to_nat nr)) (fun sys =>
        bind (sys frame) (fun res => upd_mem (fun m => set_frame_a0 m frame (u64 res))))) (advanced frame k)).
  unfold handle_ecall. rewrite bind_upd. fold (advanced frame k). rewrite bind_mem.
  assert (frame_a7 (k_mem (advanced frame k)) frame = nr) as ->.
  { rewrite <-E2. apply frame_other. lia. }
  done.
Qed.

Lemma advanced_sepc frame k :
  frame_sepc (k_mem (advanced frame k)) frame = u64 (frame_sepc (k_mem k) frame + RV_INSTR_LEN).
Proof. unfold frame_sepc at 1. simpl. unfold set_frame_sepc. rewrite load_store_eq. apply Z.mod_mod. done. Qed.

Lemma getpid_trap frame k :
  is_ecall k frame 5 ->
  trap_handler frame k = Ret (returned frame (proc_pid (k_mem (advanced frame k)) (k_curr k)) (advanced frame k)) tt.
Proof. intros HE. rewrite (trap_ecall _ _ _ HE). reflexivity. Qed.

Lemma enosys_trap frame k nr :
  is_ecall k frame nr -> NR_SYSCALLS <= nr ->
  trap_handler frame k = Ret (returned frame (- ENOSYS) (advanced frame k)) tt.
Proof. intros HE Hnr. rewrite (trap_ecall _ _ _ HE). by rewrite (proj2 (Z.leb_le _ _) Hnr). Qed.

(** C40. Traps the kernel does not know: an [ecall] with a number beyond the table
    returns [-ENOSYS] behind the instruction and changes nothing else; for any
    other exception the handler does nothing at all, so that the instruction
    is executed again. *)
Theorem trap_unknown frame k :
  (forall nr, is_ecall k frame nr -> 9 <= nr ->
     exists k', trap_handler frame k = Ret k' tt /\
       frame_a0 (k_mem k') frame = 2 ^ 64 - ENOSYS /\
       frame_sepc (k_mem k') frame = u64 (frame_sepc (k_mem k) frame + 4) /\
       unch (fun a => inrng (frame + 8) 8 a \/ inrng (frame + 32) 8 a) (k_mem k) (k_mem k') /\
       k' = set_mem (k_mem k') k) /\
  (frame_scause (k_mem k) frame < 2 ^ 63 -> frame_scause (k_mem k) frame <> CSR_SCAUSE_ECALL_U ->
     trap_handler frame k = Ret k tt).
Proof.
  split.
  - intros nr HE Hnr. eexists. split; [by eapply enosys_trap; [exact HE|exact Hnr]|]. split_and!.
    + unfold returned, set_frame_a0, frame_a0. simpl k_mem. by rewrite load_store_eq.
    + unfold frame_sepc at 1. unfold returned, set_frame_a0. simpl k_mem.
      rewrite frame_other by lia. apply advanced_sepc.
    + etrans; (eapply unch_mono; [|apply (store_unch 8)]); intros a Ha; [by left|by right].
    + done.
  - intros H1 H2. unfold trap_handler. rewrite bind_mem. pose proof (load_range 8 (k_mem k) (frame + 16)) as H3.
    change (0 <= frame_scause (k_mem k) frame < 2 ^ 64) in H3. set (c := frame_scause (k_mem k) frame) in *.
    assert (Z.land c CSR_SCAUSE_INTR = 0) as ->.
    { apply Z.bits_inj'. intros n Hn. rewrite Z.land_spec, Z.bits_0. change CSR_SCAUSE_INTR with (2 ^ 63).
      destruct (decide (n = 63)) as [->|Hn63]; [|by rewrite Z.pow2_bits_false, andb_false_r by lia].
      assert (Z.testbit c 63 = false) as ->; [|done]. apply Z.testbit_false; [done|]. by rewrite Z.div_small by lia. }
    simpl. by rewrite (proj2 (Z.eqb_neq _ _) H2).
Qed.
End handler.

Section trap.
Context `{PA : PageAllocator} `{L : Layout} `{C : Code} `{FW : Firmware} {FWOK : FirmwareOk FW} `{MC : Machine}.
Context (procs sems : list Z).
Context (HO : objs_ok procs sems).
Context (Hmany : Z.of_nat (length procs) <= PROC_TABLE_SIZE).
(** The functions that timers call. *)
Context (Hfns : fn_sched_preempt <> fn_wakeup_proc /\
                0 <= fn_sched_preempt < 2 ^ 64 /\ 0 <= fn_wakeup_proc < 2 ^ 64).

#[local] Abbreviation heads := (heads sems).
#[local] Abbreviation rep := (rep procs sems).
#[local] Abbreviation running := (running procs sems).
#[local] Abbreviation only_sched := (only_sched procs sems).
#[local] Abbreviation sched_foot := (sched_foot procs sems).
#[local] Abbreviation all_timers := (all_timers procs).

(** A timer that waits is the scheduler's, or a sleeping process's. *)
Definition timer_ok (y : sys) (x : tmr) : Prop :=
  (tm_addr x = sym_timer /\ tm_cb x = fn_sched_preempt) \/
  (exists p, p ∈ procs /\ y_state y p = PROC_STATE_SLEEP /\
     tm_addr x = proc_timer p /\ tm_cb x = fn_wakeup_proc /\ tm_data x = p).

Record clocked (y : sys) : Prop := {
  ck_timers x : x ∈ (y_timers y).1 -> timer_ok y x;
  ck_tick : sym_timer ∈ tm_addr <$> (y_timers y).1;
  ck_sleep p : p ∈ procs -> y_state y p = PROC_STATE_SLEEP -> proc_timer p ∈ tm_addr <$> (y_timers y).1;
}.

(** What holds of the kernel between two steps. *)
Definition good (k : kst) (y : sys) : Prop := rep k y /\ running y /\ clocked y.

(** ** Frames *)

(** The trap frame is none of the scheduler's data. *)
Definition frame_apart (frame : Z) : Prop := forall a, inrng frame TRAPFRAME_SIZE a -> ~ sched_foot a.

(** Changes elsewhere do not matter to the scheduler. *)
Lemma rep_apart k k' y :
  rep k y -> unch (fun a => ~ sched_foot a) (k_mem k) (k_mem k') ->
  h_fw (k_hart k') = h_fw (k_hart k) -> k_curr k' = k_curr k -> rep k' y.
Proof.
  intros [HQ HL HS HV HT HA HC] HU Ef Ec. split; [| | | | |done|by rewrite Ec].
  - intros h Hh. eapply queue_unch; [by apply HQ|done|done|exact HU|].
    intros x a Hx _ Ha Hn. apply Hn. left. eauto.
  - done.
  - intros p Hp. rewrite <-HS by done. eapply load_unch; [exact HU|]. intros a Ha Hn. apply Hn.
    right; right; left. exists p. split; [done|exact Ha].
  - intros s Hs. rewrite <-HV by done. unfold sem_val. f_equal. eapply load_unch; [exact HU|].
    intros a Ha Hn. apply Hn. right; left. exists s. split; [done|exact Ha].
  - rewrite Ef. eapply armed_unch; [exact HT|done|exact HU|]. intros a Ha Hn. apply Hn. by do 3 right.
Qed.

Lemma good_apart k k' y :
  good k y -> unch (fun a => ~ sched_foot a) (k_mem k) (k_mem k') ->
  h_fw (k_hart k') = h_fw (k_hart k) -> k_curr k' = k_curr k -> good k' y.
Proof. intros (HR & HW & HC) HU Ef Ec. split_and!; [by eapply rep_apart|done..]. Qed.

(** A store into the frame. *)
Lemma trapframe_store (m : mem) frame o v :
  frame_apart frame -> 0 <= o -> o + 8 <= TRAPFRAME_SIZE ->
  unch (fun a => ~ sched_foot a) m (store 8 m (frame + o) v).
Proof.
  intros HF Ho1 Ho2. eapply unch_mono; [|apply (store_unch 8)]. intros a Ha. apply HF. unfold inrng in *. lia.
Qed.

Lemma good_frame k y frame o v :
  good k y -> frame_apart frame -> 0 <= o -> o + 8 <= TRAPFRAME_SIZE ->
  good (set_mem (store 8 (k_mem k) (frame + o) v) k) y.
Proof. intros HG HF Ho1 Ho2. eapply good_apart; [exact HG|by apply trapframe_store|done..]. Qed.

(** A frame that overlaps no object of the kernel is apart. *)
Lemma frame_apart_objs frame :
  Forall (fun r => disj frame TRAPFRAME_SIZE r.1 r.2) (objs procs sems) -> frame_apart frame.
Proof.
  rewrite Forall_forall. intros HD a Ha HF.
  assert (exists r, r ∈ objs procs sems /\ inrng r.1 r.2 a) as (r & Hr & Hb).
  { destruct HF as [(x & Hx & Hb)|[(x & Hx & Hb)|[(x & Hx & Hb)|[Hb|(t & Ht & Hb)]]]].
    - destruct (node_obj _ _ x Hx) as (n & Hn & Hle). exists (x, n). split; [by do 2 right|].
      unfold inrng in *. simpl. lia.
    - exists (x, SEM_SIZE). split; [by do 2 right; apply obj_sem|]. unfold inrng, SEM_SIZE in *. simpl. lia.
    - exists (x, PROC_SIZE). split; [by do 2 right; apply obj_proc|]. unfold inrng, PROC_SIZE in *. simpl. lia.
    - exists (sym_wait_queue, NODE_SIZE). split; [left|done].
    - apply elem_of_cons in Ht as [->|(p & -> & Hp)%list_elem_of_fmap].
      + exists (sym_timer, TIMER_SIZE). split; [right; left|done].
      + exists (p, PROC_SIZE). split; [by do 2 right; apply obj_proc|].
        unfold inrng, PROC_SIZE, TIMER_SIZE, proc_timer in *. simpl. lia. }
  specialize (HD r Hr). unfold disj, inrng in *. lia.
Qed.

(** ** Timers *)

Lemma timers_NoDup k y : rep k y -> NoDup all_timers.
Proof.
  intros HR. rewrite <-(rp_all _ _ _ _ HR). pose proof (tq_seps _ _ _ (proj1 (rp_timers _ _ _ _ HR))) as HS.
  clear HR. destruct HS as [_ HS]. revert HS. generalize ((tm_addr <$> (y_timers y).1) ++ (y_timers y).2).
  intros ts. induction ts as [|t ts IH]; simpl; [constructor|]. intros [H1 H2]. constructor; [|by apply IH].
  intros Ht. rewrite Forall_forall in H1. specialize (H1 _ (timer_rngs_elem ts t Ht)).
  unfold disj, TIMER_SIZE in H1. simpl in H1. lia.
Qed.

Lemma sym_not_proc k y p : rep k y -> p ∈ procs -> sym_timer <> proc_timer p.
Proof.
  intros HR Hp E. pose proof (timers_NoDup k y HR) as HN. unfold SchedRep.all_timers in HN.
  apply NoDup_cons in HN as [HN _]. apply HN. rewrite E. by apply list_elem_of_fmap_2.
Qed.

Lemma proc_timer_inj p q : proc_timer p = proc_timer q -> p = q.
Proof. unfold proc_timer. lia. Qed.

(** A process that does not sleep has an idle timer. *)
Lemma awake_idle k y p :
  good k y -> p ∈ procs -> y_state y p <> PROC_STATE_SLEEP ->
  (y_timers y).2 ≡ₚ proc_timer p :: without (proc_timer p) (y_timers y).2.
Proof.
  intros (HR & _ & HC) Hp Hs. pose proof (rp_all _ _ _ _ HR) as HA.
  pose proof (timers_NoDup k y HR) as HN. rewrite <-HA in HN.
  assert (proc_timer p ∈ (y_timers y).2) as Hi.
  { assert (proc_timer p ∈ (tm_addr <$> (y_timers y).1) ++ (y_timers y).2) as Ht.
    { rewrite HA. right. by apply list_elem_of_fmap_2. }
    apply elem_of_app in Ht as [Ht|]; [|done]. exfalso.
    apply list_elem_of_fmap in Ht as (x & Ex & Hx).
    destruct (ck_timers _ HC x Hx) as [[Ea _]|(q & Hq & Sq & Ea & _)].
    - by apply (sym_not_proc k y p HR Hp); rewrite <-Ea.
    - apply Hs. rewrite Ea in Ex. by apply proc_timer_inj in Ex as ->. }
  apply NoDup_app in HN as (_ & _ & HN). apply list_elem_of_split in Hi as (l1 & l2 & El).
  rewrite El in *. rewrite without_split by done. by rewrite Permutation_middle.
Qed.

(** The timer interrupt up to the callback. *)
Lemma isr_take k y x q idle :
  rep k y -> y_timers y = (x :: q, idle) ->
  exists k', run_fw timer_isr k = Ret k' (tm_cb x, tm_data x) /\
    rep k' (y_set_timers (q, tm_addr x :: idle) y) /\ only_sched k k'.
Proof.
  intros HR Ey. pose proof (rp_timers _ _ _ _ HR) as HT. pose proof (rp_all _ _ _ _ HR) as HA.
  rewrite Ey in HT, HA. simpl in HT, HA.
  destruct (timer_isr_spec _ _ _ _ _ HT) as (m' & f' & E & HT' & HU). unfold run_fw. rewrite E.
  assert (unch (timers_foot all_timers) (k_mem k) m') as HU'.
  { eapply unch_mono; [|exact HU]. intros a [Ha|(t & Ht & Ha)]; [by left|right].
    exists t. split; [|done]. rewrite <-HA. set_solver. }
  eexists. split; [done|]. split.
  - eapply rep_timers; [done|done|exact HT'| |done]. rewrite <-HA. by rewrite <-Permutation_middle.
  - split; [|done..]. eapply unch_mono; [|exact HU']. intros a Ha. by do 3 right.
Qed.

(** ** The steps keep the invariant *)

(** Only the sleeping processes matter to the timers. *)
Lemma clocked_states y y' :
  clocked y -> y_timers y' = y_timers y ->
  (forall p, p ∈ procs -> y_state y' p = PROC_STATE_SLEEP <-> y_state y p = PROC_STATE_SLEEP) -> clocked y'.
Proof.
  intros [H1 H2 H3] Et Hs. split; rewrite Et.
  - intros x Hx. destruct (H1 x Hx) as [|(p & Hp & Sp & HX)]; [by left|right].
    exists p. split_and!; [done|by apply Hs|apply HX..].
  - done.
  - intros p Hp Sp. apply H3; [done|by apply Hs].
Qed.

Lemma run_next_sleep y p :
  wf procs sems None y -> p ∈ procs ->
  y_state (y_run_next y) p = PROC_STATE_SLEEP <-> y_state y p = PROC_STATE_SLEEP.
Proof.
  intros HW Hp. unfold y_run_next. destruct (y_ready y) as [|n rest] eqn:Er; [done|]. simpl.
  unfold upd. case_decide; [subst n|done]. split; [done|]. intros E.
  assert (y_state y p = PROC_STATE_READY) as E' by (apply (wf_ready _ _ _ _ HW); [done|rewrite Er; left]).
  by rewrite E in E'.
Qed.

Lemma run_next_timers y : y_timers (y_run_next y) = y_timers y.
Proof. unfold y_run_next. by destruct (y_ready y). Qed.

Lemma run_next_curr y : wf procs sems None y -> y_curr (y_run_next y) = hd nullptr (y_ready y).
Proof.
  intros HW. destruct (wf_ready_cons _ _ _ HW) as (n & rest & Er). unfold y_run_next. by rewrite Er.
Qed.

(** A process goes to sleep. *)
Lemma clocked_sleep y p t idle :
  clocked y -> p ∈ procs -> y_state y p <> PROC_STATE_SLEEP ->
  let x := mkTmr (proc_timer p) t fn_wakeup_proc p in
  clocked (y_set_state p PROC_STATE_SLEEP (y_set_timers (insert_tmr x (y_timers y).1, idle) y)).
Proof.
  intros [H1 H2 H3] Hp Hn x. split; simpl.
  - intros z Hz. rewrite insert_tmr_perm in Hz. apply elem_of_cons in Hz as [->|Hz].
    + right. exists p. simpl. by rewrite upd_eq.
    + destruct (H1 z Hz) as [|(q & Hq & Sq & HX)]; [by left|right]. exists q. simpl.
      rewrite upd_ne by congruence. done.
  - rewrite insert_tmr_perm. by right.
  - intros q Hq. unfold upd. case_decide; rewrite insert_tmr_perm; [subst q; left|].
    intros Sq. right. by apply H3.
Qed.

(** A process is woken by its timer. *)
Lemma clocked_wake y x q idle p :
  clocked y -> NoDup (tm_addr <$> (y_timers y).1) -> y_timers y = (x :: q, idle) -> p ∈ procs ->
  tm_addr x = proc_timer p -> sym_timer <> proc_timer p ->
  clocked (y_push p (y_set_timers (q, tm_addr x :: idle) y)).
Proof.
  intros [H1 H2 H3] HN Ey Hp Ex Hsym. rewrite Ey in *. simpl in *. apply NoDup_cons in HN as [HN _].
  split; simpl.
  - intros z Hz. destruct (H1 z ltac:(by right)) as [|(r & Hr & Sr & Er & HX)]; [by left|right].
    exists r. simpl. rewrite upd_ne; [done|]. intros ->. apply HN. rewrite Ex, <-Er. by apply list_elem_of_fmap_2.
  - apply elem_of_cons in H2 as [E|]; [congruence|done].
  - intros r Hr. unfold upd. case_decide as E; [done|]. intros Sr. specialize (H3 r Hr Sr).
    apply elem_of_cons in H3 as [E'|]; [|done]. rewrite Ex in E'. by apply proc_timer_inj in E'.
Qed.

Lemma good_timers_NoDup k y : good k y -> NoDup (tm_addr <$> (y_timers y).1).
Proof.
  intros (HR & _). pose proof (timers_NoDup k y HR) as HN. rewrite <-(rp_all _ _ _ _ HR) in HN.
  by apply NoDup_app in HN as [? _].
Qed.

Lemma sleep_ok k y frame :
  good k y -> y_curr y <> sym_idle_proc ->
  let now := (mach_time (h_mach (k_hart k))).2 in
  let ys := (y_sleep now (frame_a0 (k_mem k) frame) y).1 in
  exists k', sys_sleep frame k = Switch k' (y_curr y) (y_curr ys) (fun k => Ret k 0) /\
    good k' ys /\ unch sched_foot (k_mem k) (k_mem k').
Proof.
  intros HG Hi. cbv zeta. set (ns := frame_a0 (k_mem k) frame).
  destruct HG as (HR & HW & HC) eqn:EG. clear EG. set (p := y_curr y) in *.
  destruct (running_curr procs sems y HW) as [Sp Hfree]. fold p in Sp.
  assert (y_state y p <> PROC_STATE_SLEEP) as Hn by (by rewrite Sp).
  assert (p <> nullptr /\ addr_ok PROC_SIZE p) as [_ Ha].
  { pose proof (ob_procs _ _ HO) as HF. rewrite Forall_forall in HF. apply HF, HW. }
  assert (0 <= p < 2 ^ 64) as Hp by (unfold addr_ok, PROC_SIZE in Ha; lia).
  pose proof (awake_idle k y p HG (proj1 HW) Hn) as HP.
  destruct (k_timer_wait_spec procs sems HO Hmany k y (proc_timer p) ns fn_wakeup_proc p _ HR HP (proj2 (proj2 Hfns)) Hp)
    as (k1 & E1 & HR1 & _ & _ & HU1). cbv zeta in HR1.
  set (x := mkTmr _ _ _ _) in HR1. set (y1 := y_set_timers _ y) in HR1.
  pose proof (running_timers procs sems y _ HW : running y1) as HW1.
  destruct (block_ok procs sems HO Hmany k1 y1 PROC_STATE_SLEEP HR1 HW1) as (k2 & E2 & HR2 & HW2 & [HU2 _ _ _]).
  { split; [by left|done]. }
  pose proof (wf_stop procs sems y1 p PROC_STATE_SLEEP (proj2 HW1) (proj1 HW1) Hi ltac:(set_solver)) as HW3.
  unfold good. exists k2. split_and!; [|exact HR2|exact HW2| |].
  - unfold sys_sleep. rewrite bind_mem. fold ns. unfold curr_proc. rewrite bind_gets, (rp_curr _ _ _ _ HR).
    fold p. rewrite (bind_Ret _ _ _ _ _ E1). unfold run_sop, curr_proc in E2. rewrite bind_gets in E2.
    rewrite (rp_curr _ _ _ _ HR1) in E2. change (y_curr y1) with p in E2. unfold bind. rewrite E2.
    change (y_sleep _ _ _).1 with (y_run_next (y_set_state p PROC_STATE_SLEEP y1)).
    by rewrite (run_next_curr _ HW3).
  - eapply clocked_states; [eapply (clocked_sleep y p _ _ HC (proj1 HW) Hn)|apply run_next_timers|].
    intros q Hq. by apply run_next_sleep.
  - etrans; [|exact HU2]. eapply unch_mono; [|exact HU1]. intros a Hb. by do 3 right.
Qed.

Lemma tick_ok k y :
  good k y ->
  let now := (mach_time (h_mach (k_hart k))).2 in
  exists k', k_timer_isr k = match (y_tick now y).2 with
                             | None => Ret k' tt
                             | Some (old, new) => Switch k' old new (fun k => Ret k tt)
                             end /\
    good k' (y_tick now y).1 /\ unch sched_foot (k_mem k) (k_mem k').
Proof.
  intros HG. pose proof HG as (HR & HW & HC). cbv zeta. pose proof (good_timers_NoDup k y HG) as HN.
  pose proof (ck_tick _ HC) as Htick. unfold y_tick. destruct (y_timers y) as [[|x q] idle] eqn:Ey;
    [by apply elem_of_nil in Htick|].
  destruct (isr_take k y x q idle HR Ey) as (k1 & E1 & HR1 & [HU1 _ _ (Em & _)]).
  unfold k_timer_isr. rewrite (bind_Ret _ _ _ _ _ E1). unfold call_timer. cbn [fst snd].
  set (y1 := y_set_timers (q, tm_addr x :: idle) y) in *.
  pose proof (running_timers procs sems y _ HW : running y1) as HW1.
  destruct (ck_timers _ HC x) as [[Ea Ecb]|(p & Hp & Sp & Ea & Ecb & Ed)]; [rewrite Ey; left|..]; rewrite Ecb.
  - rewrite Z.eqb_refl. destruct (preempt_ok procs sems HO Hmany k1 y1 idle (proj1 (proj2 Hfns)) HR1 HW1) as (k2 & E2 & HR2 & HU2).
    { simpl. by rewrite Ea. }
    rewrite Em in HR2. unfold good. exists k2. split_and!; [|exact HR2|by apply running_timers| |by etrans].
    + rewrite E2. by rewrite (rp_curr _ _ _ _ HR1).
    + destruct HC as [H1 _ H3]. rewrite Ey in *. simpl in H1, H3. split; simpl.
      * intros z Hz. rewrite insert_tmr_perm in Hz. apply elem_of_cons in Hz as [->|Hz]; [by left|].
        apply (H1 z). by right.
      * rewrite insert_tmr_perm. left.
      * intros r Hr Sr. rewrite insert_tmr_perm. specialize (H3 r Hr Sr). rewrite fmap_cons in *.
        simpl. rewrite <-Ea. exact H3.
  - rewrite (proj2 (Z.eqb_neq _ _)) by (apply not_eq_sym, Hfns). rewrite Z.eqb_refl, Ed.
    destruct (wake_ok procs sems HO k1 y1 p HR1 HW1) as (k2 & E2 & HR2 & HW2 & [HU2 _ _ _]).
    { split; [done|]. change (y_state y1 p) with (y_state y p). rewrite Sp. set_solver. }
    assert ((y_step (Wake p) y1).1 = y_push p y1) as Est.
    { simpl. rewrite Sp. simpl. unfold cancel_tmr. simpl. rewrite decide_False; [done|].
      simpl in HN. apply NoDup_cons in HN as [HN _]. by rewrite <-Ea. }
    rewrite Est in HR2, HW2. unfold good. exists k2. split_and!; [|done|done| |by etrans].
    + exact E2.
    + eapply (clocked_wake y x q idle p HC); [by rewrite Ey|done..|by eapply sym_not_proc].
Qed.

(** ** Traps *)

Lemma advanced_good k y frame : good k y -> frame_apart frame -> good (advanced frame k) y.
Proof. intros HG HF. apply good_frame; done. Qed.

(** A frame outside the scheduler's data is kept by the scheduler. *)
Lemma frame_kept frame o m m' :
  unch sched_foot m m' -> frame_apart frame -> 0 <= o -> o + 8 <= TRAPFRAME_SIZE ->
  load 8 m' (frame + o) = load 8 m (frame + o).
Proof.
  intros HU HF H1 H2. eapply load_unch; [exact HU|]. intros a Ha. apply HF. unfold inrng in *. lia.
Qed.

Lemma sleep_trap frame k y :
  good k y -> frame_apart frame -> y_curr y <> sym_idle_proc -> is_ecall k frame 4 ->
  let now := (mach_time (h_mach (k_hart k))).2 in
  let ys := (y_sleep now (frame_a0 (k_mem k) frame) y).1 in
  exists k', trap_handler frame k = Switch k' (y_curr y) (y_curr ys) (fun k => Ret (returned frame 0 k) tt) /\
    good k' ys /\ frame_sepc (k_mem k') frame = u64 (frame_sepc (k_mem k) frame + RV_INSTR_LEN).
Proof.
  intros HG HF Hi HE. cbv zeta. rewrite (trap_ecall _ _ _ HE). pose proof (advanced_good k y frame HG HF) as HG1.
  destruct (sleep_ok (advanced frame k) y frame HG1 Hi) as (k' & E & HG' & HU). cbv zeta in *.
  assert (frame_a0 (k_mem (advanced frame k)) frame = frame_a0 (k_mem k) frame) as Ea
    by (apply frame_other; lia).
  rewrite Ea in *. exists k'. split_and!; [|exact HG'|].
  - change (bind (sys_sleep frame) (fun res => upd_mem (fun m => set_frame_a0 m frame (u64 res))) (advanced frame k)
      = Switch k' (y_curr y) (y_curr (y_sleep (mach_time (h_mach (k_hart k))).2 (frame_a0 (k_mem k) frame) y).1)
          (fun k => Ret (returned frame 0 k) tt)).
    unfold bind. rewrite E. reflexivity.
  - unfold frame_sepc at 1. rewrite (frame_kept frame 8 _ _ HU HF) by done. apply advanced_sepc.
Qed.

(** ** Runs

    What happens to the kernel: a trap, a step of the scheduler or of a
    semaphore made by a driver or another system call, or anything that
    touches none of the scheduler's data (user code, the trampoline). *)
Inductive event :=
| Op (o : sop)
| Trap (frame : Z)
| Outside (k' : kst).

Definition run_event (e : event) : M unit :=
  match e with
  | Op o => run_sop o
  | Trap frame => trap_handler frame
  | Outside k' => fun _ => Ret k' tt
  end.

(** Timer interrupts at any time, and the system calls that only touch the
    scheduler; the idle process does not sleep. *)
Definition may_event (e : event) (k : kst) (y : sys) : Prop :=
  match e with
  | Op o => may procs sems o y /\ o <> Block PROC_STATE_SLEEP /\
            (forall p, o = Wake p -> y_state y p <> PROC_STATE_SLEEP)
  | Trap frame => frame_apart frame /\
      (is_tick k frame \/ exists nr, is_ecall k frame nr /\
         (nr = 3 \/ nr = 4 /\ y_curr y <> sym_idle_proc \/ nr = 5 \/ NR_SYSCALLS <= nr))
  | Outside k' => unch (fun a => ~ sched_foot a) (k_mem k) (k_mem k') /\
      h_fw (k_hart k') = h_fw (k_hart k) /\ k_curr k' = k_curr k
  end.

Definition y_event (e : event) (k : kst) (y : sys) : sys :=
  let now := (mach_time (h_mach (k_hart k))).2 in
  match e with
  | Op o => (y_step o y).1
  | Trap frame =>
      if frame_scause (k_mem k) frame =? CSR_SCAUSE_ECALL_U
      then if frame_a7 (k_mem k) frame =? 4 then (y_sleep now (frame_a0 (k_mem k) frame) y).1 else y
      else (y_tick now y).1
  | Outside _ => y
  end.

Fixpoint run_events (es : list event) (k : kst) : option kst :=
  match es with [] => Some k | e :: es => k' ← after (run_event e) k; run_events es k' end.

Fixpoint may_events (es : list event) (k : kst) (y : sys) : Prop :=
  match es with
  | [] => True
  | e :: es => may_event e k y /\
               forall k', after (run_event e) k = Some k' -> may_events es k' (y_event e k y)
  end.

(** Steps that are no [Sleep] put no process to sleep, and wake none. *)
Lemma op_sleep o k y p :
  rep k y -> running y -> may_event (Op o) k y -> p ∈ procs ->
  y_timers (y_step o y).1 = y_timers y /\
  (y_state (y_step o y).1 p = PROC_STATE_SLEEP <-> y_state y p = PROC_STATE_SLEEP).
Proof.
  intros HR HW (Hmay & Hns & Hwk) Hp. pose proof HW as [Hc HWF].
  destruct (running_curr procs sems y HW) as [Sc _].
  assert (forall st, st <> PROC_STATE_SLEEP -> upd (y_state y) (y_curr y) st p = PROC_STATE_SLEEP <->
            y_state y p = PROC_STATE_SLEEP) as Hupd.
  { intros st Hst. unfold upd. case_decide; [subst p|done]. by rewrite Sc. }
  assert (forall st q, st <> PROC_STATE_SLEEP -> y_state y q <> PROC_STATE_SLEEP ->
            upd (y_state y) q st p = PROC_STATE_SLEEP <-> y_state y p = PROC_STATE_SLEEP) as Hupd2.
  { intros st q Hst Hq. unfold upd. case_decide; [subst p|]; tauto. }
  destruct o as [|st| |q|s|s]; simpl in *.
  - done.
  - destruct Hmay as [[->| ->] Hi]; [done|]. rewrite run_next_timers. split; [done|].
    rewrite run_next_sleep; [by apply Hupd| |done]. by apply wf_stop; [..|set_solver].
  - rewrite run_next_timers. split; [done|].
    rewrite run_next_sleep; [by apply Hupd| |done]. by apply wf_stop; [..|set_solver].
  - specialize (Hwk q eq_refl). rewrite (proj2 (Z.eqb_neq _ _) Hwk). split; [done|]. by apply Hupd2.
  - destruct Hmay as [Hs Hi]. case_test; [done|]. cbn [fst]. rewrite run_next_timers. split; [done|].
    rewrite run_next_sleep; [by apply Hupd| |done]. apply wf_block; [done..|lia].
  - destruct Hmay as [Hs Hm]. destruct (y_queue y s) as [|q rest] eqn:Eq; [done|]. case_test; [|done].
    split; [done|]. apply Hupd2; [done|].
    destruct (wf_signal procs sems HO Hmany _ _ _ _ _ HWF Hs Eq) as (_ & _ & -> & _). done.
Qed.

Lemma op_ok o k y :
  good k y -> may_event (Op o) k y ->
  exists k', after (run_sop o) k = Some k' /\ good k' (y_step o y).1.
Proof.
  intros (HR & HW & HC) Hmay.
  destruct (sop_ok procs sems HO Hmany o k y HR HW (proj1 Hmay)) as (k' & E & HR' & HW' & _).
  exists k'. split.
  - unfold after. rewrite E. by destruct (y_step o y).2 as [[]|].
  - split_and!; [done..|]. eapply clocked_states; [exact HC|by eapply op_sleep; [..|apply (proj1 HW)]|].
    intros p Hp. by eapply op_sleep.
Qed.

(** An [ecall] that reads or writes nothing but the frame. *)
Lemma ecall_quiet frame k y v :
  good k y -> frame_apart frame ->
  trap_handler frame k = Ret (returned frame v (advanced frame k)) tt ->
  exists k', after (trap_handler frame) k = Some k' /\ good k' y.
Proof.
  intros HG HF E. eexists. unfold after. rewrite E. split; [done|].
  apply good_frame; [by apply advanced_good|done..].
Qed.

Lemma yield_trap frame k y :
  good k y -> frame_apart frame -> is_ecall k frame 3 ->
  exists k', trap_handler frame k = Switch k' (y_curr y) (y_curr y) (fun k => Ret (returned frame 0 k) tt) /\
    good k' y.
Proof.
  intros HG HF HE. rewrite (trap_ecall _ _ _ HE).
  destruct (advanced_good k y frame HG HF) as (HR & HW & HC).
  destruct (yield_ok procs sems HO _ y HR HW) as (k' & E & HR' & _ & _).
  exists k'. split; [|done].
  change (bind (bind sched_resched (fun _ => ret 0)) (fun res => upd_mem (fun m => set_frame_a0 m frame (u64 res)))
      (advanced frame k) = Switch k' (y_curr y) (y_curr y) (fun k => Ret (returned frame 0 k) tt)).
  unfold bind. change (run_sop Yield) with sched_resched in E. rewrite E. reflexivity.
Qed.

Lemma trap_ok frame k y :
  good k y -> may_event (Trap frame) k y ->
  exists k', after (trap_handler frame) k = Some k' /\ good k' (y_event (Trap frame) k y).
Proof.
  intros HG [HF [HE|(nr & HE & Hnr)]]; unfold y_event.
  - rewrite (proj2 (Z.eqb_neq _ _)) by (rewrite HE; done).
    destruct (tick_ok k y HG) as (k' & E & HG' & _). cbv zeta in E. exists k'. split; [|done].
    unfold after. rewrite (trap_timer _ _ HE), E. by destruct (y_tick _ y).2 as [[]|].
  - pose proof HE as [E1 E2]. rewrite E1, E2. change (CSR_SCAUSE_ECALL_U =? CSR_SCAUSE_ECALL_U) with true. cbv iota.
    destruct Hnr as [->|[[-> Hi]|[->|Hnr]]].
    + destruct (yield_trap frame k y HG HF HE) as (k' & E & HG'). exists k'. split; [|done].
      unfold after. by rewrite E.
    + destruct (sleep_trap frame k y HG HF Hi HE) as (k' & E & HG' & _). exists k'. split; [|done].
      unfold after. by rewrite E.
    + by eapply ecall_quiet, getpid_trap.
    + rewrite (proj2 (Z.eqb_neq nr 4)) by (change NR_SYSCALLS with 9 in Hnr; lia).
      by eapply ecall_quiet, enosys_trap.
Qed.

Lemma events_ok es k y :
  good k y -> may_events es k y -> exists k' y', run_events es k = Some k' /\ good k' y'.
Proof.
  revert k y. induction es as [|e es IH]; intros k y HG HM; [by exists k, y|]. destruct HM as [He HM].
  assert (exists k', after (run_event e) k = Some k' /\ good k' (y_event e k y)) as (k' & E & HG').
  { destruct e as [o|frame|k']; [by apply op_ok|by apply trap_ok|].
    exists k'. split; [done|]. destruct He as (HU & Ef & Ec). by eapply good_apart. }
  destruct (IH _ _ HG' (HM _ E)) as (k2 & y2 & E2 & HG2). exists k2, y2. simpl. by rewrite E.
Qed.

(** What [clocked] says of the memory: the firmware will interrupt, no later
    than the first deadline; a process sleeps exactly while its timer waits, and
    the timer wakes that process. *)
Definition clock_sound (k : kst) : Prop :=
  exists q, dlist (k_mem k) sym_wait_queue q /\ sym_timer ∈ q /\
    (forall t, t ∈ q -> fw_deadline (h_fw (k_hart k)) <= timer_time (k_mem k) t) /\
    forall p, p ∈ procs ->
      (proc_state (k_mem k) p = PROC_STATE_SLEEP <-> proc_timer p ∈ q) /\
      (proc_timer p ∈ q -> timer_callback (k_mem k) (proc_timer p) = fn_wakeup_proc /\
                           timer_data (k_mem k) (proc_timer p) = p).

Lemma good_clock k y : good k y -> clock_sound k.
Proof.
  intros (HR & HW & [H1 H2 H3]). pose proof (rp_timers _ _ _ _ HR) as [HT Hfw].
  exists (tm_addr <$> (y_timers y).1). pose proof (tq_fields _ _ _ HT) as HFl. rewrite Forall_forall in HFl.
  assert (forall p x, p ∈ procs -> x ∈ (y_timers y).1 -> proc_timer p = tm_addr x ->
    y_state y p = PROC_STATE_SLEEP /\ tm_cb x = fn_wakeup_proc /\ tm_data x = p) as Hpx.
  { intros p x Hp Hx Ex. destruct (H1 x Hx) as [[Ea _]|(r & Hr & Sr & Ea & Ec & Ed)].
    - destruct (sym_not_proc k y p HR Hp). congruence.
    - rewrite Ea in Ex. apply proc_timer_inj in Ex as ->. done. }
  split_and!; [apply (tq_list _ _ _ HT)|done| |].
  - intros t (x & -> & Hx)%list_elem_of_fmap. destruct (HFl x Hx) as (-> & _). rewrite Hfw.
    pose proof (tq_sorted _ _ _ HT) as HSt. destruct (y_timers y).1 as [|z q]; [by apply elem_of_nil in Hx|].
    simpl. apply elem_of_cons in Hx as [->|Hx]; [done|].
    apply Sorted.StronglySorted_inv in HSt as [_ HSt]. rewrite Forall_forall in HSt. by apply HSt.
  - intros p Hp. rewrite (rp_state _ _ _ _ HR p Hp). split; [split; [by apply H3|]|];
      intros (x & Ex & Hx)%list_elem_of_fmap; destruct (Hpx p x Hp Hx Ex) as (Sp & Ec & Ed); [done|].
    destruct (HFl x Hx) as (_ & Ecb & Edt). by rewrite Ex, Ecb, Edt, Ec, Ed.
Qed.

(** C2. In every run of timer interrupts, system calls that yield, sleep, ask for
    the process identifier or do not exist, scheduler and semaphore steps of the
    other system calls and drivers, and user code in between, the kernel never
    gets stuck (a timer interrupt always finds a timer in the queue) and stays
    sound: the scheduler's data is consistent, and no sleeping process is
    forgotten: its timer waits with a callback that wakes it, and the firmware
    will interrupt no later than that timer's deadline. *)
Theorem traps_sound es k y :
  good k y -> may_events es k y ->
  exists k', run_events es k = Some k' /\ sched_sound procs sems k' /\ clock_sound k'.
Proof.
  intros HG HM. destruct (events_ok es k y HG HM) as (k' & y' & E & HG').
  exists k'. split_and!; [done| |by eapply good_clock]. destruct HG' as (HR & HW & _). by eapply running_sound.
Qed.

(** C12. The life of a [sleep]: the system call switches away from the caller, with
    a timer in the queue at [now + ns / 100] ticks of the 10 MHz clock; a timer
    interrupt that finds this timer first puts the caller on top of the ready
    processes, and the running process goes on; and when the caller runs again,
    the system call returns 0 behind the [ecall]. *)
Theorem sleep_wakes frame k y :
  good k y -> frame_apart frame -> y_curr y <> sym_idle_proc -> is_ecall k frame 4 ->
  let p := y_curr y in
  let x := mkTmr (proc_timer p) (u64 ((mach_time (h_mach (k_hart k))).2 + frame_a0 (k_mem k) frame / 100))
             fn_wakeup_proc p in
  exists k1 y1 next, trap_handler frame k = Switch k1 p next (fun k => Ret (returned frame 0 k) tt) /\
    good k1 y1 /\ y_state y1 p = PROC_STATE_SLEEP /\ (y_timers y1).1 = insert_tmr x (y_timers y).1 /\
    frame_sepc (k_mem k1) frame = u64 (frame_sepc (k_mem k) frame + 4) /\
    forall frame2 k2 y2 q, good k2 y2 -> is_tick k2 frame2 -> (y_timers y2).1 = x :: q ->
      exists k3 y3, trap_handler frame2 k2 = Ret k3 tt /\ good k3 y3 /\ k_curr k3 = k_curr k2 /\
        proc_state (k_mem k3) p = PROC_STATE_READY /\ y_ready y3 = p :: y_ready y2 /\ (y_timers y3).1 = q.
Proof.
  intros HG HF Hi HE. cbv zeta. destruct (sleep_trap frame k y HG HF Hi HE) as (k1 & E1 & HG1 & Esepc).
  cbv zeta in *. eexists k1, _, _. split; [exact E1|]. split; [exact HG1|].
  assert (y_curr y ∈ procs) as Hp by apply HG.
  split_and!.
  - unfold y_sleep. simpl. unfold y_run_next. set (y0 := y_set_state _ _ _).
    assert (wf procs sems None y0) as HW0.
    { apply wf_stop; [|done|done|set_solver]. apply (running_timers procs sems). apply HG. }
    apply (run_next_sleep y0 (y_curr y) HW0 Hp). simpl. by rewrite upd_eq.
  - unfold y_sleep. cbn [y_step fst]. by rewrite run_next_timers.
  - exact Esepc.
  - intros frame2 k2 y2 q HG2 HE2 Ey2. destruct (tick_ok k2 y2 HG2) as (k3 & E3 & HG3 & _). cbv zeta in *.
    rewrite <-(trap_timer _ _ HE2) in E3. unfold y_tick in *. destruct (y_timers y2) as [q2 idle2].
    simpl in Ey2. subst q2. cbn [tm_cb tm_data tm_addr] in *.
    rewrite (proj2 (Z.eqb_neq _ _)) in E3, HG3 by (apply not_eq_sym, Hfns). cbn [fst snd] in *.
    exists k3, (y_push (y_curr y) (y_set_timers (q, proc_timer (y_curr y) :: idle2) y2)).
    pose proof HG3 as (HR3 & _). split_and!; [exact E3|exact HG3| | | |done].
    + rewrite (rp_curr _ _ _ _ HR3). simpl. by rewrite (rp_curr _ _ _ _ (proj1 HG2)).
    + rewrite (rp_state _ _ _ _ HR3) by done. simpl. by rewrite upd_eq.
    + unfold y_push, y_ready. simpl. by rewrite upd_eq.
Qed.

End trap.
