(* ===== verification/TrapDemo.v ===== *)
(** * Traps in the small kernel

    The kernel of [SchedDemo] with the scheduler's timer running, and two trap
    frames on kernel stacks: a [sleep] of 500 ns, and a timer interrupt. *)

From S2P Require Import Prelude.
From S2P Require Import Errno.
From S2P Require Import Mem.
From S2P Require Import DList.
From S2P Require Import Layout.
From S2P Require Import Pages.
From S2P Require Import PageAlloc.
From S2P Require Import Sbi.
From S2P Require Import Timer.
From S2P Require Import Proc.
From S2P Require Import Kern.
From S2P Require Import Sched.
From S2P Require Import SchedRep.
From S2P Require Import SchedSpec.
From S2P Require Import SchedRun.
From S2P Require Import SemSpec.
From S2P Require Import SchedDemo.
From S2P Require Import Syscall.
From S2P Require Import Trap.
From S2P Require Import TrapSpec.
#[local] Open Scope Z_scope.

#[local] Existing Instance virt_layout.
#[local] Existing Instance plain_fw.
#[local] Existing Instance plain_fw_ok.
#[local] Existing Instance plain_mach.

Definition sleep_frame : Z := 0x80240000.
Definition tick_frame : Z := 0x80241000.

(** The state behind a call, when it came to one. *)
Definition reached (c : M unit) (k : kst) : kst :=
  match after c k with Some k' => k' | None => k end.

Definition clock_k : kst :=
  let k := reached (k_timer_wait sym_timer SCHED_TIMESLICE fn_sched_preempt nullptr) demo_k in
  let m := k_mem k in
  let m := store 8 m (sleep_frame + 8) 0x10200 in
  let m := store 8 m (sleep_frame + 16) CSR_SCAUSE_ECALL_U in
  let m := set_frame_a0 m sleep_frame 500 in
  let m := store 8 m (sleep_frame + 88) 4 in
  let m := store 8 m (tick_frame + 16) (CSR_SCAUSE_INTR + CSR_SCAUSE_TIMER_INTR) in
  set_mem m k.

Definition clock_y : sys :=
  y_set_timers ([mkTmr sym_timer 105000 fn_sched_preempt nullptr], proc_timer <$> demo_procs) demo_y.

Lemma demo_fns : fn_sched_preempt <> fn_wakeup_proc /\
                 0 <= fn_sched_preempt < 2 ^ 64 /\ 0 <= fn_wakeup_proc < 2 ^ 64.
Proof. by compute_done. Qed.

Lemma frames_apart : frame_apart demo_procs demo_sems sleep_frame /\ frame_apart demo_procs demo_sems tick_frame.
Proof. split; apply frame_apart_objs; by compute_done. Qed.

Lemma clock_good : good demo_procs demo_sems clock_k clock_y.
Proof.
  unfold good. split_and!.
  - destruct (k_timer_wait_spec demo_procs demo_sems demo_objs demo_many demo_k demo_y sym_timer SCHED_TIMESLICE
      fn_sched_preempt nullptr (proc_timer <$> demo_procs) demo_rep (Permutation_refl _)
      (proj1 (proj2 demo_fns)) ltac:(done)) as (k' & E & HR & _).
    change (mach_time (h_mach (k_hart demo_k))).2 with 5000 in HR.
    assert (reached (k_timer_wait sym_timer SCHED_TIMESLICE fn_sched_preempt nullptr) demo_k = k') as Ek.
    { unfold reached, after. by rewrite E. }
    eapply rep_apart; [exact HR| |by rewrite <-Ek|by rewrite <-Ek].
    unfold clock_k. rewrite Ek. destruct frames_apart as [H1 H2].
    repeat (etrans; [|eapply trapframe_store; [first [exact H1|exact H2]|done..]]). done.
  - by apply running_timers, demo_running.
  - split.
    + intros x Hx. apply list_elem_of_singleton in Hx as ->. by left.
    + left.
    + intros p Hp. each_elem Hp; done.
Qed.

Lemma demo_sleeps : is_ecall clock_k sleep_frame 4.
Proof. by vm_compute. Qed.

(** A sleep, then a timer interrupt. *)
Lemma demo_events : may_events demo_procs demo_sems [Trap sleep_frame; Op Yield; Trap tick_frame] clock_k clock_y.
Proof.
  destruct frames_apart as [H1 H2]. split; [|intros k1 E1; split; [|intros k2 E2; split; [|intros; exact I]]].
  - split; [done|]. right. exists 4. split; [exact demo_sleeps|]. right. left. done.
  - clear E1. refine (conj I (conj _ _)); [intros E; discriminate E|intros p E; discriminate E].
  - split; [exact H2|]. left. unfold is_tick.
    assert (k2 = reached (run_event (Op Yield)) (reached (run_event (Trap sleep_frame)) clock_k)) as ->.
    { unfold reached. rewrite E1. rewrite E2. reflexivity. }
    clear.
    by vm_compute.
Qed.

Lemma traps_sound_witness :
  exists k', run_events [Trap sleep_frame; Op Yield; Trap tick_frame] clock_k = Some k' /\
    sched_sound demo_procs demo_sems k' /\ clock_sound demo_procs k'.
Proof.
  exact (traps_sound demo_procs demo_sems demo_objs demo_many demo_fns _ clock_k clock_y clock_good demo_events).
Defined.

Lemma sleep_wakes_witness :
  exists k1 y1 next, trap_handler sleep_frame clock_k = Switch k1 p_a next (fun k => Ret (returned sleep_frame 0 k) tt) /\
    y_state y1 p_a = PROC_STATE_SLEEP /\
    (y_timers y1).1 = [mkTmr (proc_timer p_a) 5006 fn_wakeup_proc p_a; mkTmr sym_timer 105000 fn_sched_preempt nullptr].
Proof.
  destruct (sleep_wakes demo_procs demo_sems demo_objs demo_many demo_fns sleep_frame clock_k clock_y
    clock_good (proj1 frames_apart) ltac:(done) demo_sleeps) as (k1 & y1 & next & E & _ & S1 & T1 & _).
  exists k1, y1, next. split; [exact E|split; [exact S1|]]. rewrite T1. vm_compute. reflexivity.
Defined.

(** System call 100 does not exist. *)
Definition bad_k : kst := set_mem (store 8 (k_mem clock_k) (sleep_frame + 88) 100) clock_k.

Lemma trap_unknown_witness :
  exists k', trap_handler sleep_frame bad_k = Ret k' tt /\
    frame_a0 (k_mem k') sleep_frame = 2 ^ 64 - 88 /\ frame_sepc (k_mem k') sleep_frame = 0x10204.
Proof.
  destruct (proj1 (trap_unknown sleep_frame bad_k) 100 ltac:(by vm_compute) ltac:(lia)) as (k' & E & Ea & Es & _).
  exists k'. split; [exact E|split; [exact Ea|]]. rewrite Es. vm_compute. reflexivity.
Defined.
