(* ===== verification/SyscallSpec.v ===== *)
(** * System calls on devices

    A [write] to the terminal sends what the caller's program sees at the
    address it passed; and what the check of the descriptor lets through. *)

From S2P Require Import Prelude.
From S2P Require Import Errno.
From S2P Require Import Mem.
From S2P Require Import Layout.
From S2P Require Import Pages.
From S2P Require Import Vm.
From S2P Require Import VmTree.
From S2P Require Import VmSpec.
From S2P Require Import Sbi.
From S2P Require Import Proc.
From S2P Require Import Kern.
From S2P Require Import Sched.
From S2P Require Import Tty.
From S2P Require Import TtySpec.
From S2P Require Import Log.
From S2P Require Import LogSpec.
From S2P Require Import Syscall.
#[local] Open Scope Z_scope.
#[local] Open Scope kern_scope.

(** What a program that runs in the address space [root] reads at [va]. *)
Definition user_byte (m : mem) (root va : Z) : option byte :=
  '(pa, _) ← sv39 m root va; Some (m !!! pa).

Section calls.
Context `{PA : PageAllocator} {PAOK : PageAllocatorOk PA} `{L : Layout} {LOK : LayoutOk L} `{C : Code}.
Context `{FW : Firmware} `{MC : Machine} {UOK : UartOk MC}.

(** The bytes of one page, seen through its translation. *)
Lemma user_byte_page m t ps va pa fl i :
  vm_ok m t ps -> 0 <= va < 2 ^ 39 -> 0 <= i -> va `mod` PAGE_SIZE + i < PAGE_SIZE ->
  sv39 m (t_root t) va = Some (pa, fl) ->
  user_byte m (t_root t) (va + i) = Some (m !!! (pa + i)).
Proof.
  intros HV Hva Hi Hj Hx. unfold user_byte.
  pose proof (Z.div_mod va PAGE_SIZE ltac:(done)) as Hd. pose proof (Z.mod_pos_bound va PAGE_SIZE ltac:(done)) as Hm.
  assert ((va + i) / PAGE_SIZE = va / PAGE_SIZE /\
          (va + i) `mod` PAGE_SIZE = va `mod` PAGE_SIZE + i) as [E1 E2].
  { assert (va + i = (va `mod` PAGE_SIZE + i) + (va / PAGE_SIZE) * PAGE_SIZE) as -> by lia.
    rewrite Z.div_add, Z.mod_add by done. rewrite Z.div_small, Z.mod_small by lia. lia. }
  assert (va + i < 2 ^ 39) as Hlt.
  { unfold PAGE_SIZE in *. assert (va / 4096 < 2 ^ 27) by (apply Z.div_lt_upper_bound; lia). lia. }
  rewrite (sv39_lookup m t ps) by (done || lia). rewrite (sv39_lookup m t ps) in Hx by (done || lia).
  rewrite E1. destruct (t_leaf t !! (va / PAGE_SIZE)) as [w|]; [|done]. simpl in *.
  unfold leaf_xlate in *. rewrite E2.
  destruct (negb (Z.testbit w 0) || (Z.testbit w 2 && negb (Z.testbit w 1))); [done|].
  destruct (Z.testbit w 1 || Z.testbit w 3); [|done]. simpl in *. simplify_eq.
  do 2 f_equal. lia.
Qed.

(** A descriptor that is open and refers to the first terminal. *)
Definition opened_tty (m : mem) (proc fd : Z) : Prop :=
  0 <= fd < PROC_FD_CAPACITY /\ (fd_flags m (proc_fd proc fd) &? FD_FLAG_USED) = true /\
  load_dev m (proc_fd proc fd + 8) = (obj_TTY_DRIVER, 0).

Lemma opened_accepted k fd flag : opened_tty (k_mem k) (k_curr k) fd -> fd_refused fd flag k = Ret k false.
Proof.
  intros (Hr & Hu & _). unfold fd_refused, curr_proc. rewrite bind_gets, bind_mem. unfold proc_is_bad_fd.
  rewrite Hu, (proj2 (Z.ltb_ge _ _)), (proj2 (Z.leb_gt _ _)) by lia. done.
Qed.

Context (Hobj : obj_UART_DRIVER <> obj_TTY_DRIVER).

(** C11. A [write] of [n] bytes from the address [va], which the page tables of the
    caller translate to [pa], to a descriptor of the terminal: exactly the [n]
    bytes of physical memory from [pa] on go out through the UART, in order, the
    call returns [n], and no memory changes.  When the buffer lies in one page,
    these are the bytes that the program sees there through its page tables.  The
    descriptor has to be open; that it is open for writing is not needed. *)
Theorem write_sends frame k pt ps t u b pa fl :
  let m := k_mem k in
  let va := frame_a1 m frame in
  let n := frame_a2 m frame in
  vm_ok m pt ps -> proc_page_table m (k_curr k) = t_root pt ->
  opened_tty m (k_curr k) (i32 (frame_a0 m frame)) -> console k 0 t u b -> t <> nullptr ->
  va < 2 ^ 39 -> sv39 m (t_root pt) va = Some (pa, fl) -> pa < 2 ^ 44 ->
  exists k' bs, sys_write frame k = Ret k' n /\ sent k k' (uart_thr b) bs /\
    Z.of_nat (length bs) = n /\
    (forall i c, bs !! i = Some c -> c = m !!! (pa + Z.of_nat i)) /\
    (va `mod` PAGE_SIZE + n <= PAGE_SIZE ->
     forall i c, bs !! i = Some c -> user_byte m (t_root pt) (va + Z.of_nat i) = Some c).
Proof.
  intros m va n HV Hroot Hfd HC Ht Hva Hx Hpa.
  pose proof (load_range 8 m (frame + 40)) as Hr. change (0 <= va < 2 ^ 64) in Hr.
  pose proof (load_range 8 m (frame + 48)) as Hn. change (0 <= n < 2 ^ 64) in Hn.
  pose proof (vm_virt_to_phys_hw m pt ps va HV Hr) as HP.
  assert (vm_virt_to_phys m (t_root pt) va = inr pa) as Ev.
  { destruct (vm_virt_to_phys m (t_root pt) va) as [e|pa'].
    - destruct HP as [_ [?|?]]; [lia|congruence].
    - destruct HP as [_ HP]. by rewrite (HP pa fl Hx Hpa). }
  set (bs := read_bytes m pa (Z.to_nat n)).
  assert (Z.of_nat (length bs) = n) as Hl.
  { unfold bs. rewrite length_read_bytes. lia. }
  assert (forall i c, bs !! i = Some c -> c = m !!! (pa + Z.of_nat i)) as Hb.
  { intros i c Hc. apply lookup_lt_Some in Hc as Hi. unfold bs in Hi. rewrite length_read_bytes in Hi.
    apply list_lookup_total_correct in Hc. unfold bs in Hc. by rewrite read_bytes_lookup in Hc. }
  destruct (dev_write_tty Hobj k t u b bs HC Ht) as (k' & E & Hs).
  exists k', bs. split_and!; [|done|done|done|].
  - unfold sys_write. rewrite bind_mem. unfold curr_proc. rewrite bind_gets, bind_mem.
    fold m. rewrite Hroot. fold va. rewrite Ev, bind_mem.
    rewrite (bind_Ret _ _ _ _ _ (opened_accepted k _ FD_FLAG_WRITABLE Hfd)), !bind_mem. fold m.
    destruct Hfd as (_ & _ & ->). fold n. fold bs. rewrite E. by rewrite Hl.
  - intros Hp i c Hc. rewrite (Hb i c Hc). apply lookup_lt_Some in Hc.
    eapply user_byte_page; [exact HV|lia|lia|lia|exact Hx].
Qed.

(** The descriptor check of [read] and [write], for a descriptor of the table. *)
Lemma fd_refused_in_range fd flag k :
  0 <= fd < PROC_FD_CAPACITY ->
  fd_refused fd flag k =
  Ret k (negb (fd_flags (k_mem k) (proc_fd (k_curr k) fd) &? FD_FLAG_USED) &&
         negb (fd_flags (k_mem k) (proc_fd (k_curr k) fd) &? flag)).
Proof.
  intros Hr. unfold fd_refused, curr_proc, proc_is_bad_fd. rewrite bind_gets, bind_mem.
  rewrite (proj2 (Z.ltb_ge _ _)), (proj2 (Z.leb_gt _ _)) by lia.
  by destruct (fd_flags _ _ &? FD_FLAG_USED).
Qed.

(** C39. The descriptor check, for a descriptor of the table: [read] refuses it with
    [-EBADF] exactly when it is neither open nor marked readable, and [write],
    after the address was translated, exactly when it is neither open nor marked
    writable; an open descriptor without the access flag, and a closed one with
    it, go on to the device.  A refused call changes nothing; an address that
    [write] cannot translate is refused before the descriptor is looked at. *)
Theorem fd_check_lenient frame k :
  let m := k_mem k in
  let fd := i32 (frame_a0 m frame) in
  let flags := fd_flags m (proc_fd (k_curr k) fd) in
  let dev := load_dev m (proc_fd (k_curr k) fd + 8) in
  let addr := vm_virt_to_phys m (proc_page_table m (k_curr k)) (frame_a1 m frame) in
  0 <= fd < PROC_FD_CAPACITY ->
  ((flags &? FD_FLAG_USED) = false -> (flags &? FD_FLAG_READABLE) = false ->
     sys_read frame k = Ret k (- EBADF)) /\
  ((flags &? FD_FLAG_USED) = true \/ (flags &? FD_FLAG_READABLE) = true ->
     sys_read frame k =
     if decide (frame_a1 m frame = nullptr) then Ret k (- EFAULT)
     else dev_read dev (frame_a1 m frame) (frame_a2 m frame) k) /\
  (forall e, addr = inl e -> sys_write frame k = Ret k e) /\
  (forall pa, addr = inr pa ->
     ((flags &? FD_FLAG_USED) = false -> (flags &? FD_FLAG_WRITABLE) = false ->
        sys_write frame k = Ret k (- EBADF)) /\
     ((flags &? FD_FLAG_USED) = true \/ (flags &? FD_FLAG_WRITABLE) = true ->
        sys_write frame k = dev_write dev (read_bytes m pa (Z.to_nat (frame_a2 m frame))) k)).
Proof.
  cbv zeta. intros Hr.
  pose proof (fun flag => fd_refused_in_range _ flag k Hr) as Hf. split_and!.
  - intros Hu Ha. unfold sys_read. rewrite !bind_mem, (bind_Ret _ _ _ _ _ (Hf _)), Hu, Ha. done.
  - intros Hor. unfold sys_read. rewrite !bind_mem, (bind_Ret _ _ _ _ _ (Hf _)).
    assert (forall a b, a = true \/ b = true -> negb a && negb b = false) as Hb by by intros [] [] [].
    rewrite (Hb _ _ Hor). destruct (decide _) as [->|Hne]; [done|].
    rewrite (proj2 (Z.eqb_neq _ _) Hne). unfold curr_proc. by rewrite bind_gets, bind_mem.
  - intros e He. unfold sys_write, curr_proc. rewrite bind_mem, bind_gets, bind_mem, He. done.
  - intros pa Hpa. unfold sys_write, curr_proc. rewrite bind_mem, bind_gets, bind_mem, Hpa, bind_mem.
    rewrite (bind_Ret _ _ _ _ _ (Hf _)). split; [by intros -> ->|].
    assert (forall a b, a = true \/ b = true -> negb a && negb b = false) as Hb by by intros [] [] [].
    intros Hor. by rewrite (Hb _ _ Hor), !bind_mem.
Qed.
End calls.
