(* ===== verification/SyscallDemo.v ===== *)
(** * A [write] of two bytes

    A process with the address space of [VmSpec.Demo], a terminal and a trap
    frame, all outside the heap; the program has "hi" at 0x10234. *)

From S2P Require Import Prelude.
From S2P Require Import Errno.
From S2P Require Import Mem.
From S2P Require Import Layout.
From S2P Require Import Pages.
From S2P Require Import PageAlloc.
From S2P Require Import Vm.
From S2P Require Import VmTree.
From S2P Require Import VmSpec.
From S2P Require Import Sbi.
From S2P Require Import Timer.
From S2P Require Import Proc.
From S2P Require Import Kern.
From S2P Require Import Sched.
From S2P Require Import SchedDemo.
From S2P Require Import Tty.
From S2P Require Import TtySpec.
From S2P Require Import TtyDemo.
From S2P Require Import Log.
From S2P Require Import Syscall.
From S2P Require Import SyscallSpec.
Import VmSpec.Demo.
#[local] Open Scope Z_scope.

#[local] Existing Instance virt_layout.
#[local] Existing Instance virt_layout_ok.
#[local] Existing Instance plain_fw.
#[local] Existing Instance plain_mach.
#[local] Existing Instance plain_uart_ok.

Definition w_proc : Z := 0x80b00000.
Definition w_tty : Z := 0x80b01000.
Definition w_frame : Z := 0x80b02000.

Definition w_mem : mem :=
  let m := space1 in
  let m := write_bytes m 0x80001234 hi in
  let m := set_proc_page_table m w_proc (pg 0) in
  let m := set_fd_flags m (proc_fd w_proc 0) (Z.lor FD_FLAG_USED FD_FLAG_READABLE) in
  let m := set_fd_dev m (proc_fd w_proc 0) obj_TTY_DRIVER 0 in
  let m := set_nr_sinks m w_tty 1 in
  let m := store_dev m (blk_sink w_tty 0) (obj_UART_DRIVER, 0) in
  let m := set_frame_a0 m w_frame 0 in
  let m := store 8 m (w_frame + 40) 0x10234 in
  store 8 m (w_frame + 48) 2.

Definition w_k : kst :=
  mkK w_mem (mkHart Timer.Demo.fw0 ((0, []) : @mach plain_mach) 0 0 0) w_proc ptable0
      (mkDrv [] [w_tty] [uart0] 0 demo_log).

(** The writes are outside the heap. *)
Definition outside (a : Z) : Prop := a < 0x80010000 \/ 0x80b00000 <= a.

Lemma outside_store n m a v : 0x80b00000 <= a -> unch outside m (store n m a v).
Proof. intros H. eapply unch_mono; [|apply store_unch]. unfold outside, inrng. lia. Qed.

Lemma w_ok : vm_ok w_mem mapped.1.1 [pg 3].
Proof.
  pose proof space1_ok as HV. eapply (vm_ok_unch outside); [exact HV| |].
  - unfold w_mem, set_proc_page_table, set_fd_flags, set_fd_dev, set_nr_sinks, store_dev, set_frame_a0.
    generalize space1. intros m.
    repeat match goal with |- unch _ _ (store ?n ?m ?a ?v) =>
      transitivity m; [|apply outside_store; by apply Z.leb_le] end.
    eapply unch_mono; [|apply write_bytes_unch]. unfold outside, inrng. simpl. lia.
  - destruct HV as (_ & [_ HF] & HT & _). rewrite Forall_forall in HT, HF. intros a Ha.
    assert (inrng sym_free_list 16 a \/ exists p, heap_page p /\ inrng p PAGE_SIZE a) as Hb.
    { destruct Ha as [(p & Hp & Ha)|[Ha|(p & Hp & Ha)]]; [right; exists p; split; [by apply HT|done]|by left|right; exists p; split; [by apply HF|done]]. }
    unfold outside, heap_page, inrng, PAGE_SIZE, KHEAP_SIZE in *. simpl in *.
    destruct Hb as [Hb|(p & [_ Hb] & Hc)]; lia.
Qed.

Lemma write_sends_witness :
  exists k' bs, sys_write w_frame w_k = Ret k' 2 /\ sent w_k k' (uart_thr uart0) bs /\
    user_byte (k_mem w_k) (t_root mapped.1.1) (0x10234 + Z.of_nat 0) = bs !! 0%nat.
Proof.
  assert (obj_UART_DRIVER <> obj_TTY_DRIVER) as Hobj by done.
  assert (frame_a2 (k_mem w_k) w_frame = 2) as En by (vm_compute; reflexivity).
  assert (frame_a1 (k_mem w_k) w_frame = 0x10234) as Ea by (vm_compute; reflexivity).
  destruct (write_sends Hobj w_frame w_k mapped.1.1 [pg 3] w_tty 0 uart0 0x80001234 0xb w_ok)
    as (k' & bs & E & Hs & Hl & _ & Hu).
  - vm_compute. reflexivity.
  - split; [|split]; [vm_compute; split; [discriminate|reflexivity]|vm_compute; reflexivity..].
  - split; vm_compute; reflexivity.
  - discriminate.
  - rewrite Ea. reflexivity.
  - rewrite Ea. vm_compute. reflexivity.
  - reflexivity.
  - rewrite En in E. exists k', bs. split; [exact E|]. split; [exact Hs|].
    rewrite En in Hl. destruct bs as [|c bs]; [discriminate Hl|].
    rewrite En, Ea in Hu. apply (Hu ltac:(vm_compute; discriminate) 0%nat c eq_refl).
Defined.

(** Descriptor 3 is closed. *)
Definition closed_fd_k : kst := set_mem (set_frame_a0 w_mem w_frame 3) w_k.

Lemma fd_check_lenient_witness : sys_read w_frame closed_fd_k = Ret closed_fd_k (- EBADF).
Proof.
  refine (proj1 (fd_check_lenient w_frame closed_fd_k _) _ _).
  - by vm_compute.
  - vm_compute. reflexivity.
  - vm_compute. reflexivity.
Defined.
