(* ===== verification/WaitSpec.v ===== *)
(** * [wait]: a parent collects a child

    What the system call of [src/syscalls/wait.c] does on each of its branches.
    Collecting a zombie takes it out of the list it is in, gives its three pages
    back to the page allocator and its [proc_t] to the heap, frees its identifier
    and hands its exit status to the caller. *)

From S2P Require Import Prelude.
From S2P Require Import Errno.
From S2P Require Import Mem.
From S2P Require Import DList.
From S2P Require Import Layout.
From S2P Require Import Pages.
From S2P Require Import PageAlloc.
From S2P Require Import Kalloc.
From S2P Require Import KallocSafe.
From S2P Require Import Sbi.
From S2P Require Import Proc.
From S2P Require Import Kern.
From S2P Require Import Sched.
From S2P Require Import SchedRep.
From S2P Require Import SchedSpec.
From S2P Require Import SchedRun.
From S2P Require Import Syscall.
#[local] Open Scope Z_scope.
#[local] Open Scope kern_scope.

(** ** The heap and the pages together *)

Section memory.
Context `{L : Layout} {LOK : LayoutOk L}.

(** The bytes of the two allocators. *)
Definition reserved (bs : list block) (ps : list Z) (a : Z) : Prop :=
  kown sym_block_list bs a \/ pa_own ps a.

(** A page that no block of the heap overlaps. *)
Definition off_heap (bs : list block) (p : Z) : Prop :=
  forall c a, c ∈ bs -> inrng p PAGE_SIZE a -> ~ inrng (b_addr c) (b_size c) a.

Lemma reserved_mono bs ps qs a : ps ⊆ qs -> reserved bs ps a -> reserved bs qs a.
Proof. intros Hs [Ha|Ha]; [by left|right]. revert Ha. apply pa_own_mono. set_solver. Qed.

Lemma kpool_unch F m m' bs ps :
  kpool m bs ps -> unch F m m' -> (forall a, reserved bs ps a -> ~ F a) -> kpool m' bs ps.
Proof.
  intros ((HH & HB) & HP & HD) HU HF. split_and!; [split; [|done]| |done].
  - eapply khdrs_unch; [exact HH|exact HU|]. intros a Ha. apply HF. left. by left.
  - eapply pa_pool_unch; [exact HP|exact HU|]. intros a Ha. apply HF. by right.
Qed.

(** The heap's own bytes are in no page that is off the heap. *)
Lemma kown_off_heap m bs ps p a :
  kpool m bs ps -> pa_page p -> off_heap bs p -> kown sym_block_list bs a -> ~ inrng p PAGE_SIZE a.
Proof.
  intros ((_ & HB) & _) Hp Hoff [[Ha|(b & Hb & Ha)]|(b & Hb & _ & Ha)] Hr.
  - apply (block_list_sep_karg [p] a); [by constructor|done|]. apply pa_own_cons. by left.
  - apply (Hoff b a); [done|done|]. pose proof (blocks_ok_elem _ _ b HB Hb) as (_ & ? & _). rng.
  - by apply (Hoff b a).
Qed.

Lemma kpool_free_page m bs ps p :
  kpool m bs ps -> pa_page p -> p ∉ ps -> off_heap bs p ->
  kpool (pa_free m p) bs (ps ++ [p]) /\ unch (pa_own (p :: ps)) m (pa_free m p).
Proof.
  intros HK Hp Hn Hoff. pose proof HK as ((HH & HB) & HP & HD).
  destruct (pa_free_page m p ps HP Hp Hn) as [HP' HU]. split; [|done].
  assert (forall a, pa_own (ps ++ [p]) a -> pa_own (p :: ps) a) as Hmono.
  { intros a. apply pa_own_mono. set_solver. }
  split_and!; [split; [|done]|done|].
  - eapply khdrs_unch; [exact HH|exact HU|]. intros a Ha [Hr|Hr]%pa_own_cons.
    + by apply (kown_off_heap m bs ps p a HK Hp Hoff (or_introl Ha)).
    + by apply (kown_not_pool block_list_sep_karg m bs ps a HK (or_introl Ha)).
  - intros c a Hc Ha [Hr|Hr]%Hmono%pa_own_cons; [by apply (Hoff c a)|by apply (HD c a)].
Qed.
End memory.

(** ** Collecting a process *)

Section wait.
Context `{L : Layout} {LOK : LayoutOk L} `{C : Code} `{FW : Firmware} {FWOK : FirmwareOk FW} `{MC : Machine}.

(** The three pages of a process, in the order in which they are freed. *)
Definition proc_pages (m : mem) (z : Z) : list Z :=
  [proc_user_stack m z; proc_kern_stack m z; proc_page_table m z].

(** The process [z] can be collected: it is in the list [l1 ++ z :: l2] of
    [head], its [proc_t] is the allocated block [b] of the heap
    [bs1 ++ b :: bs2], its pages are allocated, and none of these objects, nor
    the word at [status], overlaps another or belongs to an allocator. *)
Record collectable (k : kst) (status z head : Z) (l1 l2 : list Z)
    (bs1 : list block) (b : block) (bs2 : list block) (ps : list Z) : Prop := {
  cl_list : dlist (k_mem k) head (l1 ++ proc_tree_node z :: l2);
  cl_heap : kpool (k_mem k) (bs1 ++ b :: bs2) ps;
  cl_coalesced : coalesced (bs1 ++ b :: bs2);
  cl_block : b_alloc b = true /\ b_addr b + HEADER_SIZE = z /\ PROC_SIZE + HEADER_SIZE <= b_size b;
  cl_nodup : NoDup (ps ++ proc_pages (k_mem k) z);
  cl_pages : Forall (fun p => pa_page p /\ off_heap (bs1 ++ b :: bs2) p) (proc_pages (k_mem k) z);
  cl_nodes a : in_nodes (head :: l1 ++ l2) a ->
    ~ reserved (bs1 ++ b :: bs2) (ps ++ proc_pages (k_mem k) z) a /\ ~ inrng z PROC_SIZE a;
  cl_status a : status <> nullptr -> inrng status 4 a ->
    ~ reserved (bs1 ++ b :: bs2) (ps ++ proc_pages (k_mem k) z) a /\ ~ inrng z PROC_SIZE a /\
    ~ in_nodes (head :: l1 ++ l2) a;
  cl_pid : 0 <= proc_pid (k_mem k) z < Z.of_nat (length (pt_procs (k_procs k)));
}.

(** What has happened when [z] is collected. *)
Record collected (k k' : kst) (status z head : Z) (l1 l2 : list Z)
    (bs1 : list block) (b : block) (bs2 : list block) (ps : list Z) : Prop := {
  cd_list : dlist (k_mem k') head (l1 ++ l2);
  cd_heap : kpool (k_mem k') (free_block (rev bs1) b bs2) (ps ++ proc_pages (k_mem k) z);
  cd_coalesced : coalesced (free_block (rev bs1) b bs2);
  cd_status : status <> nullptr ->
    load 4 (k_mem k') status = proc_exit_status (k_mem k) z `mod` 256;
  cd_table pid : 0 <= pid ->
    pt_get (k_procs k') pid =
    if decide (pid = proc_pid (k_mem k) z) then nullptr else pt_get (k_procs k) pid;
  cd_rest : k' = set_procs (k_procs k') (set_mem (k_mem k') k);
  cd_unch : unch (fun a => (status <> nullptr /\ inrng status 4 a) \/ in_nodes (head :: l1 ++ l2) a \/
                           reserved (bs1 ++ b :: bs2) (ps ++ proc_pages (k_mem k) z) a)
                 (k_mem k) (k_mem k');
}.

Section collect.
Context (k : kst) (status z head : Z) (l1 l2 : list Z) (bs1 : list block) (b : block)
        (bs2 : list block) (ps : list Z).
Context (HC : collectable k status z head l1 l2 bs1 b bs2 ps).

#[local] Abbreviation m := (k_mem k).
#[local] Abbreviation bs := (bs1 ++ b :: bs2).
#[local] Abbreviation pages := (proc_pages (k_mem k) z).

Definition late_foot (a : Z) : Prop :=
  in_nodes (head :: l1 ++ l2) a \/ reserved bs (ps ++ pages) a.
Definition foot (a : Z) : Prop := (status <> nullptr /\ inrng status 4 a) \/ late_foot a.

(** The [proc_t] is touched by nothing. *)
Lemma proc_apart a : inrng z PROC_SIZE a -> ~ foot a.
Proof.
  destruct HC as [_ HK _ (Ha & Ez & Hs) _ HP HN HS _]. intros Hz [[Hn Hst]|[Hn|Hr]].
  - by destruct (HS a Hn Hst) as (_ & ? & _).
  - by destruct (HN a Hn) as [_ ?].
  - assert (live_in bs (z, PROC_SIZE)) as HL.
    { exists b. simpl. split_and!; [set_solver|done|lia|lia]. }
    pose proof (live_not_owned _ _ _ _ a HK HL Hz) as Hno.
    destruct Hr as [Hr|Hr]; [apply Hno; by left|].
    destruct Hr as [Hr|(p & [Hp|Hp]%elem_of_app & Hr)]; [apply Hno; right; by left| |].
    + apply Hno. right. right. by exists p.
    + rewrite Forall_forall in HP. destruct (HP p Hp) as [_ Hoff].
      apply (Hoff b a); [set_solver|done|]. unfold HEADER_SIZE in *. rng.
Qed.

Lemma proc_field n m' o :
  unch foot m m' -> 0 <= o -> o + Z.of_nat n <= PROC_SIZE -> load n m' (z + o) = load n m (z + o).
Proof.
  intros HU H0 Hn. eapply load_unch; [exact HU|]. intros a Ha. apply proc_apart. rng.
Qed.

Lemma late_foot_foot m1 m2 : unch late_foot m1 m2 -> unch foot m1 m2.
Proof. apply unch_mono. intros a Ha. by right. Qed.

(** The list is kept by whatever the allocators do. *)
Lemma list_kept m1 m2 qs :
  qs ⊆ ps ++ pages -> dlist m1 head (l1 ++ l2) -> unch (reserved bs qs) m1 m2 ->
  dlist m2 head (l1 ++ l2).
Proof.
  intros Hq HD HU. eapply dlist_unch; [exact HD|exact HU|]. intros x a Hx Ha Hr.
  destruct (cl_nodes _ _ _ _ _ _ _ _ _ _ HC a) as [Hno _]; [by exists x|].
  apply Hno. by eapply reserved_mono.
Qed.

(** The status is stored. *)
Definition put_status (m0 : mem) : mem :=
  if negb (status =? nullptr) then store 4 m0 status (Z.land (proc_exit_status m0 z) 0xFF) else m0.

Lemma put_status_spec :
  unch foot m (put_status m) /\ kpool (put_status m) bs ps /\
  dlist (put_status m) head (l1 ++ proc_tree_node z :: l2) /\
  (status <> nullptr -> load 4 (put_status m) status = proc_exit_status m z `mod` 256).
Proof.
  destruct HC as [HD HK _ (Ha & Ez & Hs) _ _ _ HS _]. unfold put_status.
  destruct (Z.eqb_spec status nullptr) as [E|E]; simpl; [by split_and!|].
  set (v := Z.land _ _). pose proof (store_unch 4 m status v) as HU.
  split_and!.
  - eapply unch_mono; [|exact HU]. intros a Hi. left. by split.
  - eapply kpool_unch; [exact HK|exact HU|]. intros a Hr Hi. destruct (HS a E Hi) as [Hx _].
    apply Hx. eapply reserved_mono; [|exact Hr]. set_solver.
  - eapply dlist_unch; [exact HD|exact HU|]. intros x a Hx Hxa Hi. destruct (HS a E Hi) as (_ & Hz & Hn).
    assert (x ∈ head :: l1 ++ l2 \/ x = proc_tree_node z) as [Hx'| ->] by set_solver.
    + apply Hn. by exists x.
    + apply Hz. unfold proc_tree_node, NODE_SIZE, PROC_SIZE in *. rng.
  - intros _. rewrite load4_store4. unfold v. change 0xFF with (Z.ones 8).
    rewrite Z.land_ones by lia. unfold u32. change (2 ^ 8) with 256.
    pose proof (Z.mod_pos_bound (proc_exit_status m z) 256).
    apply Z.mod_small. lia.
Qed.

(** [proc_deinit]: the node leaves the list and the pages are freed. *)
Lemma deinit_spec m1 t :
  unch foot m m1 -> kpool m1 bs ps -> dlist m1 head (l1 ++ proc_tree_node z :: l2) ->
  exists m2, proc_deinit m1 t z = (m2, pt_set t (proc_pid m z) nullptr) /\
    unch foot m m2 /\ unch late_foot m1 m2 /\ kpool m2 bs (ps ++ pages) /\ dlist m2 head (l1 ++ l2).
Proof.
  intros HU1 HK1 HD1. pose proof (cl_nodup _ _ _ _ _ _ _ _ _ _ HC) as HN.
  pose proof (cl_pages _ _ _ _ _ _ _ _ _ _ HC) as HP. unfold proc_pages in HN, HP.
  apply Forall_cons in HP as [[Pu Ou] HP]. apply Forall_cons in HP as [[Pk Ok] HP].
  apply Forall_cons in HP as [[Pt Ot] _].
  destruct (list_remove_dlist _ _ _ _ _ HD1) as [HD2 HU2].
  unfold proc_deinit. set (m2 := list_remove m1 (proc_tree_node z)) in *.
  assert (unch late_foot m1 m2) as HL2 by (eapply unch_mono; [|exact HU2]; intros a Ha; by left).
  assert (kpool m2 bs ps) as HK2.
  { eapply kpool_unch; [exact HK1|exact HU2|]. intros a Hr Hn.
    destruct (cl_nodes _ _ _ _ _ _ _ _ _ _ HC a Hn) as [Hno _]. apply Hno. eapply reserved_mono; [|exact Hr]. set_solver. }
  assert (forall m', unch late_foot m1 m' ->
    proc_user_stack m' z = proc_user_stack m z /\ proc_kern_stack m' z = proc_kern_stack m z /\
    proc_page_table m' z = proc_page_table m z /\ proc_pid m' z = proc_pid m z) as Hfield.
  { intros m' HL. assert (unch foot m m') as HU by (etrans; [exact HU1|by apply late_foot_foot]).
    unfold proc_user_stack, proc_kern_stack, proc_page_table, proc_pid.
    rewrite !(proc_field _ m') by (done || (unfold PROC_SIZE; simpl; lia)). done. }
  assert (forall p qs m', p :: qs ⊆ ps ++ pages -> kpool m' bs qs -> p ∉ qs -> pa_page p -> off_heap bs p ->
    unch late_foot m1 m' -> dlist m' head (l1 ++ l2) ->
    kpool (pa_free m' p) bs (qs ++ [p]) /\ unch late_foot m1 (pa_free m' p) /\
    dlist (pa_free m' p) head (l1 ++ l2)) as Hfree.
  { intros p qs m' Hsub HK Hp Pp Op HL HD. destruct (kpool_free_page m' bs qs p HK Pp Hp Op) as [HK' HU'].
    split; [done|]. assert (unch (reserved bs (p :: qs)) m' (pa_free m' p)) as HR.
    { eapply unch_mono; [|exact HU']. intros a Ha. by right. }
    split; [|by eapply list_kept]. etrans; [exact HL|]. eapply unch_mono; [|exact HR].
    intros a Ha. right. by eapply reserved_mono. }
  set (us := proc_user_stack m z) in *. set (ks := proc_kern_stack m z) in *.
  set (pt := proc_page_table m z) in *.
  assert ((us ∉ ps) /\ (ks ∉ ps ++ [us]) /\ (pt ∉ (ps ++ [us]) ++ [ks])) as (N1 & N2 & N3).
  { apply NoDup_app in HN as (_ & HN1 & HN2). apply NoDup_cons in HN2 as [HN2 HN3].
    apply NoDup_cons in HN3 as [HN3 _]. set_solver. }
  destruct (Hfield m2 HL2) as (-> & _ & _ & ->).
  destruct (Hfree us ps m2) as (HK3 & HL3 & HD3); [unfold proc_pages; fold us; set_solver|done..|].
  set (m3 := pa_free m2 us) in *. destruct (Hfield m3 HL3) as (_ & -> & _ & _).
  destruct (Hfree ks (ps ++ [us]) m3) as (HK4 & HL4 & HD4); [unfold proc_pages; fold us ks; set_solver|done..|].
  set (m4 := pa_free m3 ks) in *. destruct (Hfield m4 HL4) as (_ & _ & -> & _).
  destruct (Hfree pt ((ps ++ [us]) ++ [ks]) m4) as (HK5 & HL5 & HD5);
    [unfold proc_pages; fold us ks pt; set_solver|done..|].
  eexists. split; [done|]. split_and!; [|exact HL5| |exact HD5].
  - etrans; [exact HU1|by apply late_foot_foot].
  - unfold proc_pages. fold us ks pt. by rewrite <-!app_assoc in HK5.
Qed.

(** Behind [quit:]. *)
Lemma wait_quit_spec :
  exists k', wait_quit status z k = Ret k' (proc_pid m z) /\
    collected k k' status z head l1 l2 bs1 b bs2 ps.
Proof.
  destruct put_status_spec as (HU1 & HK1 & HD1 & Hst1).
  destruct (deinit_spec (put_status m) (k_procs k) HU1 HK1 HD1) as (m2 & E2 & HU2 & HL2 & HK2 & HD2).
  destruct (cl_block _ _ _ _ _ _ _ _ _ _ HC) as (Hb & Ez & Hs).
  destruct (kfree_kpool m2 bs1 b bs2 _ HK2) as [HK3 HU3]. rewrite Ez in HK3, HU3.
  assert (unch (reserved bs (ps ++ pages)) m2 (kfree m2 z)) as HR3.
  { eapply unch_mono; [|exact HU3]. intros a Ha. by left. }
  assert (unch late_foot m2 (kfree m2 z)) as HL3.
  { eapply unch_mono; [|exact HR3]. intros a Ha. by right. }
  assert (unch foot m (kfree m2 z)) as HU by (etrans; [exact HU2|by apply late_foot_foot]).
  set (t := pt_set (k_procs k) (proc_pid m z) nullptr) in *.
  exists (set_procs t (set_mem (kfree m2 z) k)). split.
  - assert ((if negb (status =? nullptr)
        then upd_mem (fun m => store 4 m status (Z.land (proc_exit_status m z) 0xFF)) else ret tt) k =
      Ret (set_mem (put_status m) k) tt) as E1.
    { unfold put_status. destruct (status =? nullptr); simpl; [|done]. by destruct k. }
    unfold wait_quit. rewrite (bind_Ret _ _ _ _ _ E1).
    assert (k_proc_deinit z (set_mem (put_status m) k) = Ret (set_procs t (set_mem m2 k)) tt) as E3.
    { unfold k_proc_deinit. change (k_mem (set_mem (put_status m) k)) with (put_status m).
      change (k_procs (set_mem (put_status m) k)) with (k_procs k). by rewrite E2. }
    rewrite (bind_Ret _ _ _ _ _ E3), bind_upd. unfold mem_of, gets. simpl. f_equal.
    unfold proc_pid. by rewrite (proc_field 4 _ 32 HU) by (unfold PROC_SIZE; simpl; lia).
  - split; simpl.
    + by eapply (list_kept m2); [reflexivity|exact HD2|exact HR3].
    + exact HK3.
    + apply free_block_coalesced, HC.
    + intros Hne. rewrite <-(Hst1 Hne). eapply load_unch.
      * etrans; [exact HL2|exact HL3].
      * intros a Ha [Hn|Hr]; destruct (cl_status _ _ _ _ _ _ _ _ _ _ HC a Hne Ha) as (H1 & _ & H2); auto.
    + intros pid Hpid. pose proof (cl_pid _ _ _ _ _ _ _ _ _ _ HC) as Hr. unfold t, pt_set, pt_get. simpl.
      destruct (decide (pid = _)) as [->|Hne]; [apply list_lookup_total_insert_eq; lia|].
      apply list_lookup_total_insert_ne. lia.
    + done.
    + exact HU.
Qed.
End collect.

(** ** The branches of [wait] *)

Lemma wait_no_child frame k :
  let p := k_curr k in
  dlist (k_mem k) (proc_children p) [] -> dlist (k_mem k) (proc_zombie_children p) [] ->
  sys_wait frame k = Ret k (- ECHILD).
Proof.
  intros p H1 H2. unfold sys_wait, curr_proc. rewrite bind_mem, bind_gets, !bind_mem. fold p.
  by rewrite (list_empty_spec _ _ _ H1), (list_empty_spec _ _ _ H2).
Qed.

Lemma wait_zombie frame k z l2 :
  let p := k_curr k in
  dlist (k_mem k) (proc_zombie_children p) (proc_tree_node z :: l2) ->
  sys_wait frame k = wait_quit (frame_a0 (k_mem k) frame) z k.
Proof.
  intros p H2. unfold sys_wait, curr_proc. rewrite bind_mem, bind_gets, !bind_mem. fold p.
  rewrite (list_empty_spec _ _ _ H2), andb_false_r. cbv iota.
  assert (list_first_entry (k_mem k) (proc_zombie_children p) 16 = z) as Ez.
  { unfold list_first_entry, list_entry. rewrite (list_front_spec _ _ _ H2). simpl.
    unfold proc_tree_node. lia. }
  rewrite bool_decide_false by done. simpl negb. cbv iota.
  change (bind (mem_of (fun m => list_first_entry m (proc_zombie_children p) 16))
    (fun proc => wait_quit (frame_a0 (k_mem k) frame) proc) k = wait_quit (frame_a0 (k_mem k) frame) z k).
  by rewrite bind_mem, Ez.
Qed.

Section blocking.
Context (procs sems : list Z).
Context (HO : objs_ok procs sems).
Context (Hmany : Z.of_nat (length procs) <= PROC_TABLE_SIZE).

Lemma wait_child_blocks frame k y c cs :
  let p := k_curr k in
  rep procs sems k y -> running procs sems y -> p <> sym_idle_proc ->
  dlist (k_mem k) (proc_children p) (c :: cs) -> dlist (k_mem k) (proc_zombie_children p) [] ->
  let y1 := (y_step (Block PROC_STATE_WAIT_CHILD) y).1 in
  exists k1, sys_wait frame k =
      Switch k1 p (hd nullptr (y_ready y))
        (fun k2 => wait_quit (frame_a0 (k_mem k) frame) (proc_proc_waiting (k_mem k2) (k_curr k2)) k2) /\
    rep procs sems k1 y1 /\ running procs sems y1.
Proof.
  intros p HR HW Hi H1 H2 y1. pose proof (rp_curr _ _ _ _ HR) as Ec.
  destruct (sop_ok procs sems HO Hmany (Block PROC_STATE_WAIT_CHILD) k y HR HW) as (k1 & E & HR1 & HW1 & _).
  { split; [by right|]. by rewrite <-Ec. }
  exists k1. split_and!; [|exact HR1|exact HW1].
  unfold run_sop, curr_proc in E. rewrite bind_gets in E. fold p in E. simpl in E. rewrite <-Ec in E.
  unfold sys_wait, curr_proc. rewrite bind_mem, bind_gets, !bind_mem. fold p.
  rewrite (list_empty_spec _ _ _ H1), (list_empty_spec _ _ _ H2), bool_decide_false by done.
  rewrite bool_decide_true by done. simpl. unfold bind at 1. rewrite E. reflexivity.
Qed.

(** C16. The system call [wait] of a process [p].  Without children and zombies it
    returns [-ECHILD] and changes nothing.  With a zombie it collects the first
    one: it returns its identifier, stores the low byte of its exit status at the
    caller's address if there is one, takes it out of the list, frees its
    identifier, its two stacks and its page table, and its [proc_t], all other
    memory unchanged.  With living children only, the process goes to WAIT_CHILD
    and the next ready process runs; when [p] goes on, and was told that [z] has
    exited, it collects [z] in the same way. *)
Theorem wait_collects frame k :
  let p := k_curr k in
  let status := frame_a0 (k_mem k) frame in
  let zombies := proc_zombie_children p in
  (dlist (k_mem k) (proc_children p) [] -> dlist (k_mem k) zombies [] ->
   sys_wait frame k = Ret k (- ECHILD)) /\
  (forall z l2 bs1 b bs2 ps, collectable k status z zombies [] l2 bs1 b bs2 ps ->
   exists k', sys_wait frame k = Ret k' (proc_pid (k_mem k) z) /\
     collected k k' status z zombies [] l2 bs1 b bs2 ps) /\
  (forall y c cs, rep procs sems k y -> running procs sems y -> p <> sym_idle_proc ->
   dlist (k_mem k) (proc_children p) (c :: cs) -> dlist (k_mem k) zombies [] ->
   let y1 := (y_step (Block PROC_STATE_WAIT_CHILD) y).1 in
   exists k1 rest, sys_wait frame k = Switch k1 p (hd nullptr (y_ready y)) rest /\
     rep procs sems k1 y1 /\ running procs sems y1 /\
     forall k2 z l1 l2 bs1 b bs2 ps,
       k_curr k2 = p -> proc_proc_waiting (k_mem k2) p = z ->
       collectable k2 status z zombies l1 l2 bs1 b bs2 ps ->
       exists k', rest k2 = Ret k' (proc_pid (k_mem k2) z) /\
         collected k2 k' status z zombies l1 l2 bs1 b bs2 ps).
Proof.
  intros p status zombies. split_and!.
  - apply wait_no_child.
  - intros z l2 bs1 b bs2 ps HC. rewrite (wait_zombie frame k z l2) by apply HC. by apply wait_quit_spec.
  - intros y c cs HR HW Hi H1 H2. destruct (wait_child_blocks frame k y c cs HR HW Hi H1 H2) as (k1 & E & HR1 & HW1).
    exists k1. eexists. split; [exact E|]. split_and!; [done|done|].
    intros k2 z l1 l2 bs1 b bs2 ps Ec Ez HC. cbv beta. rewrite Ec. fold p. rewrite Ez. by apply wait_quit_spec.
Qed.
End blocking.
End wait.
