(* ===== verification/WaitDemo.v ===== *)
(** * A parent with one zombie

    The process at 0x80b00000 calls [wait]; its child, whose [proc_t] is the
    first block of the heap, has exited with 0x107. *)

From S2P Require Import Prelude.
From S2P Require Import Mem.
From S2P Require Import DList.
From S2P Require Import Layout.
From S2P Require Import Pages.
From S2P Require Import PageAlloc.
From S2P Require Import Kalloc.
From S2P Require Import KallocSafe.
From S2P Require Import Sbi.
From S2P Require Import Timer.
From S2P Require Import Proc.
From S2P Require Import Kern.
From S2P Require Import Sched.
From S2P Require Import SchedDemo.
From S2P Require Import Syscall.
From S2P Require Import WaitSpec.
Import KallocSafe.Demo.
#[local] Open Scope Z_scope.

#[local] Existing Instance virt_layout.
#[local] Existing Instance virt_layout_ok.
#[local] Existing Instance plain_fw.
#[local] Existing Instance plain_fw_ok.
#[local] Existing Instance plain_mach.

Definition wt_parent : Z := 0x80b00000.
Definition wt_frame : Z := 0x80b02000.
Definition wt_status : Z := 0x80b03000.

(** The child and its pages. *)
Definition wt_child : Z := page0 + 32.
Definition wt_block : block := mkBlock page0 1744 true.
Definition wt_free : block := mkBlock (page0 + 1744) 2352 false.
Definition wt_page (i : Z) : Z := page0 + i * PAGE_SIZE.
Definition wt_pages : list Z := [wt_page 1; wt_page 2; wt_page 3].

Definition wt_heap : mem := from_option fst ∅ (kmalloc one_page PROC_SIZE).

Lemma wt_heap_kpool : kpool wt_heap [wt_block; wt_free] [].
Proof.
  pose proof (kmalloc_refines block_list_sep_karg one_page [] [page0] PROC_SIZE one_page_kpool
    ltac:(done) ltac:(done)) as (m' & E & HK & _).
  unfold wt_heap. rewrite E. exact HK.
Qed.

Definition wt_mem : mem :=
  let m := wt_heap in
  let m := store 4 m (wt_child + 32) 5 in
  let m := store 4 m (wt_child + 1672) 0x107 in
  let m := store 8 m (wt_child + 1680) (wt_page 3) in
  let m := store 8 m (wt_child + 1688) (wt_page 2) in
  let m := store 8 m (wt_child + 1696) (wt_page 1) in
  let m := store 8 m (proc_tree_node wt_child) (proc_zombie_children wt_parent) in
  let m := store 8 m (proc_tree_node wt_child + 8) (proc_zombie_children wt_parent) in
  let m := store 8 m (proc_zombie_children wt_parent) (proc_tree_node wt_child) in
  let m := store 8 m (proc_zombie_children wt_parent + 8) (proc_tree_node wt_child) in
  set_frame_a0 m wt_frame wt_status.

Definition wt_k : kst :=
  mkK wt_mem (mkHart Timer.Demo.fw0 ((0, []) : @mach plain_mach) 0 0 0) wt_parent
      (pt_set ptable0 5 wt_child) (mkDrv [] [] [] 0 demo_log).

(** What the allocators own is below the parent and outside the child. *)
Lemma wt_reserved a :
  reserved [wt_block; wt_free] wt_pages a -> a < 0x80b00000 /\ ~ inrng wt_child PROC_SIZE a.
Proof.
  assert (page0 = 0x80225000) as Ep by done.
  unfold reserved, kown, in_hdrs, pa_own. intros Ha.
  assert (inrng sym_block_list 16 a \/ inrng sym_free_list 16 a \/ inrng page0 32 a \/
          inrng (page0 + 1744) 2352 a \/ inrng (page0 + 4096) 12288 a) as Hb.
  { destruct Ha as [[[Ha|(b & Hb & Ha)]|(b & Hb & Hf & Ha)]|[Ha|(p & Hp & Ha)]].
    - by left.
    - apply elem_of_cons in Hb as [->|Hb%list_elem_of_singleton]; [|subst b];
        unfold wt_block, wt_free, HEADER_SIZE in Ha; simpl in Ha; rng.
    - apply elem_of_cons in Hb as [->|Hb%list_elem_of_singleton]; [done|subst b].
      unfold wt_free in Ha. simpl in Ha. rng.
    - right. by left.
    - unfold wt_pages, wt_page, PAGE_SIZE in *. rewrite !elem_of_cons in Hp.
      destruct Hp as [->|[->|[->|Hp%elem_of_nil]]]; [rng..|done]. }
  unfold wt_child, PROC_SIZE, inrng in *. simpl sym_block_list in Hb. simpl sym_free_list in Hb. lia.
Qed.

(** The writes to the child and above the heap. *)
Definition wt_written (a : Z) : Prop := inrng wt_child PROC_SIZE a \/ 0x80b00000 <= a.

Lemma wt_store n m a v :
  wt_child <= a /\ a + Z.of_nat n <= wt_child + PROC_SIZE \/ 0x80b00000 <= a ->
  unch wt_written m (store n m a v).
Proof. intros H. eapply unch_mono; [|apply store_unch]. unfold wt_written, inrng. lia. Qed.

Lemma wt_mem_kpool : kpool wt_mem [wt_block; wt_free] [].
Proof.
  eapply (kpool_unch wt_written); [exact wt_heap_kpool| |].
  - unfold wt_mem, set_frame_a0. generalize wt_heap. intros m.
    repeat match goal with |- unch _ _ (store ?n ?m ?a ?v) =>
      transitivity m; [|apply wt_store;
        first [left; split; apply Z.leb_le; vm_compute; reflexivity
              |right; apply Z.leb_le; vm_compute; reflexivity]] end.
    done.
  - intros a Ha Hw. apply (reserved_mono _ _ wt_pages) in Ha; [|set_solver].
    apply wt_reserved in Ha as [H1 H2]. destruct Hw as [Hw|Hw]; [done|lia].
Qed.

Lemma wt_proc_pages : proc_pages wt_mem wt_child = wt_pages.
Proof. vm_compute. reflexivity. Qed.

Lemma wt_collectable :
  collectable wt_k wt_status wt_child (proc_zombie_children wt_parent) [] [] [] wt_block [wt_free] [].
Proof.
  assert (forall a, reserved [wt_block; wt_free] ([] ++ proc_pages wt_mem wt_child) a ->
    a < 0x80b00000 /\ ~ inrng wt_child PROC_SIZE a) as HR.
  { rewrite wt_proc_pages. exact wt_reserved. }
  split; cbn [k_mem wt_k].
  - by compute_done.
  - exact wt_mem_kpool.
  - by split.
  - split_and!; [reflexivity|reflexivity|vm_compute; discriminate].
  - rewrite wt_proc_pages. by compute_done.
  - rewrite wt_proc_pages. apply Forall_forall. intros p Hp.
    assert (page0 = 0x80225000) as Ep by done.
    unfold wt_pages, wt_page, PAGE_SIZE in Hp. rewrite !elem_of_cons in Hp.
    assert (exists i, 1 <= i <= 3 /\ p = page0 + i * 4096) as (i & Hi & ->).
    { destruct Hp as [->|[->|[->|Hp%elem_of_nil]]]; [by exists 1|by exists 2|by exists 3|done]. }
    split.
    + split; [|unfold KHEAP_SIZE; simpl; lia]. unfold page_aligned, PAGE_SIZE.
      rewrite Z.mod_add by done. reflexivity.
    + intros c a Hc Ha Hb. simpl in Hc. unfold PAGE_SIZE, inrng in *.
      apply elem_of_cons in Hc as [->|Hc%list_elem_of_singleton]; [|subst c]; simpl in Hb; lia.
  - intros a (x & Hx%list_elem_of_singleton & Ha). subst x.
    unfold proc_zombie_children, wt_parent, NODE_SIZE, inrng in Ha.
    split; [intros Hr; apply HR in Hr; lia|].
    unfold wt_child, PROC_SIZE, inrng. change page0 with 0x80225000. lia.
  - intros a _ Ha. unfold wt_status, inrng in Ha.
    split_and!; [intros Hr; apply HR in Hr; lia| |].
    + unfold wt_child, PROC_SIZE, inrng. change page0 with 0x80225000. lia.
    + intros (x & Hx%list_elem_of_singleton & Hn). subst x.
      unfold proc_zombie_children, wt_parent, NODE_SIZE, inrng in Hn. lia.
  - vm_compute. split; [discriminate|reflexivity].
Qed.

Lemma wt_pid : proc_pid (k_mem wt_k) wt_child = 5.
Proof. vm_compute. reflexivity. Qed.

Lemma wt_exit : proc_exit_status (k_mem wt_k) wt_child `mod` 256 = 7.
Proof. vm_compute. reflexivity. Qed.

Lemma wt_arg : frame_a0 (k_mem wt_k) wt_frame = wt_status.
Proof. vm_compute. reflexivity. Qed.

Lemma wt_k_pages : proc_pages (k_mem wt_k) wt_child = wt_pages.
Proof. exact wt_proc_pages. Qed.

(** [wait] returns 5, the status is 7, the three pages and the block are free. *)
Lemma wait_collects_witness :
  exists k', sys_wait wt_frame wt_k = Ret k' 5 /\ load 4 (k_mem k') wt_status = 7 /\
    kpool (k_mem k') [mkBlock page0 4096 false] wt_pages.
Proof.
  pose proof wt_arg as Es.
  destruct (wait_collects demo_procs demo_sems demo_objs demo_many wt_frame wt_k) as (_ & H & _).
  destruct (H wt_child [] [] wt_block [wt_free] []) as (k' & E & HC).
  - rewrite Es. exact wt_collectable.
  - exists k'. split; [|split].
    + rewrite E, wt_pid. reflexivity.
    + rewrite Es in HC. rewrite (cd_status _ _ _ _ _ _ _ _ _ _ _ HC ltac:(discriminate)). exact wt_exit.
    + pose proof (cd_heap _ _ _ _ _ _ _ _ _ _ _ HC) as HK. rewrite wt_k_pages in HK. exact HK.
Defined.
