(* ===== verification/Family.v ===== *)
(** * Families of intrusive lists

    Several lists whose heads are [H] and whose elements are taken from [N], no
    node in two lists: what removing a node from one list and appending it to
    another does to the whole family. *)

From S2P Require Import Prelude.
From S2P Require Import Mem.
From S2P Require Import DList.
From S2P Require Import SchedRep.
From S2P Require Import SchedSpec.

Section family.
Context (H N : list Z).

Record nodes_apart : Prop := {
  na_sep x y : x ∈ H ++ N -> y ∈ H ++ N -> x = y \/ disj x NODE_SIZE y NODE_SIZE;
  na_addr x : x ∈ H ++ N -> addr_ok NODE_SIZE x;
  na_heads x : x ∈ H -> x ∉ N;
}.

Record family (m : mem) (Q : Z -> list Z) : Prop := {
  fm_list h : h ∈ H -> dlist m h (Q h);
  fm_in h x : h ∈ H -> x ∈ Q h -> x ∈ N;
  fm_uniq h1 h2 x : h1 ∈ H -> h2 ∈ H -> x ∈ Q h1 -> x ∈ Q h2 -> h1 = h2;
}.

Lemma family_ext m Q Q' : (forall h, Q h = Q' h) -> family m Q -> family m Q'.
Proof. intros E [H1 H2 H3]. by split; intros *; rewrite <-!E; eauto. Qed.

Context (HA : nodes_apart).

Lemma family_unch F m m' Q :
  family m Q -> unch F m m' -> (forall a, in_nodes (H ++ N) a -> ~ F a) -> family m' Q.
Proof.
  intros [H1 H2 H3] HU HF. split; [|done|done]. intros h Hh. eapply dlist_unch; [by apply H1|exact HU|].
  intros x a Hx Ha. apply HF. exists x. split; [|done]. apply elem_of_app.
  apply elem_of_cons in Hx as [->|Hx]; [by left|right; by eapply H2].
Qed.

Lemma family_NoDup m Q h : family m Q -> h ∈ H -> NoDup (Q h).
Proof.
  intros HF Hh. pose proof (nodes_ok_NoDup _ (dlist_nodes_ok _ _ _ (fm_list _ _ HF h Hh))) as HN.
  by apply NoDup_cons in HN as [_ HN].
Qed.

(** Lists other than [h] survive changes to the nodes of [h] and to free nodes. *)
Lemma family_other m m' Q h h' (xs : list Z) :
  family m Q -> h ∈ H -> h' ∈ H -> h' <> h -> unch (in_nodes (h :: xs)) m m' ->
  (forall x, x ∈ xs -> x ∈ N /\ x ∉ Q h') -> dlist m' h' (Q h').
Proof.
  intros HF Hh Hh' Hne HU Hxs. eapply dlist_unch; [by apply (fm_list _ _ HF)|exact HU|].
  intros z a Hz Ha (w & Hw & Hb).
  assert (z ∈ H ++ N) as Hz1.
  { apply elem_of_app. apply elem_of_cons in Hz as [->|Hz]; [by left|right; by apply (fm_in _ _ HF h')]. }
  assert (w ∈ H ++ N) as Hw1.
  { apply elem_of_app. apply elem_of_cons in Hw as [->|Hw]; [by left|right; by apply Hxs]. }
  destruct (na_sep HA z w Hz1 Hw1) as [->|Hd]; [|unfold disj, inrng, NODE_SIZE in *; lia].
  apply elem_of_cons in Hz as [->|Hz].
  - apply elem_of_cons in Hw as [->|Hw]; [done|]. destruct (Hxs _ Hw) as [Hn _]. by apply (na_heads HA h').
  - apply elem_of_cons in Hw as [->|Hw]; [|by destruct (Hxs _ Hw)].
    apply (na_heads HA h Hh). by apply (fm_in _ _ HF h').
Qed.

Lemma family_remove m Q h x :
  family m Q -> h ∈ H -> x ∈ Q h ->
  family (list_remove m x) (upd Q h (without x (Q h))) /\ unch (in_nodes (H ++ N)) m (list_remove m x).
Proof.
  intros HF Hh Hx. pose proof (family_NoDup m Q h HF Hh) as HN.
  pose proof (fm_list _ _ HF h Hh) as HD. apply list_elem_of_split in Hx as (l1 & l2 & El).
  rewrite El in HD. destruct (list_remove_dlist _ _ _ _ _ HD) as [HD' HU].
  rewrite El, without_split by (by rewrite <-El).
  assert (forall z, z ∈ l1 ++ l2 -> z ∈ Q h) as Hsub by (intros z; rewrite El; set_solver).
  split; [split|].
  - intros h' Hh'. unfold upd. case_decide; [by subst h'|]. eapply family_other; [exact HF|exact Hh|done..|].
    intros z Hz%Hsub. split; [by apply (fm_in _ _ HF h)|]. intros Hq.
    by assert (h' = h) by (by eapply (fm_uniq _ _ HF)).
  - intros h' z Hh'. unfold upd. case_decide; [subst h'; intros Hz%Hsub|intros Hz]; by eapply (fm_in _ _ HF).
  - intros h1 h2 z H1 H2 Hz1 Hz2. apply (fm_uniq _ _ HF h1 h2 z); [done..| |].
    + revert Hz1. unfold upd. case_decide; [subst h1; auto|done].
    + revert Hz2. unfold upd. case_decide; [subst h2; auto|done].
  - eapply unch_mono; [|exact HU]. intros a (z & Hz & Ha). exists z. split; [|done]. apply elem_of_app.
    apply elem_of_cons in Hz as [->|Hz%Hsub]; [by left|right; by apply (fm_in _ _ HF h)].
Qed.

Lemma family_push_back m Q h x :
  family m Q -> h ∈ H -> x ∈ N -> (forall h', h' ∈ H -> x ∉ Q h') ->
  family (list_push_back m h x) (upd Q h (Q h ++ [x])) /\
  unch (in_nodes (H ++ N)) m (list_push_back m h x).
Proof.
  intros HF Hh Hx Hfree. pose proof (fm_list _ _ HF h Hh) as HD.
  assert (forall z, z ∈ h :: Q h -> z ∈ H ++ N /\ z <> x) as Hin.
  { intros z [->|Hz]%elem_of_cons.
    - split; [by apply elem_of_app; left|]. intros ->. by apply (na_heads HA x).
    - split; [apply elem_of_app; right; by apply (fm_in _ _ HF h)|]. intros ->. by apply (Hfree h). }
  assert (x ∈ H ++ N) as Hx' by (by apply elem_of_app; right).
  destruct (list_push_back_dlist m h (Q h) x HD) as [HD' HU].
  { pose proof (dlist_nodes_ok _ _ _ HD) as [HS HAd]. split; [split; [|exact HS]|constructor; [|exact HAd]].
    - change ((h, NODE_SIZE) :: node_rngs (Q h)) with (node_rngs (h :: Q h)). rewrite Forall_forall.
      intros r (z & -> & Hz)%list_elem_of_fmap. destruct (Hin z Hz) as [Hz1 Hz2]. simpl.
      destruct (na_sep HA x z Hx' Hz1); [congruence|done].
    - by apply (na_addr HA). }
  split; [split|].
  - intros h' Hh'. unfold upd. case_decide; [by subst h'|].
    eapply (family_other _ _ _ h _ (x :: Q h)); [exact HF|done..| |].
    + eapply unch_mono; [|exact HU]. intros a (z & Hz & Ha). exists z. set_solver.
    + intros z [->|Hz]%elem_of_cons; [split; [done|by apply Hfree]|]. split; [by apply (fm_in _ _ HF h)|].
      intros Hq. by assert (h' = h) by (by eapply (fm_uniq _ _ HF)).
  - intros h' z Hh'. unfold upd. case_decide; [subst h'; intros [Hz| ->%list_elem_of_singleton]%elem_of_app|intros Hz];
      [by eapply (fm_in _ _ HF)|done|by eapply (fm_in _ _ HF)].
  - assert (forall h' z, z ∈ upd Q h (Q h ++ [x]) h' -> z ∈ Q h' \/ (h' = h /\ z = x)) as Hz.
    { intros h' z. unfold upd. case_decide; [subst h'|tauto]. rewrite elem_of_app, list_elem_of_singleton. tauto. }
    intros h1 h2 z H1 H2 [Hz1|[-> ->]]%Hz [Hz2|[-> E2]]%Hz; [by eapply (fm_uniq _ _ HF)|..|done];
      [subst z; by destruct (Hfree h1)|by destruct (Hfree h2)].
  - eapply unch_mono; [|exact HU]. intros a (z & Hz & Ha). exists z. split; [|done].
    apply elem_of_cons in Hz as [->|Hz]; [done|by apply Hin].
Qed.
End family.
