(* ===== verification/Tree.v ===== *)
(** * The process tree, and [exit]

    Every process has a list of children and a list of zombie children, linked
    by [tree_node].  [exit] gives both lists to the first process, moves the
    caller to the zombies of its parent, and wakes a parent that waits. *)

From S2P Require Import Prelude.
From S2P Require Import Errno.
From S2P Require Import Mem.
From S2P Require Import DList.
From S2P Require Import Layout.
From S2P Require Import Pages.
From S2P Require Import Sbi.
From S2P Require Import Timer.
From S2P Require Import Proc.
From S2P Require Import Kern.
From S2P Require Import Sched.
From S2P Require Import SchedRep.
From S2P Require Import SchedSpec.
From S2P Require Import SchedRun.
From S2P Require Import Family.
From S2P Require Import Syscall.
From S2P Require Import TrapSpec.
#[local] Open Scope Z_scope.
#[local] Open Scope kern_scope.

(** A tree: the processes of every list, by its head; and the parents. *)
Definition lists : Type := Z -> list Z.

(** The list [h] is appended to the list [d]. *)
Definition t_merge (h d : Z) (T : lists) : lists := upd (upd T h []) d (T d ++ T h).

(** [p] leaves its orphans to [init] and joins the zombies of [q]. *)
Definition t_exit (p init q : Z) (T : lists) : lists :=
  let T := t_merge (proc_children p) (proc_children init) T in
  let T := t_merge (proc_zombie_children p) (proc_zombie_children init) T in
  let T := upd T (proc_children q) (without p (T (proc_children q))) in
  upd T (proc_zombie_children q) (T (proc_zombie_children q) ++ [p]).

Section tree.
Context `{PA : PageAllocator} `{L : Layout} `{C : Code} `{FW : Firmware} {FWOK : FirmwareOk FW} `{MC : Machine}.
Context (procs sems : list Z).
Context (HO : objs_ok procs sems).
Context (Hmany : Z.of_nat (length procs) <= PROC_TABLE_SIZE).

#[local] Abbreviation rep := (rep procs sems).
#[local] Abbreviation running := (running procs sems).
#[local] Abbreviation sched_foot := (sched_foot procs sems).

Definition theads : list Z := (proc_children <$> procs) ++ (proc_zombie_children <$> procs).
Definition tnodes : list Z := proc_tree_node <$> procs.

Definition tfamily (m : mem) (T : lists) : Prop := family theads tnodes m (fun h => proc_tree_node <$> T h).

Record tree (k : kst) (y : sys) (T : lists) (P : Z -> Z) : Prop := {
  tr_fam : tfamily (k_mem k) T;
  tr_parent p : p ∈ procs -> proc_parent (k_mem k) p = P p;
  tr_kids p c : p ∈ procs -> c ∈ T (proc_children p) -> y_state y c <> PROC_STATE_ZOMBIE /\ P c = p;
  tr_zombies p c : p ∈ procs -> c ∈ T (proc_zombie_children p) -> y_state y c = PROC_STATE_ZOMBIE /\ P c = p;
}.

(** ** Where the nodes are *)

Lemma kids_head p : p ∈ procs -> proc_children p ∈ theads.
Proof. intros Hp. apply elem_of_app. left. by apply list_elem_of_fmap_2. Qed.

Lemma zombies_head p : p ∈ procs -> proc_zombie_children p ∈ theads.
Proof. intros Hp. apply elem_of_app. right. by apply list_elem_of_fmap_2. Qed.

Lemma tnode_in p : p ∈ procs -> proc_tree_node p ∈ tnodes.
Proof. intros Hp. by apply list_elem_of_fmap_2. Qed.

Lemma tnode_inj p q : proc_tree_node p = proc_tree_node q -> p = q.
Proof. unfold proc_tree_node. lia. Qed.

Lemma tree_place x :
  x ∈ theads ++ tnodes -> exists p o, p ∈ procs /\ x = p + o /\ (o = 16 \/ o = 48 \/ o = 64).
Proof.
  intros [[(p & -> & Hp)%list_elem_of_fmap|(p & -> & Hp)%list_elem_of_fmap]%elem_of_app|
          (p & -> & Hp)%list_elem_of_fmap]%elem_of_app.
  - exists p, 48. unfold proc_children. auto.
  - exists p, 64. unfold proc_zombie_children. auto.
  - exists p, 16. unfold proc_tree_node. auto.
Qed.

(** Offsets in two processes. *)
Lemma offsets_apart p q o o' :
  p ∈ procs -> q ∈ procs -> 0 <= o < PROC_SIZE -> 0 <= o' < PROC_SIZE -> p + o = q + o' -> p = q /\ o = o'.
Proof.
  intros Hp Hq Ho Ho' E. destruct (proc_not_proc procs sems HO p q Hp Hq) as [->|Hd]; [lia|].
  unfold disj in Hd. lia.
Qed.

Lemma tree_apart : nodes_apart theads tnodes.
Proof.
  split.
  - intros x y (p & o & Hp & -> & Ho)%tree_place (q & o' & Hq & -> & Ho')%tree_place.
    destruct (proc_not_proc procs sems HO p q Hp Hq) as [->|Hd]; unfold disj, NODE_SIZE, PROC_SIZE in *; lia.
  - intros x (p & o & Hp & -> & Ho)%tree_place. pose proof (ob_procs _ _ HO) as HP. rewrite Forall_forall in HP.
    destruct (HP p Hp) as [_ Ha]. unfold addr_ok, NODE_SIZE, PROC_SIZE in *. lia.
  - intros x Hx (q & -> & Hq)%list_elem_of_fmap.
    apply elem_of_app in Hx as [(p & E & Hp)%list_elem_of_fmap|(p & E & Hp)%list_elem_of_fmap];
      [apply (offsets_apart q p 16 48) in E|apply (offsets_apart q p 16 64) in E];
      unfold PROC_SIZE; try done; lia.
Qed.

(** The bytes of the tree, and that the scheduler does not use them. *)
Definition tree_foot (a : Z) : Prop :=
  in_nodes (theads ++ tnodes) a \/ exists p, p ∈ procs /\ inrng (p + 40) 8 a.

Lemma field_unsched p o :
  p ∈ procs -> 16 <= o < 1616 \/ 1620 <= o < 1632 \/ 1672 <= o < PROC_SIZE -> ~ sched_foot (p + o).
Proof.
  intros Hp Ho HF. unfold PROC_SIZE in Ho.
  assert (forall q a b, q ∈ procs -> 0 <= a -> a + b <= PROC_SIZE -> inrng (q + a) b (p + o) -> a <= o < a + b) as Hq.
  { intros q a b Hq Ha Hb Hi. unfold inrng in Hi.
    destruct (offsets_apart p q o (p + o - q) Hp Hq) as [-> E]; unfold PROC_SIZE in *; lia. }
  destruct HF as [(x & Hx & Hb)|[(s & Hs & Hb)|[(q & Hq' & Hb)|HT]]].
  - pose proof (node_field _ _ HO x o 1 p Hx Hp) as Hd. unfold disj, inrng, NODE_SIZE, PROC_SIZE in *. lia.
  - pose proof (sem_not_proc _ _ HO s p Hs Hp). unfold disj, inrng, SEM_SIZE, PROC_SIZE in *. lia.
  - apply Hq in Hb; unfold PROC_SIZE in *; lia || done.
  - destruct (timer_foot_obj _ _ HO _ (p, PROC_SIZE) HT (obj_proc _ _ p Hp)) as (q & Hq' & Hb).
    { unfold inrng, PROC_SIZE. simpl. lia. }
    apply Hq in Hb; unfold PROC_SIZE, TIMER_SIZE in *; lia || done.
Qed.

Lemma tree_unsched a : tree_foot a -> ~ sched_foot a.
Proof.
  intros [(x & (p & o & Hp & -> & Ho)%tree_place & Ha)|(p & Hp & Ha)]; unfold inrng, NODE_SIZE in Ha.
  - replace a with (p + (a - p)) by lia. apply field_unsched; [done|lia].
  - replace a with (p + (a - p)) by lia. apply field_unsched; [done|lia].
Qed.

(** ** Adoption *)

Lemma tfamily_ext m T T' : (forall h, T h = T' h) -> tfamily m T -> tfamily m T'.
Proof. intros E. apply family_ext. intros h. by rewrite E. Qed.

Lemma tfamily_in m T h c : tfamily m T -> h ∈ theads -> c ∈ T h -> c ∈ procs.
Proof.
  intros HF Hh Hc. assert (proc_tree_node c ∈ tnodes) as Hn.
  { apply (fm_in _ _ _ _ HF h); [done|]. by apply list_elem_of_fmap_2. }
  apply list_elem_of_fmap in Hn as (p & E & Hp). by apply tnode_inj in E as ->.
Qed.

Lemma tfamily_uniq m T h1 h2 c :
  tfamily m T -> h1 ∈ theads -> h2 ∈ theads -> c ∈ T h1 -> c ∈ T h2 -> h1 = h2.
Proof.
  intros HF H1 H2 Hc1 Hc2. apply (fm_uniq _ _ _ _ HF h1 h2 (proc_tree_node c)); [done..| |];
    by apply list_elem_of_fmap_2.
Qed.

Lemma tfamily_NoDup m T h : tfamily m T -> h ∈ theads -> NoDup (T h).
Proof.
  intros HF Hh. pose proof (family_NoDup _ _ _ _ h HF Hh) as HN. by apply NoDup_fmap_1 in HN.
Qed.

Lemma fmap_without c l : proc_tree_node <$> without c l = without (proc_tree_node c) (proc_tree_node <$> l).
Proof.
  unfold without. induction l as [|x l IH]; [done|]. rewrite fmap_cons.
  destruct (decide (x = c)) as [->|Hx].
  - by rewrite !filter_cons_False by tauto.
  - rewrite !filter_cons_True by (done || by intros E%tnode_inj). by rewrite fmap_cons, IH.
Qed.

(** Removing and appending one process. *)
Lemma tfamily_remove m T h c :
  tfamily m T -> h ∈ theads -> c ∈ T h ->
  tfamily (list_remove m (proc_tree_node c)) (upd T h (without c (T h))) /\
  unch (in_nodes (theads ++ tnodes)) m (list_remove m (proc_tree_node c)).
Proof.
  intros HF Hh Hc. destruct (family_remove _ _ tree_apart m _ h (proc_tree_node c) HF Hh) as [HF' HU].
  { by apply list_elem_of_fmap_2. }
  split; [|exact HU]. eapply family_ext; [|exact HF']. intros g. unfold upd. case_decide; [|done]. by rewrite fmap_without.
Qed.

Lemma tfamily_push m T h c :
  tfamily m T -> h ∈ theads -> c ∈ procs -> (forall h', h' ∈ theads -> c ∉ T h') ->
  tfamily (list_push_back m h (proc_tree_node c)) (upd T h (T h ++ [c])) /\
  unch (in_nodes (theads ++ tnodes)) m (list_push_back m h (proc_tree_node c)).
Proof.
  intros HF Hh Hc Hfree.
  destruct (family_push_back _ _ tree_apart m _ h (proc_tree_node c) HF Hh (tnode_in c Hc)) as [HF' HU].
  { intros h' Hh' (x & E & Hx)%list_elem_of_fmap. apply tnode_inj in E as <-. by apply (Hfree h'). }
  split; [|exact HU]. eapply family_ext; [|exact HF']. intros g. unfold upd. case_decide; [|done]. by rewrite fmap_app.
Qed.

Lemma nodes_tree m m' : unch (in_nodes (theads ++ tnodes)) m m' -> unch tree_foot m m'.
Proof. apply unch_mono. by left. Qed.

(** A process removed from its list is in no list. *)
Lemma removed_free m T h c h' :
  tfamily m T -> h ∈ theads -> c ∈ T h -> h' ∈ theads -> c ∉ upd T h (without c (T h)) h'.
Proof.
  intros HF Hh Hc Hh' Hx. unfold upd in Hx. case_decide as Eh.
  - unfold without in Hx. by apply list_elem_of_filter in Hx as [? _].
  - apply Eh. by apply (tfamily_uniq m T h' h c).
Qed.

(** A field of a process that is no node of the tree. *)
Lemma tfamily_field m T p o n v :
  tfamily m T -> p ∈ procs -> 0 <= o -> o + Z.of_nat n <= PROC_SIZE ->
  o + Z.of_nat n <= 16 \/ 32 <= o /\ o + Z.of_nat n <= 48 \/ 80 <= o ->
  tfamily (store n m (p + o) v) T.
Proof.
  intros HF Hp Ho1 Ho2 Ho3. eapply family_unch; [exact HF|apply store_unch|].
  intros a (x & (q & o' & Hq & -> & Ho')%tree_place & Ha) Hb.
  destruct (proc_not_proc procs sems HO p q Hp Hq) as [->|Hd];
    unfold disj, inrng, NODE_SIZE, PROC_SIZE in *; lia.
Qed.

Lemma parent_field (m : mem) p q o n v :
  p ∈ procs -> q ∈ procs -> 0 <= o -> o + Z.of_nat n <= PROC_SIZE ->
  o + Z.of_nat n <= 40 \/ 48 <= o -> proc_parent (store n m (p + o) v) q = proc_parent m q.
Proof.
  intros Hp Hq H1 H2 H3. apply load_store_ne.
  destruct (proc_not_proc procs sems HO p q Hp Hq) as [->|Hd]; unfold disj, PROC_SIZE in *; simpl; lia.
Qed.

Lemma parent_nodes m m' q :
  q ∈ procs -> unch (in_nodes (theads ++ tnodes)) m m' -> proc_parent m' q = proc_parent m q.
Proof.
  intros Hq HU. eapply load_unch; [exact HU|]. intros a Ha (x & (p & o & Hp & -> & Ho)%tree_place & Hb).
  destruct (proc_not_proc procs sems HO p q Hp Hq) as [->|Hd];
    unfold disj, inrng, NODE_SIZE, PROC_SIZE in *; simpl in *; lia.
Qed.

Lemma state_kept m m' c : c ∈ procs -> unch tree_foot m m' -> proc_state m' c = proc_state m c.
Proof.
  intros Hc HU. eapply load_unch; [exact HU|]. intros a Ha HF. apply (tree_unsched a HF).
  right; right; left. exists c. split; [done|exact Ha].
Qed.

Lemma parent_store m p v : p ∈ procs -> unch tree_foot m (set_proc_parent m p v).
Proof. intros Hp. eapply unch_mono; [|apply (store_unch 8)]. intros a Ha. right. by exists p. Qed.

(** [proc_adopt] by [init], from the list [h] to one of [init]'s. *)
Lemma adopt_one m T h d c init :
  tfamily m T -> h ∈ theads -> c ∈ T h -> init ∈ procs -> 0 <= init < 2 ^ 64 -> d ∈ theads -> h <> d ->
  d = (if proc_state m c =? PROC_STATE_ZOMBIE then proc_zombie_children init else proc_children init) ->
  tfamily (proc_adopt m init c) (upd (upd T h (without c (T h))) d (T d ++ [c])) /\
  (forall q, q ∈ procs -> proc_parent (proc_adopt m init c) q = if decide (q = c) then init else proc_parent m q) /\
  unch tree_foot m (proc_adopt m init c).
Proof.
  intros HF Hh Hc Hi Hr Hd Hne Ed. pose proof (tfamily_in _ _ _ _ HF Hh Hc) as Hcp.
  destruct (tfamily_remove m T h c HF Hh Hc) as [HF1 HU1].
  pose proof (fun h' => removed_free m T h c h' HF Hh Hc) as Hfree.
  set (m1 := list_remove m (proc_tree_node c)) in *. set (T1 := upd T h (without c (T h))) in *.
  set (m2 := set_proc_parent m1 c init).
  pose proof (tfamily_field m1 T1 c 40 8 init HF1 Hcp ltac:(lia) ltac:(done) ltac:(lia) : tfamily m2 T1) as HF2.
  assert (unch tree_foot m m2) as HU2 by (etrans; [by apply nodes_tree|by apply parent_store]).
  assert (proc_adopt m init c = list_push_back m2 d (proc_tree_node c)) as ->.
  { unfold proc_adopt. fold m1. fold m2. rewrite (state_kept m m2 c Hcp HU2), Ed.
    by destruct (proc_state m c =? PROC_STATE_ZOMBIE). }
  assert (T1 d = T d) as Ed1 by (unfold T1; by rewrite upd_ne).
  destruct (tfamily_push m2 T1 d c HF2 Hd Hcp Hfree) as [HF3 HU3]. rewrite Ed1 in HF3.
  split_and!; [exact HF3| |etrans; [exact HU2|by apply nodes_tree]].
  intros q Hq. rewrite (parent_nodes m2 _ q Hq HU3). case_decide as Eq.
  - subst q. unfold proc_parent, m2, set_proc_parent. rewrite load8_store8. by apply u64_small.
  - unfold m2, set_proc_parent, proc_parent. rewrite load_store_ne; [by apply (parent_nodes m m1 q Hq)|].
    destruct (proc_not_proc procs sems HO q c Hq Hcp); [done|]. unfold disj, PROC_SIZE in *. simpl. lia.
Qed.

(** The loops of [exit]: a list of zombies, or of children, goes to [init]. *)
Lemma adopt_all_spec m T h d init :
  tfamily m T -> h ∈ theads -> init ∈ procs -> init <> nullptr -> 0 <= init < 2 ^ 64 -> d ∈ theads -> h <> d ->
  (forall c, c ∈ T h ->
     d = if proc_state m c =? PROC_STATE_ZOMBIE then proc_zombie_children init else proc_children init) ->
  exists m', adopt_all init h m = Some m' /\ tfamily m' (t_merge h d T) /\
    (forall q, q ∈ procs -> proc_parent m' q = if decide (q ∈ T h) then init else proc_parent m q) /\
    unch tree_foot m m'.
Proof.
  intros HF Hh Hi Hn Hr Hd Hne Hst. unfold adopt_all.
  set (I := fun n m' => exists l1 l2, T h = l1 ++ l2 /\ n = Z.of_nat (length l2) /\
    tfamily m' (upd (upd T h l2) d (T d ++ l1)) /\
    (forall q, q ∈ procs -> proc_parent m' q = if decide (q ∈ l1) then init else proc_parent m q) /\
    unch tree_foot m m').
  set (Q := fun r => exists m', r = Some m' /\ tfamily m' (t_merge h d T) /\
    (forall q, q ∈ procs -> proc_parent m' q = if decide (q ∈ T h) then init else proc_parent m q) /\
    unch tree_foot m m').
  pose proof (tfamily_NoDup m T h HF Hh) as HND.
  destruct (while_rule (fun m => if list_empty m h then inr (Some m)
     else if init =? nullptr then inr None else inl (proc_adopt m init (list_first_entry m h 16))) I Q)
    with (k := Z.of_nat (length (T h))) (s := m) as (r & E & m' & -> & HQ).
  - intros n m1 (l1 & l2 & El & -> & HF1 & HP1 & HU1).
    set (T1 := upd (upd T h l2) d (T d ++ l1)) in *.
    assert (T1 h = l2) as Eh by (unfold T1; by rewrite upd_ne, upd_eq).
    pose proof (fm_list _ _ _ _ HF1 h Hh) as HD. cbv beta in HD. rewrite Eh in HD.
    rewrite (list_empty_spec _ _ _ HD). destruct l2 as [|c l2]; cbn [bool_decide fmap list_fmap].
    + exists m1. rewrite app_nil_r in El. split_and!; [done| | |done].
      * unfold t_merge. rewrite El. exact HF1.
      * intros q Hq. rewrite HP1 by done. by rewrite El.
    + rewrite (proj2 (Z.eqb_neq _ _) Hn).
      unfold list_first_entry, list_entry. rewrite (list_front_spec _ _ _ HD). simpl hd.
      replace (proc_tree_node c - 16) with c by (unfold proc_tree_node; lia).
      assert (c ∈ T h) as HcT by (rewrite El; set_solver).
      assert (c ∈ procs) as Hcp by (by apply (tfamily_in m T h c)).
      destruct (adopt_one m1 T1 h d c init HF1 Hh) as (HF2 & HP2 & HU2); try done.
      { rewrite Eh. left. } { rewrite (state_kept m m1 c Hcp HU1). by apply Hst. }
      exists (Z.of_nat (length l2)). split; [simpl; lia|]. exists (l1 ++ [c]), l2.
      split_and!; [by rewrite <-app_assoc|done| | |by etrans].
      * eapply tfamily_ext; [|exact HF2]. intros g. rewrite Eh, without_head.
        2: { rewrite El in HND. apply NoDup_app in HND as (_ & _ & HND). by apply NoDup_cons in HND as [? _]. }
        unfold T1, upd. repeat case_decide; subst; rewrite <-?app_assoc; done.
      * intros q Hq. rewrite HP2 by done. rewrite HP1 by done.
        destruct (decide (q = c)) as [->|Hqc]; [by rewrite decide_True by set_solver|].
        destruct (decide (q ∈ l1)); [by rewrite decide_True by set_solver|].
        by rewrite decide_False by set_solver.
  - exists [], (T h). split_and!; [done|done| |done|done].
    eapply tfamily_ext; [|exact HF]. intros g. rewrite app_nil_r. unfold upd. by repeat case_decide; subst.
  - assert (length (T h) <= length procs)%nat.
    { apply submseteq_length, NoDup_submseteq; [done|]. intros c Hc. by apply (tfamily_in m T h c). }
    unfold PROC_TABLE_SIZE in Hmany. lia.
  - exists m'. split; [by rewrite E|exact HQ].
Qed.

(** ** [exit] *)

Lemma adopt_children_spec k T head d init :
  tfamily (k_mem k) T -> head (k_curr k) ∈ theads -> pt_get (k_procs k) 1 = init -> init ∈ procs ->
  d ∈ theads -> head (k_curr k) <> d ->
  (forall c, c ∈ T (head (k_curr k)) -> d = if proc_state (k_mem k) c =? PROC_STATE_ZOMBIE
                                            then proc_zombie_children init else proc_children init) ->
  exists m', adopt_children head k = Ret (set_mem m' k) tt /\ tfamily m' (t_merge (head (k_curr k)) d T) /\
    (forall q, q ∈ procs -> proc_parent m' q =
       if decide (q ∈ T (head (k_curr k))) then init else proc_parent (k_mem k) q) /\
    unch tree_foot (k_mem k) m'.
Proof.
  intros HF Hh Ei Hi Hd Hne Hst. pose proof (ob_procs _ _ HO) as HP. rewrite Forall_forall in HP.
  destruct (HP init Hi) as [Hn Ha]. unfold addr_ok, PROC_SIZE in Ha.
  destruct (adopt_all_spec (k_mem k) T (head (k_curr k)) d init HF Hh Hi Hn ltac:(lia) Hd Hne Hst)
    as (m' & E & HF' & HP' & HU'). exists m'. split_and!; [|done..].
  unfold adopt_children, curr_proc. rewrite !bind_gets, Ei, E. reflexivity.
Qed.

(** The two loops, and the move of [p] from the children to the zombies of its
    parent [q]. *)
Lemma exit_tree (T : lists) P p init q :
  (forall r c, r ∈ procs -> c ∈ T (proc_children r) -> P c = r) ->
  (forall r c, r ∈ procs -> c ∈ T (proc_zombie_children r) -> P c = r) ->
  p ∈ procs -> q ∈ procs -> q <> p -> p ∈ T (proc_children q) -> init ∈ procs -> init <> p ->
  let T1 := t_merge (proc_children p) (proc_children init) T in
  let T2 := t_merge (proc_zombie_children p) (proc_zombie_children init) T1 in
  (T1 (proc_zombie_children p) = T (proc_zombie_children p)) /\ p ∈ T2 (proc_children q) /\
  (p ∉ T (proc_children p)) /\ (p ∉ T (proc_zombie_children p)).
Proof.
  intros HK HZ Hp Hq Hqp Hpq Hi Hip. cbv zeta.
  assert (forall a b, a ∈ procs -> b ∈ procs -> proc_children a <> proc_zombie_children b) as Hkz.
  { intros a b Ha Hb E. apply (offsets_apart a b 48 64) in E; unfold PROC_SIZE; try done; lia. }
  assert (P p = q) as Ep by (by apply HK).
  assert (p ∉ T (proc_children p)) as N1. { intros Hc. apply HK in Hc; [congruence|done]. }
  assert (p ∉ T (proc_zombie_children p)) as N2. { intros Hc. apply HZ in Hc; [congruence|done]. }
  assert (forall a b, proc_children a = proc_children b -> a = b) as Hinj by (unfold proc_children; lia).
  split_and!; [| |done|done].
  - unfold t_merge. rewrite !upd_ne; [done|..]; intros E; symmetry in E;
      [exact (Hkz _ _ Hp Hp E)|exact (Hkz _ _ Hi Hp E)].
  - unfold t_merge at 1. rewrite !upd_ne by (apply Hkz; done). unfold t_merge, upd.
    case_decide as E; [apply elem_of_app; left; by rewrite <-E|].
    case_decide as E2; [|done]. by apply Hinj in E2.
Qed.

(** The end of [sys_exit]. *)
Definition exit_tail (p q : Z) : M Z :=
  let* st := mem_of (fun m => proc_state m q) in
  (if st =? PROC_STATE_WAIT_CHILD
   then
     upd_mem (fun m => set_proc_proc_waiting m q p) ;*
     sched_update_state q PROC_STATE_READY
   else ret tt) ;*
  sched_update_state p PROC_STATE_ZOMBIE ;*
  halt Stuck.

(** What [sys_exit] writes before that. *)
Definition exit_foot (p a : Z) : Prop := tree_foot a \/ inrng (p + 1672) 4 a.

Definition t_parent (init : Z) (orphans : list Z) (P : Z -> Z) : Z -> Z :=
  fun c => if decide (c ∈ orphans) then init else P c.

Lemma status_kept m m' p : p ∈ procs -> unch tree_foot m m' -> proc_exit_status m' p = proc_exit_status m p.
Proof.
  intros Hp HU. unfold proc_exit_status. f_equal. eapply load_unch; [exact HU|].
  intros a Ha [(x & (r & o & Hr & -> & Ho)%tree_place & Hb)|(r & Hr & Hb)];
    (destruct (proc_not_proc procs sems HO p r Hp Hr) as [->|Hd];
     unfold disj, inrng, NODE_SIZE, PROC_SIZE in *; simpl in *; lia).
Qed.

Lemma exit_mem frame k y T P init :
  rep k y -> tree k y T P -> pt_get (k_procs k) 1 = init -> init ∈ procs ->
  let p := k_curr k in
  let q := P p in
  p ∈ procs -> q ∈ procs -> q <> p -> p ∈ T (proc_children q) -> init <> p ->
  exists m, sys_exit frame k = exit_tail p q (set_mem m k) /\
    tfamily m (t_exit p init q T) /\
    (forall r, r ∈ procs -> proc_parent m r =
       t_parent init (T (proc_children p) ++ T (proc_zombie_children p)) P r) /\
    proc_exit_status m p = i32 (frame_a0 (k_mem k) frame) /\ unch (exit_foot p) (k_mem k) m.
Proof.
  intros HR [HF HP HK HZ] Ei Hi p q Hp Hq Hqp Hpq Hip.
  assert (forall r c, r ∈ procs -> c ∈ T (proc_children r) -> P c = r) as HK' by (intros; by apply HK).
  assert (forall r c, r ∈ procs -> c ∈ T (proc_zombie_children r) -> P c = r) as HZ' by (intros; by apply HZ).
  destruct (exit_tree T P p init q HK' HZ' Hp Hq Hqp Hpq Hi Hip) as (ET1 & HpT2 & N1 & N2). cbv zeta in *.
  set (status := i32 (frame_a0 (k_mem k) frame)).
  set (m1 := set_proc_exit_status (k_mem k) p status).
  pose proof (tfamily_field (k_mem k) T p 1672 4 status HF Hp ltac:(lia) ltac:(done) ltac:(lia) : tfamily m1 T) as HF1.
  assert (unch (inrng (p + 1672) 4) (k_mem k) m1) as HU1 by apply (store_unch 4).
  assert (forall c, c ∈ procs -> proc_state m1 c = y_state y c) as Hst1.
  { intros c Hc. rewrite <-(rp_state _ _ _ _ HR c Hc). apply load_store_ne.
    destruct (proc_not_proc procs sems HO c p Hc Hp) as [->|Hd]; unfold disj, PROC_SIZE in *; simpl; lia. }
  assert (forall r, r ∈ procs -> proc_parent m1 r = P r) as HP1.
  { intros r Hr. rewrite <-HP by done. apply parent_field; try done; unfold PROC_SIZE; simpl; lia. }
  destruct (adopt_children_spec (set_mem m1 k) T proc_children (proc_children init) init) as (m2 & E2 & HF2 & HP2 & HU2);
    try done; [by apply kids_head|by apply kids_head|unfold proc_children; simpl; fold p; lia| |].
  { intros c Hc. simpl. rewrite Hst1 by by apply (tfamily_in m1 T (proc_children p)); [..|apply kids_head|].
    destruct (HK p c Hp Hc) as [Hs _]. by rewrite (proj2 (Z.eqb_neq _ _) Hs). }
  change (set_mem m2 (set_mem m1 k)) with (set_mem m2 k) in E2.
  simpl in HF2, HP2, HU2. fold p in HF2, HP2. set (T1 := t_merge _ _ T) in *.
  destruct (adopt_children_spec (set_mem m2 k) T1 proc_zombie_children (proc_zombie_children init) init)
    as (m3 & E3 & HF3 & HP3 & HU3);
    try done; [by apply zombies_head|by apply zombies_head|unfold proc_zombie_children; simpl; fold p; lia| |].
  { simpl. fold p. rewrite ET1. intros c Hc.
    assert (c ∈ procs) as Hcp by by apply (tfamily_in m1 T (proc_zombie_children p)); [..|apply zombies_head|].
    rewrite (state_kept m1 m2 c Hcp HU2), Hst1 by done. destruct (HZ p c Hp Hc) as [-> _]. done. }
  change (set_mem m3 (set_mem m2 k)) with (set_mem m3 k) in E3.
  simpl in HF3, HP3, HU3. fold p in HF3, HP3. set (T2 := t_merge _ _ T1) in *.
  assert (forall r, r ∈ procs -> proc_parent m3 r =
    t_parent init (T (proc_children p) ++ T (proc_zombie_children p)) P r) as HP3'.
  { intros r Hr. rewrite HP3, ET1, HP2, HP1 by done. unfold t_parent. clear.
    repeat case_decide; try done; set_solver. }
  assert (proc_parent m3 p = q) as Eq.
  { rewrite HP3' by done. unfold t_parent. rewrite decide_False; [done|]. rewrite elem_of_app. tauto. }
  destruct (tfamily_remove m3 T2 (proc_children q) p HF3 (kids_head q Hq) HpT2) as [HF4 HU4].
  pose proof (fun h' => removed_free m3 T2 _ p h' HF3 (kids_head q Hq) HpT2) as Hfree.
  set (m4 := list_remove m3 (proc_tree_node p)) in *. set (T3 := upd T2 _ _) in *.
  destruct (tfamily_push m4 T3 (proc_zombie_children q) p HF4 (zombies_head q Hq) Hp Hfree) as [HF5 HU5].
  set (m5 := list_push_back m4 (proc_zombie_children q) (proc_tree_node p)) in *.
  assert (unch tree_foot m1 m5) as HU.
  { etrans; [exact HU2|]. etrans; [exact HU3|]. etrans; [|by apply nodes_tree]. by apply nodes_tree. }
  exists m5. split_and!.
  - unfold sys_exit. rewrite bind_mem. fold status. unfold curr_proc. rewrite bind_gets. fold p.
    rewrite bind_upd. fold m1. rewrite (bind_Ret _ _ _ _ _ E2), (bind_Ret _ _ _ _ _ E3), bind_mem.
    change (k_mem (set_mem m3 k)) with m3. rewrite Eq, bind_upd.
    unfold deref. rewrite (proj2 (Z.eqb_neq q nullptr)).
    2: { pose proof (ob_procs _ _ HO) as HPs. rewrite Forall_forall in HPs. by apply HPs. }
    rewrite bind_ret, bind_upd. reflexivity.
  - exact HF5.
  - intros r Hr. rewrite <-HP3' by done. by rewrite (parent_nodes m4 m5), (parent_nodes m3 m4).
  - rewrite (status_kept m1 m5 p Hp HU). unfold m1, proc_exit_status, set_proc_exit_status. rewrite load4_store4.
    apply i32_load4. unfold status, i32. pose proof (Z.mod_pos_bound (frame_a0 (k_mem k) frame + 2 ^ 31) (2 ^ 32)). lia.
  - etrans; [eapply unch_mono; [|exact HU1]; by right|]. eapply unch_mono; [|exact HU]. by left.
Qed.

(** The scheduler leaves the tree alone. *)
Lemma tree_sched m m' T : tfamily m T -> unch sched_foot m m' -> tfamily m' T.
Proof.
  intros HF HU. eapply family_unch; [exact HF|exact HU|]. intros a Ha. apply tree_unsched. by left.
Qed.

Lemma unsched_kept m m' p o n :
  unch sched_foot m m' -> p ∈ procs ->
  16 <= o /\ o + Z.of_nat n <= 1616 \/ 1620 <= o /\ o + Z.of_nat n <= 1632 \/ 1672 <= o /\ o + Z.of_nat n <= PROC_SIZE ->
  load n m' (p + o) = load n m (p + o).
Proof.
  intros HU Hp Ho. eapply load_unch; [exact HU|]. intros a Ha. unfold inrng in Ha.
  replace a with (p + (a - p)) by lia. apply field_unsched; [done|lia].
Qed.

(** The end of [exit]: the parent is woken, and the next process runs. *)
Lemma exit_tail_spec k y p q :
  rep k y -> running y -> y_curr y = p -> p <> sym_idle_proc -> q ∈ procs -> q <> p ->
  let y1 := if y_state y q =? PROC_STATE_WAIT_CHILD then (y_step (Wake q) y).1 else y in
  let y2 := (y_step Exit y1).1 in
  exists k' rest, exit_tail p q k = Switch k' nullptr (y_curr y2) rest /\ (forall k2, rest k2 = Stop k2 Stuck) /\
    rep k' y2 /\ running y2 /\ k_procs k' = k_procs k /\
    unch (fun a => sched_foot a \/ inrng (q + 1624) 8 a) (k_mem k) (k_mem k') /\
    (y_state y q = PROC_STATE_WAIT_CHILD -> proc_proc_waiting (k_mem k') q = p).
Proof.
  intros HR HW Ec Hidle Hq Hqp. cbv zeta.
  set (y1 := if y_state y q =? PROC_STATE_WAIT_CHILD then (y_step (Wake q) y).1 else y).
  pose proof (ob_procs _ _ HO) as HPs. rewrite Forall_forall in HPs.
  assert (p ∈ procs) as Hp by (rewrite <-Ec; apply HW). destruct (HPs p Hp) as [_ Hpa].
  assert (exists k1, (if proc_state (k_mem k) q =? PROC_STATE_WAIT_CHILD
     then upd_mem (fun m => set_proc_proc_waiting m q p) ;* sched_update_state q PROC_STATE_READY else ret tt) k
     = Ret k1 tt /\ rep k1 y1 /\ running y1 /\ y_curr y1 = p /\ k_procs k1 = k_procs k /\
     unch (fun a => sched_foot a \/ inrng (q + 1624) 8 a) (k_mem k) (k_mem k1) /\
     (y_state y q = PROC_STATE_WAIT_CHILD -> proc_proc_waiting (k_mem k1) q = p))
    as (k1 & E1 & HR1 & HW1 & Ec1 & Ep1 & HU1 & Hw1).
  { unfold y1. rewrite (rp_state _ _ _ _ HR q Hq). case_test; [|by exists k]. rewrite bind_upd.
    set (m0 := set_proc_proc_waiting (k_mem k) q p). set (k0 := set_mem m0 k).
    assert (unch (inrng (q + 1624) 8) (k_mem k) m0) as HU0 by apply (store_unch 8).
    assert (rep k0 y) as HR0.
    { eapply rep_apart; [exact HR| |done|done]. eapply unch_mono; [|exact HU0]. intros a Ha.
      unfold inrng in Ha. replace a with (q + (a - q)) by lia. apply field_unsched; [done|lia]. }
    destruct (wake_ok procs sems HO k0 y q HR0 HW) as (k1 & E1 & HR1 & HW1 & [HU1 _ Ep1 _]).
    { split; [done|]. rewrite E. set_solver. }
    exists k1. split_and!; [exact E1|exact HR1|exact HW1| |exact Ep1| |].
    - simpl. by rewrite E.
    - etrans; eapply unch_mono; [|exact HU0| |exact HU1]; [by right|by left].
    - intros _. unfold proc_proc_waiting. rewrite (unsched_kept _ _ q 1624 8 HU1 Hq) by (simpl; lia).
      unfold k0, m0, set_proc_proc_waiting. simpl k_mem. rewrite load8_store8. apply u64_small.
      unfold addr_ok, PROC_SIZE in Hpa. lia. }
  destruct (exit_ok procs sems HO Hmany k1 y1 HR1 HW1) as (k2 & E2 & HR2 & HW2 & [HU2 _ Ep2 _]).
  { simpl. by rewrite Ec1. }
  eexists k2, _. split_and!.
  - unfold exit_tail. rewrite bind_mem, (bind_Ret _ _ _ _ _ E1).
    unfold run_sop, curr_proc in E2. rewrite bind_gets, (rp_curr _ _ _ _ HR1), Ec1 in E2.
    unfold bind. rewrite E2. simpl. f_equal.
    symmetry. refine (run_next_curr procs sems _ _). rewrite Ec1. apply wf_stop; [|done|done|set_solver].
    rewrite <-Ec1. apply HW1.
  - done.
  - exact HR2.
  - exact HW2.
  - by rewrite Ep2.
  - etrans; [exact HU1|]. eapply unch_mono; [|exact HU2]. by left.
  - intros Hst. rewrite <-(Hw1 Hst). by apply (unsched_kept _ _ q 1624 8 HU2 Hq); simpl; lia.
Qed.

(** ** The tree afterwards *)

(** Who is a child, and who is a zombie. *)
Lemma t_exit_kids p init q T r c :
  p ∈ procs -> q ∈ procs -> init ∈ procs -> r ∈ procs -> init <> p -> q <> p ->
  (forall r', r' ∈ procs -> p ∈ T (proc_children r') -> r' = q) ->
  c ∈ t_exit p init q T (proc_children r) ->
  c <> p /\ (r <> p /\ c ∈ T (proc_children r) \/ r = init /\ c ∈ T (proc_children p)).
Proof.
  intros Hp Hq Hi Hr Hip Hqp Hpq. unfold t_exit, t_merge.
  assert (forall a b, a ∈ procs -> b ∈ procs -> proc_children a <> proc_zombie_children b) as Hkz.
  { intros a b Ha Hb E. apply (offsets_apart a b 48 64) in E; unfold PROC_SIZE; try done; lia. }
  assert (forall a b, proc_children a = proc_children b -> a = b) as Hinj by (unfold proc_children; lia).
  rewrite (upd_ne _ (proc_zombie_children q)) by by apply Hkz.
  rewrite !(upd_ne _ (proc_zombie_children init) _ (proc_children q)) by by apply Hkz.
  rewrite !(upd_ne _ (proc_zombie_children p) _ (proc_children q)) by by apply Hkz.
  unfold upd at 1. case_decide as E1.
  - apply Hinj in E1 as ->. unfold without. rewrite list_elem_of_filter. intros [Hcp Hc]. split; [done|].
    unfold upd in Hc. case_decide as E2.
    + apply Hinj in E2 as ->. apply elem_of_app in Hc as [Hc|Hc]; [by left|by right].
    + case_decide as E3; [by apply elem_of_nil in Hc|]. left. split; [by intros ->|done].
  - rewrite (upd_ne _ (proc_zombie_children init)), (upd_ne _ (proc_zombie_children p)) by by apply Hkz.
    intros Hc. unfold upd in Hc.
    assert (r <> q) as Hrq by (by intros ->).
    case_decide as E2.
    + apply Hinj in E2 as ->. apply elem_of_app in Hc as [Hc|Hc].
      * split; [|by left]. intros ->. by apply Hrq, Hpq.
      * split; [|by right]. intros ->. by apply Hqp, eq_sym, Hpq.
    + case_decide as E3; [by apply elem_of_nil in Hc|]. split; [|left; split; [by intros ->|done]].
      intros ->. by apply Hrq, Hpq.
Qed.

Lemma t_exit_zombies p init q T r c :
  p ∈ procs -> q ∈ procs -> init ∈ procs -> r ∈ procs -> init <> p -> q <> p ->
  c ∈ t_exit p init q T (proc_zombie_children r) ->
  r <> p /\ c ∈ T (proc_zombie_children r) \/ r = init /\ c ∈ T (proc_zombie_children p) \/ r = q /\ c = p.
Proof.
  intros Hp Hq Hi Hr Hip Hqp.
  assert (forall a b, a ∈ procs -> b ∈ procs -> proc_zombie_children a <> proc_children b) as Hzk.
  { intros a b Ha Hb E. apply (offsets_apart a b 64 48) in E; unfold PROC_SIZE; try done; lia. }
  assert (forall a b, proc_zombie_children a = proc_zombie_children b -> a = b) as Hinj
    by (unfold proc_zombie_children; lia).
  set (T0 := upd (upd T (proc_children p) []) (proc_children init) (T (proc_children init) ++ T (proc_children p))).
  assert (forall a, a ∈ procs -> T0 (proc_zombie_children a) = T (proc_zombie_children a)) as E0.
  { intros a Ha. unfold T0. by rewrite !upd_ne by by apply Hzk. }
  assert (forall z, z ∈ procs -> c ∈ t_merge (proc_zombie_children p) (proc_zombie_children init) T0 (proc_zombie_children z) ->
    z <> p /\ c ∈ T (proc_zombie_children z) \/ z = init /\ c ∈ T (proc_zombie_children p)) as HM.
  { intros z Hz. unfold t_merge. rewrite !E0 by done. unfold upd. case_decide as E.
    - apply Hinj in E as ->. intros [Hc|Hc]%elem_of_app; [by left|by right].
    - case_decide as E2; [by intros []%elem_of_nil|]. rewrite E0 by done. left. split; [by intros ->|done]. }
  unfold t_exit. fold (t_merge (proc_children p) (proc_children init) T) in T0. fold T0.
  unfold upd at 1. case_decide as E.
  - apply Hinj in E as ->. rewrite upd_ne by by apply Hzk.
    intros [Hc| ->%list_elem_of_singleton]%elem_of_app; [|by right; right]. destruct (HM q Hq Hc); tauto.
  - rewrite upd_ne by by apply Hzk. intros Hc. destruct (HM r Hr Hc); tauto.
Qed.

(** No process but [p] becomes a zombie. *)
Lemma exit_states y p q c :
  running y -> y_curr y = p -> p <> sym_idle_proc -> q ∈ procs -> c ∈ procs ->
  let y1 := if y_state y q =? PROC_STATE_WAIT_CHILD then (y_step (Wake q) y).1 else y in
  running y1 -> y_curr y1 = p ->
  y_state (y_step Exit y1).1 c = PROC_STATE_ZOMBIE <-> c = p \/ y_state y c = PROC_STATE_ZOMBIE.
Proof.
  intros HW Ec Hidle Hq Hc y1 HW1 Ec1. simpl. rewrite Ec1.
  assert (wf procs sems None (y_set_state p PROC_STATE_ZOMBIE y1)) as HW2.
  { rewrite <-Ec1. apply wf_stop; [apply HW1|apply HW1|by rewrite Ec1|set_solver]. }
  assert (y_state (y_run_next (y_set_state p PROC_STATE_ZOMBIE y1)) c = PROC_STATE_ZOMBIE <->
          y_state (y_set_state p PROC_STATE_ZOMBIE y1) c = PROC_STATE_ZOMBIE) as ->.
  { set (z := y_set_state p PROC_STATE_ZOMBIE y1) in *. unfold y_run_next.
    destruct (y_ready z) as [|n rest] eqn:Er; [done|].
    change (upd (y_state z) n PROC_STATE_CURR c = PROC_STATE_ZOMBIE <-> y_state z c = PROC_STATE_ZOMBIE).
    unfold upd. case_decide; [subst n|done]. split; [done|]. intros E.
    assert (y_state z c = PROC_STATE_READY) as E' by (apply (wf_ready _ _ _ _ HW2); [done|rewrite Er; left]).
    by rewrite E in E'. }
  simpl. unfold upd. case_decide; [tauto|].
  assert (y_state y1 c = PROC_STATE_ZOMBIE <-> y_state y c = PROC_STATE_ZOMBIE) as ->; [|tauto].
  unfold y1. case_test; [|done]. simpl. rewrite E. simpl. unfold upd. case_decide; [subst c|done].
  rewrite E. done.
Qed.

(** The lists of the new tree hold what they should. *)
Section after_exit.
Context (k : kst) (y : sys) (T : lists) (P : Z -> Z) (p init q : Z).
Context (HT : tree k y T P).
Context (Hp : p ∈ procs) (Hq : q ∈ procs) (Hi : init ∈ procs) (Hip : init <> p) (Hqp : q <> p).
Context (Hpq : p ∈ T (proc_children q)) (HPp : P p = q).

Let P' := t_parent init (T (proc_children p) ++ T (proc_zombie_children p)) P.

Lemma not_orphan c r : P c = r -> r <> p -> P' c = r.
Proof.
  intros Hc Hr. unfold P', t_parent. rewrite decide_False; [done|].
  intros [Hx|Hx]%elem_of_app; [apply (tr_kids _ _ _ _ HT) in Hx as [_ Hx]|apply (tr_zombies _ _ _ _ HT) in Hx as [_ Hx]];
    congruence.
Qed.

Lemma orphan c : c ∈ T (proc_children p) ++ T (proc_zombie_children p) -> P' c = init.
Proof. intros Hc. unfold P', t_parent. by rewrite decide_True. Qed.

Lemma exit_kids_ok r c :
  r ∈ procs -> c ∈ t_exit p init q T (proc_children r) ->
  c ∈ procs /\ c <> p /\ y_state y c <> PROC_STATE_ZOMBIE /\ P' c = r.
Proof.
  intros Hr Hc. pose proof HT as [HF _ HK _]. apply t_exit_kids in Hc as (Hcp & Hc); try done.
  2: { intros r' Hr' Hx. by apply HK in Hx as [_ <-]. }
  destruct Hc as [[Hrp Hc]|[-> Hc]].
  - destruct (HK r c Hr Hc). split_and!; [by apply (tfamily_in _ _ _ _ HF (kids_head r Hr))|done|done|by apply not_orphan].
  - destruct (HK p c Hp Hc). split_and!; [by apply (tfamily_in _ _ _ _ HF (kids_head p Hp))|done|done|].
    apply orphan. set_solver.
Qed.

Lemma exit_zombies_ok r c :
  r ∈ procs -> c ∈ t_exit p init q T (proc_zombie_children r) ->
  c ∈ procs /\ (c = p \/ y_state y c = PROC_STATE_ZOMBIE) /\ P' c = r.
Proof.
  intros Hr Hc. pose proof HT as [HF _ _ HZ]. apply t_exit_zombies in Hc; try done.
  destruct Hc as [[Hrp Hc]|[[-> Hc]|[-> ->]]].
  - destruct (HZ r c Hr Hc). split_and!; [by apply (tfamily_in _ _ _ _ HF (zombies_head r Hr))|by right|by apply not_orphan].
  - destruct (HZ p c Hp Hc). split_and!; [by apply (tfamily_in _ _ _ _ HF (zombies_head p Hp))|by right|].
    apply orphan. set_solver.
  - split_and!; [done|by left|by apply not_orphan].
Qed.
End after_exit.

Lemma wake_running k y q :
  rep k y -> running y -> q ∈ procs ->
  let y1 := if y_state y q =? PROC_STATE_WAIT_CHILD then (y_step (Wake q) y).1 else y in
  running y1 /\ y_curr y1 = y_curr y.
Proof.
  intros HR HW Hq. cbv zeta. case_test; [|done].
  destruct (wake_ok procs sems HO k y q HR HW) as (k1 & _ & _ & HW1 & _).
  { split; [done|]. rewrite E. set_solver. }
  split; [exact HW1|]. simpl. by rewrite E.
Qed.

(** C5. [exit] of a process [p] with parent [q]: the processor goes to the next
    ready process and [p] never runs again.  Its children and its zombies become
    the last children and zombies of the first process, in their order and with
    the new parent; [p] itself leaves the children of [q] and becomes its last
    zombie, with the exit status the program gave.  If [q] waits for a child, it
    is woken and told that it is [p].  The rest of the tree and the scheduler's
    invariant stay. *)
Theorem exit_reaps frame k y T P init :
  rep k y -> running y -> tree k y T P ->
  let p := y_curr y in
  let q := P p in
  p <> sym_idle_proc -> pt_get (k_procs k) 1 = init -> init ∈ procs -> init <> p ->
  q ∈ procs -> q <> p -> p ∈ T (proc_children q) ->
  let woken := y_state y q =? PROC_STATE_WAIT_CHILD in
  let y' := (y_step Exit (if woken then (y_step (Wake q) y).1 else y)).1 in
  exists k' rest, sys_exit frame k = Switch k' nullptr (y_curr y') rest /\ (forall k2, rest k2 = Stop k2 Stuck) /\
    rep k' y' /\ running y' /\
    tree k' y' (t_exit p init q T) (t_parent init (T (proc_children p) ++ T (proc_zombie_children p)) P) /\
    proc_exit_status (k_mem k') p = i32 (frame_a0 (k_mem k) frame) /\
    (woken = true -> proc_proc_waiting (k_mem k') q = p).
Proof.
  intros HR HW HT p q Hidle Ei Hi Hip Hq Hqp Hpq. cbv zeta.
  pose proof (proj1 HW : p ∈ procs) as Hp. pose proof (rp_curr _ _ _ _ HR : k_curr k = p) as Ec.
  destruct (exit_mem frame k y T P init HR HT Ei Hi) as (m & E1 & HF1 & HP1 & Hst1 & HU1); rewrite ?Ec; try done.
  rewrite Ec in E1, HF1, HP1, Hst1, HU1. fold q in E1, HF1. set (k1 := set_mem m k) in *.
  assert (rep k1 y) as HR1.
  { eapply rep_apart; [exact HR| |done|done]. eapply unch_mono; [|exact HU1].
    intros a [Ha|Ha]; [by apply tree_unsched|]. unfold inrng in Ha. replace a with (p + (a - p)) by lia.
    apply field_unsched; [done|unfold PROC_SIZE; lia]. }
  destruct (exit_tail_spec k1 y p q HR1 HW eq_refl Hidle Hq Hqp) as (k2 & rest & E2 & Hrest & HR2 & HW2 & _ & HU2 & Hw2).
  destruct (wake_running k y q HR HW Hq) as [HWy1 Ecy1]. cbv zeta in *.
  set (y1 := if y_state y q =? PROC_STATE_WAIT_CHILD then (y_step (Wake q) y).1 else y) in *.
  assert (forall a o n, a ∈ procs -> 16 <= o /\ o + Z.of_nat n <= 1616 \/ 1672 <= o /\ o + Z.of_nat n <= PROC_SIZE ->
    load n (k_mem k2) (a + o) = load n m (a + o)) as Hkeep.
  { intros a o n Ha Ho. eapply load_unch; [exact HU2|]. intros x Hx [Hs|Hs]; unfold inrng in *.
    - revert Hs. replace x with (a + (x - a)) by lia. apply field_unsched; [done|lia].
    - destruct (offsets_apart a q (x - a) (x - q)) as [-> E]; try done; unfold PROC_SIZE in *; lia. }
  exists k2, rest. split_and!; [by rewrite E1|done|done|done| | |].
  - split.
    + eapply family_unch; [exact HF1|exact HU2|]. intros a Ha [Hs|Hs]; [by apply (tree_unsched a); [left|]|].
      destruct Ha as (x & (r & o & Hr & -> & Ho)%tree_place & Ha). unfold inrng, NODE_SIZE in *.
      destruct (offsets_apart r q (a - r) (a - q)) as [-> E]; try done; unfold PROC_SIZE in *; lia.
    + intros r Hr. rewrite <-HP1 by done. by apply (Hkeep r 40 8%nat); [|simpl; lia].
    + intros r c Hr Hc. apply (exit_kids_ok k y T P p init q HT Hp Hq Hi Hip Hqp Hpq eq_refl r c Hr) in Hc
        as (Hcs & Hcp & Hs & Hpar). split; [|done].
      intros [|]%(exit_states y p q c HW eq_refl Hidle Hq Hcs HWy1 Ecy1); done.
    + intros r c Hr Hc. apply (exit_zombies_ok k y T P p init q HT Hp Hq Hi Hip Hqp Hpq eq_refl r c Hr) in Hc
        as (Hcs & Hs & Hpar). split; [|done].
      by apply (exit_states y p q c HW eq_refl Hidle Hq Hcs HWy1 Ecy1).
  - rewrite <-Hst1. unfold proc_exit_status. f_equal. apply (Hkeep p 1672 4%nat Hp). unfold PROC_SIZE. simpl. lia.
  - intros Hw. apply Hw2. by apply Z.eqb_eq in Hw.
Qed.
End tree.
