(* ===== verification/TreeDemo.v ===== *)
(** * A small family

    The first process waits for a child; its child runs, and has a child of its
    own, which becomes an orphan when its parent exits with 7. *)

From S2P Require Import Prelude.
From S2P Require Import Mem.
From S2P Require Import DList.
From S2P Require Import Layout.
From S2P Require Import Pages.
From S2P Require Import Sbi.
From S2P Require Import Timer.
From S2P Require Import Proc.
From S2P Require Import Kern.
From S2P Require Import Sched.
From S2P Require Import SchedRep.
From S2P Require Import SchedSpec.
From S2P Require Import SchedRun.
From S2P Require Import SchedDemo.
From S2P Require Import Family.
From S2P Require Import Syscall.
From S2P Require Import TrapSpec.
From S2P Require Import Tree.
#[local] Open Scope Z_scope.

#[local] Existing Instance virt_layout.
#[local] Existing Instance plain_fw.
#[local] Existing Instance plain_fw_ok.
#[local] Existing Instance plain_mach.

Definition p_init : Z := 0x80230000.
Definition p_mid : Z := 0x80231000.
Definition p_leaf : Z := 0x80232000.
Definition fam_procs : list Z := [p_idle; p_init; p_mid; p_leaf].
Definition fam_frame : Z := 0x80240000.

Definition fam_mem : mem :=
  let m := list_init_head ∅ sym_ready_queue in
  let m := list_init_head m sym_wait_queue in
  let m := fold_left timer_init (all_timers fam_procs) m in
  let m := fold_left list_init_head (theads fam_procs) m in
  let m := list_push_front m sym_ready_queue p_idle in
  let m := set_proc_state m p_idle PROC_STATE_READY in
  let m := set_proc_state m p_init PROC_STATE_WAIT_CHILD in
  let m := set_proc_state m p_mid PROC_STATE_CURR in
  let m := list_push_back m (proc_children p_init) (proc_tree_node p_mid) in
  let m := set_proc_parent m p_mid p_init in
  let m := list_push_back m (proc_children p_mid) (proc_tree_node p_leaf) in
  let m := set_proc_parent m p_leaf p_mid in
  set_frame_a0 m fam_frame 7.

Definition fam_k : kst :=
  mkK fam_mem (mkHart Timer.Demo.fw0 ((5000, []) : @mach plain_mach) 0 0 0) p_mid
      (pt_set (pt_set ptable0 0 p_idle) 1 p_init) (mkDrv [] [] [] 0 demo_log).

Definition fam_y : sys := {|
  y_queue := fun h => if decide (h = sym_ready_queue) then [p_idle] else [];
  y_state := fun p => if decide (p = p_idle) then PROC_STATE_READY
                      else if decide (p = p_init) then PROC_STATE_WAIT_CHILD
                      else if decide (p = p_mid) then PROC_STATE_CURR else PROC_STATE_INIT;
  y_val := fun _ => 0;
  y_curr := p_mid;
  y_timers := ([], all_timers fam_procs);
|}.

Definition fam_lists : lists := fun h =>
  if decide (h = proc_children p_init) then [p_mid]
  else if decide (h = proc_children p_mid) then [p_leaf] else [].

Definition fam_parent (p : Z) : Z :=
  if decide (p = p_mid) then p_init else if decide (p = p_leaf) then p_mid else nullptr.

Lemma fam_objs : objs_ok fam_procs [].
Proof. split; [by compute_done|by compute_done|by compute_done|]. repeat constructor; done. Qed.

Lemma fam_linked : linked fam_procs [] fam_y.
Proof.
  split.
  - intros h p Hh Hp. each_elem Hh; simpl in Hp; each_elem Hp; by compute_done.
  - intros h1 h2 p H1 H2. each_elem H1; each_elem H2; done.
Qed.

Lemma fam_rep : rep fam_procs [] fam_k fam_y.
Proof.
  split; [|exact fam_linked| | | | |done].
  - intros h Hh. each_elem Hh; by compute_done.
  - intros p Hp. each_elem Hp; by vm_compute.
  - intros s Hs. by apply elem_of_nil in Hs.
  - split; [split|done].
    + by compute_done.
    + intros t Ht. simpl in Ht. each_elem Ht; by compute_done.
    + constructor.
    + constructor.
    + by compute_done.
    + split; by compute_done.
  - done.
Qed.

Lemma fam_running : running fam_procs [] fam_y.
Proof.
  split; [by compute_done|]. split; [exact fam_linked|..].
  - intros h Hh. each_elem Hh; by compute_done.
  - intros p Hp. each_elem Hp; by compute_done.
  - intros p Hp. split; [each_elem Hp; done|]. intros (s & Hs & _). by apply elem_of_nil in Hs.
  - intros s Hs. by apply elem_of_nil in Hs.
  - intros s Hs. by apply elem_of_nil in Hs.
  - intros p Hp. each_elem Hp; by compute_done.
  - split; [by compute_done|by left].
Qed.

Lemma fam_tree : tree fam_procs fam_k fam_y fam_lists fam_parent.
Proof.
  split; [split| | |].
  - intros h Hh. each_elem Hh; by compute_done.
  - intros h x Hh Hx. each_elem Hh; vm_compute in Hx; try by apply elem_of_nil in Hx.
    all: each_elem Hx; by compute_done.
  - intros h1 h2 x H1 H2. each_elem H1; intros Hx; vm_compute in Hx; try by apply elem_of_nil in Hx.
    all: each_elem Hx; each_elem H2; intros Hy; vm_compute in Hy; try by apply elem_of_nil in Hy.
    all: try reflexivity; apply list_elem_of_singleton in Hy; discriminate Hy.
  - intros p Hp. each_elem Hp; by vm_compute.
  - intros p c Hp Hc. each_elem Hp; vm_compute in Hc; try by apply elem_of_nil in Hc.
    all: each_elem Hc; split; [discriminate|reflexivity].
  - intros p c Hp Hc. each_elem Hp; vm_compute in Hc; by apply elem_of_nil in Hc.
Qed.

(** The first process is woken with the zombie, and has the orphan. *)
Lemma exit_reaps_witness :
  exists k' rest, sys_exit fam_frame fam_k = Switch k' nullptr p_init rest /\
    proc_exit_status (k_mem k') p_mid = 7 /\ proc_proc_waiting (k_mem k') p_init = p_mid /\
    exists T P y', tree fam_procs k' y' T P /\ T (proc_children p_init) = [p_leaf] /\
      T (proc_zombie_children p_init) = [p_mid] /\ P p_leaf = p_init.
Proof.
  destruct (exit_reaps fam_procs [] fam_objs ltac:(by compute_done) fam_frame fam_k fam_y fam_lists fam_parent p_init
    fam_rep fam_running fam_tree ltac:(done) eq_refl ltac:(by compute_done) ltac:(done) ltac:(by compute_done)
    ltac:(done) ltac:(by compute_done)) as (k' & rest & E & _ & _ & _ & HT & Est & Ew).
  exists k', rest. split; [exact E|]. split; [exact Est|]. split; [exact (Ew eq_refl)|].
  eexists _, _, _. split; [exact HT|]. split; [vm_compute; reflexivity|split; vm_compute; reflexivity].
Defined.
