(* ===== verification/Boot.v ===== *)
(** * Booting: [src/kmain.c], [src/module/init.c], the [init] of [src/dev.c] and
    [src/arch/riscv/entry.S]

    The linker collects the initialisers of a phase in a table; its order is
    the order of the object files in [CMakeLists.txt]. *)

From stdpp Require Import strings.
From S2P Require Import Prelude.
From S2P Require Import Errno.
From S2P Require Import Mem.
From S2P Require Import DList.
From S2P Require Import Layout.
From S2P Require Import Pages.
From S2P Require Import PageAlloc.
From S2P Require Import Elf.
From S2P Require Import Sbi.
From S2P Require Import Timer.
From S2P Require Import Proc.
From S2P Require Import Kern.
From S2P Require Import Sched.
From S2P Require Import Intr.
From S2P Require Import Tty.
From S2P Require Import Log.
From S2P Require Import Trap.
#[local] Open Scope Z_scope.
#[local] Open Scope kern_scope.

(** The loop of [_start]: the body runs before the test. *)
Definition clear_bss (bss_start bss_end : Z) (m : mem) : option mem :=
  while (fun '(m, t0) =>
    let m := store 8 m t0 0 in
    let t0 := u64 (t0 + 8) in
    if t0 <? bss_end then inl (m, t0) else inr m) (m, bss_start).

Section code.
Context `{L : Layout} `{C : Code} `{FW : Firmware} `{MC : Machine}.

(** [init_t] of [include/module/init.h] and [dev_init_t] of [include/dev.h]. *)
Record init_t := mkInit { it_name : string; it_init : M Z }.
Record dev_init_t := mkDevInit { di_name : string; di_compat : string; di_init : dev_node_t -> M Z }.

Definition str (s : string) : arg := AStr (Some (chars s)).

(** The argument [errno_name(-res)]. *)
Definition err (res : Z) : arg := AStr (chars <$> errno_name (- res)).

(** One of the three loops of [init_modules]. *)
Fixpoint init_phase (inits : list init_t) : M unit :=
  match inits with
  | [] => ret tt
  | i :: inits =>
      let* res := it_init i in
      (if res <? 0 then log_panic "init" "%s returned errno %s" [str (it_name i); err res]
       else ret tt) ;*
      log_info "init" "initialized %s" [str (it_name i)] ;*
      init_phase inits
  end.

Definition init_modules (pre_init init post_init : list init_t) : M unit :=
  log_info "init" "entering the pre-initialization phase" [] ;*
  init_phase pre_init ;*
  log_info "init" "entering the initialization phase" [] ;*
  init_phase init ;*
  log_info "init" "entering the post-initialization phase" [] ;*
  init_phase post_init.

(** ** Devices *)

Definition DEV_INITS : list dev_init_t := [
  mkDevInit "plic" "plic" plic_init_dev;
  mkDevInit "uart" "uart8250" uart_init_dev ].

(** The body of the loop of [init] of [src/dev.c]. *)
Definition dev_init_node (inits : list dev_init_t) (node : dev_node_t) (name : string) : M unit :=
  match List.find (fun d => String.eqb (di_compat d) name) inits with
  | Some d =>
      let* res := di_init d node in
      if res <? 0
      then log_critical "dev" "driver %s returned errno %s for device %s"
             [str (di_name d); err res; str name]
      else log_info "dev" "loaded driver %s for device %s" [str (di_name d); str name]
  | None => log_critical "dev" "no driver is found for device %s" [str name]
  end.

(** The table ends with a node that has no name. *)
Fixpoint dev_init_nodes (inits : list dev_init_t) (nodes : list dev_node_t) : M Z :=
  match nodes with
  | [] => halt Stuck
  | node :: nodes =>
      match nd_name node with
      | None => ret 0
      | Some name => dev_init_node inits node name ;* dev_init_nodes inits nodes
      end
  end.

Definition dev_init : M Z := dev_init_nodes DEV_INITS DEV_TABLE.

(** ** The phases *)

Definition k_page_alloc_init : M Z := fun k =>
  match page_alloc_init (k_mem k) with
  | Some (m, res) => Ret (set_mem m k) res
  | None => Stop k Stuck
  end.

Definition k_timer_init : M Z := fun k =>
  let h := k_hart k in
  let '(sie, f, res) := timer_arch_init (h_sie h) (h_fw h) in
  Ret (set_hart (mkHart f (h_mach h) sie (h_stvec h) (h_sstatus h)) k) res.

Definition PRE_INITS : list init_t := [
  mkInit "page_alloc" k_page_alloc_init; mkInit "timer" k_timer_init; mkInit "trap" trap_init ].
Definition INITS : list init_t := [ mkInit "dev" dev_init ].
Definition POST_INITS : list init_t := [ mkInit "log" log_init; mkInit "sched" sched_init ].

(** ** [kmain]

    [init_proc] is the address of the local variable, on the boot stack. *)

Definition k_elf_load (load_res : elf_load_res_t) : M (elf_load_res_t * Z) := fun k =>
  match elf_load (k_mem k) load_res with
  | Some (m, r, res) => Ret (set_mem m k) (r, res)
  | None => Stop k Stuck
  end.

Definition kmain (load_res : elf_load_res_t) (init_proc : Z) : M unit :=
  init_modules PRE_INITS INITS POST_INITS ;*
  let* loaded := k_elf_load load_res in
  (if loaded.2 <? 0
   then log_panic "kmain" "errno %s is returned when parsing the ELF file of init process"
          [err loaded.2] else ret tt) ;*
  let* res := k_proc_init init_proc (res_entry loaded.1) 0 nullptr 0 nullptr (res_page_table loaded.1) in
  (if res <? 0
   then log_panic "kmain" "errno %s is returned when initializing init process" [err res]
   else ret tt) ;*
  sched_update_state init_proc PROC_STATE_READY ;*
  sched_start.
End code.
